(* ===== verification/_CoqProject ===== *)
-Q . S2P
Prelude.v
OvsNotation.v
OvsTypes.v
World.v
NetIP.v
Utils.v
Iptables.v
Client.v
Ovsdb.v
Samples.v
Ports.v
Bridge.v
Dknet.v
Driver.v
Monitor.v
Rpc2.v
Hub.v
Rpc2Server.v
Jsonrpc.v
UserDb.v
IptablesChain.v
Listen.v
Nl.v
NlStruct.v
NlTc.v
TcRate.v
NlSock.v
Netlink.v
NetlinkVeth.v
NetlinkRead.v
NetlinkAddr.v
NetlinkRoute.v
NetlinkTc.v
NetlinkFilter.v
NlXfrm.v
NetlinkXfrm.v
DbusSig.v
DbusCodec.v
DbusMessage.v
DbusAuth.v
DbusConn.v
DbusExport.v
DbusTransport.v
DbusProp.v
Firewalld.v
Logging.v
