(* ===== verification/Prelude.v ===== *)
(** * A verification of docker-ovs-plugin

    The program is a network plugin for Docker, written in Go. Docker sends it HTTP
    requests on a socket; it answers them by changing Open vSwitch through the OVSDB
    protocol (RFC 7047), by calls to the kernel (netlink), and by running iptables,
    systemctl and a shell. Its parts and the files that model them are:

    - src/main.go, src/ovs/driver.go: the driver. The operations Docker asks for
      (CreateNetwork, DeleteNetwork, CreateEndpoint, DeleteEndpoint, EndpointInfo,
      Join, Leave) and the readers of the network options are in Driver; NewDriver,
      and Run of main.go, are in Monitor; interfaceUp is in Bridge.
    - src/ovs/ovs_bridge.go: creating, initialising and deleting a bridge, NAT and the
      gateway script: Bridge.
    - src/ovs/ovs_port.go: attaching and detaching ports: Ports.
    - src/ovs/ovsdb.go: the cache of the database and the queries are in Ovsdb, its
      initialisation and the goroutine that watches bridges in Monitor.
    - src/ovs/utils.go: Utils, with the functions of Go's package net that it needs in
      NetIP.
    - src/ovs/logging.go: Logging.
    - Godeps/.../socketplane/libovsdb: the notation of RFC 7047 (uuid.go, set.go,
      map.go, row.go, notation.go) is in OvsNotation and OvsTypes, with the schemas and
      the validation of operations; the client (client.go, rpc.go) is in Client.
    - Godeps/.../cenkalti/rpc2/client.go: the connection under the OVSDB client. The
      calls it makes are a state machine in Rpc2; the requests it receives, and the
      codec (jsonrpc/jsonrpc.go) of both directions, are in Jsonrpc. The hub of events
      of its server (cenkalti/hub) is in Hub, the registration of handlers (server.go) and the
      gob codec (codec.go) in Rpc2Server.
    - Godeps/.../gopher-net/dknet: the HTTP handlers (api.go) are in Dknet; the
      listeners (unix_listener.go, tcp_listener.go, ServeUnix) are in Listen, with
      docker/pkg/sockets and docker/pkg/listenbuffer, which they call, and Run of
      main.go up to the end of the server.
    - Godeps/.../opencontainers/runc/libcontainer/user: the passwd and group files, in
      which the group of the socket is looked up: UserDb.
    - Godeps/.../docker/libnetwork/iptables: running the binary is in Iptables, chains,
      port forwarding and links in IptablesChain, the client of firewalld in Firewalld.
    - Godeps/.../godbus/dbus, under the client of firewalld: signatures (sig.go) are in
      DbusSig, the wire format (encoder.go, decoder.go) in DbusCodec, messages and names
      (message.go, dbus.go) in DbusMessage, authentication (auth.go, auth_external.go) in
      DbusAuth, connections and calls (conn.go, object.go) in DbusConn, exported objects
      and Store (export.go, dbus.go) in DbusExport, the properties of objects (prop/prop.go)
      in DbusProp, addresses and transports (conn.go, transport_unix.go) in DbusTransport.
    - Godeps/.../vishvananda/netlink: the library under LinkAdd, LinkDel, LinkSetUp,
      LinkByName, AddrAdd and AddrList. Nl holds the binary format (nl/nl_linux.go,
      nl/addr_linux.go), NlSock the sockets and the exchange Execute, Netlink the links
      (link.go, link_linux.go), NetlinkVeth and NetlinkRead the proofs about writing
      and reading them, NetlinkAddr addresses and bridge port flags (addr*.go,
      protinfo*.go), NetlinkRoute routes and neighbours (route*.go, neigh*.go).
      NlStruct is what the fixed structs of the kernel have in common; those of traffic
      control (nl/tc_linux.go) and IPsec (nl/xfrm*.go) are in NlTc and NlXfrm. TcRate holds
      handles, the clock and the rate tables of traffic control, NetlinkTc the disciplines
      and classes (qdisc*.go, class*.go), NetlinkFilter the filters (filter*.go) and
      NetlinkXfrm policies and states of IPsec (xfrm*.go).

    Samples holds concrete databases and hosts on which the definitions are evaluated.
    Prelude (this file) holds what all files share: the ways a Go program ends, errors,
    strings, sorted maps and the lemmas about them.

    ** How Go code is modelled

    World defines the memory of the process ([St]: Driver.networks, the package
    variables of ovsdb.go, the schemas of the connection, the package variables of
    iptables) and the type [prog] of programs: a program reads or updates the memory,
    makes a call to the outside ([ext]), returns, or stops with a panic or an exit. A
    [Host] answers the calls and may be any state machine; the only law it obeys is
    the one the Go specification gives for range loops over maps, that every key is
    visited once, in any order. [run] executes a program against a host and records
    the calls with their answers. Theorems quantify over every host. They are proved
    with a weakest-precondition calculus ([wp], sound for [run] by [wp_run]) and with
    frames ([frame], [only]) that the tactic [frame_tac] finds from the structure of a
    program and the hints of its parts.

    The operations of the plugin, its option readers and its transactions are the
    definitions with the names of the Go functions. JSON documents are trees; what
    encoding/json does with them (field matching, numbers as floats, null, methods
    UnmarshalJSON) is written out, including the crashes of the decoders. Errors are
    values; the text of a formatted error is kept as its format and arguments. Log
    statements have no effect.

    The driver is an instance of the interface [NetDriver] that the handlers of Dknet
    are written against; [serve] runs a list of requests. A panic of a handler closes
    its connection and keeps the memory the handler left, as net/http does; an exit
    ends the process.

    The netlink library sits below the calls [ELinkAdd] and the like of World. It is
    modelled on its own, over system calls: a [Kernel] answers each of them, the state
    [NS] holds the two package variables (the sequence number and the switch to
    dumping) and the log of the calls, and a computation returns, panics or still waits
    for a message. Byte slices carry the bytes between their length and their
    capacity, since slicing up to the capacity is legal in Go and the code does it; the
    byte order of the machine is a parameter ([Endian]), so every theorem is about both.

    The D-Bus library is modelled on its own too. The encoder and the decoder are small
    state monads over the bytes and the position; a panic is a result that leaves what was
    written. A connection is a state on which the parts of goroutines that hold a lock are
    steps, in any order; what is sent on channels is a log. The bus, and the transport
    under it, are parameters of the steps.

    ** What the theorems show

    - Driver: what each operation does to the driver's networks on every outcome; the
      invariant that every known network is well formed after any sequence of
      requests; the calls of a Join on every outcome and the stages of a successful
      Leave; which requests are refused before any effect; the splitting of the
      gateway; the lengths of interface names.
    - Bridge and Ports: a success is reported only after the database confirmed it
      (where the code checks), in which order the stages of a bridge happen and with which
      answers, that the NAT rule is inserted only when it is missing, that the named
      references of a transaction resolve, and what goes over the wire.
    - Ovsdb and Monitor: the cache after a notification is a pure function of the
      cache and the notification, whatever the order of iteration; notifications
      about different rows commute; start-up ends with the root row known, after at
      most three connection attempts; lookups return what the cache holds; after the
      connection is lost the cache is frozen.
    - OvsNotation, OvsTypes, Client: values other than empty sets and maps and UUIDs in maps
      round-trip through the notation, and transactions that do not conform to the schema are not sent.
    - Rpc2: no call is completed twice, lost, or given the response of another.
    - Jsonrpc: an incoming request is answered at most once and with its own id,
      calls travel there and back unchanged, and exactly which messages end the
      connection.
    - Dknet: malformed requests are answered without effect, for any driver.
    - Listen, UserDb: the plugin serves only on the listener it opened on the unix socket
      with the right path, mode and group; the umask is restored and no listener leaks; group files are read
      back as they were written.
    - Nl, NlSock: the in-place serialization equals the recursive layout of the format
      and is read back by the parsers; an exchange returns all the data of its answer,
      only its own, in order.
    - Netlink, NetlinkVeth, NetlinkRead, NetlinkAddr, NetlinkRoute: no sequence of link
      operations leaks a descriptor; the veth pair the driver asks for, vxlan links,
      addresses, routes and neighbours are on the wire what was asked for; the kernel's
      description of a link is read back into it.
    - NlStruct, NlTc, NlXfrm: every struct is read back from its bytes, in either byte
      order, from any slice that is long enough, and panics on a shorter one.
    - NetlinkTc, NetlinkFilter, NetlinkXfrm: a discipline, class, filter, policy or state
      that was added is on the wire what the list operation reads as the same one, up to what
      the code does not send; what the lists get wrong or crash on.
    - TcRate: handles are read back from their parts; a rate table covers the packets up to
      the MTU, with the least shift.
    - DbusSig, DbusCodec, DbusMessage: which strings are signatures; values and whole
      messages are read back as they were sent, in either byte order and at any
      position; one kind of body is never decoded.
    - DbusAuth: every run is a conversation of the protocol with one of its ends, which gives
      the result; a server that accepts is talked to with exactly its lines.
    - DbusConn, Firewalld: serials are found while one is free, no call is lost however
      the workers interleave, a reply reaches its call, the end of the connection answers
      all calls; firewalld reads the calls of Passthrough unchanged, and callbacks run once per reload.
    - DbusExport: a value that Store hands over has the type of its variable; a call goes to
      the nearest exports of its path; every valid call is answered once, to its sender,
      unless a parameter is a dict of structs or a result has no signature, with which one
      call ends the program; a call
      from one side to the other is the call of the method that is exported there.
    - DbusTransport: messages that are written one after the other are read one by one from
      a socket, file descriptors arrive in their places; what ends the program instead.
    - DbusProp: what Set does on every outcome; properties without structs keep their types
      and stay readable whatever peers set, those that are structs do not.
    - Rpc2Server: which functions can be handlers; the gob codec reads what it wrote, until a
      body cannot be encoded.
    - Hub: events call the subscribers of their kind in order; cancelling the last of
      several subscriptions does nothing.
    - IptablesChain: on a host that behaves as iptables(8) documents ([Netfilter]), without
      firewalld and where no rule's text is taken for another's, programming a chain refines an update of the lists of rules, and publishing a port
      and taking it back leaves them as they were.
    - Utils, Iptables: arithmetic on addresses, the effects of starting the service.

    A further group of theorems records what the code does wrong: errors that are
    dropped (addOvsVethPort, deleteBridge), crashes in place of errors (interfaceUp,
    getGatewayIP, initDBCache, empty sets), a veth pair that a failing Join leaves, the
    MTU option that is never used, a service that is not stopped, and notifications
    that are applied out of order.

    ** Bounds

    Loops over lists and retry loops with a constant bound are structural recursions
    on that bound (ten probes of an interface, two of a link, three connections). The
    unbounded wait of initDBCache recurses on the list of batches of notifications
    that arrive, one per second, and says whether it has ended. IPv6 parsing uses the
    fuel 8, one per group of the address. The theorem on Rpc2 is for connections that
    carry fewer than 2^64 - 2 calls, since the counter of calls wraps; those on Jsonrpc
    are for fewer than 2^64 - 1 messages. The receive loop of Execute takes a number of
    rounds and says that it still waits when they are used up; [Execute_mono] shows that
    more rounds never change a result and [Execute_dump] that one round per packet is
    enough. The attribute and message parsers use the length of the buffer as fuel,
    and every step consumes at least four bytes. The fuel of validSingle and of tryAuth is
    the length of their input, and [valid_go_fuel] and [tryAuth_ends] show that it is
    enough; decode loops for as long as its input says, so running out of fuel is a result,
    and the round trips hold for any fuel from [need] of the values on. The theorems on
    calls of DbusConn are for fewer than 2^32 - 1 of them, since the serials wrap; the search
    for a serial takes one step more than there are serials in use. Go's int has 64 bits; a line of the
    passwd and group files of 64 KiB or more ends the scan, as in bufio.Scanner.

    ** What is not modelled

    The requests of the HTTP server are run one after the other: the data races of
    concurrent handlers on the maps of the driver are outside the model, except for
    the order of notifications. What OVSDB does with a transaction and what the kernel
    does with a netlink message are the answers of the host. The methods that format netlink
    objects as text are left out, and a conversion of a float that is out of range, which Go
    leaves open, is a parameter ([WildConversion]). Of rpc2, the loop
    that accepts connections is left out. Of D-Bus, the text format of variants, descriptions
    in XML and the cookie mechanism are left out; what an exported method or a callback does
    is a function of its arguments; the channels of calls and signals are taken to have room. The command line, the
    Docker client (created and never used) and the text of log messages are not modelled. *)

From Stdlib Require Export ZArith Lia Ascii String.
From stdpp Require Export base gmap sets list list_numbers strings fin_maps pretty sorting.

(** * Abnormal ends of a Go program

    A run-time panic (index out of range, failed type assertion, nil
    dereference), with the reason, and [os.Exit] (which logrus' [Fatalf]
    calls). *)

Inductive halt : Type :=
| GoPanic (why : string)
| OsExit (code : Z).

Inductive outcome (A : Type) : Type :=
| Returned (a : A)
| Halted (h : halt).
Arguments Returned {A} a.
Arguments Halted {A} h.

Definition obind {A B} (o : outcome A) (f : A -> outcome B) : outcome B :=
  match o with
  | Returned a => f a
  | Halted h => Halted h
  end.

Definition omap_out {A B} (f : A -> B) (o : outcome A) : outcome B :=
  obind o (fun a => Returned (f a)).

Declare Scope go_scope.
Delimit Scope go_scope with go.

Notation "'let?' x := o 'in' k" := (obind o (fun x => k))
  (at level 10, x pattern, o at level 100, k at level 200) : go_scope.

(** Go's built-in reads that may panic. *)
Definition index {A} (l : list A) (i : nat) : outcome A :=
  match l !! i with
  | Some a => Returned a
  | None => Halted (GoPanic "index out of range")
  end.

Definition panics {A} (o : outcome A) : Prop :=
  exists why, o = Halted (GoPanic why).

(** * Errors

    A Go [error]: the format it was built with and the arguments of the
    format, which are not rendered. *)

Record error : Type := mkError { err_format : string; err_args : list string }.

Definition errors_New (s : string) : error := mkError s [].
Definition Errorf (f : string) (args : list string) : error := mkError f args.

#[export] Instance error_eq_dec : EqDecision error.
Proof. solve_decision. Defined.

#[export] Instance halt_eq_dec : EqDecision halt.
Proof. solve_decision. Defined.

(** * Strings (byte strings, as in Go) *)

Definition slash : ascii := "/"%char.

(** [strings.Split(s, sep)] for a separator of one byte. *)
Fixpoint Split (c : ascii) (s : string) : list string :=
  match s with
  | EmptyString => [EmptyString]
  | String a s' =>
      match Split c s' with
      | [] => []
      | p :: ps => if Ascii.eqb a c then EmptyString :: p :: ps else String a p :: ps
      end
  end.

(** [strings.Join(parts, sep)] for a separator of one byte. *)
Fixpoint Join (c : ascii) (l : list string) : string :=
  match l with
  | [] => EmptyString
  | [p] => p
  | p :: ps => p +:+ String c (Join c ps)
  end.

(** Number of occurrences of a byte. *)
Fixpoint occurs (c : ascii) (s : string) : nat :=
  match s with
  | EmptyString => 0
  | String a s' => (if Ascii.eqb a c then 1 else 0) + occurs c s'
  end.

(** [s[:n]]: panics when [n] exceeds the length. *)
Definition slice_to (s : string) (n : nat) : outcome string :=
  if n <=? String.length s then Returned (substring 0 n s)
  else Halted (GoPanic "slice bounds out of range").

Definition lower (a : ascii) : ascii :=
  let n := N_of_ascii a in
  if ((65 <=? n)%N && (n <=? 90)%N)%bool then ascii_of_N (n + 32)%N else a.

(** Case folding as [strings.EqualFold] does it when one side is ASCII: besides
    the ASCII letters, U+017F (bytes C5 BF) folds to [s] and U+212A (bytes E2 84
    AA) to [k]; no other rune folds to an ASCII one. *)
Fixpoint fold_ascii (s : string) : string :=
  match s with
  | EmptyString => EmptyString
  | String a s1 =>
      match s1 with
      | String b s2 =>
          if (Ascii.eqb a "197"%char && Ascii.eqb b "191"%char)%bool
          then String "s"%char (fold_ascii s2)
          else match s2 with
               | String c s3 =>
                   if (Ascii.eqb a "226"%char && Ascii.eqb b "132"%char
                       && Ascii.eqb c "170"%char)%bool
                   then String "k"%char (fold_ascii s3)
                   else String (lower a) (fold_ascii s1)
               | EmptyString => String (lower a) (fold_ascii s1)
               end
      | EmptyString => String (lower a) EmptyString
      end
  end.

(** [strings.EqualFold(s, t)], exact when [s] or [t] is ASCII, as in every use. *)
Definition EqualFold (s t : string) : bool :=
  String.eqb (fold_ascii s) (fold_ascii t).

(** * Maps with string keys that are marshalled: association lists sorted by key

    Go's [encoding/json] writes the keys of a map in byte order, so a map that is
    only built and marshalled is kept in that order. *)

Definition smap (A : Type) : Type := list (string * A).

Fixpoint sput {A} (k : string) (v : A) (m : smap A) : smap A :=
  match m with
  | [] => [(k, v)]
  | (k', v') :: m' =>
      match String.compare k k' with
      | Lt => (k, v) :: m
      | Eq => (k, v) :: m'
      | Gt => (k', v') :: sput k v m'
      end
  end.

Fixpoint sget {A} (k : string) (m : smap A) : option A :=
  match m with
  | [] => None
  | (k', v') :: m' => if String.eqb k k' then Some v' else sget k m'
  end.

(** * Lemmas on Split and Join *)

Lemma Split_not_nil c s : Split c s <> [].
Proof.
  induction s as [|a s IH]; simpl; [done|].
  destruct (Split c s); [done|]. by destruct (Ascii.eqb a c).
Qed.

Lemma Join_Split c s : Join c (Split c s) = s.
Proof.
  induction s as [|a s IH]; [done|]. cbn [Split].
  destruct (Split c s) as [|p ps] eqn:E; [by apply Split_not_nil in E|].
  destruct (Ascii.eqb_spec a c) as [->|].
  - change (String c (Join c (p :: ps)) = String c s). by rewrite IH.
  - rewrite <- IH. by destruct ps.
Qed.

Lemma Split_length c s : length (Split c s) = S (occurs c s).
Proof.
  induction s as [|a s IH]; simpl; [done|].
  destruct (Split c s) as [|p ps]; [done|].
  destruct (Ascii.eqb a c); simpl in *; lia.
Qed.

Lemma occurs_app c s t : occurs c (s +:+ t) = occurs c s + occurs c t.
Proof. induction s as [|a s IH]; simpl; [done|]. rewrite IH. lia. Qed.

(** The parts of a split do not contain the separator. *)
Lemma Split_parts c s p : p ∈ Split c s -> occurs c p = 0.
Proof.
  revert p. induction s as [|a s IH]; intros p; simpl.
  - by intros ->%list_elem_of_singleton.
  - destruct (Split c s) as [|q qs] eqn:E; [by intros ?%not_elem_of_nil|].
    destruct (Ascii.eqb a c) eqn:Ea.
    + intros [->|?]%elem_of_cons; [done|]. by apply IH.
    + intros [->|?]%elem_of_cons; simpl.
      * rewrite Ea. apply IH. left.
      * apply IH. by right.
Qed.

(** Splitting is determined at the first separator. *)
Lemma Split_app c p s :
  occurs c p = 0 -> Split c (p +:+ String c s) = p :: Split c s.
Proof.
  induction p as [|a p IH]; simpl; intros Hp.
  - rewrite Ascii.eqb_refl. destruct (Split c s) eqn:E; [by apply Split_not_nil in E|done].
  - destruct (Ascii.eqb a c) eqn:Ea; [lia|]. by rewrite IH by lia.
Qed.

Lemma Split_no_sep c p : occurs c p = 0 -> Split c p = [p].
Proof.
  induction p as [|a p IH]; simpl; [done|]. intros Hp.
  destruct (Ascii.eqb a c); [lia|]. by rewrite IH by lia.
Qed.

(** * Lemmas on sorted association lists *)

Lemma string_compare_refl k : String.compare k k = Eq.
Proof.
  induction k as [|a k IH]; simpl; [done|].
  unfold Ascii.compare. by rewrite N.compare_refl.
Qed.

Lemma sget_sput_eq {A} k (v : A) m : sget k (sput k v m) = Some v.
Proof.
  induction m as [|[k' v'] m IH]; simpl.
  - by rewrite String.eqb_refl.
  - destruct (String.compare k k') eqn:E; simpl.
    + by rewrite String.eqb_refl.
    + by rewrite String.eqb_refl.
    + destruct (String.eqb_spec k k') as [->|]; [|done].
      by rewrite string_compare_refl in E.
Qed.

Lemma sget_sput_ne {A} k k' (v : A) m : k <> k' -> sget k' (sput k v m) = sget k' m.
Proof.
  intros Hne. induction m as [|[k1 v1] m IH]; simpl.
  - destruct (String.eqb_spec k' k); congruence.
  - destruct (String.compare k k1) eqn:E; simpl.
    + apply String.compare_eq_iff in E. subst k1.
      destruct (String.eqb_spec k' k); congruence.
    + destruct (String.eqb_spec k' k); congruence.
    + by rewrite IH.
Qed.

(** The keys of a map after an assignment. *)
Lemma elem_of_sput {A} k (v : A) m k' v' :
  (k', v') ∈ sput k v m -> (k', v') = (k, v) \/ (k', v') ∈ m.
Proof.
  induction m as [|[k1 v1] m IH]; simpl.
  - intros ->%list_elem_of_singleton. by left.
  - destruct (String.compare k k1); rewrite !elem_of_cons; naive_solver.
Qed.

(** * Substrings *)

Lemma length_substring_0 n s : n <= String.length s -> String.length (substring 0 n s) = n.
Proof.
  revert s. induction n as [|n IH]; intros [|a s]; simpl; intros; try lia.
  rewrite IH; lia.
Qed.

Lemma length_string_app s t : String.length (s +:+ t) = String.length s + String.length t.
Proof. induction s as [|a s IH]; simpl; [done|]. by rewrite IH. Qed.

Lemma string_app_nil_r s : s +:+ EmptyString = s.
Proof. induction s as [|a s IH]; [done|]. change (String a (s +:+ EmptyString) = String a s). by rewrite IH. Qed.

Lemma string_app_assoc s t u : s +:+ t +:+ u = (s +:+ t) +:+ u.
Proof.
  induction s as [|a s IH]; [done|].
  change (String a (s +:+ t +:+ u) = String a ((s +:+ t) +:+ u)). by rewrite IH.
Qed.

(** Nothing follows, or a separator does. *)
Definition at_sep (c : ascii) (rest : string) : Prop :=
  rest = EmptyString \/ exists rest', rest = String c rest'.

Lemma Split_part c p rest :
  occurs c p = 0 -> at_sep c rest -> exists ps, Split c (p +:+ rest) = p :: ps.
Proof.
  intros Hp [->|[rest' ->]]; [|rewrite Split_app by done; by eexists].
  rewrite string_app_nil_r, Split_no_sep by done. by eexists.
Qed.

Lemma Join_part c p ps : exists rest, Join c (p :: ps) = p +:+ rest /\ at_sep c rest.
Proof.
  destruct ps as [|q ps]; [exists EmptyString; rewrite string_app_nil_r; by split; [|left]|].
  exists (String c (Join c (q :: ps))). split; [done|]. right. by eexists.
Qed.

Lemma slice_to_ok s n : n <= String.length s -> slice_to s n = Returned (substring 0 n s).
Proof. intros H. unfold slice_to. by rewrite (proj2 (Nat.leb_le _ _) H). Qed.

Lemma slice_to_short s n : String.length s < n -> panics (slice_to s n).
Proof.
  intros H. unfold slice_to.
  destruct (Nat.leb_spec n (String.length s)); [lia|]. eexists; done.
Qed.

(** * Applying a map of changes to a map, key by key

    [ups] holds a change per key; applying the changes one by one, in any order
    that visits each key once, is merging them. *)

Section upd_steps.
Context {U V : Type} (f : U -> option V -> option V) (ups : gmap string U).

Definition upd_step (m : gmap string V) (k : string) : gmap string V :=
  match ups !! k with
  | Some u => partial_alter (f u) k m
  | None => m
  end.

Definition upd_merge (ou : option U) (ov : option V) : option V :=
  match ou with
  | Some u => f u ov
  | None => ov
  end.

Lemma lookup_upd_step_ne m k k' : k <> k' -> upd_step m k !! k' = m !! k'.
Proof. intros Hne. unfold upd_step. destruct (ups !! k); [by apply lookup_partial_alter_ne|done]. Qed.

Lemma lookup_upd_step_eq m k : upd_step m k !! k = upd_merge (ups !! k) (m !! k).
Proof. unfold upd_step. destruct (ups !! k); simpl; [by rewrite lookup_partial_alter_eq|done]. Qed.

Lemma lookup_upd_steps m order k :
  NoDup order ->
  foldl upd_step m order !! k
  = if decide (k ∈ order) then upd_merge (ups !! k) (m !! k) else m !! k.
Proof.
  induction order as [|x order IH] using rev_ind; intros Hnd.
  - rewrite decide_False; [done|apply not_elem_of_nil].
  - rewrite foldl_app. cbn [foldl].
    apply NoDup_app in Hnd as (Hnd & Hx & _). specialize (IH Hnd).
    destruct (decide (x = k)) as [->|Hne].
    + rewrite lookup_upd_step_eq, IH, decide_False by set_solver.
      rewrite decide_True by set_solver. done.
    + rewrite lookup_upd_step_ne, IH by done.
      destruct (decide (k ∈ order)), (decide (k ∈ order ++ [x])); set_solver.
Qed.

Lemma upd_steps_all m order :
  NoDup order -> (forall k, k ∈ order <-> is_Some (ups !! k)) ->
  foldl upd_step m order = merge upd_merge ups m.
Proof.
  intros Hnd Ho. apply map_eq. intros k. rewrite lookup_upd_steps, lookup_merge by done.
  destruct (ups !! k) as [u|] eqn:E.
  - rewrite decide_True; [|by apply Ho; rewrite E; eexists]. by destruct (m !! k).
  - rewrite decide_False; [by destruct (m !! k)|]. rewrite Ho, E. by intros [].
Qed.
End upd_steps.
