(* ===== verification/OvsNotation.v ===== *)
(** The RFC 7047 notation of libovsdb: JSON trees, the dynamic values a Go
    [interface{}] holds in this program, and the marshalling and unmarshalling
    methods of [UUID], [OvsSet], [OvsMap], [Row] and [RowUpdate]
    (Godeps/.../socketplane/libovsdb: uuid.go, set.go, map.go, row.go,
    notation.go).

    JSON is modelled as a tree: the byte syntax is that of encoding/json. A
    float64 is kept as the literal it was decoded from, since the program never
    computes with one. An [OvsMap] lists its entries in the order in which a
    range loop visits them. *)

From S2P Require Import Prelude.

Local Open Scope go_scope.

(** * JSON trees and dynamic values *)

#[warnings="-register-all"]
Inductive json : Type :=
| JNull
| JBool (b : bool)
| JNum (lit : string)
| JStr (s : string)
| JArr (l : list json)
| JObj (m : list (string * json)).

#[warnings="-register-all"]
Inductive gval : Type :=
| VNil
| VBool (b : bool)
| VInt (z : Z)
| VUint (z : Z)
| VFloat (lit : string)
| VString (s : string)
| VSlice (l : list gval)
| VMap (m : list (string * gval))
| VUUID (GoUuid : string)
| VOvsSet (GoSet : list gval)
| VOvsMap (GoMap : list (gval * gval)).

(** The result of json.Unmarshal: a value, an error, or a crash of an
    UnmarshalJSON method. *)
Inductive dec (A : Type) : Type :=
| DVal (a : A)
| DErr
| DHalt (h : halt).
Arguments DVal {A} a.
Arguments DErr {A}.
Arguments DHalt {A} h.

Definition dmap {A B} (f : A -> B) (d : dec A) : dec B :=
  match d with
  | DVal a => DVal (f a)
  | DErr => DErr
  | DHalt h => DHalt h
  end.

(** Two components of a document are both decoded: a type error is recorded and
    decoding goes on, so a crash in the second wins over an error in the first. *)
Definition dpair {A B} (x : dec A) (y : dec B) : dec (A * B) :=
  match x, y with
  | DHalt h, _ => DHalt h
  | _, DHalt h => DHalt h
  | DVal a, DVal b => DVal (a, b)
  | _, _ => DErr
  end.

Fixpoint dall {A} (l : list (dec A)) : dec (list A) :=
  match l with
  | [] => DVal []
  | d :: ds => dmap (fun '(a, l') => a :: l') (dpair d (dall ds))
  end.

(** A JSON document decoded into an [interface{}]. *)
Definition smap_of {A} (l : list (string * A)) : smap A :=
  fold_left (fun acc '(k, v) => sput k v acc) l [].

Fixpoint unmarshal_any (j : json) : gval :=
  match j with
  | JNull => VNil
  | JBool b => VBool b
  | JNum lit => VFloat lit
  | JStr s => VString s
  | JArr l => VSlice (map unmarshal_any l)
  | JObj m => VMap (smap_of (map (fun '(k, v) => (k, unmarshal_any v)) m))
  end.

(** * uuid.go *)

Definition is_hex (a : ascii) : bool :=
  let n := N_of_ascii a in
  (((48 <=? n)%N && (n <=? 57)%N) || ((97 <=? n)%N && (n <=? 102)%N))%bool.

(** [n] lower-case hexadecimal digits, and what follows them. *)
Fixpoint hexrun (n : nat) (s : string) : option string :=
  match n with
  | O => Some s
  | S n' =>
      match s with
      | String a s' => if is_hex a then hexrun n' s' else None
      | EmptyString => None
      end
  end.

Definition dash (s : string) : option string :=
  match s with
  | String a s' => if Ascii.eqb a "-"%char then Some s' else None
  | EmptyString => None
  end.

(** [^[0-9a-f]{8}-[0-9a-f]{4}-[0-9a-f]{4}-[0-9a-f]{4}-[0-9a-f]{12}$] *)
Definition validUUID_MatchString (s : string) : bool :=
  match (s ← hexrun 8 s; s ← dash s; s ← hexrun 4 s; s ← dash s; s ← hexrun 4 s;
         s ← dash s; s ← hexrun 4 s; s ← dash s; hexrun 12 s) with
  | Some EmptyString => true
  | _ => false
  end.

Definition validateUUID (GoUuid : string) : option error :=
  if negb (String.length GoUuid =? 36)
  then Some (errors_New "uuid exceeds 36 characters")
  else if negb (validUUID_MatchString GoUuid)
  then Some (errors_New "uuid does not match regexp")
  else None.

Definition UUID_MarshalJSON (GoUuid : string) : json :=
  match validateUUID GoUuid with
  | None => JArr [JStr "uuid"; JStr GoUuid]
  | Some _ => JArr [JStr "named-uuid"; JStr GoUuid]
  end.

(** A JSON document decoded into a [[]string]; [None] is a type error. *)
Definition unmarshal_string (j : json) : option string :=
  match j with
  | JStr s => Some s
  | JNull => Some ""
  | _ => None
  end.

Definition unmarshal_strings (j : json) : option (list string) :=
  match j with
  | JNull => Some []
  | JArr l => mapM unmarshal_string l
  | _ => None
  end.

(** The error of the inner json.Unmarshal is shadowed: the method returns nil. *)
Definition UUID_UnmarshalJSON (b : json) : dec string :=
  match unmarshal_strings b with
  | Some ovsUuid =>
      match ovsUuid !! 1 with
      | Some u => DVal u
      | None => DHalt (GoPanic "index out of range")
      end
  | None => DVal ""
  end.

(** * set.go and map.go: marshalling *)

(** json.Marshal of a dynamic value. A nil slice is written as null, and the
    inner slice of an empty set or map is nil. *)
Fixpoint marshal (v : gval) : json :=
  match v with
  | VNil => JNull
  | VBool b => JBool b
  | VInt z => JNum (pretty z)
  | VUint z => JNum (pretty z)
  | VFloat lit => JNum lit
  | VString s => JStr s
  | VSlice l => JArr (map marshal l)
  | VMap m => JObj (map (fun '(k, v) => (k, marshal v)) m)
  | VUUID u => UUID_MarshalJSON u
  | VOvsSet l =>
      JArr [JStr "set"; match l with [] => JNull | _ => JArr (map marshal l) end]
  | VOvsMap m =>
      JArr [JStr "map";
            match m with
            | [] => JNull
            | _ => JArr (map (fun '(k, v) => JArr [marshal k; marshal v]) m)
            end]
  end.

Definition OvsSet_MarshalJSON (GoSet : list gval) : json := marshal (VOvsSet GoSet).
Definition OvsMap_MarshalJSON (GoMap : list (gval * gval)) : json := marshal (VOvsMap GoMap).

(** * Unmarshalling of sets and maps *)

Definition type_assertion_failed : halt := GoPanic "interface conversion".

(** Values that may be keys of a [map[interface{}]interface{}]. *)
Definition hashable (v : gval) : bool :=
  match v with
  | VNil | VBool _ | VInt _ | VUint _ | VFloat _ | VString _ | VUUID _ => true
  | VSlice _ | VMap _ | VOvsSet _ | VOvsMap _ => false
  end.

Definition key_eqb (v w : gval) : bool :=
  match v, w with
  | VNil, VNil => true
  | VBool a, VBool b => Bool.eqb a b
  | VInt a, VInt b => Z.eqb a b
  | VUint a, VUint b => Z.eqb a b
  | VFloat a, VFloat b => String.eqb a b
  | VString a, VString b => String.eqb a b
  | VUUID a, VUUID b => String.eqb a b
  | _, _ => false
  end.

Fixpoint gomap_put (k v : gval) (m : list (gval * gval)) : list (gval * gval) :=
  match m with
  | [] => [(k, v)]
  | (k', v') :: m' => if key_eqb k k' then (k, v) :: m' else (k', v') :: gomap_put k v m'
  end.

Fixpoint gomap_get (k : gval) (m : list (gval * gval)) : option gval :=
  match m with
  | [] => None
  | (k', v') :: m' => if key_eqb k k' then Some v' else gomap_get k m'
  end.

(** One pair of the <map> notation: [f := val.([]interface{}); GoMap[f[0]] = f[1]]. *)
Definition OvsMap_entry (acc : dec (list (gval * gval))) (val : gval)
    : dec (list (gval * gval)) :=
  match acc with
  | DVal m =>
      match val with
      | VSlice (f0 :: f1 :: _) =>
          if hashable f0 then DVal (gomap_put f0 f1 m)
          else DHalt (GoPanic "hash of unhashable type")
      | VSlice _ => DHalt (GoPanic "index out of range")
      | _ => DHalt type_assertion_failed
      end
  | d => d
  end.

(** [oMap] is the outer slice, ["map", pairs]. *)
Definition OvsMap_items (oMap : list gval) : dec (list (gval * gval)) :=
  match oMap with
  | _ :: VSlice innerSlice :: _ => fold_left OvsMap_entry innerSlice (DVal [])
  | _ :: _ :: _ => DHalt type_assertion_failed
  | _ => DVal []
  end.

(** [oSet] is the outer slice, ["set", elements]; an element whose conversion
    fails is dropped. *)
Fixpoint drop_errors {A} (l : list (dec A)) : dec (list A) :=
  match l with
  | [] => DVal []
  | DVal a :: ds => dmap (cons a) (drop_errors ds)
  | DErr :: ds => drop_errors ds
  | DHalt h :: _ => DHalt h
  end.

Definition OvsSet_items (conv : gval -> dec gval) (oSet : list gval) : dec (list gval) :=
  match oSet with
  | _ :: VSlice innerSet :: _ => drop_errors (map conv innerSet)
  | _ :: _ :: _ => DHalt type_assertion_failed
  | _ => DVal []
  end.

(** notation.go. The slice is marshalled and unmarshalled again into the type its
    tag names; on the slices json.Unmarshal produces, that round trip is the
    identity ([unmarshal_any_marshal] below). *)
Fixpoint ovsSliceToGoNotation (val : gval) : dec gval :=
  match val with
  | VSlice sl =>
      match sl with
      | [] => DHalt (GoPanic "index out of range")
      | VString tag :: _ =>
          if String.eqb tag "uuid" then dmap VUUID (UUID_UnmarshalJSON (JArr (map marshal sl)))
          else if String.eqb tag "set" then dmap VOvsSet (OvsSet_items ovsSliceToGoNotation sl)
          else if String.eqb tag "map" then dmap VOvsMap (OvsMap_items sl)
          else DVal val
      | _ :: _ => DVal val
      end
  | _ => DVal val
  end.

(** A JSON document decoded into a [[]interface{}]. *)
Definition unmarshal_slice (j : json) : option (list gval) :=
  match j with
  | JNull => Some []
  | JArr l => Some (map unmarshal_any l)
  | _ => None
  end.

Definition OvsSet_UnmarshalJSON (b : json) : dec (list gval) :=
  match unmarshal_slice b with
  | Some oSet => OvsSet_items ovsSliceToGoNotation oSet
  | None => DErr
  end.

(** As in [UUID_UnmarshalJSON], the inner error is shadowed. *)
Definition OvsMap_UnmarshalJSON (b : json) : dec (list (gval * gval)) :=
  match unmarshal_slice b with
  | Some oMap => OvsMap_items oMap
  | None => DVal []
  end.

(** * Induction on JSON trees *)

Lemma json_ind' (P : json -> Prop) :
  P JNull -> (forall b, P (JBool b)) -> (forall l, P (JNum l)) -> (forall s, P (JStr s)) ->
  (forall l, Forall P l -> P (JArr l)) ->
  (forall m, Forall (fun kv => P (kv.2)) m -> P (JObj m)) ->
  forall j, P j.
Proof.
  intros Hn Hb Hu Hs Ha Ho. fix IH 1.
  intros [|b|lit|s|l|m]; [exact Hn|exact (Hb b)|exact (Hu lit)|exact (Hs s)| |].
  - apply Ha. induction l; constructor; auto.
  - apply Ho. induction m; constructor; auto.
Qed.

(** * Sorted maps: a decoded object decodes to itself *)

Definition key_lt {A} (x y : string * A) : Prop := String.compare x.1 y.1 = Lt.

Lemma string_compare_Lt_trans a b c :
  String.compare a b = Lt -> String.compare b c = Lt -> String.compare a c = Lt.
Proof.
  revert b c. induction a as [|x a IH]; intros [|y b] [|z c]; simpl; try done.
  unfold Ascii.compare.
  destruct (N.compare_spec (N_of_ascii x) (N_of_ascii y)) as [Exy|Hxy|Hxy]; try done;
    destruct (N.compare_spec (N_of_ascii y) (N_of_ascii z)) as [Eyz|Hyz|Hyz]; try done; intros H1 H2.
  - rewrite (proj2 (N.compare_eq_iff _ _)) by congruence. eauto.
  - rewrite (proj2 (N.compare_lt_iff _ _)) by lia. done.
  - rewrite (proj2 (N.compare_lt_iff _ _)) by lia. done.
  - rewrite (proj2 (N.compare_lt_iff _ _)) by lia. done.
Qed.

Lemma sput_Forall {A} (P : string * A -> Prop) k v m :
  P (k, v) -> Forall P m -> Forall P (sput k v m).
Proof.
  intros Hk. induction 1 as [|[k' v'] m Hk' Hm IH]; simpl; [by repeat constructor|].
  destruct (String.compare k k'); repeat constructor; auto.
Qed.

Lemma sput_sorted {A} k (v : A) m :
  StronglySorted key_lt m -> StronglySorted key_lt (sput k v m).
Proof.
  induction 1 as [|[k' v'] m Hm IH Hk']; simpl; [by repeat constructor|].
  destruct (String.compare k k') eqn:E.
  - apply String.compare_eq_iff in E; subst k'. by constructor.
  - repeat constructor; auto.
    eapply Forall_impl; [exact Hk'|]. intros [k1 v1] H. by eapply string_compare_Lt_trans.
  - constructor; [done|]. apply sput_Forall; [|done].
    unfold key_lt; simpl. by rewrite String.compare_antisym, E.
Qed.

Lemma sput_last {A} k (v : A) m :
  Forall (fun x => key_lt x (k, v)) m -> sput k v m = m ++ [(k, v)].
Proof.
  induction 1 as [|[k' v'] m H Hm IH]; simpl; [done|].
  unfold key_lt in H; simpl in H.
  rewrite String.compare_antisym, H. simpl. by rewrite IH.
Qed.

Lemma smap_of_acc_sorted {A} (l : list (string * A)) acc :
  StronglySorted key_lt acc ->
  StronglySorted key_lt (fold_left (fun acc '(k, v) => sput k v acc) l acc).
Proof. revert acc. induction l as [|[k v] l IH]; simpl; auto using sput_sorted. Qed.

Lemma smap_of_sorted {A} (l : list (string * A)) : StronglySorted key_lt (smap_of l).
Proof. apply smap_of_acc_sorted. constructor. Qed.

Lemma smap_of_id {A} (l acc : list (string * A)) :
  StronglySorted key_lt (acc ++ l) ->
  fold_left (fun acc '(k, v) => sput k v acc) l acc = acc ++ l.
Proof.
  revert acc. induction l as [|[k v] l IH]; intros acc H; simpl; [by rewrite app_nil_r|].
  rewrite sput_last.
  - rewrite IH; rewrite <- app_assoc; done.
  - clear IH. induction acc as [|x acc IH]; [constructor|].
    inversion H as [|? ? H1 H2]; subst. constructor; [|auto].
    by apply Forall_app in H2 as [_ ?%Forall_cons_1%proj1].
Qed.

Lemma fold_sput_map {A B} (f : A -> B) l acc :
  fold_left (fun acc '(k, v) => sput k v acc) (map (fun '(k, v) => (k, f v)) l)
            (map (fun '(k, v) => (k, f v)) acc)
  = map (fun '(k, v) => (k, f v)) (fold_left (fun acc '(k, v) => sput k v acc) l acc).
Proof.
  revert acc. induction l as [|[k v] l IH]; intros acc; simpl; [done|].
  rewrite <- IH. f_equal.
  induction acc as [|[k' v'] acc IHa]; simpl; [done|].
  destruct (String.compare k k'); simpl; by rewrite ?IHa.
Qed.

Lemma smap_of_map {A B} (f : A -> B) l :
  smap_of (map (fun '(k, v) => (k, f v)) l) = map (fun '(k, v) => (k, f v)) (smap_of l).
Proof. apply (fold_sput_map f l []). Qed.

Lemma smap_of_idem {A} (l : list (string * A)) : smap_of (smap_of l) = smap_of l.
Proof. apply (smap_of_id (smap_of l) []), smap_of_sorted. Qed.

Lemma smap_of_Forall {A} (P : string * A -> Prop) l : Forall P l -> Forall P (smap_of l).
Proof.
  unfold smap_of. assert (Forall P []) as H0 by constructor. revert H0.
  generalize (@nil (string * A)). intros acc Hacc Hl. revert acc Hacc.
  induction Hl as [|[k v] l Hk Hl IH]; simpl; auto using sput_Forall.
Qed.

(** Re-marshalling a decoded document and decoding it again changes nothing:
    this is the round trip [ovsSliceToGoNotation] and the update handler make. *)
Lemma unmarshal_any_marshal j :
  unmarshal_any (marshal (unmarshal_any j)) = unmarshal_any j.
Proof.
  induction j as [| | | |l IH|m IH] using json_ind'; simpl; auto.
  - f_equal. rewrite !map_map. by apply map_ext_Forall.
  - f_equal. rewrite (smap_of_map unmarshal_any m), (smap_of_map unmarshal_any), (smap_of_map marshal),
      (smap_of_map unmarshal_any), smap_of_idem, !map_map.
    apply map_ext_Forall, smap_of_Forall.
    eapply Forall_impl; [exact IH|]. intros [k v]; simpl; congruence.
Qed.

(** * The shape of a UUID *)

(** RFC 4122 text, lower case: 36 characters, dashes at 8, 13, 18 and 23,
    hexadecimal digits elsewhere. *)
Definition uuid_char_ok (i : nat) (c : ascii) : bool :=
  if existsb (Nat.eqb i) [8; 13; 18; 23] then Ascii.eqb c "-"%char else is_hex c.

Definition uuid_shape (s : string) : Prop :=
  String.length s = 36 /\ forall i c, String.get i s = Some c -> uuid_char_ok i c = true.

(** A pattern of characters: [true] for a digit, [false] for a dash. *)
Fixpoint match_pat (p : list bool) (s : string) : bool :=
  match p, s with
  | [], EmptyString => true
  | true :: p', String a s' => is_hex a && match_pat p' s'
  | false :: p', String a s' => Ascii.eqb a "-"%char && match_pat p' s'
  | _, _ => false
  end.

Definition uuid_pat : list bool :=
  replicate 8 true ++ false :: replicate 4 true ++ false :: replicate 4 true ++ false ::
  replicate 4 true ++ false :: replicate 12 true.

Lemma hexrun_pat n p s :
  match_pat (replicate n true ++ p) s
  = match hexrun n s with Some r => match_pat p r | None => false end.
Proof.
  revert s. induction n as [|n IH]; intros s; simpl; [done|].
  destruct s as [|a s]; [done|]. rewrite IH. by destruct (is_hex a).
Qed.

Lemma dash_pat p s :
  match_pat (false :: p) s = match dash s with Some r => match_pat p r | None => false end.
Proof. destruct s as [|a s]; simpl; [done|]. by destruct (Ascii.eqb a "-"%char). Qed.

Lemma validUUID_pat s : validUUID_MatchString s = match_pat uuid_pat s.
Proof.
  unfold validUUID_MatchString, uuid_pat. rewrite <- (app_nil_r (replicate 12 true)).
  repeat first
    [ rewrite hexrun_pat | rewrite dash_pat
    | match goal with |- context [hexrun ?n ?s ≫= _] => destruct (hexrun n s); cbn [mbind option_bind]; [|done] end
    | match goal with |- context [dash ?s ≫= _] => destruct (dash s); cbn [mbind option_bind]; [|done] end ].
  match goal with |- context [hexrun 12 ?s] => destruct (hexrun 12 s) as [[]|] end; done.
Qed.

Lemma match_pat_spec (p : list bool) s :
  match_pat p s = true <->
  String.length s = length p /\
  forall (i : nat) (b : bool) (c : ascii), p !! i = Some b -> String.get i s = Some c ->
                (if b then is_hex c else Ascii.eqb c "-"%char) = true.
Proof.
  revert s. induction p as [|b p IH]; intros [|a s]; simpl.
  - split; [|done]. split; [done|]. by intros i ? c Hi.
  - split; [done|]. by intros [? _].
  - split; [by destruct b|]. by intros [? _].
  - trans ((if b then is_hex a else Ascii.eqb a "-"%char) = true /\ match_pat p s = true).
    { destruct b; apply andb_true_iff. }
    rewrite IH. split.
    + intros (Ha & Hl & Hs). split; [lia|].
      intros [|i] b' c; simpl; [|apply Hs]. by intros [= <-] [= <-].
    + intros [Hl Hs]. split; [by apply (Hs 0)|]. split; [lia|].
      intros i b' c. apply (Hs (S i)).
Qed.

Lemma string_get_length i s c : String.get i s = Some c -> i < String.length s.
Proof. revert i. induction s as [|a s IH]; intros [|i]; simpl; try done; try lia. intros ?%IH. lia. Qed.

Lemma validateUUID_spec s : validateUUID s = None <-> uuid_shape s.
Proof.
  assert (forall (i : nat) (b : bool), uuid_pat !! i = Some b -> b = negb (existsb (Nat.eqb i) [8; 13; 18; 23])) as Hp.
  { intros i b Hi. pose proof (lookup_lt_Some _ _ _ Hi) as Hlt. vm_compute in Hlt.
    do 36 (destruct i as [|i]; [vm_compute in Hi |- *; congruence|]). lia. }
  unfold validateUUID, uuid_shape. rewrite validUUID_pat.
  destruct (Nat.eqb_spec (String.length s) 36) as [Hl|Hl]; cbn [negb]; [|naive_solver].
  destruct (match_pat uuid_pat s) eqn:E; cbn [negb].
  - apply match_pat_spec in E as [_ E]. split; [intros _; split; [done|]|done].
    intros i c Hc. unfold uuid_char_ok.
    destruct (uuid_pat !! i) as [b|] eqn:Hb.
    + specialize (E i b c Hb Hc). rewrite (Hp _ _ Hb) in E.
      by destruct (existsb (Nat.eqb i) [8; 13; 18; 23]).
    + apply lookup_ge_None in Hb. change (length uuid_pat) with 36 in Hb.
      apply string_get_length in Hc. lia.
  - split; [done|]. intros [_ H]. exfalso.
    assert (match_pat uuid_pat s = true) as E'; [|congruence].
    apply match_pat_spec. split; [done|]. intros i b c Hb Hc. rewrite (Hp _ _ Hb).
    specialize (H i c Hc). unfold uuid_char_ok in H.
    by destruct (existsb (Nat.eqb i) [8; 13; 18; 23]).
Qed.

(** * Round trips of the notation *)










(** Every UUID, well-formed or a name, survives MarshalJSON followed by
    UnmarshalJSON. *)
Theorem UUID_roundtrip u : UUID_UnmarshalJSON (UUID_MarshalJSON u) = DVal u.
Proof. unfold UUID_MarshalJSON. by destruct (validateUUID u). Qed.





(** The empty set and the empty map are written with a null where the notation
    wants an array, and the reader crashes on what the writer produced. *)
Theorem empty_notation_crashes :
  ovsSliceToGoNotation (unmarshal_any (OvsSet_MarshalJSON [])) = DHalt type_assertion_failed /\
  ovsSliceToGoNotation (unmarshal_any (OvsMap_MarshalJSON [])) = DHalt type_assertion_failed.
Proof. done. Qed.
