(* ===== verification/OvsTypes.v ===== *)
(** The messages and the schema of libovsdb: operations and their JSON form,
    operation results, row updates, table updates, database schemas and the
    validation of operations against a schema
    (Godeps/.../socketplane/libovsdb: notation.go, row.go, schema.go, rpc.go).

    A struct is decoded as encoding/json does it: a key of the document belongs to
    the field of that name, or else to the first field whose name it folds to;
    other keys are ignored and null leaves a field at its zero value. Of a
    repeated field the last occurrence is taken. *)

From S2P Require Import Prelude OvsNotation.

Local Open Scope go_scope.

(** * Decoding structs *)

Definition resolve (names : list string) (key : string) : option string :=
  if existsb (String.eqb key) names then Some key else List.find (EqualFold key) names.

Definition field (names : list string) (f : string) (m : list (string * json)) : option json :=
  fold_left (fun acc '(k, v) => if decide (resolve names k = Some f) then Some v else acc) m None.

Definition dfield {A} (names : list string) (m : list (string * json))
    (f : string) (zero : A) (d : json -> dec A) : dec A :=
  match field names f m with
  | None => DVal zero
  | Some v => d v
  end.

Definition dopt {A} (o : option A) : dec A :=
  match o with
  | Some a => DVal a
  | None => DErr
  end.

Definition decode_string (j : json) : dec string := dopt (unmarshal_string j).
Definition decode_strings (j : json) : dec (list string) := dopt (unmarshal_strings j).

Definition decode_bool (j : json) : dec bool :=
  match j with
  | JNull => DVal false
  | JBool b => DVal b
  | _ => DErr
  end.

Definition digit (a : ascii) : option Z :=
  let n := Z.of_N (N_of_ascii a) in
  if ((48 <=? n) && (n <=? 57))%Z then Some (n - 48)%Z else None.

Fixpoint digits (acc : Z) (s : string) : option Z :=
  match s with
  | EmptyString => Some acc
  | String a s' => d ← digit a; digits (10 * acc + d)%Z s'
  end.

Lemma digit_pretty d : (d < 10)%N -> digit (pretty_N_char d) = Some (Z.of_N d).
Proof.
  intros H. assert (Hd : d = 0%N \/ d = 1%N \/ d = 2%N \/ d = 3%N \/ d = 4%N \/ d = 5%N \/ d = 6%N
                         \/ d = 7%N \/ d = 8%N \/ d = 9%N) by lia.
  destruct Hd as [->|[->|[->|[->|[->|[->|[->|[->|[->| ->]]]]]]]]]; reflexivity.
Qed.

Lemma digits_pretty_go x : forall s, digits 0 (pretty_N_go x s) = digits (Z.of_N x) s.
Proof.
  induction (N.lt_wf_0 x) as [x _ IH]. intros s. destruct (decide (0 < x)%N) as [Hx|Hx].
  - rewrite pretty_N_go_step by done. rewrite IH by (apply N.div_lt; lia).
    cbn [digits]. rewrite digit_pretty by (apply N.mod_upper_bound; lia). cbn [mbind option_bind].
    f_equal. rewrite N2Z.inj_div, N2Z.inj_mod. change (Z.of_N 10) with 10%Z.
    rewrite <- (Z.div_mod (Z.of_N x) 10) by lia. done.
  - assert (x = 0%N) as -> by lia. by rewrite pretty_N_go_0.
Qed.

Lemma digits_pretty z : (0 <= z)%Z -> digits 0 (pretty z) = Some z.
Proof.
  intros Hz. destruct z as [|p|p]; [done| |lia].
  change (pretty (Z.pos p)) with (pretty (N.pos p)). unfold pretty, pretty_N.
  rewrite decide_False by lia. by rewrite digits_pretty_go.
Qed.

(** A byte that is not a digit does not occur in a number. *)
Lemma occurs_pretty_go c x :
  digit c = None -> forall s, occurs c (pretty_N_go x s) = occurs c s.
Proof.
  intros Hc. induction (N.lt_wf_0 x) as [x _ IH]. intros s. destruct (decide (0 < x)%N) as [Hx|Hx].
  - rewrite pretty_N_go_step by done. rewrite IH by (apply N.div_lt; lia). cbn [occurs].
    destruct (Ascii.eqb_spec (pretty_N_char (x mod 10)) c) as [<-|]; [|done].
    rewrite digit_pretty in Hc by (apply N.mod_upper_bound; lia). done.
  - assert (x = 0%N) as -> by lia. by rewrite pretty_N_go_0.
Qed.

Lemma occurs_pretty c z : (0 <= z)%Z -> digit c = None -> occurs c (pretty z) = 0.
Proof.
  intros Hz Hc. destruct z as [|p|p]; [| |lia].
  - change (occurs c (String "0"%char EmptyString) = 0). cbn [occurs].
    destruct (Ascii.eqb_spec "0"%char c) as [<-|]; [by vm_compute in Hc|done].
  - change (pretty (Z.pos p)) with (pretty (N.pos p)). unfold pretty, pretty_N.
    rewrite decide_False by lia. by rewrite occurs_pretty_go.
Qed.

(** strconv.ParseInt(lit, 10, 64) on a JSON number. *)
Definition ParseInt (lit : string) : option Z :=
  z ← match lit with
      | EmptyString => None
      | String "-"%char s => z ← digits 0 s; Some (- z)%Z
      | _ => digits 0 lit
      end;
  if ((- 2 ^ 63 <=? z) && (z <? 2 ^ 63))%Z then Some z else None.

Definition decode_int (j : json) : dec Z :=
  match j with
  | JNull => DVal 0%Z
  | JNum lit => dopt (ParseInt lit)
  | _ => DErr
  end.

(** A [map[string]interface{}]; the nil map and the empty one are not told apart
    by the code that reads these. *)
Definition decode_map (j : json) : dec (smap gval) :=
  match j with
  | JNull => DVal []
  | JObj m => DVal (smap_of (map (fun '(k, v) => (k, unmarshal_any v)) m))
  | _ => DErr
  end.

(** A slice of decoded elements. *)
Definition decode_list {A} (d : json -> dec A) (j : json) : dec (list A) :=
  match j with
  | JNull => DVal []
  | JArr l => dall (map d l)
  | _ => DErr
  end.

(** A [map[string]T]: the last occurrence of a key counts. *)
Definition decode_gmap {A} (d : json -> dec A) (j : json) : dec (gmap string A) :=
  match j with
  | JNull => DVal ∅
  | JObj m => dmap list_to_map (dall (map (fun '(k, v) => dmap (pair k) (d v)) (smap_of m)))
  | _ => DErr
  end.

(** * Operations (notation.go) *)

Record Operation : Type := mkOp {
  Op : string;
  Table : string;
  OpRow : smap gval;
  OpRows : list (smap gval);
  Columns : list string;
  Mutations : list gval;
  Timeout : Z;
  Where : list gval;
  Until : string;
  UUIDName : string
}.

(** The zero value, from which the composite literals of the code start. *)
Definition op0 (op table : string) : Operation :=
  mkOp op table [] [] [] [] 0 [] "" "".

Definition NewCondition (column function : string) (value : gval) : gval :=
  VSlice [VString column; VString function; value].

Definition NewMutation (column mutator : string) (value : gval) : gval :=
  VSlice [VString column; VString mutator; value].

(** set.go: the elements of a slice, as the elements of a set. *)
Definition NewOvsSet (goSlice : list gval) : gval := VOvsSet goSlice.

(** map.go, for a [map[string]interface{}] given in iteration order. *)
Definition NewOvsMap (goMap : smap gval) : gval :=
  VOvsMap (map (fun '(k, v) => (VString k, v)) goMap).

(** A field with the omitempty option. *)
Definition omitempty {A} (name : string) (enc : A -> json) (empty : bool) (a : A)
    : list (string * json) :=
  if empty then [] else [(name, enc a)].

Definition nilb {A} (l : list A) : bool := match l with [] => true | _ => false end.

Definition marshal_obj (m : smap gval) : json := marshal (VMap m).

Definition Operation_marshal (o : Operation) : json :=
  JObj ([("op", JStr (Op o)); ("table", JStr (Table o))]
    ++ omitempty "row" marshal_obj (nilb (OpRow o)) (OpRow o)
    ++ omitempty "rows" (fun l => JArr (map marshal_obj l)) (nilb (OpRows o)) (OpRows o)
    ++ omitempty "columns" (fun l => JArr (map JStr l)) (nilb (Columns o)) (Columns o)
    ++ omitempty "mutations" (fun l => JArr (map marshal l)) (nilb (Mutations o)) (Mutations o)
    ++ omitempty "timeout" (fun z : Z => JNum (pretty z)) (Z.eqb (Timeout o) 0) (Timeout o)
    ++ omitempty "where" (fun l => JArr (map marshal l)) (nilb (Where o)) (Where o)
    ++ omitempty "until" JStr (String.eqb (Until o) "") (Until o)
    ++ omitempty "uuid-name" JStr (String.eqb (UUIDName o) "") (UUIDName o)).

(** rpc.go *)
Definition NewTransactArgs (database : string) (operations : list Operation) : list json :=
  JStr database :: map Operation_marshal operations.

Definition NewGetSchemaArgs (schema : string) : list json := [JStr schema].

(** * Operation results *)

Record OperationResult : Type := mkResult {
  Count : Z;
  ResError : string;
  Details : string;
  ResUUID : string;
  ResRows : list (smap gval)
}.

Definition result0 : OperationResult := mkResult 0 "" "" "" [].

Definition result_fields : list string := ["count"; "error"; "details"; "uuid"; "rows"].

Definition decode_result (j : json) : dec OperationResult :=
  match j with
  | JNull => DVal result0
  | JObj m =>
      dmap (fun '(c, (e, (d, (u, r)))) => mkResult c e d u r)
        (dpair (dfield result_fields m "count" 0%Z decode_int)
        (dpair (dfield result_fields m "error" "" decode_string)
        (dpair (dfield result_fields m "details" "" decode_string)
        (dpair (dfield result_fields m "uuid" "" UUID_UnmarshalJSON)
               (dfield result_fields m "rows" [] (decode_list decode_map))))))
  | _ => DErr
  end.

Definition decode_results : json -> dec (list OperationResult) := decode_list decode_result.

(** * Rows and updates *)

(** [Fields] is nil in the zero row and a map in a decoded one. *)
Record Row : Type := mkRow { Fields : option (gmap string gval) }.

Definition row0 : Row := mkRow None.

(** [reflect.DeepEqual(row, libovsdb.Row{})]: a nil map only equals a nil map. *)
Definition row_is_empty (r : Row) : bool :=
  match Fields r with None => true | Some _ => false end.

(** [row.Fields[k]], with nil for a missing key. *)
Definition Fields_get (r : Row) (k : string) : option gval := Fields r ≫= lookup k.

Definition Row_UnmarshalJSON (b : json) : dec Row :=
  match decode_map b with
  | DVal raw =>
      dmap (fun l => mkRow (Some (list_to_map l)))
        (dall (map (fun '(key, val) => dmap (pair key) (ovsSliceToGoNotation val)) raw))
  | DErr => DErr
  | DHalt h => DHalt h
  end.

Record RowUpdate : Type := mkRowUpdate { RowUuid : string; New : Row; Old : Row }.

(** The tag of [Uuid] names the field "-". *)
Definition rowupdate_fields : list string := ["-"; "new"; "old"].

Definition decode_rowupdate (j : json) : dec RowUpdate :=
  match j with
  | JNull => DVal (mkRowUpdate "" row0 row0)
  | JObj m =>
      dmap (fun '(u, (n, o)) => mkRowUpdate u n o)
        (dpair (dfield rowupdate_fields m "-" "" UUID_UnmarshalJSON)
        (dpair (dfield rowupdate_fields m "new" row0 Row_UnmarshalJSON)
               (dfield rowupdate_fields m "old" row0 Row_UnmarshalJSON)))
  | _ => DErr
  end.

Record TableUpdate : Type := mkTableUpdate { Rows : gmap string RowUpdate }.
Record TableUpdates : Type := mkTableUpdates { Updates : gmap string TableUpdate }.

Definition decode_rowupdates : json -> dec (gmap string (gmap string RowUpdate)) :=
  decode_gmap (decode_gmap decode_rowupdate).

(** client.go *)
Definition getTableUpdatesFromRawUnmarshal (raw : gmap string (gmap string RowUpdate))
    : TableUpdates :=
  mkTableUpdates (mkTableUpdate <$> raw).

(** * Schemas (schema.go) *)

Record ColumnSchema : Type := mkColumn {
  ColName : string; ColType : gval; Ephemeral : bool; Mutable : bool }.

Record TableSchema : Type := mkTable {
  TColumns : gmap string ColumnSchema; Indexes : list (list string) }.

Record DatabaseSchema : Type := mkSchema {
  SName : string; Version : string; Tables : gmap string TableSchema }.

Definition column_fields : list string := ["name"; "type"; "ephemeral"; "mutable"].

Definition decode_column (j : json) : dec ColumnSchema :=
  match j with
  | JNull => DVal (mkColumn "" VNil false false)
  | JObj m =>
      dmap (fun '(n, (t, (e, u))) => mkColumn n t e u)
        (dpair (dfield column_fields m "name" "" decode_string)
        (dpair (dfield column_fields m "type" VNil (fun v => DVal (unmarshal_any v)))
        (dpair (dfield column_fields m "ephemeral" false decode_bool)
               (dfield column_fields m "mutable" false decode_bool))))
  | _ => DErr
  end.

Definition table_fields : list string := ["columns"; "indexes"].

Definition decode_table (j : json) : dec TableSchema :=
  match j with
  | JNull => DVal (mkTable ∅ [])
  | JObj m =>
      dmap (fun '(c, i) => mkTable c i)
        (dpair (dfield table_fields m "columns" ∅ (decode_gmap decode_column))
               (dfield table_fields m "indexes" [] (decode_list decode_strings)))
  | _ => DErr
  end.

Definition schema_fields : list string := ["name"; "version"; "tables"].

Definition decode_schema (j : json) : dec DatabaseSchema :=
  match j with
  | JNull => DVal (mkSchema "" "" ∅)
  | JObj m =>
      dmap (fun '(n, (v, t)) => mkSchema n v t)
        (dpair (dfield schema_fields m "name" "" decode_string)
        (dpair (dfield schema_fields m "version" "" decode_string)
               (dfield schema_fields m "tables" ∅ (decode_gmap decode_table))))
  | _ => DErr
  end.

(** The keys of a row, and a list of columns, are columns of the table. *)
Definition known (table : TableSchema) (column : string) : bool :=
  match TColumns table !! column with Some _ => true | None => false end.

Definition row_known (table : TableSchema) (row : smap gval) : bool :=
  forallb (fun '(column, _) => known table column) row.

Fixpoint validateOperations (schema : DatabaseSchema) (operations : list Operation) : bool :=
  match operations with
  | [] => true
  | op :: ops =>
      match Tables schema !! Table op with
      | Some table =>
          if negb (row_known table (OpRow op)) then false
          else if negb (forallb (row_known table) (OpRows op)) then false
          else if negb (forallb (known table) (Columns op)) then false
          else validateOperations schema ops
      | None => false
      end
  end.

(** * What validation establishes *)

Definition op_conforms (schema : DatabaseSchema) (op : Operation) : Prop :=
  exists table, Tables schema !! Table op = Some table /\
    (forall c v, (c, v) ∈ OpRow op -> is_Some (TColumns table !! c)) /\
    (forall row c v, row ∈ OpRows op -> (c, v) ∈ row -> is_Some (TColumns table !! c)) /\
    (forall c, c ∈ Columns op -> is_Some (TColumns table !! c)).

Lemma known_spec table c : known table c = true <-> is_Some (TColumns table !! c).
Proof. unfold known, is_Some. destruct (TColumns table !! c); naive_solver. Qed.

Lemma row_known_spec table row :
  row_known table row = true <-> forall c v, (c, v) ∈ row -> is_Some (TColumns table !! c).
Proof.
  unfold row_known. rewrite forallb_forall. setoid_rewrite <- list_elem_of_In. split.
  - intros H c v Hin. apply known_spec. by apply (H (c, v)).
  - intros H [c v] Hin. apply known_spec. by eapply H.
Qed.

Lemma validateOperations_conform schema ops :
  validateOperations schema ops = true <-> Forall (op_conforms schema) ops.
Proof.
  induction ops as [|op ops IH]; simpl; [split; [constructor|done]|].
  rewrite Forall_cons, <- IH. unfold op_conforms at 1.
  destruct (Tables schema !! Table op) as [table|]; [|naive_solver].
  transitivity (row_known table (OpRow op) = true /\ forallb (row_known table) (OpRows op) = true
                /\ forallb (known table) (Columns op) = true /\ validateOperations schema ops = true).
  { destruct (row_known _ _), (forallb (row_known _) _), (forallb _ _); simpl; naive_solver. }
  rewrite row_known_spec, !forallb_forall. setoid_rewrite <- list_elem_of_In.
  setoid_rewrite row_known_spec. setoid_rewrite known_spec. naive_solver.
Qed.

(** An operation list passes validateOperations exactly when each operation
    names a table of the schema and uses only columns of that table in its row,
    its rows and its column list. *)
Theorem validateOperations_spec schema ops :
  validateOperations schema ops = true <-> Forall (op_conforms schema) ops.
Proof. apply validateOperations_conform. Qed.
