(* ===== verification/World.v ===== *)
(** The plugin's memory, the calls it makes to the world outside it, and the
    semantics of its code.

    A Go function of the plugin is a [prog]: a tree of reads and updates of the
    plugin's memory ([St]), calls to the outside ([ext]: the OVSDB connection,
    netlink, the operating system, and the order in which Go visits a map) and an
    end, which is a result or a crash. A [Host] answers the calls; it may be any
    stateful environment. [run] executes a program against a host and records the
    calls, [wp] quantifies over every environment, and [wp_run] connects them. *)

From S2P Require Import Prelude OvsNotation OvsTypes.

(** * Data *)

(** driver.go: what is kept for each network. *)
Record NetworkState : Type := mkNetwork {
  BridgeName : string;
  MTU : Z;
  Mode : string;
  Gateway : string;
  GatewayMask : string;
  FlatBindInterface : string;
  NetworkType : string;
  NetworkName : string
}.

#[export] Instance NetworkState_eq_dec : EqDecision NetworkState.
Proof. solve_decision. Defined.

(** The memory of the process: Driver.networks; the package variables of ovsdb.go;
    whether the driver has a client ([connected]: its pointer is not nil) and
    whether that client is still in libovsdb's table of connections ([alive]); the
    client's schema map and registered handlers; the package variables of
    libnetwork's iptables. *)
Record St : Type := mkSt {
  networks : gmap string NetworkState;
  ovsdbCache : gmap string (gmap string Row);
  contextCache : gmap string string;
  connected : bool;
  alive : bool;
  Schema : gmap string DatabaseSchema;
  handlers : nat;
  iptablesPath : string;
  supportsXlock : bool;
  firewalldRunning : bool
}.

Definition set_networks (f : gmap string NetworkState -> gmap string NetworkState) (s : St) : St :=
  mkSt (f (networks s)) (ovsdbCache s) (contextCache s) (connected s) (alive s) (Schema s) (handlers s)
       (iptablesPath s) (supportsXlock s) (firewalldRunning s).
Definition set_cache (f : gmap string (gmap string Row) -> gmap string (gmap string Row)) (s : St) : St :=
  mkSt (networks s) (f (ovsdbCache s)) (contextCache s) (connected s) (alive s) (Schema s) (handlers s)
       (iptablesPath s) (supportsXlock s) (firewalldRunning s).
Definition set_contextCache (f : gmap string string -> gmap string string) (s : St) : St :=
  mkSt (networks s) (ovsdbCache s) (f (contextCache s)) (connected s) (alive s) (Schema s) (handlers s)
       (iptablesPath s) (supportsXlock s) (firewalldRunning s).
Definition set_connected (b : bool) (s : St) : St :=
  mkSt (networks s) (ovsdbCache s) (contextCache s) b (alive s) (Schema s) (handlers s)
       (iptablesPath s) (supportsXlock s) (firewalldRunning s).
Definition set_alive (b : bool) (s : St) : St :=
  mkSt (networks s) (ovsdbCache s) (contextCache s) (connected s) b (Schema s) (handlers s)
       (iptablesPath s) (supportsXlock s) (firewalldRunning s).
Definition set_Schema (f : gmap string DatabaseSchema -> gmap string DatabaseSchema) (s : St) : St :=
  mkSt (networks s) (ovsdbCache s) (contextCache s) (connected s) (alive s) (f (Schema s)) (handlers s)
       (iptablesPath s) (supportsXlock s) (firewalldRunning s).
Definition add_handler (s : St) : St :=
  mkSt (networks s) (ovsdbCache s) (contextCache s) (connected s) (alive s) (Schema s) (S (handlers s))
       (iptablesPath s) (supportsXlock s) (firewalldRunning s).
Definition set_iptables (path : string) (xlock : bool) (s : St) : St :=
  mkSt (networks s) (ovsdbCache s) (contextCache s) (connected s) (alive s) (Schema s) (handlers s)
       path xlock (firewalldRunning s).

(** netlink and net values. *)
Record Link : Type := mkLink { link_name : string; link_index : Z }.
Record Veth : Type := mkVeth { veth_name : string; PeerName : string }.
Record IPNet : Type := mkIPNet { ipnet_ip : list Z; ipnet_ones : Z }.

Inductive rpc_reply : Type :=
| RpcResult (result : json)
| RpcError (e : error).

(** * Calls to the outside *)

Inductive ext : Type :=
(** the order in which a range loop visits the keys of a map *)
| ERange (keys : list string)
(** rpc2.Client.Call on the OVSDB connection *)
| ERpc (method : string) (params : list json)
| ESleep (seconds : Z)
(** vishvananda/netlink *)
| ELinkAdd (v : Veth)
| ELinkDel (v : Veth)
| ELinkSetUp (l : Link)
| ELinkByName (name : string)
| EAddrList (l : Link)
| EAddrAdd (l : Link) (addr : IPNet)
(** net.InterfaceByName and Interface.Addrs *)
| EInterfaceByName (name : string)
| EInterfaceAddrs (name : string)
(** os/exec *)
| EStdoutPipe (argv : list string)
| EStderrPipe (argv : list string)
| EStart (argv : list string)
| EReadAllStderr (argv : list string)
| EReadAllStdout (argv : list string)
| EWait (argv : list string)
| ERun (argv : list string)
| ECombinedOutput (argv : list string)
| EOutput (argv : list string)
| ELookPath (file : string)
(** firewalld, over D-Bus *)
| EPassthrough (args : list string)
(** os and files *)
| EOsCreate (path : string)
| EFileWrite (path content : string)
| EFileClose (path : string)
| EOsRemove (path : string)
(** the rendezvous with monitorBridges on the unbuffered channel [update] *)
| EUpdateSend (u : TableUpdates)
| ENewDockerClient (url : string)
| EDial (target : string)
(** the socket Docker connects to: files, their owner and mode, and the listener *)
| EReadFile (path : string)
| EWriteFile (path content : string) (mode : Z)
| EMkdirAll (path : string) (mode : Z)
| EUnlink (path : string)
| EUmask (mask : Z)
| EChown (path : string) (uid gid : Z)
| EChmod (path : string) (mode : Z)
| EListen (proto addr : string)
| ECloseListener (addr : string)
| EServe (addr : string).

Definition ans (e : ext) : Type :=
  match e with
  | ERange _ => list string
  | ERpc _ _ => rpc_reply
  | ESleep _ => unit
  | ELinkByName _ => error + Link
  | EAddrList _ => error + list IPNet
  | EInterfaceByName _ => option error
  | EInterfaceAddrs _ => error + list string
  | EReadAllStderr _ | EReadAllStdout _ => string * option error
  | ECombinedOutput _ | EOutput _ | EPassthrough _ => string * option error
  | ELookPath _ => error + string
  | EUpdateSend _ => unit
  | EReadFile _ | EListen _ _ => error + string
  | EUmask _ => Z
  | _ => option error
  end.

(** What the Go specification promises of an answer: a range loop visits every key
    once, in an unspecified order. *)
Definition legal (e : ext) : ans e -> Prop :=
  match e return ans e -> Prop with
  | ERange keys => fun order => order ≡ₚ keys
  | _ => fun _ => True
  end.

(** * Programs *)

Inductive prog (A : Type) : Type :=
| Ret (a : A)
| Stop (h : halt)
| Rd (k : St -> prog A)
| Upd (f : St -> St) (k : prog A)
| Call (e : ext) (k : ans e -> prog A).
Arguments Ret {A} a.
Arguments Stop {A} h.
Arguments Rd {A} k.
Arguments Upd {A} f k.
Arguments Call {A} e k.

Fixpoint bind {A B} (p : prog A) (f : A -> prog B) : prog B :=
  match p with
  | Ret a => f a
  | Stop h => Stop h
  | Rd k => Rd (fun s => bind (k s) f)
  | Upd g k => Upd g (bind k f)
  | Call e k => Call e (fun r => bind (k r) f)
  end.

Notation "'let!' x := p 'in' k" := (bind p (fun x => k))
  (at level 10, x pattern, p at level 100, k at level 200) : go_scope.
Notation "p ';;;' k" := (bind p (fun _ => k)) (at level 100, k at level 200) : go_scope.

Local Open Scope go_scope.

Definition call (e : ext) : prog (ans e) := Call e Ret.
Definition gets {A} (f : St -> A) : prog A := Rd (fun s => Ret (f s)).
Definition modify (f : St -> St) : prog unit := Upd f (Ret tt).
Definition lift {A} (o : outcome A) : prog A :=
  match o with
  | Returned a => Ret a
  | Halted h => Stop h
  end.
Definition panic {A} (why : string) : prog A := Stop (GoPanic why).
(** logrus.Fatalf *)
Definition Fatalf {A} : prog A := Stop (OsExit 1).

(** [for k, v := range m], for a loop that may leave early: the body returns the
    value to return from the enclosing function, or nothing to go on. *)
Fixpoint for_each {K A} (keys : list K) (body : K -> prog (option A)) : prog (option A) :=
  match keys with
  | [] => Ret None
  | k :: ks =>
      let! r := body k in
      match r with
      | Some a => Ret (Some a)
      | None => for_each ks body
      end
  end.

Definition range {V A} (m : gmap string V) (body : string -> V -> prog (option A))
    : prog (option A) :=
  let! keys := call (ERange (map_to_list m).*1) in
  for_each keys (fun k => match m !! k with Some v => body k v | None => Ret None end).

(** * Hosts and execution *)

Class Host (W : Type) : Type := {
  answer : forall e : ext, W -> ans e * W;
  answer_legal : forall (e : ext) (w : W), legal e (answer e w).1
}.

Record entry : Type := Entry { ent_ext : ext; ent_ans : ans ent_ext }.
Definition trace : Type := list entry.

Record final (W A : Type) : Type := Final {
  out : outcome A;
  state : St;
  world : W;
  log : trace
}.
Arguments Final {W A} _ _ _ _.
Arguments out {W A} _.
Arguments state {W A} _.
Arguments world {W A} _.
Arguments log {W A} _.

Fixpoint run_from {W A} {H : Host W} (p : prog A) (s : St) (w : W) (tr : trace) : final W A :=
  match p with
  | Ret a => Final (Returned a) s w tr
  | Stop h => Final (Halted h) s w tr
  | Rd k => run_from (k s) s w tr
  | Upd f k => run_from k (f s) w tr
  | Call e k => let '(r, w') := answer e w in run_from (k r) s w' (tr ++ [Entry e r])
  end.

Definition run {W A} {H : Host W} (p : prog A) (s : St) (w : W) : final W A :=
  run_from p s w [].

(** The calls of a run, without their answers. *)
Definition exts (tr : trace) : list ext := map ent_ext tr.

(** * Weakest preconditions *)

Fixpoint wp {A} (p : prog A) (s : St) (tr : trace) (Q : outcome A -> St -> trace -> Prop) : Prop :=
  match p with
  | Ret a => Q (Returned a) s tr
  | Stop h => Q (Halted h) s tr
  | Rd k => wp (k s) s tr Q
  | Upd f k => wp k (f s) tr Q
  | Call e k => forall r, legal e r -> wp (k r) s (tr ++ [Entry e r]) Q
  end.

Lemma wp_run_from {W A} {H : Host W} (p : prog A) s (w : W) tr Q :
  wp p s tr Q ->
  Q (out (run_from p s w tr)) (state (run_from p s w tr)) (log (run_from p s w tr)).
Proof.
  revert s w tr. induction p as [a|h|k IH|f k IH|e k IH]; intros s w tr; simpl; auto.
  intros Hwp. pose proof (answer_legal e w) as Hl.
  destruct (answer e w) as [r w']; simpl in *. auto.
Qed.

(** Soundness: what [wp] establishes holds of a run against every host. *)
Lemma wp_run {W A} {H : Host W} (p : prog A) s (w : W) Q :
  wp p s [] Q -> Q (out (run p s w)) (state (run p s w)) (log (run p s w)).
Proof. apply wp_run_from. Qed.

Lemma wp_mono {A} (p : prog A) s tr (Q Q' : outcome A -> St -> trace -> Prop) :
  (forall o s' tr', Q o s' tr' -> Q' o s' tr') -> wp p s tr Q -> wp p s tr Q'.
Proof.
  intros HQ. revert s tr. induction p as [a|h|k IH|f k IH|e k IH]; intros s tr; simpl; auto.
Qed.

Definition post_bind {A B} (f : A -> prog B) (Q : outcome B -> St -> trace -> Prop)
    (o : outcome A) (s : St) (tr : trace) : Prop :=
  match o with
  | Returned a => wp (f a) s tr Q
  | Halted h => Q (Halted h) s tr
  end.

Lemma wp_bind {A B} (p : prog A) (f : A -> prog B) s tr Q :
  wp (bind p f) s tr Q <-> wp p s tr (post_bind f Q).
Proof.
  revert s tr. induction p as [a|h|k IH|g k IH|e k IH]; intros s tr; simpl; auto; try done.
  split; intros Hwp r Hr; apply IH; auto.
Qed.

(** The cut rule. *)
Lemma wp_seq {A B} (p : prog A) (f : A -> prog B) s tr R Q :
  wp p s tr R ->
  (forall a s' tr', R (Returned a) s' tr' -> wp (f a) s' tr' Q) ->
  (forall h s' tr', R (Halted h) s' tr' -> Q (Halted h) s' tr') ->
  wp (bind p f) s tr Q.
Proof.
  intros Hp Hf Hh. apply wp_bind. eapply wp_mono; [|exact Hp]. intros [a|h] s' tr'; simpl; auto.
Qed.

Lemma wp_conj {A} (p : prog A) s tr (Q1 Q2 : outcome A -> St -> trace -> Prop) :
  wp p s tr Q1 -> wp p s tr Q2 -> wp p s tr (fun o s' tr' => Q1 o s' tr' /\ Q2 o s' tr').
Proof. revert s tr. induction p as [a|h|k IH|g k IH|e k IH]; intros s tr; simpl; auto. Qed.

(** * Frames

    [frame R p]: on every run, however it ends, the memory before and after are
    related by [R]. [only E p]: every call a run of [p] makes satisfies [E]. *)

Definition frame {A} (R : St -> St -> Prop) (p : prog A) : Prop :=
  forall s tr, wp p s tr (fun _ s' _ => R s s').

Definition only {A} (E : ext -> Prop) (p : prog A) : Prop :=
  forall s tr, wp p s tr (fun _ _ tr' => exists t, tr' = tr ++ t /\ Forall E (exts t)).

Section frames.
Context {A B : Type} (R : St -> St -> Prop) `{!PreOrder R} (E : ext -> Prop).

Lemma frame_ret (a : A) : frame R (Ret a).
Proof. intros s tr; simpl. reflexivity. Qed.

Lemma frame_stop h : frame R (@Stop A h).
Proof. intros s tr; simpl. reflexivity. Qed.

Lemma frame_lift (o : outcome A) : frame R (lift o).
Proof. destruct o; intros s tr; simpl; reflexivity. Qed.

Lemma frame_rd (k : St -> prog A) : (forall s, frame R (k s)) -> frame R (Rd k).
Proof. intros Hk s tr; simpl. apply Hk. Qed.

Lemma frame_upd f (k : prog A) : (forall s, R s (f s)) -> frame R k -> frame R (Upd f k).
Proof.
  intros Hf Hk s tr; simpl. eapply wp_mono; [|apply Hk]. simpl. intros _ s' _ ?.
  etransitivity; [apply Hf|done].
Qed.

Lemma frame_call e (k : ans e -> prog A) : (forall r, frame R (k r)) -> frame R (Call e k).
Proof. intros Hk s tr r _; simpl. apply Hk. Qed.

Lemma frame_bind (p : prog A) (f : A -> prog B) :
  frame R p -> (forall a, frame R (f a)) -> frame R (bind p f).
Proof.
  intros Hp Hf s tr. eapply wp_seq; [apply Hp| |by intros].
  simpl. intros a s' tr' HR. eapply wp_mono; [|apply Hf]. simpl. intros _ s'' _ ?.
  by etransitivity.
Qed.

Lemma only_ret (a : A) : only E (Ret a).
Proof. intros s tr. exists []. by rewrite app_nil_r. Qed.

Lemma only_stop h : only E (@Stop A h).
Proof. intros s tr. exists []. by rewrite app_nil_r. Qed.

Lemma only_lift (o : outcome A) : only E (lift o).
Proof. destruct o; [apply only_ret|]. intros s tr. exists []. by rewrite app_nil_r. Qed.

Lemma only_rd (k : St -> prog A) : (forall s, only E (k s)) -> only E (Rd k).
Proof. intros Hk s tr; simpl. apply Hk. Qed.

Lemma only_upd f (k : prog A) : only E k -> only E (Upd f k).
Proof. intros Hk s tr; simpl. apply Hk. Qed.

Lemma only_call e (k : ans e -> prog A) : E e -> (forall r, only E (k r)) -> only E (Call e k).
Proof.
  intros He Hk s tr r _; simpl. eapply wp_mono; [|apply Hk]. simpl.
  intros _ _ tr' (t & -> & Ht). exists (Entry e r :: t). split; [by rewrite <- app_assoc|].
  by constructor.
Qed.

Lemma only_bind (p : prog A) (f : A -> prog B) :
  only E p -> (forall a, only E (f a)) -> only E (bind p f).
Proof.
  intros Hp Hf s tr. eapply wp_seq; [apply Hp| |by intros].
  simpl. intros a s' tr' (t & -> & Ht). eapply wp_mono; [|apply Hf]. simpl.
  intros _ _ tr'' (t' & -> & Ht'). exists (t ++ t'). split; [by rewrite app_assoc|].
  unfold exts. rewrite map_app. by apply Forall_app.
Qed.
End frames.

Lemma frame_for_each {K A} R `{!PreOrder R} (ks : list K) (body : K -> prog (option A)) :
  (forall k, frame R (body k)) -> frame R (for_each ks body).
Proof.
  intros Hb. induction ks as [|k ks IH]; simpl; [by apply frame_ret|].
  apply frame_bind; [done|done|]. intros [a|]; [by apply frame_ret|done].
Qed.

Lemma only_for_each {K A} E (ks : list K) (body : K -> prog (option A)) :
  (forall k, only E (body k)) -> only E (for_each ks body).
Proof.
  intros Hb. induction ks as [|k ks IH]; simpl; [apply only_ret|].
  apply only_bind; [done|]. intros [a|]; [apply only_ret|done].
Qed.

Lemma only_mono {A} (E E' : ext -> Prop) (p : prog A) :
  (forall e, E e -> E' e) -> only E p -> only E' p.
Proof.
  intros HE Hp s tr. eapply wp_mono; [|apply Hp]. simpl.
  intros _ _ tr' (t & -> & Ht). exists t. split; [done|]. by eapply Forall_impl.
Qed.

(** Running: a frame and a bound on the calls hold of every run. *)
Lemma frame_run {W A} {H : Host W} R (p : prog A) s (w : W) :
  frame R p -> R s (state (run p s w)).
Proof. intros Hp. exact (wp_run p s w _ (Hp s [])). Qed.

Lemma only_run {W A} {H : Host W} E (p : prog A) s (w : W) :
  only E p -> Forall E (exts (log (run p s w))).
Proof.
  intros Hp. destruct (wp_run p s w _ (Hp s [])) as (t & -> & Ht). done.
Qed.

(** Two memories that agree on the networks, and on the networks but one. *)
Definition same_networks (s s' : St) : Prop := networks s' = networks s.
Definition same_networks_but (id : string) (s s' : St) : Prop :=
  forall id', id' <> id -> networks s' !! id' = networks s !! id'.
Definition same_cache (s s' : St) : Prop := ovsdbCache s' = ovsdbCache s.

#[export] Instance same_networks_preorder : PreOrder same_networks.
Proof. split; [done|]. intros s1 s2 s3 H1 H2. unfold same_networks in *. congruence. Qed.
#[export] Instance same_cache_preorder : PreOrder same_cache.
Proof. split; [done|]. intros s1 s2 s3 H1 H2. unfold same_cache in *. congruence. Qed.
#[export] Instance same_networks_but_preorder id : PreOrder (same_networks_but id).
Proof. split; [done|]. intros s1 s2 s3 H1 H2 i Hi. by rewrite H2, H1. Qed.

Lemma frame_weaken {A} (R R' : St -> St -> Prop) (p : prog A) :
  (forall s s', R s s' -> R' s s') -> frame R p -> frame R' p.
Proof. intros HR Hp s tr. eapply wp_mono; [|apply Hp]. simpl. auto. Qed.

Create HintDb go_frame discriminated.
#[export] Hint Resolve frame_ret frame_stop frame_lift only_ret only_stop only_lift : go_frame.
#[export] Hint Extern 1 (PreOrder _) => apply _ : go_frame.

(** Decompose a program into its steps, closing the calls to other components with
    the lemmas of the hint database. *)
Ltac frame_step :=
  first
    [ assumption
    | match goal with
      | |- frame _ (bind _ _) => apply frame_bind; [apply _| |intros]
      | |- frame _ (Rd _) => apply frame_rd; intros
      | |- frame _ (Upd _ _) => apply frame_upd; [apply _|intros| ]
      | |- frame _ (Call _ _) => apply frame_call; intros
      | |- frame _ (for_each _ _) => apply frame_for_each; [apply _|intros]
      | |- only _ (bind _ _) => apply only_bind; [|intros]
      | |- only _ (Rd _) => apply only_rd; intros
      | |- only _ (Upd _ _) => apply only_upd
      | |- only _ (Call _ _) => apply only_call; [|intros]
      | |- only _ (for_each _ _) => apply only_for_each; intros
      end
    | solve [auto with go_frame]
    | match goal with
      | |- frame _ (match ?x with _ => _ end) => destruct x
      | |- only _ (match ?x with _ => _ end) => destruct x
      | |- frame _ (let '(_, _) := ?x in _) => destruct x
      | |- only _ (let '(_, _) := ?x in _) => destruct x
      | |- frame _ (call _) => unfold call
      | |- only _ (call _) => unfold call
      | |- frame _ (gets _) => unfold gets
      | |- only _ (gets _) => unfold gets
      | |- frame _ (modify _) => unfold modify
      | |- only _ (modify _) => unfold modify
      | |- frame _ (panic _) => unfold panic
      | |- only _ (panic _) => unfold panic
      | |- frame _ Fatalf => unfold Fatalf
      | |- only _ Fatalf => unfold Fatalf
      | |- frame _ (range _ _) => unfold range
      | |- only _ (range _ _) => unfold range
      end ].
Ltac frame_tac := repeat frame_step.

(** Symbolic execution of a program against every environment. *)
Ltac wp_norm := cbn [wp bind call gets modify lift panic Fatalf legal post_bind].

(** * Concrete hosts

    The answer that reports success of a call, for witnesses. *)
Definition good (e : ext) : ans e :=
  match e return ans e with
  | ERange keys => keys
  | ERpc _ _ => RpcResult (JArr [])
  | ESleep _ => tt
  | ELinkByName name => inr (mkLink name 7)
  | EAddrList _ => inr [mkIPNet [172; 18; 40; 1]%Z 24]
  | EInterfaceByName _ => None
  | EInterfaceAddrs _ => inr ["172.18.40.1/24"]
  | EReadAllStderr _ | EReadAllStdout _ => ("", None)
  | ECombinedOutput _ | EOutput _ | EPassthrough _ => ("", None)
  | ELookPath file => inr ("/sbin/" +:+ file)
  | EUpdateSend _ => tt
  | EReadFile _ => inr "root:x:0:"
  | EListen _ addr => inr addr
  | EUmask _ => 18%Z
  | _ => None
  end.

(** A host whose answers are a function of its history of calls. *)
Program Definition history_host (f : list ext -> forall e : ext, ans e)
    (Hf : forall past e, legal e (f past e)) : Host (list ext) :=
  {| answer e past := (f past e, past ++ [e]) |}.
Next Obligation. intros f Hf e w. apply Hf. Qed.

Lemma good_legal e : legal e (good e).
Proof. by destruct e; simpl. Qed.

(** * Loops *)

(** Invariant of a loop that does not leave early: [I] of the keys done so far. *)
Lemma wp_for_each_inv {K A} (I : list K -> St -> Prop) (ks : list K)
    (body : K -> prog (option A)) s tr :
  (forall pre k rest s tr, ks = pre ++ k :: rest -> I pre s ->
     wp (body k) s tr (fun o s' _ => o = Returned None /\ I (pre ++ [k]) s')) ->
  I [] s ->
  wp (for_each ks body) s tr (fun o s' _ => o = Returned None /\ I ks s').
Proof.
  intros Hb. cut (forall pre rest s tr, ks = pre ++ rest -> I pre s ->
    wp (for_each rest body) s tr (fun o s' _ => o = Returned None /\ I ks s')).
  { intros Hc HI. by apply (Hc [] ks). }
  intros pre rest. revert pre. induction rest as [|k rest IH]; intros pre s' tr' -> HI; simpl.
  - by rewrite app_nil_r.
  - eapply wp_seq; [by eapply Hb| |by intros ??? [? _]].
    simpl. intros r s'' tr'' [[= ->] HI']. apply (IH (pre ++ [k])); [|done].
    by rewrite <- app_assoc.
Qed.

(** A search loop returns the first hit. *)
Fixpoint first_some {K A} (g : K -> option A) (ks : list K) : option A :=
  match ks with
  | [] => None
  | k :: ks' => match g k with Some a => Some a | None => first_some g ks' end
  end.

Lemma wp_search {K A} (g : K -> option A) (ks : list K) (body : K -> prog (option A)) s tr Q :
  (forall k, body k = Ret (g k)) ->
  Q (Returned (first_some g ks)) s tr -> wp (for_each ks body) s tr Q.
Proof.
  intros Hb. induction ks as [|k ks IH]; simpl; [done|].
  rewrite Hb. simpl. destruct (g k); simpl; auto.
Qed.

Lemma first_some_spec {K A} (g : K -> option A) (ks : list K) :
  match first_some g ks with
  | Some a => exists k, k ∈ ks /\ g k = Some a
  | None => forall k, k ∈ ks -> g k = None
  end.
Proof.
  induction ks as [|k ks IH]; simpl; [by intros ? ?%not_elem_of_nil|].
  destruct (g k) as [a|] eqn:E; [exists k; split; [left|done]|].
  destruct (first_some g ks) as [a|].
  - destruct IH as (k' & Hk' & Ha). exists k'. split; [by right|done].
  - intros k' [->|Hk']%elem_of_cons; auto.
Qed.

(** The keys a range loop visits are those of the map, each once. *)
Lemma range_keys {V} (m : gmap string V) (order : list string) :
  legal (ERange (map_to_list m).*1) order ->
  NoDup order /\ forall k, k ∈ order <-> is_Some (m !! k).
Proof.
  simpl. intros Hp. split.
  - rewrite Hp. apply NoDup_fst_map_to_list.
  - intros k. rewrite Hp, list_elem_of_fmap. split.
    + intros ([k' v] & -> & Hin). apply elem_of_map_to_list in Hin. by eexists.
    + intros [v Hv]. exists (k, v). split; [done|]. by apply elem_of_map_to_list.
Qed.

(** Every run extends the log; a program that frames equality leaves the memory. *)
Lemma only_True {A} (p : prog A) : only (fun _ => True) p.
Proof.
  induction p as [a|h|k IH|f k IH|e k IH].
  - apply only_ret.
  - apply only_stop.
  - by apply only_rd.
  - by apply only_upd.
  - by apply only_call.
Qed.

#[export] Instance eq_preorder : PreOrder (@eq St).
Proof. split; [done|]. intros x y z -> ->. done. Qed.

(** A program of which only a frame matters. *)
Lemma wp_skip {A} (R : St -> St -> Prop) (p : prog A) s tr (Q : outcome A -> St -> trace -> Prop) :
  frame R p -> (forall o s' t, R s s' -> Q o s' (tr ++ t)) -> wp p s tr Q.
Proof.
  intros Hp HQ. pose proof (wp_conj p s tr _ _ (Hp s tr) (only_True p s tr)) as H.
  eapply wp_mono; [|exact H]. intros o s' tr' [HR (t & -> & _)]. by apply HQ.
Qed.

Lemma wp_frame_eq {A} (p : prog A) s tr (Q : outcome A -> St -> trace -> Prop) :
  frame eq p -> (forall o t, Q o s (tr ++ t)) -> wp p s tr Q.
Proof. intros Hp HQ. apply (wp_skip eq); [done|]. by intros o s' t <-. Qed.

(** A postcondition on the memory alone does not depend on the log. *)
Lemma wp_any_trace {A} (p : prog A) s tr tr' (Q : outcome A -> St -> Prop) :
  wp p s tr (fun o s' _ => Q o s') -> wp p s tr' (fun o s' _ => Q o s').
Proof.
  revert s tr tr'. induction p as [a|h|k IH|f k IH|e k IH]; intros s tr tr'; simpl; eauto.
Qed.

(** [I] is kept: it holds afterwards if it held before. *)
Definition keeps (I : St -> Prop) (s s' : St) : Prop := I s -> I s'.

#[export] Instance keeps_preorder I : PreOrder (keeps I).
Proof. split; [by intros s Hs|]. intros s1 s2 s3 H1 H2 Hs. by apply H2, H1. Qed.

(** The answers in the log of a run are the host's. *)
Definition from_host {W} {H : Host W} (en : entry) : Prop :=
  exists w, ent_ans en = (answer (ent_ext en) w).1.

Lemma run_from_answers {W A} {H : Host W} (p : prog A) s (w : W) tr :
  Forall from_host tr -> Forall from_host (log (run_from p s w tr)).
Proof.
  revert s w tr. induction p as [a|h|k IH|f k IH|e k IH]; intros s w tr Htr; simpl; auto.
  destruct (answer e w) as [r w'] eqn:E. apply IH. apply Forall_app. split; [done|].
  constructor; [|constructor]. exists w. simpl. by rewrite E.
Qed.

Lemma run_answers {W A} {H : Host W} (p : prog A) s (w : W) : Forall from_host (log (run p s w)).
Proof. apply run_from_answers. constructor. Qed.

(** Every remote call of a log failed. *)
Definition no_rpc_reply (en : entry) : Prop :=
  match en with
  | Entry (ERpc _ _) (RpcResult _) => False
  | _ => True
  end.

Lemma down_log {W A} {H : Host W} (p : prog A) s (w : W) :
  (forall m params w, exists e, (answer (ERpc m params) w).1 = RpcError e) ->
  Forall no_rpc_reply (log (run p s w)).
Proof.
  intros Hdown. eapply Forall_impl; [apply run_answers|].
  intros [e r] [w' Hw']. cbn [ent_ans ent_ext] in Hw'. destruct e; try done.
  destruct (Hdown method params w') as [er Her]. rewrite Hw'.
  destruct (answer (ERpc method params) w') as [r' w'']. cbn in Her |- *. by rewrite Her.
Qed.
