(* ===== verification/NetIP.v ===== *)
(** The parts of Go's package net the plugin uses: the text forms of IP
    addresses and hardware addresses, net.IP.To4 and net.ParseCIDR. An IP address
    is a list of bytes (4 or 16 of them). *)

From S2P Require Import Prelude OvsNotation OvsTypes World.

Local Open Scope Z_scope.

Definition is_byte (z : Z) : Prop := 0 <= z < 256.

(** * Numbers in text *)

Definition first_nondigit (s : string) : bool :=
  match s with
  | EmptyString => true
  | String a _ => match digit a with Some _ => false | None => true end
  end.

(** [dtoi(s, 0)]: the leading decimal digits; [None] when there are none or the
    number reaches the limit. *)
Fixpoint dtoi_go (n : Z) (s : string) : option (Z * string) :=
  match s with
  | EmptyString => Some (n, s)
  | String a s' =>
      match digit a with
      | None => Some (n, s)
      | Some d => if 16777215 <=? 10 * n + d then None else dtoi_go (10 * n + d) s'
      end
  end.

Definition dtoi (s : string) : option (Z * string) :=
  if first_nondigit s then None else dtoi_go 0 s.

Definition hexdigit (a : ascii) : option Z :=
  let n := Z.of_N (N_of_ascii a) in
  if (48 <=? n) && (n <=? 57) then Some (n - 48)
  else if (97 <=? n) && (n <=? 102) then Some (n - 87)
  else if (65 <=? n) && (n <=? 70) then Some (n - 55)
  else None.

Fixpoint xtoi_go (n : Z) (s : string) : option (Z * string) :=
  match s with
  | EmptyString => Some (n, s)
  | String a s' =>
      match hexdigit a with
      | None => Some (n, s)
      | Some d => if 16777215 <=? 16 * n + d then None else xtoi_go (16 * n + d) s'
      end
  end.

Definition xtoi (s : string) : option (Z * string) :=
  match s with
  | EmptyString => None
  | String a _ => match hexdigit a with Some _ => xtoi_go 0 s | None => None end
  end.

(** * Parsing addresses *)

(** One octet and what follows it. *)
Definition octet (s : string) : option (Z * string) :=
  p ← dtoi s; if 255 <? p.1 then None else Some p.

Definition dot (s : string) : option string :=
  match s with
  | String a s' => if Ascii.eqb a "."%char then Some s' else None
  | EmptyString => None
  end.

Definition parseIPv4 (s : string) : option (list Z) :=
  a ← octet s; s ← dot a.2;
  b ← octet s; s ← dot b.2;
  c ← octet s; s ← dot c.2;
  d ← octet s;
  if String.eqb d.2 "" then Some [a.1; b.1; c.1; d.1] else None.

(** The bytes of an IPv6 address read so far, and where the ellipsis was. *)
Fixpoint parseIPv6_go (fuel : nat) (acc : list Z) (ellipsis : option nat) (s : string)
    : option (list Z * option nat * string) :=
  match fuel with
  | O => Some (acc, ellipsis, s)
  | S fuel' =>
      '(n, rest) ← xtoi s;
      if 65535 <? n then None else
      match rest with
      | String "."%char _ =>
          if match ellipsis with None => negb (length acc =? 12)%nat | Some _ => false end then None
          else if (16 <? length acc + 4)%nat then None
          else ip4 ← parseIPv4 s; Some ((acc ++ ip4)%list, ellipsis, EmptyString)
      | _ =>
          let acc' := (acc ++ [n / 256; n mod 256])%list in
          match rest with
          | EmptyString => Some (acc', ellipsis, EmptyString)
          | String c s1 =>
              if negb (Ascii.eqb c ":"%char) || String.eqb s1 "" then None
              else match s1 with
                   | String ":"%char s2 =>
                       match ellipsis with
                       | Some _ => None
                       | None =>
                           if String.eqb s2 "" then Some (acc', Some (length acc'), EmptyString)
                           else parseIPv6_go fuel' acc' (Some (length acc')) s2
                       end
                   | _ => parseIPv6_go fuel' acc' ellipsis s1
                   end
          end
      end
  end.

Definition parseIPv6_end (r : list Z * option nat * string) : option (list Z) :=
  let '(acc, ellipsis, rest) := r in
  if negb (String.eqb rest "") then None
  else if (length acc <? 16)%nat then
    match ellipsis with
    | None => None
    | Some e => Some (take e acc ++ replicate (16 - length acc) 0 ++ drop e acc)%list
    end
  else match ellipsis with Some _ => None | None => Some acc end.

(** At most eight groups of 16 bits: the fuel is the number of groups. *)
Definition parseIPv6 (s : string) : option (list Z) :=
  match s with
  | String ":"%char (String ":"%char s') =>
      if String.eqb s' "" then Some (replicate 16 0)
      else r ← parseIPv6_go 8 [] (Some 0%nat) s'; parseIPv6_end r
  | _ => r ← parseIPv6_go 8 [] None s; parseIPv6_end r
  end.

(** The text before and after the first slash. *)
Fixpoint cut_slash (s : string) : option (string * string) :=
  match s with
  | EmptyString => None
  | String a s' =>
      if Ascii.eqb a slash then Some (EmptyString, s')
      else '(x, y) ← cut_slash s'; Some (String a x, y)
  end.

(** net.ParseCIDR: the address and the prefix length; [None] is its error. An IPv4
    address is given as its 4 bytes. *)
Definition ParseCIDR (s : string) : option (list Z * Z) :=
  '(addr, mask) ← cut_slash s;
  '(ip, iplen) ← match parseIPv4 addr with
                 | Some ip => Some (ip, 4)
                 | None => ip ← parseIPv6 addr; Some (ip, 16)
                 end;
  '(n, rest) ← dtoi mask;
  if negb (String.eqb rest "") || (8 * iplen <? n) then None else Some (ip, n).

(** * Text of addresses *)

Definition To4 (ip : list Z) : option (list Z) :=
  if (length ip =? 4)%nat then Some ip
  else if (length ip =? 16)%nat
          && forallb (Z.eqb 0) (take 10 ip)
          && forallb (Z.eqb 255) (take 2 (drop 10 ip))
  then Some (drop 12 ip)
  else None.

Definition hex_char (d : Z) : ascii :=
  if d <? 10 then ascii_of_N (Z.to_N (48 + d)) else ascii_of_N (Z.to_N (87 + d)).

(** The two hexadecimal digits of a byte. *)
Definition hex2 (b : Z) : string :=
  String (hex_char (b / 16)) (String (hex_char (b mod 16)) EmptyString).

(** Hexadecimal without leading zeros (appendHex). *)
Definition hex_trim (n : Z) : string :=
  let d3 := n / 4096 in let d2 := n / 256 mod 16 in let d1 := n / 16 mod 16 in let d0 := n mod 16 in
  let tail := String (hex_char d0) EmptyString in
  if n <? 16 then tail
  else if n <? 256 then String (hex_char d1) tail
  else if n <? 4096 then String (hex_char d2) (String (hex_char d1) tail)
  else String (hex_char d3) (String (hex_char d2) (String (hex_char d1) tail)).

Fixpoint join_with (sep : string) (l : list string) : string :=
  match l with
  | [] => EmptyString
  | [x] => x
  | x :: xs => x +:+ sep +:+ join_with sep xs
  end.

(** net.HardwareAddr.String *)
Definition HardwareAddr_String (hw : list Z) : string := join_with ":" (map hex2 hw).

Fixpoint hextets (ip : list Z) : list Z :=
  match ip with
  | h :: l :: rest => (256 * h + l) :: hextets rest
  | _ => []
  end.

Fixpoint zero_run (l : list Z) : nat :=
  match l with
  | 0 :: l' => S (zero_run l')
  | _ => O
  end.

(** The first longest run of zero groups: its start and its length. *)
Fixpoint longest_run (fuel : nat) (i : nat) (l : list Z) (best : nat * nat) : nat * nat :=
  match fuel with
  | O => best
  | S fuel' =>
      match l with
      | [] => best
      | _ :: l' =>
          let n := zero_run l in
          if (best.2 <? n)%nat then longest_run fuel' (i + n + 1) (drop (n + 1) l) (i, n)
          else longest_run fuel' (i + 1) l' best
      end
  end.

Definition dotted (ip : list Z) : string := join_with "." (map (fun b => pretty b) ip).

Definition IP_String (ip : list Z) : string :=
  match To4 ip with
  | Some p4 => dotted p4
  | None =>
      if (length ip =? 0)%nat then "<nil>"
      else if negb (length ip =? 16)%nat then "?" +:+ join_with "" (map hex2 ip)
      else
        let g := hextets ip in
        let '(e0, n) := longest_run 8 0 g (0%nat, 1%nat) in
        if (n <=? 1)%nat then join_with ":" (map hex_trim g)
        else join_with ":" (map hex_trim (take e0 g)) +:+ "::"
             +:+ join_with ":" (map hex_trim (drop (e0 + n) g))
  end.

(** * IPv4 round trip *)

Definition all_bytes : list Z := map Z.of_nat (seq 0 256).

Lemma is_byte_elem z : is_byte z -> z ∈ all_bytes.
Proof.
  unfold is_byte, all_bytes. intros H. apply list_elem_of_fmap. exists (Z.to_nat z).
  split; [lia|]. apply elem_of_seq. lia.
Qed.

Lemma digit_nondigit_stop n rest : first_nondigit rest = true -> dtoi_go n rest = Some (n, rest).
Proof. destruct rest as [|a rest]; simpl; [done|]. by destruct (digit a). Qed.

Lemma dtoi_go_app n v ds rest :
  dtoi_go n ds = Some (v, EmptyString) -> first_nondigit rest = true ->
  dtoi_go n (ds +:+ rest) = Some (v, rest).
Proof.
  revert n. induction ds as [|a ds IH]; intros n; simpl.
  - intros [= ->]. apply digit_nondigit_stop.
  - destruct (digit a) as [d|]; [|done]. destruct (16777215 <=? 10 * n + d); [done|]. apply IH.
Qed.

Lemma octet_app v ds rest :
  octet ds = Some (v, EmptyString) -> first_nondigit rest = true ->
  octet (ds +:+ rest) = Some (v, rest).
Proof.
  unfold octet, dtoi. destruct ds as [|a ds]; [done|].
  change (first_nondigit (String a ds +:+ rest)) with (first_nondigit (String a ds)).
  destruct (first_nondigit (String a ds)); [done|].
  intros H Hr. destruct (dtoi_go 0 (String a ds)) as [[v' r']|] eqn:E; [|done].
  simpl in H. destruct (255 <? v') eqn:Ev; simplify_eq.
  rewrite (dtoi_go_app _ _ _ _ E Hr). simpl. by rewrite Ev.
Qed.

Definition octet_ok (z : Z) : bool :=
  match octet (pretty z) with Some (v, EmptyString) => v =? z | _ => false end.

Lemma octet_pretty z rest :
  is_byte z -> first_nondigit rest = true -> octet (pretty z +:+ rest) = Some (z, rest).
Proof.
  intros Hz. apply octet_app. apply is_byte_elem, list_elem_of_In in Hz.
  assert (forallb octet_ok all_bytes = true) as H by by vm_compute.
  rewrite forallb_forall in H. specialize (H z Hz). unfold octet_ok in H.
  destruct (octet (pretty z)) as [[v []]|]; [|done|done]. by apply Z.eqb_eq in H as ->.
Qed.

Lemma dot_cons s : dot ("." +:+ s) = Some s.
Proof. done. Qed.

Lemma parseIPv4_dotted a b c d :
  Forall is_byte [a; b; c; d] -> parseIPv4 (dotted [a; b; c; d]) = Some [a; b; c; d].
Proof.
  rewrite !Forall_cons. intros (Ha & Hb & Hc & Hd & _).
  unfold dotted, parseIPv4. cbn [map join_with].
  do 3 (rewrite octet_pretty by done; cbn [mbind option_bind snd]; rewrite dot_cons; cbn [mbind option_bind]).
  rewrite <- (string_app_nil_r (pretty d)), octet_pretty by done. done.
Qed.

Lemma cut_slash_app s t :
  occurs slash s = 0%nat -> cut_slash (s +:+ String slash t) = Some (s, t).
Proof.
  induction s as [|a s IH]; [done|].
  change (String a s +:+ String slash t) with (String a (s +:+ String slash t)).
  cbn [occurs cut_slash]. destruct (Ascii.eqb a slash); [done|]. intros H. by rewrite IH.
Qed.

Definition digits_ok (z : Z) : bool :=
  (occurs slash (pretty z) =? 0)%nat
  && match dtoi (pretty z) with Some (v, EmptyString) => v =? z | _ => false end.

Lemma digits_ok_byte z : is_byte z -> digits_ok z = true.
Proof.
  intros Hz%is_byte_elem%list_elem_of_In.
  assert (forallb digits_ok all_bytes = true) as H by by vm_compute.
  rewrite forallb_forall in H. by apply H.
Qed.

Lemma occurs_slash_pretty z : is_byte z -> occurs slash (pretty z) = 0%nat.
Proof. intros [H _]%digits_ok_byte%andb_true_iff. by apply Nat.eqb_eq. Qed.

Lemma dtoi_pretty z : is_byte z -> dtoi (pretty z) = Some (z, EmptyString).
Proof.
  intros [_ H]%digits_ok_byte%andb_true_iff.
  destruct (dtoi (pretty z)) as [[v []]|]; [|done|done]. by apply Z.eqb_eq in H as ->.
Qed.

Lemma occurs_slash_dotted a b c d :
  Forall is_byte [a; b; c; d] -> occurs slash (dotted [a; b; c; d]) = 0%nat.
Proof.
  rewrite !Forall_cons. intros (Ha & Hb & Hc & Hd & _). unfold dotted. cbn [map join_with].
  rewrite !occurs_app, !occurs_slash_pretty by done. done.
Qed.

(** The text of an IPv4 address with a prefix length is parsed back. *)
Lemma ParseCIDR_dotted a b c d n :
  Forall is_byte [a; b; c; d] -> 0 <= n <= 32 ->
  ParseCIDR (dotted [a; b; c; d] +:+ String slash (pretty n)) = Some ([a; b; c; d], n).
Proof.
  intros H Hn. unfold ParseCIDR.
  rewrite cut_slash_app by by apply occurs_slash_dotted. cbn [mbind option_bind].
  rewrite parseIPv4_dotted by done. cbn [mbind option_bind].
  rewrite dtoi_pretty by (unfold is_byte; lia). cbn [mbind option_bind].
  destruct (Z.ltb_spec (8 * 4) n); [lia|done].
Qed.
