(* ===== verification/Utils.v ===== *)
(** ovs/utils.go: MAC and IP arithmetic, interface queries, shell commands and the
    systemd service that runs the gateway script. *)

From S2P Require Import Prelude OvsNotation OvsTypes World NetIP.

Local Open Scope go_scope.

Definition serviceName : string := "/etc/systemd/system/linkerGateway.service".
Definition nl : string := String "010"%char EmptyString.

(** * Addresses *)

(** [copy(hw[2:], ip.To4())] on a zeroed array of six bytes; a nil slice copies
    nothing. *)
Definition makeMac (ip : list Z) : string :=
  let hw := [122; 66; 0; 0; 0; 0]%Z in
  HardwareAddr_String (match To4 ip with
                       | Some p4 => take 2 hw ++ take 4 p4 ++ drop (2 + length (take 4 p4)) hw
                       | None => hw
                       end).

Definition zero_after (i : nat) (networkAddr : list Z) : list Z :=
  foldl (fun a xi => <[xi := 0%Z]> a) networkAddr (seq (i + 1) (15 - i)).

(** The loop on [i], from [i] = [n] - 1 down to 0. The bytes are incremented in
    place: the result is the argument's own array. *)
Fixpoint ipIncrement_from (n : nat) (networkAddr : list Z) : outcome (list Z) :=
  match n with
  | O => Returned networkAddr
  | S i =>
      let? b := index networkAddr i in
      if (b <? 255)%Z then Returned (zero_after i (<[i := (b + 1)%Z]> networkAddr))
      else ipIncrement_from i networkAddr
  end.

Definition ipIncrement (networkAddr : list Z) : outcome (list Z) := ipIncrement_from 16 networkAddr.

(** * Interfaces *)

Definition getIfaceAddr (name : string) : prog (option IPNet * option error) :=
  let! r := call (ELinkByName name) in
  match r with
  | inl e => Ret (None, Some e)
  | inr iface =>
      let! r := call (EAddrList iface) in
      match r with
      | inl e => Ret (None, Some e)
      | inr [] => Ret (None, Some (Errorf "Interface %s has no IP addresses" [name]))
      | inr (a0 :: _) => Ret (Some a0, None)
      end
  end.

(** The loop of setInterfaceIP: the link, or the error of the last attempt. *)
Fixpoint find_link (retries : nat) (name : string) (last : error + option Link)
    : prog (error + option Link) :=
  match retries with
  | O => Ret last
  | S n =>
      let! r := call (ELinkByName name) in
      match r with
      | inr iface => Ret (inr (Some iface))
      | inl e => call (ESleep 2) ;;; find_link n name (inl e)
      end
  end.

Definition setInterfaceIP (name rawIP : string) : prog (option error) :=
  let! r := find_link 2 name (inr None) in
  match r with
  | inl _ => Fatalf
  | inr iface =>
      match ParseCIDR rawIP with
      | None => Ret (Some (Errorf "invalid CIDR address: %s" [rawIP]))
      | Some (ip, ones) =>
          match iface with
          | Some l => call (EAddrAdd l (mkIPNet ip ones))
          | None => panic "nil link"
          end
      end
  end.

Definition validateIface (ifaceStr : string) : prog bool :=
  let! err := call (EInterfaceByName ifaceStr) in
  match err with
  | Some _ => Ret false
  | None => Ret true
  end.

(** * Commands *)

Fixpoint trim_left_nl (s : string) : string :=
  match s with
  | String a s' => if Ascii.eqb a "010"%char then trim_left_nl s' else s
  | EmptyString => EmptyString
  end.

Fixpoint trim_right_nl (s : string) : string :=
  match s with
  | EmptyString => EmptyString
  | String a s' =>
      match trim_right_nl s' with
      | EmptyString => if Ascii.eqb a "010"%char then EmptyString else String a EmptyString
      | t => String a t
      end
  end.

(** [strings.Trim(s, "\n")] *)
Definition trim_nl (s : string) : string := trim_right_nl (trim_left_nl s).

Definition trim_output (bytes : string) : string :=
  if String.length bytes =? 0 then "" else trim_nl bytes.

Definition ExecCommandWithComplete (input : string) : prog (string * string * option error) :=
  let cmd := ["/bin/bash"; "-c"; input] in
  let! err := call (EStdoutPipe cmd) in
  match err with Some e => Ret ("", "", Some e) | None =>
  let! err := call (EStderrPipe cmd) in
  match err with Some e => Ret ("", "", Some e) | None =>
  let! err := call (EStart cmd) in
  match err with Some e => Ret ("", "", Some e) | None =>
  let! (bytesErr, err) := call (EReadAllStderr cmd) in
  match err with Some e => Ret ("", "", Some e) | None =>
  let reterrput := trim_output bytesErr in
  let! (bytes, err) := call (EReadAllStdout cmd) in
  match err with Some e => Ret ("", reterrput, Some e) | None =>
  let retoutput := trim_output bytes in
  let! err := call (EWait cmd) in
  match err with
  | Some e => Ret (retoutput, reterrput, Some e)
  | None => Ret (retoutput, reterrput, None)
  end end end end end end.

(** * The gateway service *)

(** The template systemDConfig, executed with the command. *)
Definition systemDConfig (command : string) : string :=
  "[Unit]" +:+ nl +:+ "Description=Linker pgateway or sgateway process" +:+ nl +:+
  "[Service]" +:+ nl +:+ "ExecStart=" +:+ command +:+ nl +:+
  "[Install]" +:+ nl +:+ "WantedBy=multi-user.target" +:+ nl.

Definition systemctl (args : list string) : prog (option error) := call (ERun ("systemctl" :: args)).

(** What StartOvsService does once the file is open; the file is closed by a defer. *)
Definition start_service (input : string) : prog (option error) :=
  let! err := call (EFileWrite serviceName (systemDConfig input)) in
  match err with Some e => Ret (Some e) | None =>
  let! err := systemctl ["daemon-reload"] in
  match err with Some e => Ret (Some e) | None =>
  let! err := systemctl ["start"; "linkerGateway.service"] in
  match err with Some e => Ret (Some e) | None =>
  let! _ := systemctl ["enable"; "linkerGateway.service"] in
  Ret None
  end end end.

Definition StartOvsService (input : string) : prog (option error) :=
  let! err := call (EOsCreate serviceName) in
  match err with
  | Some e => Ret (Some e)
  | None =>
      let! r := start_service input in
      let! _ := call (EFileClose serviceName) in
      Ret r
  end.

Definition stopOvsService : prog (option error) :=
  let! err := systemctl ["stop"; "linkerGateway.service"] in
  match err with Some e => Ret (Some e) | None =>
  let! _ := systemctl ["disable"; "linkerGateway.service"] in
  let! err := call (EOsRemove serviceName) in
  match err with Some e => Ret (Some e) | None => Ret None end
  end.

(** * Frames *)

Lemma getIfaceAddr_frame R `{!PreOrder R} n : frame R (getIfaceAddr n).
Proof. unfold getIfaceAddr. frame_tac. Qed.
Lemma find_link_frame R `{!PreOrder R} k n l : frame R (find_link k n l).
Proof. revert l. induction k as [|k IH]; intros l; simpl; frame_tac; apply IH. Qed.
#[export] Hint Resolve getIfaceAddr_frame find_link_frame : go_frame.
Lemma setInterfaceIP_frame R `{!PreOrder R} n ip : frame R (setInterfaceIP n ip).
Proof. unfold setInterfaceIP. frame_tac. Qed.
Lemma validateIface_frame R `{!PreOrder R} n : frame R (validateIface n).
Proof. unfold validateIface. frame_tac. Qed.
Lemma ExecCommandWithComplete_frame R `{!PreOrder R} i : frame R (ExecCommandWithComplete i).
Proof. unfold ExecCommandWithComplete. frame_tac. Qed.
Lemma StartOvsService_frame R `{!PreOrder R} i : frame R (StartOvsService i).
Proof. unfold StartOvsService, start_service, systemctl. frame_tac. Qed.
Lemma stopOvsService_frame R `{!PreOrder R} : frame R stopOvsService.
Proof. unfold stopOvsService, systemctl. frame_tac. Qed.
#[export] Hint Resolve setInterfaceIP_frame validateIface_frame ExecCommandWithComplete_frame
  StartOvsService_frame stopOvsService_frame : go_frame.

(** * Incrementing an address *)

(** The number a big-endian byte string denotes. *)
Definition be_val (l : list Z) : Z := foldl (fun acc b => acc * 256 + b)%Z 0%Z l.

Lemma be_val_acc acc l :
  (foldl (fun acc b => acc * 256 + b) acc l = acc * 256 ^ Z.of_nat (length l) + be_val l)%Z.
Proof.
  unfold be_val. revert acc. induction l as [|b l IH]; intros acc; cbn [foldl length].
  - rewrite Z.pow_0_r. lia.
  - rewrite IH, (IH (0 * 256 + b)%Z), Nat2Z.inj_succ, Z.pow_succ_r by lia. ring.
Qed.

Lemma be_val_app l1 l2 : (be_val (l1 ++ l2) = be_val l1 * 256 ^ Z.of_nat (length l2) + be_val l2)%Z.
Proof. unfold be_val at 1. rewrite foldl_app. apply be_val_acc. Qed.

Lemma be_val_replicate k b : (be_val (replicate k b) * 255 = b * (256 ^ Z.of_nat k - 1))%Z.
Proof.
  induction k as [|k IH]; [cbn; lia|].
  replace (S k) with (k + 1) by lia. rewrite replicate_add, be_val_app. cbn [length replicate].
  rewrite Nat2Z.inj_add, Z.pow_add_r by lia. change (be_val [b]) with b. cbn [Z.of_nat]. nia.
Qed.

Lemma be_val_bound l : Forall is_byte l -> (be_val l < 256 ^ Z.of_nat (length l))%Z.
Proof.
  induction l as [|b l IH] using rev_ind; intros Hl; [cbn; lia|].
  apply Forall_app in Hl as [Hl Hb%Forall_cons_1%proj1]. unfold is_byte in Hb.
  rewrite be_val_app, length_app. cbn [length]. change (be_val [b]) with b.
  rewrite Nat2Z.inj_add, Z.pow_add_r, Z.pow_1_r by lia. specialize (IH Hl). nia.
Qed.

(** Either every byte is 255, or the last byte that is not is followed by 255s. *)
Lemma split_trailing (l : list Z) :
  Forall is_byte l ->
  l = replicate (length l) 255%Z \/
  exists pre b k, l = pre ++ b :: replicate k 255%Z /\ (0 <= b < 255)%Z.
Proof.
  induction l as [|x l IH] using rev_ind; intros Hl; [by left|].
  apply Forall_app in Hl as [Hl Hx%Forall_cons_1%proj1].
  rewrite length_app. cbn [length].
  destruct (decide (x = 255%Z)) as [->|Hne].
  - destruct (IH Hl) as [Heq|(pre & b & k & Heq & Hb)].
    + left. rewrite replicate_add. cbn [replicate]. congruence.
    + right. exists pre, b, (k + 1). split; [|done].
      rewrite replicate_add, Heq, <- app_assoc. done.
  - right. exists l, x, 0. split; [done|]. unfold is_byte in Hx. lia.
Qed.

Lemma zero_after_spec i l :
  length l = 16 -> i < 16 -> zero_after i l = take (S i) l ++ replicate (15 - i) 0%Z.
Proof.
  intros Hl Hi. unfold zero_after.
  assert (forall n, i + 1 + n <= 16 ->
    foldl (fun a xi => <[xi := 0%Z]> a) l (seq (i + 1) n)
    = take (S i) l ++ replicate n 0%Z ++ drop (i + 1 + n) l) as Hgen.
  { induction n as [|n IH]; intros Hn.
    - cbn [seq foldl replicate app]. rewrite Nat.add_0_r. replace (i + 1) with (S i) by lia.
      by rewrite take_drop.
    - rewrite seq_S, foldl_app, IH by lia. cbn [foldl].
      rewrite insert_app_r_alt by (rewrite length_take; lia).
      rewrite length_take, Hl. replace (i + 1 + n - S i `min` 16) with n by lia.
      rewrite insert_app_r_alt by (rewrite length_replicate; lia).
      rewrite length_replicate, Nat.sub_diag.
      destruct (drop (i + 1 + n) l) as [|x r] eqn:E.
      { apply (f_equal length) in E. rewrite length_drop in E. cbn in E. lia. }
      cbn [insert list_insert]. rewrite replicate_S_end, <- !app_assoc. cbn [app].
      replace (i + 1 + S n) with ((i + 1 + n) + 1) by lia. rewrite <- drop_drop, E. done. }
  rewrite Hgen by lia. rewrite drop_ge by lia. by rewrite app_nil_r.
Qed.

Lemma ipIncrement_from_carry pre b k j :
  length (pre ++ b :: replicate k 255%Z) = 16 -> (b < 255)%Z -> j <= k ->
  ipIncrement_from (length pre + 1 + j) (pre ++ b :: replicate k 255%Z)
  = Returned (pre ++ (b + 1)%Z :: replicate k 0%Z).
Proof.
  intros Hl Hb. rewrite length_app in Hl. cbn [length] in Hl. rewrite length_replicate in Hl.
  induction j as [|j IH]; intros Hj.
  - replace (length pre + 1 + 0) with (S (length pre)) by lia. cbn [ipIncrement_from].
    unfold index. rewrite lookup_app_r, Nat.sub_diag by lia. cbn [lookup list_lookup obind].
    destruct (Z.ltb_spec b 255); [|lia]. f_equal.
    rewrite insert_app_r_alt, Nat.sub_diag by lia. cbn [insert list_insert].
    rewrite zero_after_spec.
    + rewrite take_app_ge by lia.
      replace (S (length pre) - length pre) with 1 by lia. cbn [take].
      rewrite <- app_assoc. cbn [app]. rewrite take_0. by replace (15 - length pre) with k by lia.
    + rewrite length_app. cbn [length]. rewrite length_replicate. lia.
    + lia.
  - replace (length pre + 1 + S j) with (S (length pre + 1 + j)) by lia. cbn [ipIncrement_from].
    unfold index. rewrite lookup_app_r by lia.
    replace (length pre + 1 + j - length pre) with (S j) by lia.
    change ((b :: replicate k 255%Z) !! S j) with (replicate k 255%Z !! j).
    rewrite lookup_replicate_2 by lia. cbn [obind]. rewrite Z.ltb_irrefl. apply IH. lia.
Qed.

Lemma ipIncrement_from_ones n k :
  n <= k -> ipIncrement_from n (replicate k 255%Z) = Returned (replicate k 255%Z).
Proof.
  induction n as [|n IH]; intros Hn; [done|]. cbn [ipIncrement_from]. unfold index.
  rewrite lookup_replicate_2 by lia. cbn [obind]. rewrite Z.ltb_irrefl. apply IH. lia.
Qed.

(** C25: on a 16-byte address ipIncrement returns the address whose big-endian
    value is one more, except on the highest address, which it returns unchanged;
    the result again consists of 16 bytes. *)
Theorem ipIncrement_spec ip :
  length ip = 16 -> Forall is_byte ip ->
  exists ip', ipIncrement ip = Returned ip' /\ length ip' = 16 /\ Forall is_byte ip' /\
    be_val ip' = (if decide (be_val ip = 2 ^ 128 - 1)%Z then be_val ip else be_val ip + 1)%Z.
Proof.
  intros Hl Hb. destruct (split_trailing ip Hb) as [Hones|(pre & b & k & -> & Hbb)].
  - rewrite Hl in Hones. subst ip. exists (replicate 16 255%Z).
    split; [by apply ipIncrement_from_ones|]. by repeat split.
  - exists (pre ++ (b + 1)%Z :: replicate k 0%Z).
    rewrite length_app in Hl. cbn [length] in Hl. rewrite length_replicate in Hl.
    split; [|split; [|split]].
    + unfold ipIncrement. replace 16 with (length pre + 1 + k) by lia.
      apply ipIncrement_from_carry; [|lia|lia].
      rewrite length_app. cbn [length]. rewrite length_replicate. lia.
    + rewrite length_app. cbn [length]. rewrite length_replicate. lia.
    + apply Forall_app in Hb as [Hp _]. apply Forall_app. split; [done|].
      constructor; [unfold is_byte; lia|]. apply Forall_replicate. unfold is_byte; lia.
    + pose proof (be_val_app (pre ++ [b]) (replicate k 255%Z)) as E1.
      pose proof (be_val_app (pre ++ [(b + 1)%Z]) (replicate k 0%Z)) as E2.
      rewrite <- app_assoc in E1, E2. cbn [app] in E1, E2. rewrite E1, E2, !be_val_app.
      rewrite !length_replicate. cbn [length]. change (be_val [b]) with b.
      change (be_val [(b + 1)%Z]) with (b + 1)%Z.
      pose proof (be_val_replicate k 255). pose proof (be_val_replicate k 0).
      destruct (decide _) as [Heq|]; [|lia].
      exfalso. rewrite Z.pow_1_r in Heq.
      pose proof (Z.pow_pos_nonneg 256 (Z.of_nat k) ltac:(lia) ltac:(lia)).
      assert (2 ^ 128 = 256 ^ Z.of_nat (length pre) * 256 * 256 ^ Z.of_nat k)%Z as E3.
      { change 256%Z with (256 ^ 1)%Z at 2. rewrite <- !Z.pow_add_r by lia.
        replace (Z.of_nat (length pre) + 1 + Z.of_nat k)%Z with 16%Z by lia. done. }
      rewrite E3 in Heq.
      assert (be_val pre < 256 ^ Z.of_nat (length pre))%Z.
      { apply be_val_bound. by apply Forall_app in Hb as [? _]. }
      nia.
Qed.

Lemma ipIncrement_spec_witness :
  ipIncrement (replicate 10 0 ++ [255; 255; 10; 0; 0; 255])%Z
  = Returned (replicate 10 0 ++ [255; 255; 10; 0; 1; 0])%Z /\
  exists ip', ipIncrement (replicate 10 0 ++ [255; 255; 10; 0; 0; 255])%Z = Returned ip' /\
    length ip' = 16 /\ Forall is_byte ip' /\
    be_val ip' = (if decide (be_val (replicate 10 0 ++ [255; 255; 10; 0; 0; 255]) = 2 ^ 128 - 1)
                  then be_val (replicate 10 0 ++ [255; 255; 10; 0; 0; 255])
                  else be_val (replicate 10 0 ++ [255; 255; 10; 0; 0; 255]) + 1)%Z.
Proof.
  split; [by vm_compute|]. apply ipIncrement_spec; [by vm_compute|].
  repeat (constructor; [unfold is_byte; lia|]). constructor.
Defined.

(** On an address of fewer than 16 bytes, such as the 4-byte form of an IPv4
    address, ipIncrement crashes. *)
Theorem ipIncrement_short ip : length ip < 16 -> panics (ipIncrement ip).
Proof.
  intros Hl. unfold ipIncrement. cbn [ipIncrement_from]. unfold index.
  rewrite lookup_ge_None_2 by lia. by eexists.
Qed.

Lemma ipIncrement_short_witness : panics (ipIncrement [192; 168; 1; 1]%Z).
Proof. apply ipIncrement_short. vm_compute. lia. Defined.

(** * MAC addresses *)

Definition hex2_back (s : string) : Z :=
  match s with
  | String a (String b _) => (16 * default 0 (hexdigit a) + default 0 (hexdigit b))%Z
  | _ => 0%Z
  end.

Lemma hex2_inv b rest : is_byte b -> hex2_back (hex2 b +:+ rest) = b.
Proof.
  intros Hb%is_byte_elem%list_elem_of_In.
  assert (forallb (fun b => Z.eqb (hex2_back (hex2 b)) b) all_bytes = true) as H by by vm_compute.
  rewrite forallb_forall in H. apply Z.eqb_eq. exact (H b Hb).
Qed.

Lemma hex2_app_inj a b x y :
  is_byte a -> is_byte b -> hex2 a +:+ x = hex2 b +:+ y -> a = b /\ x = y.
Proof.
  intros Ha Hb H. split; [by rewrite <- (hex2_inv a x Ha), <- (hex2_inv b y Hb), H|].
  unfold hex2 in H. cbn in H. by injection H.
Qed.

Lemma To4_length ip p : To4 ip = Some p -> length p = 4.
Proof.
  unfold To4. destruct (Nat.eqb_spec (length ip) 4); [by intros [= <-]|].
  destruct (Nat.eqb_spec (length ip) 16) as [H|]; [|done]. simpl.
  destruct (_ && _)%bool; [|done]. intros [= <-]. rewrite length_drop. lia.
Qed.

Lemma makeMac_v4 ip a b c d :
  To4 ip = Some [a; b; c; d] ->
  makeMac ip = "7a:42:" +:+ hex2 a +:+ ":" +:+ hex2 b +:+ ":" +:+ hex2 c +:+ ":" +:+ hex2 d.
Proof. intros H. unfold makeMac. rewrite H. done. Qed.

(** The MAC addresses generated for two IPv4 addresses (in 4-byte or 16-byte
    form) are equal only if the addresses are the same. *)
Theorem makeMac_inj ip ip' p p' :
  To4 ip = Some p -> To4 ip' = Some p' -> Forall is_byte p -> Forall is_byte p' ->
  makeMac ip = makeMac ip' -> p = p'.
Proof.
  intros H H' Hb Hb'.
  destruct p as [|a [|b [|c [|d []]]]]; try by apply To4_length in H.
  destruct p' as [|a' [|b' [|c' [|d' []]]]]; try by apply To4_length in H'.
  rewrite (makeMac_v4 _ _ _ _ _ H), (makeMac_v4 _ _ _ _ _ H').
  rewrite !Forall_cons in Hb, Hb'. destruct Hb as (?&?&?&?&_), Hb' as (?&?&?&?&_).
  intros E.  apply (inj (String.append "7a:42:")) in E.
  apply hex2_app_inj in E as [-> E]; [|done|done]. apply (inj (String.append ":")) in E.
  apply hex2_app_inj in E as [-> E]; [|done|done]. apply (inj (String.append ":")) in E.
  apply hex2_app_inj in E as [-> E]; [|done|done]. apply (inj (String.append ":")) in E.
  rewrite <- (string_app_nil_r (hex2 d)), <- (string_app_nil_r (hex2 d')) in E.
  by apply hex2_app_inj in E as [-> _].
Qed.

Lemma makeMac_inj_witness :
  To4 (replicate 10 0 ++ [255; 255; 10; 1; 2; 3])%Z = Some [10; 1; 2; 3]%Z /\
  [10; 1; 2; 3]%Z = [10; 1; 2; 3]%Z.
Proof.
  split; [done|].
  apply (makeMac_inj (replicate 10 0 ++ [255; 255; 10; 1; 2; 3])%Z [10; 1; 2; 3]%Z); try done;
    repeat (constructor; [unfold is_byte; lia|]); constructor.
Defined.

(** * The service file and systemd *)

Definition service_calls (input : string) : list ext :=
  [EOsCreate serviceName;
   EFileWrite serviceName (systemDConfig input);
   ERun ["systemctl"; "daemon-reload"];
   ERun ["systemctl"; "start"; "linkerGateway.service"];
   ERun ["systemctl"; "enable"; "linkerGateway.service"];
   EFileClose serviceName].

Definition start_post (input : string) (o : outcome (option error)) (t : trace) : Prop :=
  match o with
  | Returned None => exts t = service_calls input
  | Returned (Some e) =>
      exts t = [EOsCreate serviceName] \/
      exists n, 2 <= n <= 4 /\ exts t = take n (service_calls input) ++ [EFileClose serviceName]
  | Halted _ => False
  end.

Lemma wp_StartOvsService input s tr :
  wp (StartOvsService input) s tr (fun o s' tr' =>
    s' = s /\ exists t, tr' = tr ++ t /\ start_post input o t).
Proof.
  unfold StartOvsService, start_service, systemctl. wp_norm.
  intros [e|] _; wp_norm; [split; [done|]; eexists [_]; split; [done|]; simpl; by left|].
  intros [e|] _; wp_norm.
  { intros ? _. split; [done|]. eexists [_; _; _]. split; [by rewrite <- !app_assoc|].
    simpl. right. exists 2. by split; [lia|]. }
  intros [e|] _; wp_norm.
  { intros ? _. split; [done|]. eexists [_; _; _; _]. split; [by rewrite <- !app_assoc|].
    simpl. right. exists 3. by split; [lia|]. }
  intros [e|] _; wp_norm.
  { intros ? _. split; [done|]. eexists [_; _; _; _; _]. split; [by rewrite <- !app_assoc|].
    simpl. right. exists 4. by split; [lia|]. }
  intros ? _ ? _. split; [done|]. eexists [_; _; _; _; _; _]. split; [by rewrite <- !app_assoc|].
  done.
Qed.

(** StartOvsService writes the unit file with the command, reloads systemd,
    starts and enables the service, in that order, and closes the file; it reports
    success exactly after all of these, stops at the first step that fails, and
    closes the file it created on every path. *)
Theorem StartOvsService_effects {W} {H : Host W} input s (w : W) :
  let f := run (StartOvsService input) s w in
  state f = s /\ start_post input (out f) (log f).
Proof.
  cbv zeta. destruct (wp_run _ _ w _ (wp_StartOvsService input s [])) as [Hs (t & Ht & Hp)].
  split; [done|]. simpl in Ht. by rewrite Ht.
Qed.
