(* ===== verification/Iptables.v ===== *)
(** libnetwork's iptables package (Godeps/.../docker/libnetwork/iptables): locating the
    binary and running it, which is all the plugin calls; the operations on chains are in
    IptablesChain. The plugin never
    starts the firewalld client, but the branch is the code's. The mutex that
    serialises runs without the xtables lock is not modelled. *)

From S2P Require Import Prelude OvsNotation OvsTypes World.

Local Open Scope go_scope.

(** [strings.Contains] *)
Fixpoint Contains (s sub : string) : bool :=
  String.prefix sub s || match s with
                         | EmptyString => false
                         | String _ s' => Contains s' sub
                         end.

(** The text of an error built without arguments. *)
Definition Error_text (e : error) : string := err_format e.

Definition ErrIptablesNotFound : error := errors_New "Iptables not found".

Definition initCheck : prog (option error) :=
  let! path := gets iptablesPath in
  if String.eqb path "" then
    let! r := call (ELookPath "iptables") in
    match r with
    | inl _ => Ret (Some ErrIptablesNotFound)
    | inr path =>
        let! xlock := gets supportsXlock in
        modify (set_iptables path xlock) ;;;
        let! err := call (ERun [path; "--wait"; "-L"; "-n"]) in
        modify (set_iptables path (match err with None => true | Some _ => false end)) ;;;
        Ret None
    end
  else Ret None.

(** The part of Raw that runs the binary. *)
Definition raw_exec (args : list string) : prog (string * option error) :=
  let! err := initCheck in
  match err with
  | Some e => Ret ("", Some e)
  | None =>
      let! xlock := gets supportsXlock in
      let! path := gets iptablesPath in
      let args := if xlock : bool then "--wait" :: args else args in
      let! (output, err) := call (ECombinedOutput (path :: args)) in
      match err with
      | Some e =>
          Ret ("", Some (Errorf "iptables failed: iptables %v: %s (%s)"
                                [String.concat " " args; output; Error_text e]))
      | None => Ret (if Contains output "waiting for it to exit" then "" else output, None)
      end
  end.

Definition Raw (args : list string) : prog (string * option error) :=
  let! fw := gets firewalldRunning in
  if fw : bool then
    let! (output, err) := call (EPassthrough args) in
    match err with
    | None => Ret (output, None)
    | Some e =>
        if negb (Contains (Error_text e) "was not provided by any .service files")
        then Ret (output, Some e)
        else raw_exec args
    end
  else raw_exec args.

(** * Frames *)

Lemma initCheck_networks : frame same_networks initCheck.
Proof. unfold initCheck. frame_tac; done. Qed.
#[export] Hint Resolve initCheck_networks : go_frame.

Lemma Raw_networks args : frame same_networks (Raw args).
Proof. unfold Raw, raw_exec. frame_tac. Qed.
#[export] Hint Resolve Raw_networks : go_frame.

(** * Runs without firewalld *)

(** What the binary is called with, once its path is known. *)
Definition iptables_argv (path : string) (xlock : bool) (args : list string) : list string :=
  path :: (if xlock then "--wait" :: args else args).

Lemma wp_Raw_known args s tr (Q : outcome (string * option error) -> St -> trace -> Prop) :
  firewalldRunning s = false -> iptablesPath s <> "" ->
  (forall output err,
     Q (Returned (match err with
                  | None => (if Contains output "waiting for it to exit" then "" else output, None)
                  | Some e => ("", Some (Errorf "iptables failed: iptables %v: %s (%s)"
                       [String.concat " " (tail (iptables_argv (iptablesPath s) (supportsXlock s) args));
                        output; Error_text e]))
                  end)) s
       (tr ++ [Entry (ECombinedOutput (iptables_argv (iptablesPath s) (supportsXlock s) args))
                     (output, err)])) ->
  wp (Raw args) s tr Q.
Proof.
  intros Hfw Hpath HQ. unfold Raw, raw_exec, initCheck. wp_norm. rewrite Hfw. wp_norm.
  destruct (String.eqb_spec (iptablesPath s) ""); [done|]. wp_norm.
  intros [output err] _. specialize (HQ output err). unfold iptables_argv in *. cbn [tail] in HQ.
  destruct err; exact HQ.
Qed.

(** * Runs of Raw in general *)

(** The call of the binary, with the path and the lock option of the package. *)
Definition iptables_call (s : St) (args : list string) : ext :=
  ECombinedOutput (iptables_argv (iptablesPath s) (supportsXlock s) args).

(** firewalld is not on the bus: its error is no answer about the rule. *)
Definition unprovided (e : error) : bool :=
  Contains (Error_text e) "was not provided by any .service files".

(** What the binary's output and error become. *)
Definition raw_result (s : St) (args : list string) (output : string) (err : option error)
    : string * option error :=
  match err with
  | None => (if Contains output "waiting for it to exit" then "" else output, None)
  | Some e => ("", Some (Errorf "iptables failed: iptables %v: %s (%s)"
                 [String.concat " " (tail (iptables_argv (iptablesPath s) (supportsXlock s) args));
                  output; Error_text e]))
  end.

(** The calls before the binary is looked for: none without firewalld, and with it a
    request that found firewalld gone. *)
Definition passed_on (s : St) (args : list string) (t : trace) : Prop :=
  (firewalldRunning s = false /\ t = []) \/
  (firewalldRunning s = true /\ exists o e, unprovided e = true /\
     t = [Entry (EPassthrough args) (o, Some e)]).

(** The binary is known, or it is looked up and asked whether it has the lock option,
    and both are remembered. *)
Definition located (s : St) (t : trace) (s' : St) : Prop :=
  (iptablesPath s <> "" /\ t = [] /\ s' = s) \/
  (iptablesPath s = "" /\ exists path err,
     t = [Entry (ELookPath "iptables") (inr path); Entry (ERun [path; "--wait"; "-L"; "-n"]) err] /\
     s' = set_iptables path (match err with None => true | Some _ => false end) s).

(** The runs of Raw: the calls made, the memory left and the result. *)
Inductive raw_run (s : St) (args : list string) : trace -> St -> string * option error -> Prop :=
| raw_firewalld o err :
    firewalldRunning s = true -> (forall e, err = Some e -> unprovided e = false) ->
    raw_run s args [Entry (EPassthrough args) (o, err)] s (o, err)
| raw_missing t e :
    passed_on s args t -> iptablesPath s = "" ->
    raw_run s args (t ++ [Entry (ELookPath "iptables") (inl e)]) s ("", Some ErrIptablesNotFound)
| raw_binary t t' s' output err :
    passed_on s args t -> located s t' s' ->
    raw_run s args (t ++ t' ++ [Entry (iptables_call s' args) (output, err)]) s'
            (raw_result s' args output err).

Lemma wp_raw_exec args s tr t (Q : outcome (string * option error) -> St -> trace -> Prop) :
  passed_on s args t ->
  (forall t s' r, raw_run s args t s' r -> Q (Returned r) s' (tr ++ t)) ->
  wp (raw_exec args) s (tr ++ t) Q.
Proof.
  intros Hp HQ. unfold raw_exec, initCheck. wp_norm.
  destruct (String.eqb_spec (iptablesPath s) "") as [E|E]; wp_norm.
  - intros [e|path] _; wp_norm; rewrite <- app_assoc.
    { apply HQ. by apply raw_missing. }
    intros err _. rewrite <- app_assoc. intros [output eo] _.
    match goal with |- wp _ ?s2 _ _ => set (s' := s2) end.
    assert (s' = set_iptables path (match err with None => true | Some _ => false end) s) as Es by done.
    pose proof (raw_binary s args t _ s' output eo Hp
                  (or_intror (conj E (ex_intro _ path (ex_intro _ err (conj eq_refl Es))))))
      as Hr%HQ.
    rewrite <- !app_assoc. cbn [app] in *. destruct eo; exact Hr.
  - intros [output eo] _.
    pose proof (raw_binary s args t [] s output eo Hp (or_introl (conj E (conj eq_refl eq_refl))))
      as Hr%HQ.
    rewrite <- app_assoc. destruct eo; exact Hr.
Qed.

(** Raw makes one of these runs, whatever the state of the package and the host. *)
Lemma wp_Raw args s tr (Q : outcome (string * option error) -> St -> trace -> Prop) :
  (forall t s' r, raw_run s args t s' r -> Q (Returned r) s' (tr ++ t)) ->
  wp (Raw args) s tr Q.
Proof.
  intros HQ. unfold Raw. wp_norm. destruct (firewalldRunning s) eqn:Ef; wp_norm.
  2: { rewrite <- (app_nil_r tr). apply wp_raw_exec; [by left|done]. }
  intros [o [e|]] _; wp_norm; [|apply HQ; by apply raw_firewalld].
  destruct (unprovided e) eqn:Eu; unfold unprovided in Eu; rewrite Eu; cbn [negb].
  - apply wp_raw_exec; [|done]. right. split; [done|]. by exists o, e.
  - apply HQ. apply raw_firewalld; [done|]. by intros e' [= <-].
Qed.
