(* ===== verification/Client.v ===== *)
(** The OVSDB client of libovsdb (Godeps/.../socketplane/libovsdb/client.go):
    connecting and reading the schemas, validated transactions, monitoring, and
    the dispatch of update notifications. A call over the connection is the
    external call [ERpc]; its JSON result is decoded here. *)

From S2P Require Import Prelude OvsNotation OvsTypes World.

Local Open Scope go_scope.

(** Decoding the body of a reply: a type error becomes the error of the call
    (rpc2's readResponse), a crash of an UnmarshalJSON method is one of the process. *)
Definition reply_body {A} (d : dec A) : prog (option A * option error) :=
  match d with
  | DVal a => Ret (Some a, None)
  | DErr => Ret (None, Some (errors_New "reading body "))
  | DHalt h => Stop h
  end.

Definition rpc {A} (method : string) (args : list json) (decode : json -> dec A)
    : prog (option A * option error) :=
  let! r := call (ERpc method args) in
  match r with
  | RpcError e => Ret (None, Some e)
  | RpcResult j => reply_body (decode j)
  end.

(** [Transact]: the results, nil on an error. *)
Definition Transact (database : string) (operation : list Operation)
    : prog (list OperationResult * option error) :=
  let! schemas := gets Schema in
  match schemas !! database with
  | None => Ret ([], Some (errors_New "invalid Database Schema"))
  | Some db =>
      if negb (validateOperations db operation)
      then Ret ([], Some (errors_New "Validation failed for the operation"))
      else
        let! (reply, err) := rpc "transact" (NewTransactArgs database operation) decode_results in
        match err, reply with
        | None, Some rs => Ret (rs, None)
        | _, _ => Ret ([], err)
        end
  end.

Definition GetSchema (dbName : string) : prog (option DatabaseSchema * option error) :=
  let! (reply, err) := rpc "get_schema" (NewGetSchemaArgs dbName) decode_schema in
  match err, reply with
  | None, Some sch => modify (set_Schema (fun m => <[dbName := sch]> m)) ;;; Ret (Some sch, None)
  | _, _ => Ret (None, err)
  end.

(** A nil argument is sent as [[null]]; a failure ends the process. *)
Definition ListDbs : prog (list string) :=
  let! (dbs, err) := rpc "list_dbs" [JNull] decode_strings in
  match err, dbs with
  | None, Some l => Ret l
  | _, _ => Fatalf
  end.

Definition DEFAULT_ADDR : string := "127.0.0.1".
Definition DEFAULT_PORT : Z := 6640.

(** The schemas of the listed databases, one after the other. *)
Fixpoint read_schemas (dbs : list string) : prog (option error) :=
  match dbs with
  | [] => Ret None
  | db :: rest =>
      let! (schema, err) := GetSchema db in
      match err, schema with
      | None, Some sch => modify (set_Schema (fun m => <[db := sch]> m)) ;;; read_schemas rest
      | _, _ => Ret err
      end
  end.

(** [Connect]: nil for no error. Handlers and goroutines are set up on the new
    connection before the schemas are read. *)
Definition Connect (ipAddr : string) (port : Z) : prog (option error) :=
  let ipAddr := if String.eqb ipAddr "" then DEFAULT_ADDR else ipAddr in
  let port := if (port <=? 0)%Z then DEFAULT_PORT else port in
  let target := ipAddr +:+ ":" +:+ pretty port in
  let! err := call (EDial target) in
  match err with
  | Some e => Ret (Some e)
  | None =>
      modify (set_alive true) ;;;
      modify (set_Schema (fun _ => ∅)) ;;;
      let! dbs := ListDbs in
      read_schemas dbs
  end.

Definition Register : prog unit := modify add_handler.

(** * Monitoring *)

Fixpoint traverse {K A} (f : K -> prog A) (l : list K) : prog (list A) :=
  match l with
  | [] => Ret []
  | k :: ks => let! a := f k in let! rest := traverse f ks in Ret (a :: rest)
  end.

Definition MonitorSelect_all : json :=
  JObj [("initial", JBool true); ("insert", JBool true); ("delete", JBool true); ("modify", JBool true)].

Definition MonitorRequest_marshal (columns : list string) : json :=
  JObj (omitempty "columns" (fun l => JArr (map JStr l)) (nilb columns) columns
        ++ [("select", MonitorSelect_all)]).

(** The request for one table: its columns in the order the loop meets them. *)
Definition table_request (tables : gmap string TableSchema) (table : string)
    : prog (string * json) :=
  match tables !! table with
  | Some tableSchema =>
      let! columns := call (ERange (map_to_list (TColumns tableSchema)).*1) in
      Ret (table, MonitorRequest_marshal columns)
  | None => Ret (table, MonitorRequest_marshal [])
  end.

Definition Monitor (database : string) (jsonContext : json) (requests : list (string * json))
    : prog (option TableUpdates * option error) :=
  let! (response, err) :=
     rpc "monitor" [JStr database; jsonContext; JObj (smap_of requests)] decode_rowupdates in
  match err, response with
  | None, Some raw => Ret (Some (getTableUpdatesFromRawUnmarshal raw), None)
  | _, _ => Ret (None, err)
  end.

Definition MonitorAll (database : string) (jsonContext : json)
    : prog (option TableUpdates * option error) :=
  let! schemas := gets Schema in
  match schemas !! database with
  | None => Ret (None, Some (errors_New "invalid Database Schema"))
  | Some schema =>
      let! tables := call (ERange (map_to_list (Tables schema)).*1) in
      let! requests := traverse (table_request (Tables schema)) tables in
      Monitor database jsonContext requests
  end.

(** * Update notifications *)

Fixpoint repeat_prog (n : nat) (p : prog unit) : prog unit :=
  match n with
  | O => Ret tt
  | S n' => p ;;; repeat_prog n' p
  end.

(** The handler of the "update" method; [notify] is the Update method of the
    registered NotificationHandlers. *)
Definition update (notify : TableUpdates -> prog unit) (params : list gval)
    : prog (option error) :=
  match params with
  | _ :: p1 :: _ =>
      match p1 with
      | VMap raw =>
          match decode_rowupdates (marshal (VMap raw)) with
          | DVal rowUpdates =>
              let tableUpdates := getTableUpdatesFromRawUnmarshal rowUpdates in
              let! ok := gets alive in
              let! n := gets handlers in
              (if ok : bool then repeat_prog n (notify tableUpdates) else Ret tt) ;;;
              Ret None
          | DErr => Ret (Some (errors_New "json: cannot unmarshal"))
          | DHalt h => Stop h
          end
      | _ => Ret (Some (errors_New "Invalid Update message"))
      end
  | _ => Ret (Some (errors_New "Invalid Update message"))
  end.

(** The handler of the "echo" method: the arguments are the reply. *)
Definition echo (notify : prog unit) (args : list gval) : prog (list gval) :=
  let! ok := gets alive in
  let! n := gets handlers in
  (if ok : bool then repeat_prog n notify else Ret tt) ;;;
  Ret args.

(** What handleDisconnectNotification runs when the connection has gone away;
    [disconnected] is the Disconnected method of the registered handlers. *)
Definition clearConnection (disconnected : prog unit) : prog unit :=
  let! ok := gets alive in
  let! n := gets handlers in
  (if ok : bool then repeat_prog n disconnected else Ret tt) ;;;
  modify (set_alive false).

(** * Frames *)

Definition rpc_or_range (e : ext) : Prop :=
  match e with ERpc _ _ | ERange _ => True | _ => False end.

Definition is_rpc (e : ext) : Prop := match e with ERpc _ _ => True | _ => False end.

Lemma rpc_frame {A} R `{!PreOrder R} m args (d : json -> dec A) : frame R (rpc m args d).
Proof. unfold rpc, reply_body. frame_tac. Qed.
#[export] Hint Resolve rpc_frame : go_frame.

Lemma rpc_only {A} m args (d : json -> dec A) : only is_rpc (rpc m args d).
Proof. unfold rpc, reply_body. frame_tac. done. Qed.
#[export] Hint Resolve rpc_only : go_frame.

Lemma Transact_frame R `{!PreOrder R} db ops : frame R (Transact db ops).
Proof. unfold Transact. frame_tac. Qed.
#[export] Hint Resolve Transact_frame : go_frame.

Lemma Transact_only db ops : only is_rpc (Transact db ops).
Proof. unfold Transact. frame_tac. Qed.
#[export] Hint Resolve Transact_only : go_frame.

(** * What a transaction can do *)

Definition transact_call (db : string) (ops : list Operation) : ext :=
  ERpc "transact" (NewTransactArgs db ops).

(** The part of a log a transaction leaves: nothing, when it was not sent, or the
    one call. *)
Definition tx_attempt (db : string) (ops : list Operation) (t : trace) : Prop :=
  t = [] \/ exists r, t = [Entry (transact_call db ops) r].

(** The transaction was sent and answered with these results. *)
Definition tx_answered (db : string) (ops : list Operation) (t : trace)
    (reply : list OperationResult) : Prop :=
  exists j, t = [Entry (transact_call db ops) (RpcResult j)] /\ decode_results j = DVal reply.

(** The server replied with a result, which may still fail to decode. *)
Definition tx_replied (db : string) (ops : list Operation) (t : trace) : Prop :=
  exists j, t = [Entry (transact_call db ops) (RpcResult j)].

Lemma tx_answered_replied db ops t reply : tx_answered db ops t reply -> tx_replied db ops t.
Proof. intros (j & -> & _). by eexists. Qed.

Lemma tx_replied_attempt db ops t : tx_replied db ops t -> tx_attempt db ops t.
Proof. intros (j & ->). right. by eexists. Qed.

Lemma tx_answered_attempt db ops t reply : tx_answered db ops t reply -> tx_attempt db ops t.
Proof. intros (j & -> & _). right. by eexists. Qed.

Lemma wp_Transact db ops s tr (Q : outcome (list OperationResult * option error) -> St -> trace -> Prop) :
  (forall err t, tx_attempt db ops t -> Q (Returned ([], Some err)) s (tr ++ t)) ->
  (forall reply t, tx_answered db ops t reply -> Q (Returned (reply, None)) s (tr ++ t)) ->
  (forall h t, tx_replied db ops t -> Q (Halted h) s (tr ++ t)) ->
  wp (Transact db ops) s tr Q.
Proof.
  intros Herr Hok Hhalt. unfold Transact. wp_norm.
  assert (forall err, Q (Returned ([], Some err)) s tr) as Herr0.
  { intros err. specialize (Herr err [] (or_introl eq_refl)). by rewrite app_nil_r in Herr. }
  destruct (Schema s !! db) as [sch|]; [|by simpl].
  destruct (validateOperations sch ops); simpl; [|done].
  intros r _. destruct r as [j|e]; simpl; [|apply Herr; right; by eexists].
  destruct (decode_results j) as [rs| |h] eqn:E; simpl.
  - apply Hok. by exists j.
  - apply Herr. right. by eexists.
  - apply Hhalt. by eexists.
Qed.

(** A transaction on a database whose schema is unknown, or with an operation
    that does not conform to the schema, is not sent: no call is made and the
    results are nil. *)
Theorem Transact_validates {W} {H : Host W} db ops s (w : W) :
  (forall sch, Schema s !! db = Some sch -> Exists (fun op => ~ op_conforms sch op) ops) ->
  let f := run (Transact db ops) s w in
  log f = [] /\ exists e, out f = Returned ([], Some e).
Proof.
  intros Hbad. cbv zeta. unfold run, Transact. simpl.
  destruct (Schema s !! db) as [sch|] eqn:E; [|simpl; eauto].
  assert (validateOperations sch ops = false) as ->.
  { apply not_true_iff_false. rewrite validateOperations_conform.
    specialize (Hbad sch eq_refl). intros Hall. rewrite Forall_forall in Hall.
    apply Exists_exists in Hbad as (op & Hin & Hop). apply Hop, Hall, Hin. }
  simpl. eauto.
Qed.

Definition good_host : Host (list ext) := history_host (fun _ => good) (fun _ => good_legal).

Definition st0 : St := mkSt ∅ ∅ ∅ true true ∅ 0 "" false false.

(** A connection whose only database has an empty schema. *)
Definition st_no_tables : St := set_Schema (fun _ => {["Open_vSwitch" := mkSchema "" "" ∅]}) st0.

Lemma Transact_validates_witness :
  let f := @run _ _ good_host (Transact "Open_vSwitch" [op0 "select" "Port"]) st_no_tables [] in
  log f = [] /\ exists e, out f = Returned ([], Some e).
Proof.
  apply (@Transact_validates _ good_host).
  intros sch [= <-]. constructor. intros (table & Ht & _). done.
Defined.
