(* ===== verification/Ovsdb.v ===== *)
(** ovs/ovsdb.go: the cache of the OVSDB tables, kept up to date by notifications,
    and the queries the driver makes. *)

From S2P Require Import Prelude OvsNotation OvsTypes World Client.

Local Open Scope go_scope.

Definition localhost : string := "127.0.0.1".
Definition ovsdbPort : Z := 6640.
Definition contextKey : string := "container_id".
Definition contextValue : string := "container_data".
Definition Open_vSwitch : string := "Open_vSwitch".

(** * The cache *)

(** [ovsdbCache[table]]: the nil map, which reads as empty, when it is absent. *)
Definition table_of (c : gmap string (gmap string Row)) (table : string) : gmap string Row :=
  default ∅ (c !! table).

Definition getTableCache (tableName : string) : prog (gmap string Row) :=
  gets (fun s => table_of (ovsdbCache s) tableName).

Definition ensure_table (table : string) (c : gmap string (gmap string Row))
    : gmap string (gmap string Row) :=
  match c !! table with
  | None => <[table := ∅]> c
  | Some _ => c
  end.

Definition populate_row (table uuid : string) (row : RowUpdate) : prog (option unit) :=
  (if negb (row_is_empty (New row))
   then modify (set_cache (alter (fun t => <[uuid := New row]> t) table))
   else modify (set_cache (alter (fun t => delete uuid t) table))) ;;;
  Ret None.

Definition populate_table (table : string) (tableUpdate : TableUpdate) : prog (option unit) :=
  modify (set_cache (ensure_table table)) ;;;
  let! _ := range (Rows tableUpdate) (populate_row table) in
  Ret None.

Definition populateCache (updates : TableUpdates) : prog unit :=
  let! _ := range (Updates updates) populate_table in
  Ret tt.

(** OvsdbNotifier.Update. The other methods of the notifier do nothing. *)
Definition OvsdbNotifier_Update (tableUpdates : TableUpdates) : prog unit :=
  populateCache tableUpdates ;;;
  call (EUpdateSend tableUpdates).

Definition or_empty (o : option string) : string := default "" o.

Definition getRootUUID : prog string :=
  let! t := getTableCache "Open_vSwitch" in
  let! r := range t (fun uuid _ => Ret (Some uuid)) in
  Ret (or_empty r).

(** Two lookups by name in a cached table: getBridgeUUIDForName of ovs_bridge.go
    and portUUIDForName of ovs_port.go. [val.Fields["name"] == name] compares an
    interface with a string. *)
Definition name_is (name : string) (r : Row) : bool :=
  match Fields_get r "name" with
  | Some (VString n) => String.eqb n name
  | _ => false
  end.

Definition uuid_by_name (table name : string) : prog string :=
  let! t := getTableCache table in
  let! r := range t (fun key val => Ret (if name_is name val then Some key else None)) in
  Ret (or_empty r).

Definition getBridgeUUIDForName (name : string) : prog string := uuid_by_name "Bridge" name.
Definition portUUIDForName (portName : string) : prog string := uuid_by_name "Port" portName.

(** One row of the Interface table: the assertion on other_config comes before the
    test that it is there. *)
Definition context_row (row : Row) : prog (option unit) :=
  match Fields_get row "other_config" with
  | Some (VOvsMap otherConfig) =>
      match gomap_get (VString contextKey) otherConfig with
      | Some (VString containerID) =>
          match gomap_get (VString contextValue) otherConfig with
          | Some (VString v) =>
              modify (set_contextCache (fun m => <[containerID := v]> m)) ;;; Ret None
          | _ => Stop type_assertion_failed
          end
      | Some _ =>
          Stop type_assertion_failed
      | None => Ret None
      end
  | _ => Stop type_assertion_failed
  end.

Definition populateContextCache : prog unit :=
  let! ok := gets connected in
  if negb ok then Ret tt
  else
    let! tableCache := getTableCache "Interface" in
    let! _ := range tableCache (fun _ row => context_row row) in
    Ret tt.

(** * Queries *)

Definition select_op (table column value : string) : Operation :=
  mkOp "select" table [] [] [] [] 0 [NewCondition column "==" (VString value)] "" "".

Definition few_replies : error :=
  errors_New "Number of Replies should be at least equal to number of Operations".

(** The first part of each query: one select, and the checks on its reply. *)
Definition select_rows (table column value : string) : prog (error + list (smap gval)) :=
  let operations := [select_op table column value] in
  let! (reply, _) := Transact Open_vSwitch operations in
  if length reply <? length operations then Ret (inl few_replies)
  else
    let! r0 := lift (index reply 0) in
    if negb (String.eqb (ResError r0) "")
    then Ret (inl (Errorf "Transaction Failed due to an error: %v" [ResError r0]))
    else Ret (inr (ResRows r0)).

Definition portExists (portName : string) : prog (bool * option error) :=
  let! r := select_rows "Port" "name" portName in
  match r with
  | inl e => Ret (false, Some e)
  | inr rows => if length rows =? 0 then Ret (false, None) else Ret (true, None)
  end.

(** [rets[0][column].(string)] *)
Definition column_string (rets : list (smap gval)) (column : string) : prog string :=
  let! row := lift (index rets 0) in
  match sget column row with
  | Some (VString v) => Ret v
  | _ => Stop type_assertion_failed
  end.

Definition query_column (column value wanted none : string) : prog (string * option error) :=
  let! r := select_rows "BridgeOpt" column value in
  match r with
  | inl e => Ret ("", Some e)
  | inr rets =>
      if length rets <=? 0 then Ret ("", Some (errors_New none))
      else
        let! v := column_string rets wanted in
        Ret (v, None)
  end.

Definition getBridgeServiceType (bridgeName : string) : prog (string * option error) :=
  query_column "name" bridgeName "service_type" "no record with bridge name".

Definition getNetworkidByBridgeName (bridgeName : string) : prog (string * option error) :=
  query_column "name" bridgeName "network_id" "no record with bridge name".

Definition getBridgeNameByNetworkId (networkid : string) : prog (string * option error) :=
  query_column "network_id" networkid "name" "no record with networkid".

(** * Frames *)

Definition cache_keeps (s s' : St) : Prop := same_networks s s' /\ same_cache s s'.

Lemma getTableCache_frame R `{!PreOrder R} t : frame R (getTableCache t).
Proof. unfold getTableCache. frame_tac. Qed.
#[export] Hint Resolve getTableCache_frame : go_frame.

Lemma uuid_by_name_frame R `{!PreOrder R} t n : frame R (uuid_by_name t n).
Proof. unfold uuid_by_name. frame_tac. Qed.
#[export] Hint Resolve uuid_by_name_frame : go_frame.

Lemma getBridgeUUIDForName_frame R `{!PreOrder R} n : frame R (getBridgeUUIDForName n).
Proof. unfold getBridgeUUIDForName. frame_tac. Qed.
Lemma portUUIDForName_frame R `{!PreOrder R} n : frame R (portUUIDForName n).
Proof. unfold portUUIDForName. frame_tac. Qed.
Lemma getRootUUID_frame R `{!PreOrder R} : frame R getRootUUID.
Proof. unfold getRootUUID. frame_tac. Qed.
#[export] Hint Resolve getBridgeUUIDForName_frame portUUIDForName_frame getRootUUID_frame : go_frame.

Lemma select_rows_frame R `{!PreOrder R} t c v : frame R (select_rows t c v).
Proof. unfold select_rows. frame_tac. Qed.
#[export] Hint Resolve select_rows_frame : go_frame.

Lemma portExists_frame R `{!PreOrder R} n : frame R (portExists n).
Proof. unfold portExists. frame_tac. Qed.
Lemma query_column_frame R `{!PreOrder R} c v w n : frame R (query_column c v w n).
Proof. unfold query_column, column_string. frame_tac. Qed.
#[export] Hint Resolve portExists_frame query_column_frame : go_frame.

Lemma getBridgeServiceType_frame R `{!PreOrder R} n : frame R (getBridgeServiceType n).
Proof. unfold getBridgeServiceType. frame_tac. Qed.
Lemma getNetworkidByBridgeName_frame R `{!PreOrder R} n : frame R (getNetworkidByBridgeName n).
Proof. unfold getNetworkidByBridgeName. frame_tac. Qed.
Lemma getBridgeNameByNetworkId_frame R `{!PreOrder R} n : frame R (getBridgeNameByNetworkId n).
Proof. unfold getBridgeNameByNetworkId. frame_tac. Qed.
#[export] Hint Resolve getBridgeServiceType_frame getNetworkidByBridgeName_frame
  getBridgeNameByNetworkId_frame : go_frame.

(** * The cache after an update, as a function *)

Definition row_change (up : RowUpdate) (_ : option Row) : option Row :=
  if row_is_empty (New up) then None else Some (New up).

Definition apply_rows (rows : gmap string RowUpdate) (t : gmap string Row) : gmap string Row :=
  merge (upd_merge row_change) rows t.

Definition table_change (tu : TableUpdate) (t : option (gmap string Row))
    : option (gmap string Row) :=
  Some (apply_rows (Rows tu) (default ∅ t)).

(** Per table and per row: the new row if the notification has one, no row if it
    reports a deletion, the old row if it says nothing. *)
Definition apply_updates (u : TableUpdates) (c : gmap string (gmap string Row))
    : gmap string (gmap string Row) :=
  merge (upd_merge table_change) (Updates u) c.

Definition with_cache (c : gmap string (gmap string Row)) (s : St) : St := set_cache (fun _ => c) s.

Lemma wp_populate_row table uuid rows row s tr t :
  rows !! uuid = Some row -> ovsdbCache s !! table = Some t ->
  wp (populate_row table uuid row) s tr (fun o s' _ =>
    o = Returned None /\
    s' = with_cache (<[table := upd_step row_change rows t uuid]> (ovsdbCache s)) s).
Proof.
  intros Hrow Ht. unfold populate_row, upd_step. rewrite Hrow. unfold row_change.
  destruct (row_is_empty (New row)); cbn; (split; [done|]); unfold set_cache, with_cache, set_cache;
    f_equal; apply map_eq; intros k; rewrite lookup_alter, lookup_insert;
    (destruct (decide (table = k)) as [->|]; [by rewrite Ht|done]).
Qed.

Lemma wp_populate_rows table rows s tr t :
  ovsdbCache s !! table = Some t ->
  wp (range rows (populate_row table)) s tr (fun o s' _ =>
    o = Returned None /\
    s' = with_cache (<[table := apply_rows rows t]> (ovsdbCache s)) s).
Proof.
  intros Ht. unfold range. cbn [bind call wp]. intros order Ho.
  destruct (range_keys rows order Ho) as [Hnd Hkeys].
  eapply wp_mono; [|apply (wp_for_each_inv (fun pre s' =>
    s' = with_cache (<[table := foldl (upd_step row_change rows) t pre]> (ovsdbCache s)) s))].
  - cbn beta. intros o s' _ [-> ->]. split; [done|].
    by rewrite (upd_steps_all row_change rows t order Hnd Hkeys).
  - intros pre k rest s' tr' -> ->.
    assert (is_Some (rows !! k)) as [row Hrow] by (apply Hkeys; set_solver).
    rewrite Hrow. eapply wp_mono; [|eapply (wp_populate_row _ _ rows); [done|]].
    + cbn beta. intros o s' _ [-> ->]. split; [done|].
      unfold with_cache, set_cache; simpl. by rewrite foldl_app, insert_insert_eq.
    + simpl. by rewrite lookup_insert_eq.
  - unfold with_cache, set_cache. simpl. rewrite insert_id by done. by destruct s.
Qed.

Lemma wp_populate_table table tu s tr :
  wp (populate_table table tu) s tr (fun o s' _ =>
    o = Returned None /\
    s' = with_cache (partial_alter (table_change tu) table (ovsdbCache s)) s).
Proof.
  unfold populate_table. cbn [bind modify wp].
  eapply wp_seq; [apply (wp_populate_rows _ _ _ _ (table_of (ovsdbCache s) table))| |].
  - simpl. unfold ensure_table, table_of.
    destruct (ovsdbCache s !! table) eqn:E; simpl; [done|by rewrite lookup_insert_eq].
  - cbn beta. intros a s' tr' [_ ->]. cbn. split; [done|].
    unfold with_cache, set_cache; simpl. f_equal. apply map_eq. intros k.
    unfold table_change, ensure_table, table_of.
    destruct (decide (table = k)) as [->|Hne].
    + rewrite lookup_insert_eq, lookup_partial_alter_eq. by destruct (ovsdbCache s !! k).
    + rewrite lookup_insert_ne, lookup_partial_alter_ne by done.
      destruct (ovsdbCache s !! table); [done|by rewrite lookup_insert_ne].
  - by intros h s' tr' [? _].
Qed.

Lemma wp_populateCache u s tr :
  wp (populateCache u) s tr (fun o s' _ =>
    o = Returned tt /\ s' = with_cache (apply_updates u (ovsdbCache s)) s).
Proof.
  unfold populateCache, range. cbn [bind call wp]. intros order Ho.
  destruct (range_keys _ order Ho) as [Hnd Hkeys]. apply wp_bind.
  eapply wp_mono; [|apply (wp_for_each_inv (fun pre s' =>
    s' = with_cache (foldl (upd_step table_change (Updates u)) (ovsdbCache s) pre) s))].
  - intros o s' tr' [-> ->]. cbn. split; [done|].
    by rewrite (upd_steps_all table_change (Updates u) _ order Hnd Hkeys).
  - intros pre k rest s' tr' -> ->.
    assert (is_Some (Updates u !! k)) as [tu Htu] by (apply Hkeys; set_solver).
    rewrite Htu. eapply wp_mono; [|apply wp_populate_table].
    cbn beta. intros o s' _ [-> ->]. split; [done|].
    unfold with_cache, set_cache; simpl. rewrite foldl_app. cbn [foldl].
    unfold upd_step at 2. by rewrite Htu.
  - by destruct s.
Qed.

(** C3: whatever the order in which Go visits the tables and the rows of a
    notification, populateCache terminates without a crash and leaves the cache
    equal to [apply_updates]: an inserted or modified row is replaced by its new
    version, a deleted row is removed, and nothing else changes. *)
Theorem populateCache_spec {W} {H : Host W} u s (w : W) :
  let f := run (populateCache u) s w in
  out f = Returned tt /\ state f = with_cache (apply_updates u (ovsdbCache s)) s.
Proof. exact (wp_run _ _ _ _ (wp_populateCache u s [])). Qed.

(** * Lookups in the cache *)

Lemma wp_search_table (t : gmap string Row) (g : string -> Row -> option string) s tr Q :
  (forall r t',
     match r with
     | Some a => exists key row, t !! key = Some row /\ g key row = Some a
     | None => forall key row, t !! key = Some row -> g key row = None
     end -> Q (Returned (or_empty r)) s (tr ++ t')) ->
  wp (let! r := range t (fun key val => Ret (g key val)) in Ret (or_empty r)) s tr Q.
Proof.
  intros HQ. unfold range. cbn [bind call wp]. intros order Ho.
  destruct (range_keys t order Ho) as [_ Hkeys]. apply wp_bind.
  apply (wp_search (fun k => match t !! k with Some v => g k v | None => None end)).
  { intros k. by destruct (t !! k). }
  simpl. apply HQ. pose proof (first_some_spec
    (fun k => match t !! k with Some v => g k v | None => None end) order) as Hf.
  destruct (first_some _ order) as [a|].
  - destruct Hf as (k & _ & Hk). destruct (t !! k) as [row|] eqn:E; [|done].
    by exists k, row.
  - intros key row Hrow. specialize (Hf key). rewrite Hrow in Hf. apply Hf, Hkeys. by eexists.
Qed.

Lemma wp_uuid_by_name table name s tr Q :
  table_of (ovsdbCache s) table !! "" = None ->
  (forall u t,
     (u = "" /\ (forall key row, table_of (ovsdbCache s) table !! key = Some row ->
                                name_is name row = false)) \/
     (u <> "" /\ exists row, table_of (ovsdbCache s) table !! u = Some row /\
                            name_is name row = true) ->
     Q (Returned u) s (tr ++ t)) ->
  wp (uuid_by_name table name) s tr Q.
Proof.
  intros Hnokey HQ. unfold uuid_by_name, getTableCache. cbn [gets bind wp].
  apply (wp_search_table _ (fun key val => if name_is name val then Some key else None)).
  intros [a|] tr' Hr; simpl; apply HQ.
  - right. destruct Hr as (key & row & Hrow & Hn).
    destruct (name_is name row) eqn:E; simplify_eq. split; [|eauto]. intros ->. congruence.
  - left. split; [done|]. intros key row Hrow. specialize (Hr key row Hrow).
    by destruct (name_is name row).
Qed.

(** Looking up a port by name in the cache returns the UUID of a cached Port
    row with that name, whatever the order of the search, and the empty string
    exactly when no cached row has the name. The search changes nothing. *)
Theorem portUUIDForName_spec {W} {H : Host W} name s (w : W) :
  table_of (ovsdbCache s) "Port" !! "" = None ->
  let f := run (portUUIDForName name) s w in
  state f = s /\ exists u, out f = Returned u /\
    ((u = "" /\ forall key row, table_of (ovsdbCache s) "Port" !! key = Some row ->
                               name_is name row = false) \/
     (u <> "" /\ exists row, table_of (ovsdbCache s) "Port" !! u = Some row /\
                            name_is name row = true)).
Proof.
  intros Hno. cbv zeta.
  apply (wp_run (portUUIDForName name) s w (fun o s' _ => s' = s /\ exists u, o = Returned u /\ _)).
  apply wp_uuid_by_name; [done|]. intros u tr' Hu. eauto.
Qed.

Definition row_named (n : string) : Row := mkRow (Some {["name" := VString n]}).

Definition st_two_ports : St :=
  with_cache {["Port" := {["u1" := row_named "p1"; "u2" := row_named "p2"]}]} st0.

Lemma portUUIDForName_spec_witness :
  out (@run _ _ good_host (portUUIDForName "p2") st_two_ports []) = Returned "u2" /\
  state (@run _ _ good_host (portUUIDForName "p2") st_two_ports []) = st_two_ports.
Proof.
  split; [by vm_compute|].
  apply (@portUUIDForName_spec _ good_host "p2" st_two_ports []). by vm_compute.
Defined.

(** GetRootUUID returns the UUID of a row of the cached Open_vSwitch table, or
    the empty string when the table has no row yet. *)
Theorem getRootUUID_spec {W} {H : Host W} s (w : W) :
  let f := run getRootUUID s w in
  state f = s /\ exists u, out f = Returned u /\
    (is_Some (table_of (ovsdbCache s) "Open_vSwitch" !! u) \/
     (u = "" /\ table_of (ovsdbCache s) "Open_vSwitch" = ∅)).
Proof.
  cbv zeta.
  apply (wp_run getRootUUID s w (fun o s' _ => s' = s /\ exists u, o = Returned u /\ _)).
  unfold getRootUUID, getTableCache. cbn [gets bind wp].
  apply (wp_search_table _ (fun uuid _ => Some uuid)).
  intros [a|] tr' Hr; simpl; split; try done; eexists; (split; [done|]).
  - left. destruct Hr as (key & row & Hrow & [= <-]). by eexists.
  - right. split; [done|]. apply map_eq. intros key.
    destruct (table_of _ _ !! key) as [row|] eqn:E; [by specialize (Hr _ _ E)|by rewrite lookup_empty].
Qed.

(** * Queries *)

Lemma wp_select_rows table column value s tr Q :
  (forall e t, tx_attempt Open_vSwitch [select_op table column value] t ->
     Q (Returned (inl e)) s (tr ++ t)) ->
  (forall r0 rest t, tx_answered Open_vSwitch [select_op table column value] t (r0 :: rest) ->
     ResError r0 = "" -> Q (Returned (inr (ResRows r0))) s (tr ++ t)) ->
  (forall h t, tx_replied Open_vSwitch [select_op table column value] t ->
     Q (Halted h) s (tr ++ t)) ->
  wp (select_rows table column value) s tr Q.
Proof.
  intros Hl Hr Hh. unfold select_rows. apply wp_bind, wp_Transact; simpl; auto.
  intros reply t Ht. destruct reply as [|r0 rest]; simpl.
  - eauto using tx_answered_attempt, tx_answered_replied.
  - destruct (String.eqb_spec (ResError r0) ""); simpl; eauto using tx_answered_attempt, tx_answered_replied.
Qed.

(** The server answered a select on the bridge options with a first row that holds
    the wanted string. *)
Definition answered_with (column value wanted v : string) (t : trace) : Prop :=
  exists r0 rest row rows,
    tx_answered Open_vSwitch [select_op "BridgeOpt" column value] t (r0 :: rest) /\
    ResError r0 = "" /\ ResRows r0 = row :: rows /\ sget wanted row = Some (VString v).

Lemma answered_with_attempt column value wanted v t :
  answered_with column value wanted v t ->
  tx_attempt Open_vSwitch [select_op "BridgeOpt" column value] t.
Proof. intros (? & ? & ? & ? & Ht & _). by eapply tx_answered_attempt. Qed.

Lemma wp_query_column column value wanted none s tr Q :
  (forall e t, tx_attempt Open_vSwitch [select_op "BridgeOpt" column value] t ->
     Q (Returned ("", Some e)) s (tr ++ t)) ->
  (forall v t, answered_with column value wanted v t -> Q (Returned (v, None)) s (tr ++ t)) ->
  (forall h t, tx_replied Open_vSwitch [select_op "BridgeOpt" column value] t ->
     Q (Halted h) s (tr ++ t)) ->
  wp (query_column column value wanted none) s tr Q.
Proof.
  intros He Hv Hh. unfold query_column. apply wp_bind, wp_select_rows; simpl; auto.
  intros r0 rest t Ht He0. destruct (ResRows r0) as [|row rows] eqn:Er; simpl.
  - eauto using tx_answered_attempt, tx_answered_replied.
  - unfold column_string. simpl.
    destruct (sget wanted row) as [[]|] eqn:Es; simpl; eauto using tx_answered_attempt, tx_answered_replied.
    apply Hv. exists r0, rest, row, rows. auto.
Qed.

(** The bridge of a network is looked up with one select on the network_id of
    the BridgeOpt table and no other effect; when the lookup succeeds the name is
    that of the first row the server returned. *)
Theorem getBridgeNameByNetworkId_spec {W} {H : Host W} id s (w : W) :
  let f := run (getBridgeNameByNetworkId id) s w in
  state f = s /\
  tx_attempt Open_vSwitch [select_op "BridgeOpt" "network_id" id] (log f) /\
  (forall name, out f = Returned (name, None) ->
     answered_with "network_id" id "name" name (log f)) /\
  (forall name e, out f = Returned (name, Some e) -> name = "").
Proof.
  cbv zeta. apply (wp_run (getBridgeNameByNetworkId id) s w (fun o s' tr =>
    s' = s /\ tx_attempt Open_vSwitch [select_op "BridgeOpt" "network_id" id] tr /\ (forall name, o = Returned (name, None) ->
     answered_with "network_id" id "name" name tr) /\ (forall name e, o = Returned (name, Some e) -> name = ""))).
  unfold getBridgeNameByNetworkId. apply wp_query_column; cbn [app].
  - intros e t Ht. split; [done|]. split; [done|]. split; [done|]. by intros name e' [= <- _].
  - intros v t Ht. split; [done|]. split; [by eapply answered_with_attempt|].
    split; [|done]. by intros name [= <-].
  - intros h t Ht. split; [done|]. split; [by apply tx_replied_attempt|]. done.
Qed.
