(* ===== verification/Samples.v ===== *)
(** A concrete connection and concrete hosts, on which the definitions are
    evaluated: the columns of the Open_vSwitch schema the plugin uses, a cache
    with one bridge and one port, and a server that answers every operation. *)

From S2P Require Import Prelude OvsNotation OvsTypes World Client Ovsdb.

Definition sample_columns (l : list string) : TableSchema :=
  mkTable (list_to_map (map (fun c => (c, mkColumn c VNil false true)) l)) [].

Definition sample_schema : DatabaseSchema :=
  mkSchema "Open_vSwitch" "7.12.1" (list_to_map
    [("Open_vSwitch", sample_columns ["bridges"]);
     ("Bridge", sample_columns ["name"; "ports"; "stp_enable"; "datapath_type"]);
     ("BridgeOpt", sample_columns ["name"; "service_type"; "network_id"]);
     ("Port", sample_columns ["name"; "interfaces"; "tag"]);
     ("Interface", sample_columns ["name"; "type"; "options"; "other_config"])]).

Definition root_uuid : string := "e0de2079-66f0-4279-a1c8-46ba0672426e".
Definition bridge_uuid : string := "11de2079-66f0-4279-a1c8-46ba0672426e".
Definition port_uuid : string := "22de2079-66f0-4279-a1c8-46ba0672426e".

Definition sample_cache : gmap string (gmap string Row) :=
  {["Open_vSwitch" := {[root_uuid := mkRow (Some ∅)]};
    "Bridge" := {[bridge_uuid := row_named "ovsbr-12345"]};
    "Port" := {[port_uuid := row_named "ovs-veth0-abcde"]}]}.

Definition st_ready : St :=
  mkSt ∅ sample_cache ∅ true true {["Open_vSwitch" := sample_schema]} 1 "" false false.

(** The reply to one operation: rows for a select, a count otherwise. *)
Definition reply_to (rows : string -> list json) (op : json) : json :=
  match op with
  | JObj (("op", JStr "select") :: ("table", JStr t) :: _) => JObj [("rows", JArr (rows t))]
  | _ => JObj [("count", JNum "1")]
  end.

Definition server_answer (rows : string -> list json) (params : list json) : rpc_reply :=
  RpcResult (JArr (map (reply_to rows) (tail params))).

(** A host whose server holds the given rows and on which every call succeeds. *)
Definition sim_ans (rows : string -> list json) (past : list ext) (e : ext) : ans e :=
  match e return ans e with
  | ERpc m params =>
      if String.eqb m "transact" then server_answer rows params else RpcResult (JObj [])
  | e' => good e'
  end.

Lemma sim_legal rows past e : legal e (sim_ans rows past e).
Proof. destruct e; try exact (good_legal _). done. Qed.

Definition sim_host (rows : string -> list json) : Host (list ext) :=
  history_host (sim_ans rows) (sim_legal rows).

(** The options row of one bridge, and its port. *)
Definition one_bridge (svc : string) (table : string) : list json :=
  if String.eqb table "BridgeOpt" then
    [JObj [("name", JStr "ovsbr-12345"); ("service_type", JStr svc); ("network_id", JStr "12345678")]]
  else if String.eqb table "Port" then [JObj [("name", JStr "ovsbr-12345")]]
  else [].

Definition sample_host : Host (list ext) := sim_host (one_bridge "sgw").
