(* ===== verification/Ports.v ===== *)
(** ovs/ovs_port.go: the transactions that attach ports to a bridge and detach
    them. *)

From S2P Require Import Prelude OvsNotation OvsTypes World Client Ovsdb Samples.

Local Open Scope go_scope.

(** * Building transactions *)

Definition insert_op (table : string) (row : smap gval) (uuidName : string) : Operation :=
  mkOp "insert" table row [] [] [] 0 [] "" uuidName.

Definition delete_op (table : string) (condition : gval) : Operation :=
  mkOp "delete" table [] [] [] [] 0 [condition] "" "".

Definition mutate_op (table : string) (mutation condition : gval) : Operation :=
  mkOp "mutate" table [] [] [] [mutation] 0 [condition] "" "".

Definition namedPortUUID : string := "port".
Definition namedIntfUUID : string := "intf".

(** The rows of the Interface and Port tables for a new port. *)
Definition intf_row (name type : string) : smap gval :=
  sput "type" (VString type) (sput "name" (VString name) []).

Definition port_row (name : string) : smap gval :=
  sput "interfaces" (VUUID namedIntfUUID) (sput "name" (VString name) []).

Definition name_condition (name : string) : gval := NewCondition "name" "==" (VString name).

(** Insert an interface and a port, and add the port to the bridge. *)
Definition port_ops (bridgeName : string) (intf port : smap gval) : list Operation :=
  [insert_op "Interface" intf namedIntfUUID;
   insert_op "Port" port namedPortUUID;
   mutate_op "Bridge" (NewMutation "ports" "insert" (NewOvsSet [VUUID namedPortUUID]))
             (name_condition bridgeName)].

(** * Checking replies *)

Definition few_replies' : error :=
  errors_New "Number of Replies should be atleast equal to number of Operations".

(** The loop over the replies: the first one with an error ends it. [operations[i]]
    among the arguments of a message stands for itself. *)
Definition op_arg (i : nat) : string := "operations[" +:+ pretty i +:+ "]".

Fixpoint scan_replies (nops i : nat) (reply : list OperationResult)
    (inside outside : nat -> OperationResult -> error) : option error :=
  match reply with
  | [] => None
  | o :: rest =>
      if (negb (String.eqb (ResError o) "") && (i <? nops))%bool then Some (inside i o)
      else if negb (String.eqb (ResError o) "") then Some (outside i o)
      else scan_replies nops (S i) rest inside outside
  end.

(** * Operations *)

(** The port row carries a VLAN tag only when it is not 0. *)
Definition internal_port_row (portName : string) (tag : Z) : smap gval :=
  let port := port_row portName in
  if negb (Z.eqb tag 0) then sput "tag" (VUint tag) port else port.

Definition addInternalPort (bridgeName portName : string) (tag : Z) : prog (option error) :=
  let operations := port_ops bridgeName (intf_row portName "internal")
                             (internal_port_row portName tag) in
  let! (reply, _) := Transact Open_vSwitch operations in
  if length reply <? length operations then Ret (Some few_replies')
  else Ret (scan_replies (length operations) 0 reply
         (fun i o => Errorf "Transaction Failed due to an error : %v details: %v in %v"
                            [ResError o; Details o; op_arg i])
         (fun _ o => Errorf "Transaction Failed due to an error : %v" [ResError o])).

(** The error of addInternalPort is dropped. *)
Definition createOvsInternalPort (prefix bridge : string) (tag : Z) : prog (string * option error) :=
  let! ok := gets connected in
  if negb ok then Ret (prefix, Some (errors_New "OVS not connected"))
  else
    let! _ := addInternalPort bridge prefix tag in
    Ret (prefix, None).

Definition delete_port_ops (bridgeName portName portUUID : string) : list Operation :=
  [delete_op "Port" (name_condition portName);
   mutate_op "Bridge" (NewMutation "ports" "delete" (NewOvsSet [VUUID portUUID]))
             (name_condition bridgeName)].

Definition deletePort (bridgeName portName : string) : prog (option error) :=
  let! portUUID := portUUIDForName portName in
  if String.eqb portUUID ""
  then Ret (Some (Errorf "Unable to find a matching Port : [ %s ]" [portName]))
  else
    let operations := delete_port_ops bridgeName portName portUUID in
    let! (reply, _) := Transact Open_vSwitch operations in
    if length reply <? length operations then Ret (Some few_replies')
    else Ret (scan_replies (length operations) 0 reply
           (fun i o => Errorf "Transaction Failed due to an error: %s in %v" [ResError o; op_arg i])
           (fun _ o => Errorf "Transaction Failed due to an error %s" [ResError o])).

(** Errors are only printed: the loop has no other effect. *)
Definition vxlan_intf_row (portName peerAddress : string) : smap gval :=
  sput "options" (NewOvsMap (sput "remote_ip" (VString peerAddress) []))
       (intf_row portName "vxlan").

Definition addVxlanPort (bridgeName portName peerAddress : string) : prog unit :=
  let operations := port_ops bridgeName (vxlan_intf_row portName peerAddress)
                             (port_row portName) in
  let! _ := Transact Open_vSwitch operations in
  Ret tt.

(** [tag] is not used, and a short reply is only logged. *)
Definition veth_port_ops (bridgeName portName : string) : list Operation :=
  port_ops bridgeName (intf_row portName "system") (port_row portName).

Definition addOvsVethPort (bridgeName portName : string) (tag : Z) : prog (option error) :=
  let operations := veth_port_ops bridgeName portName in
  let! (reply, _) := Transact Open_vSwitch operations in
  Ret (scan_replies (length operations) 0 reply
         (fun i o => Errorf "Transaction Failed due to an error ]"
                            [ResError o; " details:"; Details o; " in "; op_arg i])
         (fun _ o => Errorf "Transaction Failed due to an error :" [ResError o])).

(** * Frames *)

Lemma addInternalPort_frame R `{!PreOrder R} b p t : frame R (addInternalPort b p t).
Proof. unfold addInternalPort. frame_tac. Qed.
#[export] Hint Resolve addInternalPort_frame : go_frame.
Lemma createOvsInternalPort_frame R `{!PreOrder R} p b t : frame R (createOvsInternalPort p b t).
Proof. unfold createOvsInternalPort. frame_tac. Qed.
Lemma deletePort_frame R `{!PreOrder R} b p : frame R (deletePort b p).
Proof. unfold deletePort. frame_tac. Qed.
Lemma addVxlanPort_frame R `{!PreOrder R} b p a : frame R (addVxlanPort b p a).
Proof. unfold addVxlanPort. frame_tac. Qed.
Lemma addOvsVethPort_frame R `{!PreOrder R} b p t : frame R (addOvsVethPort b p t).
Proof. unfold addOvsVethPort. frame_tac. Qed.
#[export] Hint Resolve createOvsInternalPort_frame deletePort_frame addVxlanPort_frame
  addOvsVethPort_frame : go_frame.

(** * Committed transactions *)

(** Every operation was answered, and no reply carries an error. *)
Definition tx_committed (ops : list Operation) (t : trace) : Prop :=
  exists reply, tx_answered Open_vSwitch ops t reply /\ length ops <= length reply /\
    Forall (fun o => ResError o = "") reply.

Definition reply_of (en : entry) : option rpc_reply :=
  match en with
  | Entry (ERpc _ _) r => Some r
  | _ => None
  end.

Lemma tx_committed_replies ops t :
  tx_committed ops t -> exists j, map reply_of t = [Some (RpcResult j)].
Proof. intros (reply & (j & -> & _) & _). by exists j. Qed.

Lemma scan_replies_None nops i reply inside outside :
  scan_replies nops i reply inside outside = None <-> Forall (fun o => ResError o = "") reply.
Proof.
  revert i. induction reply as [|o reply IH]; intros i; simpl; [split; [constructor|done]|].
  rewrite Forall_cons, <- (IH (S i)).
  destruct (String.eqb_spec (ResError o) ""), (i <? nops); simpl; naive_solver.
Qed.

(** A transaction whose replies are counted and scanned. *)
Definition checked_tx (ops : list Operation) (few : error)
    (inside outside : nat -> OperationResult -> error) : prog (option error) :=
  let! (reply, _) := Transact Open_vSwitch ops in
  if length reply <? length ops then Ret (Some few)
  else Ret (scan_replies (length ops) 0 reply inside outside).

Lemma wp_checked_tx ops few inside outside s tr Q :
  ops <> [] ->
  (forall t, tx_committed ops t -> Q (Returned None) s (tr ++ t)) ->
  (forall e t, tx_attempt Open_vSwitch ops t -> Q (Returned (Some e)) s (tr ++ t)) ->
  (forall h t, tx_replied Open_vSwitch ops t -> Q (Halted h) s (tr ++ t)) ->
  wp (checked_tx ops few inside outside) s tr Q.
Proof.
  intros Hne Hok He Hh. unfold checked_tx. apply wp_bind, wp_Transact; cbn [post_bind]; auto.
  - intros err t Ht. destruct ops; [done|]. cbn. auto.
  - intros reply t Ht. destruct (Nat.ltb_spec (length reply) (length ops)); cbn [wp].
    + eauto using tx_answered_attempt.
    + destruct (scan_replies _ _ _ _ _) as [e|] eqn:E; [eauto using tx_answered_attempt|].
      apply scan_replies_None in E. apply Hok. by exists reply.
Qed.

(** * References between the operations of a transaction *)

(** The names (strings that are not UUIDs) a value refers to. *)
Fixpoint named_refs (v : gval) : list string :=
  match v with
  | VUUID u => match validateUUID u with None => [] | Some _ => [u] end
  | VSlice l => concat (map named_refs l)
  | VMap m => concat (map (fun '(_, v) => named_refs v) m)
  | VOvsSet l => concat (map named_refs l)
  | VOvsMap m => concat (map (fun '(k, v) => named_refs k ++ named_refs v) m)
  | _ => []
  end.

Definition op_refs (o : Operation) : list string :=
  named_refs (VMap (OpRow o)) ++ concat (map named_refs (Mutations o))
  ++ concat (map named_refs (Where o)).

(** RFC 7047, 5.1: a named-uuid refers to the uuid-name of an insert of the same
    transaction; names are declared once. *)
Definition refs_resolve (ops : list Operation) : Prop :=
  NoDup (filter (fun n => n <> "") (map UUIDName ops)) /\
  forall n, n ∈ concat (map op_refs ops) ->
    exists o, o ∈ ops /\ Op o = "insert" /\ UUIDName o = n /\ n <> "".

Lemma port_ops_resolve bridgeName intf port :
  (forall n, n ∈ named_refs (VMap intf) -> False) ->
  (forall n, n ∈ named_refs (VMap port) -> n = namedIntfUUID) ->
  refs_resolve (port_ops bridgeName intf port).
Proof.
  intros Hi Hp. split; [vm_compute; repeat constructor; set_solver|].
  intros n. unfold port_ops. cbn [map concat]. unfold op_refs, insert_op, mutate_op.
  cbn [OpRow Mutations Where map concat]. rewrite !app_nil_r, !elem_of_app.
  intros [H|[H|H]].
  - by apply Hi in H.
  - apply Hp in H as ->. exists (insert_op "Interface" intf namedIntfUUID). by split; [left|].
  - exists (insert_op "Port" port namedPortUUID). split; [by right; left|].
    vm_compute in H. split; [done|]. split; [|]; set_solver.
Qed.

(** In the transactions that attach a veth, an internal or a VXLAN port, every
    named reference is declared by an insert of the same transaction. *)
Theorem attach_refs_resolve bridgeName portName tag peer :
  refs_resolve (veth_port_ops bridgeName portName) /\
  refs_resolve (port_ops bridgeName (intf_row portName "internal") (internal_port_row portName tag)) /\
  refs_resolve (port_ops bridgeName (vxlan_intf_row portName peer) (port_row portName)).
Proof.
  split; [|split]; apply port_ops_resolve.
  - intros n Hn. by apply elem_of_nil in Hn.
  - intros n Hn. vm_compute in Hn. set_solver.
  - intros n Hn. by apply elem_of_nil in Hn.
  - unfold internal_port_row. intros n Hn. destruct (negb (tag =? 0)%Z); vm_compute in Hn; set_solver.
  - intros n Hn. by apply elem_of_nil in Hn.
  - intros n Hn. vm_compute in Hn. set_solver.
Qed.

(** The transaction that attaches a veth, as it goes over the wire. *)
Theorem veth_port_wire bridgeName portName :
  transact_call Open_vSwitch (veth_port_ops bridgeName portName) =
  ERpc "transact"
    [JStr "Open_vSwitch";
     JObj [("op", JStr "insert"); ("table", JStr "Interface");
           ("row", JObj [("name", JStr portName); ("type", JStr "system")]);
           ("uuid-name", JStr "intf")];
     JObj [("op", JStr "insert"); ("table", JStr "Port");
           ("row", JObj [("interfaces", JArr [JStr "named-uuid"; JStr "intf"]);
                         ("name", JStr portName)]);
           ("uuid-name", JStr "port")];
     JObj [("op", JStr "mutate"); ("table", JStr "Bridge");
           ("mutations", JArr [JArr [JStr "ports"; JStr "insert";
              JArr [JStr "set"; JArr [JArr [JStr "named-uuid"; JStr "port"]]]]]);
           ("where", JArr [JArr [JStr "name"; JStr "=="; JStr bridgeName]])]].
Proof. reflexivity. Qed.

(** * Results *)

Lemma wp_deletePort bridgeName portName s tr (Q : outcome (option error) -> St -> trace -> Prop) :
  table_of (ovsdbCache s) "Port" !! "" = None ->
  ((forall key row, table_of (ovsdbCache s) "Port" !! key = Some row ->
                    name_is portName row = false) ->
   forall e t, Q (Returned (Some e)) s (tr ++ t)) ->
  (forall u row t0 t, table_of (ovsdbCache s) "Port" !! u = Some row ->
     name_is portName row = true ->
     tx_committed (delete_port_ops bridgeName portName u) t -> Q (Returned None) s (tr ++ t0 ++ t)) ->
  (forall u row, table_of (ovsdbCache s) "Port" !! u = Some row -> name_is portName row = true ->
     (forall e t, Q (Returned (Some e)) s (tr ++ t)) /\ (forall h t, Q (Halted h) s (tr ++ t))) ->
  wp (deletePort bridgeName portName) s tr Q.
Proof.
  intros Hno Hnone Hok Herr. unfold deletePort. apply wp_bind, wp_uuid_by_name; [done|].
  intros u tr' [[-> Hu]|[Hne (row & Hrow & Hn)]]; cbn [post_bind].
  - simpl. by apply Hnone.
  - destruct (String.eqb_spec u ""); [done|]. destruct (Herr u row Hrow Hn) as [He Hh].
    apply wp_checked_tx; [done| | |]; intros; rewrite <- app_assoc; eauto.
Qed.

(** C22: deletePort reports success only after the server has committed a
    transaction that deletes the named port and removes from the bridge the UUID
    under which the cache knows a port of that name; when the cache knows no such
    port it reports an error. It does not change the plugin's memory. *)
Theorem deletePort_success {W} {H : Host W} bridgeName portName s (w : W) :
  table_of (ovsdbCache s) "Port" !! "" = None ->
  let f := run (deletePort bridgeName portName) s w in
  state f = s /\
  (out f = Returned None ->
   exists u row t0 t1, log f = t0 ++ t1 /\
     table_of (ovsdbCache s) "Port" !! u = Some row /\ name_is portName row = true /\
     tx_committed (delete_port_ops bridgeName portName u) t1) /\
  ((forall key row, table_of (ovsdbCache s) "Port" !! key = Some row -> name_is portName row = false) ->
   exists e, out f = Returned (Some e)).
Proof.
  intros Hno. cbv zeta. apply (wp_run (deletePort bridgeName portName) s w (fun o s' tr =>
    s' = s /\ (o = Returned None -> exists u row t0 t1, tr = t0 ++ t1 /\
     table_of (ovsdbCache s) "Port" !! u = Some row /\ name_is portName row = true /\
     tx_committed (delete_port_ops bridgeName portName u) t1) /\
    ((forall key row, table_of (ovsdbCache s) "Port" !! key = Some row -> name_is portName row = false) ->
     exists e, o = Returned (Some e)))).
  apply wp_deletePort; [done| | |].
  - intros _ e tr'. split; [done|]. split; [done|]. by eexists.
  - intros u row tr' t Hrow Hn Ht. split; [done|]. split; [intros _; by exists u, row, tr', t|].
    intros Hall. by rewrite (Hall _ _ Hrow) in Hn.
  - intros u row Hrow Hn. split; [intros e|intros h]; intros tr'; (split; [done|]; split; [done|]);
      intros Hall; by rewrite (Hall _ _ Hrow) in Hn.
Qed.

Lemma deletePort_success_witness :
  let f := @run _ _ sample_host (deletePort "ovsbr-12345" "ovs-veth0-abcde") st_ready [] in
  out f = Returned None /\
  exists u row t0 t1, log f = t0 ++ t1 /\
     table_of (ovsdbCache st_ready) "Port" !! u = Some row /\
     name_is "ovs-veth0-abcde" row = true /\
     tx_committed (delete_port_ops "ovsbr-12345" "ovs-veth0-abcde" u) t1.
Proof.
  cbv zeta. split; [by vm_compute|].
  apply (@deletePort_success _ sample_host "ovsbr-12345" "ovs-veth0-abcde" st_ready []);
    by vm_compute.
Defined.

(** AddInternalPort reports success only when every operation of its
    transaction was answered without an error. *)
Theorem addInternalPort_success {W} {H : Host W} bridgeName portName tag s (w : W) :
  let f := run (addInternalPort bridgeName portName tag) s w in
  out f = Returned None ->
  tx_committed (port_ops bridgeName (intf_row portName "internal")
                         (internal_port_row portName tag)) (log f).
Proof.
  cbv zeta. apply (wp_run (addInternalPort bridgeName portName tag) s w (fun o _ tr =>
    o = Returned None -> tx_committed (port_ops bridgeName (intf_row portName "internal")
                         (internal_port_row portName tag)) tr)).
  apply wp_checked_tx; cbn [app]; done.
Qed.

Lemma addInternalPort_success_witness :
  let f := @run _ _ sample_host (addInternalPort "ovsbr-12345" "p" 5) st_ready [] in
  tx_committed (port_ops "ovsbr-12345" (intf_row "p" "internal") (internal_port_row "p" 5)) (log f).
Proof. apply (@addInternalPort_success _ sample_host). by vm_compute. Defined.

(** AddOvsVethPort reports success when its transaction was never sent or never
    answered: a connection on which every remote call fails makes it return nil
    after a failed attempt to attach the port. *)
Theorem addOvsVethPort_silent_failure {W} {H : Host W} bridgeName portName tag s (w : W) :
  (forall m params w, exists e, (answer (ERpc m params) w).1 = RpcError e) ->
  let f := run (addOvsVethPort bridgeName portName tag) s w in
  out f = Returned None /\ ~ tx_committed (veth_port_ops bridgeName portName) (log f).
Proof.
  intros Hdown. cbv zeta. unfold run, addOvsVethPort, Transact, gets. cbn [bind run_from].
  destruct (Schema s !! Open_vSwitch) as [sch|];
    [|split; [done|]; by intros [j Hj]%tx_committed_replies].
  destruct (validateOperations _ _);
    [|split; [done|]; by intros [j Hj]%tx_committed_replies].
  cbn [negb rpc bind call run_from].
  destruct (Hdown "transact" (NewTransactArgs Open_vSwitch (veth_port_ops bridgeName portName)) w)
    as [e He].
  destruct (answer _ w) as [r w']. cbn [fst] in He. subst r.
  split; [done|]. intros [j Hj]%tx_committed_replies. done.
Qed.

Definition down_ans (past : list ext) (e : ext) : ans e :=
  match e return ans e with
  | ERpc _ _ => RpcError (errors_New "connection is shut down")
  | e' => good e'
  end.

Lemma down_legal past e : legal e (down_ans past e).
Proof. destruct e; try exact (good_legal _). done. Qed.

(** A host whose OVSDB connection has been shut down. *)
Definition down_host : Host (list ext) := history_host down_ans down_legal.

Lemma addOvsVethPort_silent_failure_witness :
  let f := @run _ _ down_host (addOvsVethPort "ovsbr-12345" "p" 0) st_ready [] in
  length (log f) = 1 /\
  out f = Returned None /\ ~ tx_committed (veth_port_ops "ovsbr-12345" "p") (log f).
Proof.
  split; [by vm_compute|].
  apply (@addOvsVethPort_silent_failure _ down_host). intros m params w. by eexists.
Defined.
