(* ===== verification/Bridge.v ===== *)
(** ovs/ovs_bridge.go: creating and deleting a bridge in OVSDB, bringing its
    interface up, NAT rules and the gateway script; with interfaceUp and the
    constants of ovs/driver.go these use. *)

From S2P Require Import Prelude OvsNotation OvsTypes World NetIP Utils Iptables Client Ovsdb Samples Ports.

Local Open Scope go_scope.

Definition modeNAT : string := "nat".
Definition modeFlat : string := "flat".
Definition type_sgw : string := "sgw".
Definition type_pgw : string := "pgw".

Definition is_gateway (networkType : string) : bool :=
  EqualFold networkType type_pgw || EqualFold networkType type_sgw.

(** driver.go. On an error the nil link is dereferenced in the log statement. *)
Definition interfaceUp (name : string) : prog (option error) :=
  let! r := call (ELinkByName name) in
  match r with
  | inl _ => panic "invalid memory address or nil pointer dereference"
  | inr iface => call (ELinkSetUp iface)
  end.

(** * Creating a bridge *)

Definition namedBridgeUUID : string := "bridge".

Definition bridge_row (bridgeName servicetype : string) : smap gval :=
  let bridge :=
    sput "ports" (VUUID namedPortUUID)
      (sput "stp_enable" (VBool false) (sput "name" (VString bridgeName) [])) in
  if is_gateway servicetype then sput "datapath_type" (VString "netdev") bridge else bridge.

Definition bridgeOpt_row (bridgeName servicetype networkid : string) : smap gval :=
  sput "network_id" (VString networkid)
    (sput "service_type" (VString servicetype) (sput "name" (VString bridgeName) [])).

Definition uuid_condition (u : string) : gval := NewCondition "_uuid" "==" (VUUID u).

Definition create_bridge_ops (bridgeName servicetype networkid root : string) : list Operation :=
  [insert_op "Interface" (intf_row bridgeName "internal") namedIntfUUID;
   insert_op "Port" (port_row bridgeName) namedPortUUID;
   insert_op "Bridge" (bridge_row bridgeName servicetype) namedBridgeUUID;
   insert_op "BridgeOpt" (bridgeOpt_row bridgeName servicetype networkid) "";
   mutate_op "Open_vSwitch" (NewMutation "bridges" "insert" (NewOvsSet [VUUID namedBridgeUUID]))
             (uuid_condition root)].

Definition createOvsdbBridge (bridgeName servicetype networkid : string) : prog (option error) :=
  let! root := getRootUUID in
  let operations := create_bridge_ops bridgeName servicetype networkid root in
  let! (reply, _) := Transact Open_vSwitch operations in
  if length reply <? length operations then Ret (Some few_replies')
  else Ret (scan_replies (length operations) 0 reply
         (fun _ o => Errorf "Transaction Failed due to an error : details : "
                            [ResError o; Details o])
         (fun _ o => Errorf "Transaction Failed due to an error : details : "
                            [ResError o; Details o])).

(** The error is logged and dropped. *)
Definition createBridgeIface (name servicetype networkid : string) : prog (option error) :=
  let! _ := createOvsdbBridge name servicetype networkid in
  Ret None.

Definition addBridge (bridgeName servicetype networkid : string) : prog (option error) :=
  let! ok := gets connected in
  if negb ok then Ret (Some (errors_New "OVS not connected"))
  else
    let! (exists_, err) := portExists bridgeName in
    match err with
    | Some e => Ret (Some e)
    | None =>
        if exists_ : bool then Ret None
        else
          let! err := createBridgeIface bridgeName servicetype networkid in
          match err with
          | Some e => Ret (Some e)
          | None =>
              let! (exists_, err) := portExists bridgeName in
              match err with
              | Some e => Ret (Some e)
              | None => if exists_ : bool then Ret None
                        else Ret (Some (errors_New "Error creating Bridge"))
              end
          end
    end.

(** * NAT *)

Definition masquerade (cidr : string) : list string :=
  ["POSTROUTING"; "-t"; "nat"; "-s"; cidr; "-j"; "MASQUERADE"].

Definition natOut (cidr : string) : prog (option error) :=
  let! (_, err) := Raw ("-C" :: masquerade cidr) in
  match err with
  | None => Ret None
  | Some _ =>
      let! (output, err) := Raw ("-I" :: masquerade cidr) in
      match err with
      | Some e => Ret (Some e)
      | None =>
          if 0 <? String.length output
          then Ret (Some (Errorf "Error iptables %s: %s" ["POSTROUTING"; output]))
          else Ret None
      end
  end.

(** * The gateway script *)

Definition script_command (bridgeName networkName networkType bindInterface : string) : string :=
  "/usr/sbin/ovsopt.sh " +:+ networkType +:+ " " +:+ networkName +:+ " " +:+ bridgeName +:+ " "
  +:+ bindInterface.

Definition runOvsScript (bridgeName networkName networkType bindInterface : string) : prog unit :=
  let! _ := StartOvsService (script_command bridgeName networkName networkType bindInterface) in
  Ret tt.

(** * initBridge *)

(** [d.networks[id]], dereferenced. *)
Definition network (id : string) : prog NetworkState :=
  let! ns := gets (fun s => networks s !! id) in
  match ns with
  | Some n => Ret n
  | None => panic "invalid memory address or nil pointer dereference"
  end.

(** The loop that waits for the interface of the bridge. *)
Fixpoint wait_iface (retries : nat) (bridgeName : string) : prog bool :=
  match retries with
  | O => Ret false
  | S n =>
      let! found := validateIface bridgeName in
      if found : bool then Ret true
      else call (ESleep 2) ;;; wait_iface n bridgeName
  end.

(** The switch on the mode: addresses and NAT rules in NAT mode, nothing in flat
    mode. *)
Definition setup_mode (id bridgeName : string) : prog (option error) :=
  let! ns := network id in
  if String.eqb (Mode ns) modeNAT then
    let! ns1 := network id in
    let! ns2 := network id in
    let gatewayIP := Gateway ns1 +:+ "/" +:+ GatewayMask ns2 in
    let! _ := setInterfaceIP bridgeName gatewayIP in
    let! (_, err) := getIfaceAddr bridgeName in
    match err with
    | Some _ => Fatalf
    | None =>
        let! err := natOut gatewayIP in
        match err with
        | Some _ => Fatalf
        | None => Ret None
        end
    end
  else Ret None.

Definition initBridge (id : string) : prog (option error) :=
  let! n1 := network id in
  let! n2 := network id in
  let! n3 := network id in
  let! n4 := network id in
  let bridgeName := BridgeName n1 in
  let bindInterface := FlatBindInterface n2 in
  let networktype := NetworkType n3 in
  let networkname := NetworkName n4 in
  let! err := addBridge bridgeName networktype id in
  match err with
  | Some e => Ret (Some e)
  | None =>
      let! found := wait_iface 10 bridgeName in
      if negb found
      then Ret (Some (Errorf "Could not find a link for the OVS bridge named %s" [bridgeName]))
      else
        let! err := setup_mode id bridgeName in
        match err with
        | Some e => Ret (Some e)
        | None =>
            let! err := interfaceUp bridgeName in
            match err with
            | Some e => Ret (Some e)
            | None =>
                runOvsScript bridgeName networkname networktype bindInterface ;;;
                Ret None
            end
        end
  end.

(** * Deleting a bridge *)

Definition delete_bridge_ops (bridgeName bridgeUUID root : string) : list Operation :=
  [delete_op "Bridge" (name_condition bridgeName);
   delete_op "BridgeOpt" (name_condition bridgeName);
   mutate_op "Open_vSwitch" (NewMutation "bridges" "delete" (NewOvsSet [VUUID bridgeUUID]))
             (uuid_condition root)].

(** A short reply is only logged. *)
Definition deleteBridge (bridgeName : string) : prog (option error) :=
  let! (serviceType, _) := getBridgeServiceType bridgeName in
  let! bridgeUUID := getBridgeUUIDForName bridgeName in
  if String.eqb bridgeUUID ""
  then Ret (Some (Errorf "Unable to find a bridge uuid by name : [ %s ]" [bridgeName]))
  else
    let! root := getRootUUID in
    let operations := delete_bridge_ops bridgeName bridgeUUID root in
    let! (reply, _) := Transact Open_vSwitch operations in
    match scan_replies (length operations) 0 reply
            (fun i o => Errorf "Transaction Failed due to an error: %s in operation: %v"
                               [ResError o; op_arg i])
            (fun _ o => Errorf "Transaction Failed due to an error : %s" [ResError o]) with
    | Some e => Ret (Some e)
    | None =>
        if negb (EqualFold type_pgw serviceType) && negb (EqualFold type_sgw serviceType)
        then Ret None
        else
          let! _ := stopOvsService in
          Ret None
    end.

(** * Frames *)

Lemma interfaceUp_frame R `{!PreOrder R} n : frame R (interfaceUp n).
Proof. unfold interfaceUp. frame_tac. Qed.
Lemma createOvsdbBridge_frame R `{!PreOrder R} b t n : frame R (createOvsdbBridge b t n).
Proof. unfold createOvsdbBridge. frame_tac. Qed.
#[export] Hint Resolve interfaceUp_frame createOvsdbBridge_frame : go_frame.
Lemma createBridgeIface_frame R `{!PreOrder R} b t n : frame R (createBridgeIface b t n).
Proof. unfold createBridgeIface. frame_tac. Qed.
#[export] Hint Resolve createBridgeIface_frame : go_frame.
Lemma addBridge_frame R `{!PreOrder R} b t n : frame R (addBridge b t n).
Proof. unfold addBridge. frame_tac. Qed.
Lemma natOut_networks c : frame same_networks (natOut c).
Proof. unfold natOut. frame_tac. Qed.
Lemma runOvsScript_frame R `{!PreOrder R} a b c d : frame R (runOvsScript a b c d).
Proof. unfold runOvsScript. frame_tac. Qed.
Lemma network_frame R `{!PreOrder R} id : frame R (network id).
Proof. unfold network. frame_tac. Qed.
Lemma wait_iface_frame R `{!PreOrder R} k n : frame R (wait_iface k n).
Proof. induction k; simpl; frame_tac. Qed.
#[export] Hint Resolve addBridge_frame natOut_networks runOvsScript_frame network_frame
  wait_iface_frame : go_frame.
Lemma setup_mode_networks id b : frame same_networks (setup_mode id b).
Proof. unfold setup_mode. frame_tac. Qed.
#[export] Hint Resolve setup_mode_networks : go_frame.
Lemma initBridge_networks id : frame same_networks (initBridge id).
Proof. unfold initBridge. frame_tac. Qed.
Lemma deleteBridge_frame R `{!PreOrder R} b : frame R (deleteBridge b).
Proof. unfold deleteBridge. frame_tac. Qed.
#[export] Hint Resolve initBridge_networks deleteBridge_frame : go_frame.

(** * The transactions of a bridge *)

(** C23: in the transaction that creates a bridge, every named reference is declared
    by an insert of the same transaction, once the root row of the database is
    known by a UUID. *)
Theorem create_bridge_refs_resolve bridgeName servicetype networkid root :
  uuid_shape root -> refs_resolve (create_bridge_ops bridgeName servicetype networkid root).
Proof.
  intros Hroot%validateUUID_spec. split; [vm_compute; repeat constructor; set_solver|].
  intros n Hn.
  assert (n ∈ [namedIntfUUID; namedPortUUID; namedBridgeUUID]) as Hin.
  { unfold create_bridge_ops, op_refs, bridge_row in Hn. cbn in Hn. rewrite Hroot in Hn.
    destruct (is_gateway servicetype); cbn in Hn; exact Hn. }
  unfold create_bridge_ops. rewrite !elem_of_cons, elem_of_nil in Hin.
  destruct Hin as [->|[->|[->|[]]]].
  - eexists. split; [left|done].
  - eexists. split; [right; left|done].
  - eexists. split; [do 2 right; left|done].
Qed.

Lemma create_bridge_refs_resolve_witness :
  uuid_shape root_uuid /\ refs_resolve (create_bridge_ops "ovsbr-12345" "sgw" "12345678" root_uuid).
Proof.
  assert (uuid_shape root_uuid) as H by by apply validateUUID_spec.
  split; [exact H|exact (create_bridge_refs_resolve _ _ _ _ H)].
Defined.

(** The bridge transaction on the wire, for a gateway network: the datapath
    type is netdev, the options row carries the service type and the network id,
    and the new bridge is added to the root row. *)
Theorem create_bridge_wire bridgeName servicetype networkid root :
  is_gateway servicetype = true -> uuid_shape root ->
  transact_call Open_vSwitch (create_bridge_ops bridgeName servicetype networkid root) =
  ERpc "transact"
    [JStr "Open_vSwitch";
     JObj [("op", JStr "insert"); ("table", JStr "Interface");
           ("row", JObj [("name", JStr bridgeName); ("type", JStr "internal")]);
           ("uuid-name", JStr "intf")];
     JObj [("op", JStr "insert"); ("table", JStr "Port");
           ("row", JObj [("interfaces", JArr [JStr "named-uuid"; JStr "intf"]);
                         ("name", JStr bridgeName)]);
           ("uuid-name", JStr "port")];
     JObj [("op", JStr "insert"); ("table", JStr "Bridge");
           ("row", JObj [("datapath_type", JStr "netdev"); ("name", JStr bridgeName);
                         ("ports", JArr [JStr "named-uuid"; JStr "port"]);
                         ("stp_enable", JBool false)]);
           ("uuid-name", JStr "bridge")];
     JObj [("op", JStr "insert"); ("table", JStr "BridgeOpt");
           ("row", JObj [("name", JStr bridgeName); ("network_id", JStr networkid);
                         ("service_type", JStr servicetype)])];
     JObj [("op", JStr "mutate"); ("table", JStr "Open_vSwitch");
           ("mutations", JArr [JArr [JStr "bridges"; JStr "insert";
              JArr [JStr "set"; JArr [JArr [JStr "named-uuid"; JStr "bridge"]]]]]);
           ("where", JArr [JArr [JStr "_uuid"; JStr "=="; JArr [JStr "uuid"; JStr root]]])]].
Proof.
  intros Hg Hroot%validateUUID_spec.
  assert (UUID_MarshalJSON root = JArr [JStr "uuid"; JStr root]) as Hm
    by (unfold UUID_MarshalJSON; by rewrite Hroot).
  unfold transact_call, create_bridge_ops, bridge_row. rewrite Hg.
  lazy -[UUID_MarshalJSON]. rewrite Hm. reflexivity.
Qed.

Lemma create_bridge_wire_witness :
  is_gateway "PGW" = true /\
  exists l, transact_call Open_vSwitch (create_bridge_ops "b" "PGW" "n" root_uuid) = ERpc "transact" l.
Proof.
  split; [done|]. eexists. apply create_bridge_wire; [done|]. by apply validateUUID_spec.
Defined.

(** * Creating a bridge *)

Lemma wp_getRootUUID s tr Q :
  (forall root t,
     is_Some (table_of (ovsdbCache s) "Open_vSwitch" !! root) \/ root = "" -> Q (Returned root) s (tr ++ t)) ->
  wp getRootUUID s tr Q.
Proof.
  intros HQ. unfold getRootUUID, getTableCache. cbn [gets bind wp].
  apply (wp_search_table _ (fun uuid _ => Some uuid)).
  intros [a|] tr' Hr; simpl; apply HQ; [left|by right].
  destruct Hr as (key & row & Hrow & [= <-]). by eexists.
Qed.

(** CreateOvsdbBridge reports success only when the server has answered all
    five operations of the bridge transaction without an error. *)
Theorem createOvsdbBridge_success {W} {H : Host W} bridgeName servicetype networkid s (w : W) :
  let f := run (createOvsdbBridge bridgeName servicetype networkid) s w in
  out f = Returned None ->
  exists root t0 t1, log f = t0 ++ t1 /\
    (is_Some (table_of (ovsdbCache s) "Open_vSwitch" !! root) \/ root = "") /\
    tx_committed (create_bridge_ops bridgeName servicetype networkid root) t1.
Proof.
  cbv zeta. apply (wp_run (createOvsdbBridge bridgeName servicetype networkid) s w (fun o _ tr =>
    o = Returned None -> exists root t0 t1, tr = t0 ++ t1 /\
      (is_Some (table_of (ovsdbCache s) "Open_vSwitch" !! root) \/ root = "") /\
      tx_committed (create_bridge_ops bridgeName servicetype networkid root) t1)).
  unfold createOvsdbBridge. apply wp_bind, wp_getRootUUID. intros root tr' Hroot. cbn [post_bind].
  apply wp_checked_tx; try done. intros t Ht _. by exists root, tr', t.
Qed.

Lemma createOvsdbBridge_success_witness :
  let f := @run _ _ sample_host (createOvsdbBridge "b" "sgw" "n") st_ready [] in
  exists root t0 t1, log f = t0 ++ t1 /\
    (is_Some (table_of (ovsdbCache st_ready) "Open_vSwitch" !! root) \/ root = "") /\
    tx_committed (create_bridge_ops "b" "sgw" "n" root) t1.
Proof. apply (@createOvsdbBridge_success _ sample_host). by vm_compute. Defined.

(** The server answered a select for the port with at least one row. *)
Definition port_seen (name : string) (t : trace) : Prop :=
  exists r0 rest row rows,
    tx_answered Open_vSwitch [select_op "Port" "name" name] t (r0 :: rest) /\
    ResError r0 = "" /\ ResRows r0 = row :: rows.

Lemma wp_portExists name s tr Q :
  (forall t, port_seen name t -> Q (Returned (true, None)) s (tr ++ t)) ->
  (forall e t, Q (Returned (false, e)) s (tr ++ t)) ->
  (forall h t, Q (Halted h) s (tr ++ t)) ->
  wp (portExists name) s tr Q.
Proof.
  intros Hs Hf Hh. unfold portExists. apply wp_bind, wp_select_rows; cbn [post_bind]; auto.
  - intros e t _. apply Hf.
  - intros r0 rest t Ht He. destruct (ResRows r0) as [|row rows] eqn:Er; cbn; [apply Hf|].
    apply Hs. by exists r0, rest, row, rows.
Qed.

Definition add_bridge_post (bridgeName : string) (o : outcome (option error)) (tr : trace) : Prop :=
  o = Returned None -> exists t0 t1, tr = t0 ++ t1 /\ port_seen bridgeName t1.

Lemma wp_addBridge bridgeName servicetype networkid s tr :
  wp (addBridge bridgeName servicetype networkid) s tr (fun o s' tr' =>
    s' = s /\ exists t, tr' = tr ++ t /\ add_bridge_post bridgeName o t).
Proof.
  assert (forall o t, o <> Returned None -> s = s /\ exists t', tr ++ t = tr ++ t' /\
            add_bridge_post bridgeName o t') as Hbad
    by (intros o t Ho; split; [done|]; exists t; split; [done|]; by intros ?).
  unfold addBridge. cbn [gets bind wp]. destruct (connected s); cbn [negb].
  2: { cbn. specialize (Hbad (Returned (Some (errors_New "OVS not connected"))) []).
       rewrite app_nil_r in Hbad. by apply Hbad. }
  apply wp_bind, wp_portExists; cbn [post_bind]; [| |intros h t; by apply Hbad].
  { intros t Ht. cbn. split; [done|]. exists t. split; [done|]. intros _. by exists [], t. }
  intros [e|] t; [cbn; by apply Hbad|]. unfold createBridgeIface.
  apply wp_bind, wp_bind, wp_frame_eq; [auto with go_frame|].
  intros [a|h] t'; cbn; [|rewrite <- app_assoc; by apply Hbad].
  apply wp_bind, wp_portExists; cbn [post_bind].
  - intros t'' Ht. split; [done|]. exists ((t ++ t') ++ t''). split; [by rewrite <- !app_assoc|].
    intros _. by exists (t ++ t'), t''.
  - intros [e|] t''; cbn; rewrite <- !app_assoc; by apply Hbad.
  - intros h t''. cbn. rewrite <- !app_assoc. by apply Hbad.
Qed.

(** C8: addBridge reports success only after the server has returned a Port row
    with the name of the bridge, in answer to the last query: the creation error
    that createBridgeIface drops does not go unnoticed. *)
Theorem addBridge_verified {W} {H : Host W} bridgeName servicetype networkid s (w : W) :
  let f := run (addBridge bridgeName servicetype networkid) s w in
  out f = Returned None -> exists t0 t1, log f = t0 ++ t1 /\ port_seen bridgeName t1.
Proof.
  cbv zeta. destruct (wp_run _ s w _ (wp_addBridge bridgeName servicetype networkid s []))
    as (_ & t & -> & Hp). exact Hp.
Qed.

Lemma addBridge_verified_witness :
  let f := @run _ _ sample_host (addBridge "ovsbr-12345" "sgw" "12345678") st_ready [] in
  exists t0 t1, log f = t0 ++ t1 /\ port_seen "ovsbr-12345" t1.
Proof. apply (@addBridge_verified _ sample_host). by vm_compute. Defined.

(** * Waiting for the interface *)

Definition probe (name : string) : ext := EInterfaceByName name.

(** [k] failed probes, each followed by a sleep. *)
Definition failed_probes (name : string) (k : nat) : list ext :=
  concat (replicate k [probe name; ESleep 2]).

(** The interface was found after [k] probes that were answered with an error, each
    followed by a sleep. *)
Definition waited (name : string) (k : nat) (t : trace) : Prop :=
  exists es : list error, length es = k /\
    t = concat (map (fun e => [Entry (EInterfaceByName name) (Some e); Entry (ESleep 2) tt]) es)
        ++ [Entry (EInterfaceByName name) None].

Lemma waited_exts name k t : waited name k t -> exts t = failed_probes name k ++ [probe name].
Proof.
  intros (es & <- & ->). induction es as [|e es IH]; [done|].
  unfold exts, failed_probes in *. cbn. by rewrite IH.
Qed.

Lemma wp_wait_iface n name s tr :
  wp (wait_iface n name) s tr (fun o s' tr' =>
    s' = s /\ exists t, tr' = tr ++ t /\
      ((o = Returned false /\ exts t = failed_probes name n) \/
       (o = Returned true /\ exists k, k < n /\ waited name k t))).
Proof.
  revert tr. induction n as [|n IH]; intros tr; cbn.
  { split; [done|]. exists []. rewrite app_nil_r. by split; [|left]. }
  intros [e|] _; cbn.
  - intros [] _. eapply wp_mono; [|apply IH]. cbn.
    intros o s' tr' [-> (t & -> & Hcase)]. split; [done|].
    eexists (_ :: _ :: t). split; [by rewrite <- !app_assoc|].
    destruct Hcase as [[-> Ht]|[-> (k & Hk & es & Hl & ->)]].
    + left. split; [done|]. unfold exts in *. cbn [map]. by rewrite Ht.
    + right. split; [done|]. exists (S k). split; [lia|]. exists (e :: es). cbn. by rewrite Hl.
  - split; [done|]. eexists [_]. split; [done|]. right. split; [done|]. exists 0.
    split; [lia|]. by exists [].
Qed.

(** Waiting for the bridge interface always ends, after at most ten probes: it
    reports that the interface is there right after the first probe that finds it,
    and gives up after ten probes that failed, sleeping two seconds after each. *)
Theorem wait_iface_spec {W} {H : Host W} name s (w : W) :
  let f := run (wait_iface 10 name) s w in
  state f = s /\
  ((out f = Returned false /\ exts (log f) = failed_probes name 10) \/
   (out f = Returned true /\ exists k, k < 10 /\ waited name k (log f))).
Proof.
  cbv zeta. destruct (wp_run _ s w _ (wp_wait_iface 10 name s [])) as [Hs (t & Ht & Hc)].
  cbn [app] in Ht. rewrite Ht. by split.
Qed.

(** * NAT rules *)

(** The runs of natOut: iptables said that the rule is there, or it said otherwise and
    the insertion was tried, which succeeds when it prints nothing. *)
Definition nat_post (cidr : string) (s : St) (o : outcome (option error)) (s' : St) (t : trace)
    : Prop :=
  exists t1 s1 out1 err1, raw_run s ("-C" :: masquerade cidr) t1 s1 (out1, err1) /\
    match err1 with
    | None => o = Returned None /\ s' = s1 /\ t = t1
    | Some _ => exists t2 out2 err2,
        raw_run s1 ("-I" :: masquerade cidr) t2 s' (out2, err2) /\ t = t1 ++ t2 /\
        exists r, o = Returned r /\ (r = None <-> err2 = None /\ out2 = "") /\
          (forall e, err2 = Some e -> r = Some e)
    end.

Lemma wp_natOut cidr s tr :
  wp (natOut cidr) s tr (fun o s' tr' => exists t, tr' = tr ++ t /\ nat_post cidr s o s' t).
Proof.
  unfold natOut. apply wp_bind, wp_Raw. intros t1 s1 [out1 [e1|]] H1; cbn [post_bind].
  - apply wp_bind, wp_Raw. intros t2 s2 [out2 err2] H2. cbn [post_bind].
    assert (forall r, (r = None <-> err2 = None /\ out2 = "") -> (forall e, err2 = Some e -> r = Some e) ->
      exists t, (tr ++ t1) ++ t2 = tr ++ t /\ nat_post cidr s (Returned r) s2 t) as Hgoal.
    { intros r Hr He. exists (t1 ++ t2). split; [by rewrite app_assoc|].
      exists t1, s1, out1, (Some e1). split; [done|]. exists t2, out2, err2.
      split; [done|]. split; [done|]. by exists r. }
    destruct err2 as [e2|]; [apply Hgoal; naive_solver|].
    destruct out2; cbn; apply Hgoal; naive_solver.
  - exists t1. split; [done|]. by exists t1, s1, out1, None.
Qed.

(** The run of natOut with the binary known and no firewalld, call by call. *)
Definition nat_direct (cidr : string) (s : St) (o : outcome (option error)) (t : trace) : Prop :=
  (o = Returned None /\ exists out1,
     t = [Entry (iptables_call s ("-C" :: masquerade cidr)) (out1, None)]) \/
  (exists out1 e1 out2 err2,
     t = [Entry (iptables_call s ("-C" :: masquerade cidr)) (out1, Some e1);
          Entry (iptables_call s ("-I" :: masquerade cidr)) (out2, err2)] /\
     (o = Returned None <->
      err2 = None /\ (out2 = "" \/ Contains out2 "waiting for it to exit" = true)) /\
     exists r, o = Returned r).

Lemma raw_run_direct s args t s' r :
  firewalldRunning s = false -> iptablesPath s <> "" -> raw_run s args t s' r ->
  s' = s /\ exists output err, t = [Entry (iptables_call s args) (output, err)] /\
    r = raw_result s args output err.
Proof.
  intros Hfw Hp Hr. destruct Hr as [| |t t' s' output err [[_ ->]|[? _]] [(_ & -> & ->)|[? _]]];
    try congruence. split; [done|]. by exists output, err.
Qed.

Lemma nat_post_direct cidr s o s' t :
  firewalldRunning s = false -> iptablesPath s <> "" -> nat_post cidr s o s' t ->
  s' = s /\ nat_direct cidr s o t.
Proof.
  intros Hfw Hp (t1 & s1 & out1 & err1 & H1 & Hc).
  apply raw_run_direct in H1 as (-> & o1 & e1 & -> & E1); [|done|done].
  destruct err1 as [err1|].
  - destruct Hc as (t2 & out2 & err2 & H2 & -> & r & -> & Hr & _).
    apply raw_run_direct in H2 as (-> & o2 & e2 & -> & E2); [|done|done].
    split; [done|]. right. destruct e1 as [e1|]; [|done]. exists o1, e1, o2, e2.
    split; [done|]. split; [|by eexists]. unfold raw_result in E2.
    destruct e2; [naive_solver|]. destruct (Contains o2 _); naive_solver.
  - destruct Hc as (-> & -> & ->). split; [done|]. left. destruct e1; [done|]. split; [done|]. by exists o1.
Qed.

(** C24: in every state of the iptables package and on every host, natOut first asks for
    the masquerade rule of the subnet and inserts it only when that check came back
    with an error; it succeeds exactly when the check found the rule, or when the
    insertion succeeds without output, and otherwise returns an error. The check and
    the insertion are runs of Raw: they go to firewalld when it runs, to the binary
    when it does not or has left the bus, and the binary is looked up, and its lock
    option tested, when its path is not known yet; a missing binary is an error. With
    the path known and no firewalld, these are exactly the one or two calls of the
    binary, the message about the xtables lock counts as no output, and the memory is
    unchanged. *)
Theorem natOut_spec {W} {H : Host W} cidr s (w : W) :
  let f := run (natOut cidr) s w in
  nat_post cidr s (out f) (state f) (log f) /\
  (firewalldRunning s = false -> iptablesPath s <> "" ->
     state f = s /\ nat_direct cidr s (out f) (log f)).
Proof.
  cbv zeta. destruct (wp_run _ s w _ (wp_natOut cidr s [])) as (t & Ht & Hc).
  cbn [app] in Ht. rewrite Ht. split; [done|]. intros Hfw Hp. by apply nat_post_direct in Hc.
Qed.

Definition st_ipt : St := set_iptables "/sbin/iptables" true st_ready.

Lemma natOut_spec_witness :
  nat_direct "172.18.40.1/24" st_ipt
    (out (@run _ _ sample_host (natOut "172.18.40.1/24") st_ipt []))
    (log (@run _ _ sample_host (natOut "172.18.40.1/24") st_ipt [])).
Proof.
  refine (proj2 (proj2 (@natOut_spec _ sample_host "172.18.40.1/24" st_ipt []) _ _)); by vm_compute.
Defined.

(** * Deleting a bridge *)

Lemma wp_getBridgeUUIDForName name s tr Q :
  table_of (ovsdbCache s) "Bridge" !! "" = None ->
  (forall u t,
     (u = "" /\ (forall key row, table_of (ovsdbCache s) "Bridge" !! key = Some row ->
                                name_is name row = false)) \/
     (u <> "" /\ exists row, table_of (ovsdbCache s) "Bridge" !! u = Some row /\
                            name_is name row = true) ->
     Q (Returned u) s (tr ++ t)) ->
  wp (getBridgeUUIDForName name) s tr Q.
Proof. apply wp_uuid_by_name. Qed.

(** Whether a run of deleteBridge ends in success although nothing was replied. *)
Lemma wp_deleteBridge_down name s tr :
  table_of (ovsdbCache s) "Bridge" !! "" = None ->
  (exists key row, table_of (ovsdbCache s) "Bridge" !! key = Some row /\ name_is name row = true) ->
  wp (deleteBridge name) s tr (fun o _ tr' => Forall no_rpc_reply tr' -> o = Returned None).
Proof.
  intros Hno (key & row & Hrow & Hn).
  unfold deleteBridge, getBridgeServiceType. apply wp_bind, wp_query_column; cbn [post_bind].
  - intros e t Ht. apply wp_bind, wp_getBridgeUUIDForName; [done|].
    intros u tr' [[-> Hall]|[Hu _]]; [by rewrite (Hall _ _ Hrow) in Hn|]. cbn [post_bind].
    destruct (String.eqb_spec u ""); [done|].
    apply wp_bind, wp_getRootUUID. intros root tr'' _. cbn [post_bind].
    apply wp_bind, wp_Transact; cbn [post_bind].
    + done.
    + intros reply t' (j & -> & _). eapply wp_mono; [|apply only_True]. cbn.
      intros o s' tr3 (t3 & -> & _) Hdown. rewrite !Forall_app in Hdown.
      by destruct Hdown as [[_ Hd%Forall_inv] _].
    + intros h t' (j & ->) Hd. apply Forall_app in Hd as [_ Hd%Forall_inv]. done.
  - intros v t (? & ? & ? & ? & (j & -> & _) & _). eapply wp_mono; [|apply only_True]. cbn.
    intros o s' tr3 (t3 & -> & _) Hdown. rewrite !Forall_app in Hdown.
    by destruct Hdown as [[_ Hd%Forall_inv] _].
  - intros h t (j & ->) Hd. apply Forall_app in Hd as [_ Hd%Forall_inv]. done.
Qed.

(** DeleteBridge reports success when the server never answers: with a
    connection on which every remote call fails, a bridge the cache knows is
    reported as deleted. *)
Theorem deleteBridge_silent_failure {W} {H : Host W} name s (w : W) :
  table_of (ovsdbCache s) "Bridge" !! "" = None ->
  (exists key row, table_of (ovsdbCache s) "Bridge" !! key = Some row /\ name_is name row = true) ->
  (forall m params w, exists e, (answer (ERpc m params) w).1 = RpcError e) ->
  let f := run (deleteBridge name) s w in
  out f = Returned None /\ Forall no_rpc_reply (log f).
Proof.
  intros Hno Hex Hdown. cbv zeta. pose proof (down_log (deleteBridge name) s w Hdown) as Hlog.
  split; [|done].
  by apply (wp_run _ s w _ (wp_deleteBridge_down name s [] Hno Hex)).
Qed.

Lemma deleteBridge_silent_failure_witness :
  let f := @run _ _ down_host (deleteBridge "ovsbr-12345") st_ready [] in
  out f = Returned None /\ Forall no_rpc_reply (log f).
Proof.
  apply (@deleteBridge_silent_failure _ down_host); [by vm_compute| |].
  - exists bridge_uuid, (row_named "ovsbr-12345"). by vm_compute.
  - intros m params w. by eexists.
Defined.

(** The service is stopped only for a bridge whose recorded type is a gateway. *)
Definition stops_only_gateway (name : string) (tr : trace) : Prop :=
  Forall rpc_or_range (exts tr) \/
  exists v t1 t2, tr = t1 ++ t2 /\ answered_with "name" name "service_type" v t1 /\
    is_gateway v = true.

Lemma EqualFold_sym s t : EqualFold s t = EqualFold t s.
Proof. unfold EqualFold. apply String.eqb_sym. Qed.

Lemma is_rpc_only_range {A} (p : prog A) : only is_rpc p -> only rpc_or_range p.
Proof. apply only_mono. by intros []. Qed.

Lemma deleteBridge_tail_only name v (gw : is_gateway v = false) :
  only rpc_or_range
    (let! bridgeUUID := getBridgeUUIDForName name in
     if String.eqb bridgeUUID ""
     then Ret (Some (Errorf "Unable to find a bridge uuid by name : [ %s ]" [name]))
     else
       let! root := getRootUUID in
       let operations := delete_bridge_ops name bridgeUUID root in
       let! (reply, _) := Transact Open_vSwitch operations in
       match scan_replies (length operations) 0 reply
            (fun i o => Errorf "Transaction Failed due to an error: %s in operation: %v"
                               [ResError o; op_arg i])
            (fun _ o => Errorf "Transaction Failed due to an error : %s" [ResError o]) with
       | Some e => Ret (Some e)
       | None =>
        if negb (EqualFold type_pgw v) && negb (EqualFold type_sgw v)
        then Ret None
        else
          let! _ := stopOvsService in
          Ret None
       end).
Proof.
  unfold is_gateway in gw. rewrite !(EqualFold_sym v) in gw. apply orb_false_iff in gw as [-> ->].
  unfold getBridgeUUIDForName, uuid_by_name, getRootUUID, getTableCache. cbn [negb andb].
  repeat first [ apply is_rpc_only_range, Transact_only | frame_step ]; done.
Qed.

(** Deleting a bridge touches systemd and the service file only when the
    server has answered that the bridge's service type is a gateway type. *)
Theorem deleteBridge_service {W} {H : Host W} name s (w : W) :
  stops_only_gateway name (log (run (deleteBridge name) s w)).
Proof.
  apply (wp_run (deleteBridge name) s w (fun _ _ tr => stops_only_gateway name tr)).
  unfold deleteBridge, getBridgeServiceType. apply wp_bind, wp_query_column; cbn [post_bind app].
  - intros e t Ht. eapply wp_mono; [|apply (deleteBridge_tail_only name "" eq_refl)]. cbn.
    intros o s' tr (t' & -> & Ht'). left. unfold exts. rewrite map_app. apply Forall_app.
    split; [|done]. destruct Ht as [->|[r ->]]; by repeat constructor.
  - intros v t Ht. destruct (is_gateway v) eqn:Hg.
    + eapply wp_mono; [|apply only_True]. cbn. intros o s' tr (t' & -> & _).
      right. by exists v, t, t'.
    + eapply wp_mono; [|apply (deleteBridge_tail_only name v Hg)]. cbn.
      intros o s' tr (t' & -> & Ht'). left. unfold exts. rewrite map_app. apply Forall_app.
      split; [|done]. apply answered_with_attempt in Ht as [->|[r ->]]; by repeat constructor.
  - intros h t (j & ->). left. by repeat constructor.
Qed.

(** * Initialising a bridge *)

Lemma wp_network id s tr ns Q :
  networks s !! id = Some ns -> Q (Returned ns) s tr -> wp (network id) s tr Q.
Proof. intros Hns HQ. unfold network. cbn. by rewrite Hns. Qed.

(** The calls of setInterfaceIP once the link was found, at the first or the second
    attempt: the address is added when it can be parsed. *)
Definition address_set (name rawIP : string) (t : trace) : Prop :=
  exists tried l,
    (tried = [] \/ exists e, tried = [Entry (ELinkByName name) (inl e); Entry (ESleep 2) tt]) /\
    match ParseCIDR rawIP with
    | Some (ip, ones) => exists err,
        t = tried ++ [Entry (ELinkByName name) (inr l); Entry (EAddrAdd l (mkIPNet ip ones)) err]
    | None => t = tried ++ [Entry (ELinkByName name) (inr l)]
    end.

Lemma wp_setInterfaceIP name rawIP s tr Q :
  (forall r t, address_set name rawIP t -> Q (Returned r) s (tr ++ t)) ->
  (forall h t, Q (Halted h) s (tr ++ t)) ->
  wp (setInterfaceIP name rawIP) s tr Q.
Proof.
  intros Hok Hh. unfold setInterfaceIP, find_link.
  assert (forall tried l,
    tried = [] \/ (exists e, tried = [Entry (ELinkByName name) (inl e); Entry (ESleep 2) tt]) ->
    wp (match ParseCIDR rawIP with
        | None => Ret (Some (Errorf "invalid CIDR address: %s" [rawIP]))
        | Some (ip, ones) => call (EAddrAdd l (mkIPNet ip ones))
        end) s (tr ++ tried ++ [Entry (ELinkByName name) (inr l)]) Q) as Hset.
  { intros tried l Ht. destruct (ParseCIDR rawIP) as [[ip ones]|] eqn:Ep; wp_norm.
    - intros err _. rewrite <- !app_assoc. apply Hok. exists tried, l. split; [done|].
      rewrite Ep. by exists err.
    - apply Hok. exists tried, l. split; [done|]. by rewrite Ep. }
  wp_norm. intros [e|l] _; wp_norm.
  - intros [] _. intros [e'|l] _; wp_norm; rewrite <- !app_assoc.
    + intros [] _. rewrite <- !app_assoc. apply Hh.
    + specialize (Hset [_; _] l (or_intror (ex_intro _ e eq_refl))).
      destruct (ParseCIDR rawIP) as [[ip ones]|]; exact Hset.
  - specialize (Hset [] l (or_introl eq_refl)).
    destruct (ParseCIDR rawIP) as [[ip ones]|]; exact Hset.
Qed.

(** The interface was asked for its addresses and has one. *)
Definition address_seen (name : string) (t : trace) : Prop :=
  exists l a rest, t = [Entry (ELinkByName name) (inr l); Entry (EAddrList l) (inr (a :: rest))].

(** What the mode-dependent part did when it came back: in NAT mode the gateway address
    was assigned, the interface was seen to have an address, and the NAT rule of the
    gateway's subnet is there; in flat mode nothing. *)
Definition mode_post (ns : NetworkState) (s s' : St) (t : trace) : Prop :=
  if String.eqb (Mode ns) modeNAT then
    let cidr := Gateway ns +:+ "/" +:+ GatewayMask ns in
    exists tset tseen tnat, t = tset ++ tseen ++ tnat /\
      address_set (BridgeName ns) cidr tset /\ address_seen (BridgeName ns) tseen /\
      nat_post cidr s (Returned None) s' tnat
  else t = [] /\ s' = s.

Lemma wp_setup_mode id s tr ns :
  networks s !! id = Some ns ->
  wp (setup_mode id (BridgeName ns)) s tr (fun o s' tr' =>
    networks s' = networks s /\ exists t, tr' = tr ++ t /\
    ((exists h, o = Halted h) \/ (o = Returned None /\ mode_post ns s s' t))).
Proof.
  intros Hns. unfold setup_mode, mode_post. apply wp_bind, (wp_network _ _ _ ns); [done|].
  cbn [post_bind]. destruct (String.eqb (Mode ns) modeNAT).
  2: { cbn. split; [done|]. exists []. rewrite app_nil_r. split; [done|]. by right. }
  apply wp_bind, (wp_network _ _ _ ns); [done|]. cbn [post_bind].
  apply wp_bind, (wp_network _ _ _ ns); [done|]. cbn [post_bind].
  apply wp_bind, wp_setInterfaceIP; cbn [post_bind].
  2: { intros h t. split; [done|]. exists t. split; [done|]. left. by eexists. }
  intros r t Ht. unfold getIfaceAddr. wp_norm. intros [e|l] _; wp_norm.
  { split; [done|]. eexists (t ++ [_]). split; [by rewrite <- app_assoc|]. left. by eexists. }
  intros [e|[|a0 rest]] _; wp_norm.
  1,2: split; [done|]; eexists (t ++ [_; _]); (split; [by rewrite <- !app_assoc|]); left; by eexists.
  apply wp_bind. eapply wp_mono; [|apply wp_conj; [apply (natOut_networks _)|apply wp_natOut]].
  intros o s' tr' [Hs (t' & -> & Hn)].
  destruct o as [[e|]|h]; cbn; (split; [done|]); eexists (t ++ _ :: _ :: t');
    (split; [by rewrite <- !app_assoc|]); [left; by eexists| |left; by eexists].
  right. split; [done|]. eexists t, [_; _], t'. split; [done|]. split; [done|]. split; [|done].
  by exists l, a0, rest.
Qed.

Lemma wp_interfaceUp name s tr Q :
  (forall l, Q (Returned None) s (tr ++ [Entry (ELinkByName name) (inr l); Entry (ELinkSetUp l) None])) ->
  (forall e t, Q (Returned (Some e)) s (tr ++ t)) ->
  (forall h t, Q (Halted h) s (tr ++ t)) ->
  wp (interfaceUp name) s tr Q.
Proof.
  intros Hok He Hh. unfold interfaceUp. wp_norm. intros [e|l] _; wp_norm; [apply Hh|].
  intros [e|] _; wp_norm; rewrite <- app_assoc; [apply He|apply Hok].
Qed.

(** The calls of a bridge initialisation that succeeds, stage by stage. *)
Definition init_stages (ns : NetworkState) (s s' : St) (tr : trace) : Prop :=
  exists t0 tport k twait tmode l tservice r,
    tr = t0 ++ tport ++ twait ++ tmode ++
         [Entry (ELinkByName (BridgeName ns)) (inr l); Entry (ELinkSetUp l) None] ++ tservice /\
    port_seen (BridgeName ns) tport /\
    k < 10 /\ waited (BridgeName ns) k twait /\
    mode_post ns s s' tmode /\
    start_post (script_command (BridgeName ns) (NetworkName ns) (NetworkType ns)
                  (FlatBindInterface ns)) (Returned r) tservice.

Lemma wp_initBridge id s tr ns :
  networks s !! id = Some ns ->
  wp (initBridge id) s tr (fun o s' tr' =>
    networks s' = networks s /\ exists t, tr' = tr ++ t /\
    (o = Returned None -> init_stages ns s s' t)).
Proof.
  intros Hns. unfold initBridge.
  do 4 (apply wp_bind, (wp_network _ _ _ ns); [done|]; cbn [post_bind]).
  apply wp_bind. eapply wp_mono; [|apply wp_addBridge].
  intros o s' tr' (-> & t0 & -> & Hp).
  destruct o as [[e|]|h]; cbn [post_bind]; [by split; [|exists t0]| |by split; [|exists t0]].
  destruct (Hp eq_refl) as (t1 & tport & -> & Hport).
  apply wp_bind. eapply wp_mono; [|apply wp_wait_iface].
  intros o s' tr' [-> (twait & -> & [[-> _]|[-> (k & Hk & Hw)]])]; cbn [post_bind negb].
  { split; [done|]. eexists. split; [by rewrite <- app_assoc|done]. }
  apply wp_bind. eapply wp_mono; [|by apply wp_setup_mode].
  intros o s' tr' (Hs' & tmode & -> & [[h ->]|[-> Hm]]); cbn [post_bind].
  { split; [done|]. eexists. split; [by rewrite <- !app_assoc|done]. }
  apply wp_bind, wp_interfaceUp; cbn [post_bind].
  2,3: intros ? t; split; [done|]; eexists; (split; [by rewrite <- !app_assoc|done]).
  intros l. unfold runOvsScript. apply wp_bind, wp_bind.
  eapply wp_mono; [|apply wp_StartOvsService].
  intros o s'' tr' (-> & ts & -> & Hst). destruct o as [r|h]; cbn; [|done].
  split; [done|]. eexists. split; [by rewrite <- !app_assoc|]. intros _.
  exists t1, tport, k, twait, tmode, l, ts, r. split; [done|]. done.
Qed.

(** C7: initBridge reports success only after, in this order, the port of the bridge was
    found in OVSDB; its interface was found by one of at most ten probes, every earlier
    one having failed; in NAT mode the link was found and asked to take the gateway
    address (if it can be parsed), the interface was seen to have an address, and the
    masquerade rule of the gateway's subnet was found or inserted (in flat mode no call
    is made); and the interface was brought up without an error. It then runs the
    gateway script through systemd, whatever the type of the network. No run changes
    the networks. *)
Theorem initBridge_success {W} {H : Host W} id ns s (w : W) :
  networks s !! id = Some ns ->
  let f := run (initBridge id) s w in
  networks (state f) = networks s /\
  (out f = Returned None -> init_stages ns s (state f) (log f)).
Proof.
  intros Hns. cbv zeta.
  destruct (wp_run _ s w _ (wp_initBridge id s [] ns Hns)) as [Hs (t & Ht & Hst)].
  cbn [app] in Ht. rewrite Ht. by split.
Qed.

Definition sample_network : NetworkState :=
  mkNetwork "ovsbr-12345" 1500 "nat" "172.18.40.1" "24" "eth100" "" "".

Definition st_network : St := set_networks (fun _ => {["12345678" := sample_network]}) st_ipt.

Lemma initBridge_success_witness :
  out (@run _ _ sample_host (initBridge "12345678") st_network []) = Returned None /\
  init_stages sample_network st_network
    (state (@run _ _ sample_host (initBridge "12345678") st_network []))
    (log (@run _ _ sample_host (initBridge "12345678") st_network [])).
Proof.
  split; [by vm_compute|].
  apply (@initBridge_success _ sample_host "12345678" sample_network st_network []); by vm_compute.
Defined.

(** The gateway service is started for every network but stopped only for a
    gateway: on a host where every call succeeds and the bridge has an empty type,
    initBridge starts and enables the service and deleteBridge, which succeeds too,
    makes no call to systemd and leaves the unit file. *)
Theorem service_not_stopped :
  let h := sim_host (one_bridge "") in
  let up := @run _ _ h (initBridge "12345678") st_network [] in
  let down := @run _ _ h (deleteBridge "ovsbr-12345") (state up) [] in
  out up = Returned None /\ ERun ["systemctl"; "enable"; "linkerGateway.service"] ∈ exts (log up) /\
  out down = Returned None /\ Forall rpc_or_range (exts (log down)).
Proof.
  cbv zeta. split; [by vm_compute|]. split.
  - apply list_elem_of_In. vm_compute. repeat (first [left; reflexivity|right]).
  - split; [by vm_compute|]. by vm_compute; repeat constructor.
Qed.
