(* ===== verification/Dknet.v ===== *)
(** The remote driver protocol of Docker as the dknet library serves it
    (Godeps/.../gopher-net/dknet/api.go): the requests and their decoding, the
    interface a driver implements, and the HTTP handlers that connect them.

    A request body is a JSON tree, or nothing when the bytes are not JSON. The
    handlers are stated and verified against the interface [NetDriver]; the file
    Driver gives the instance. *)

From S2P Require Import Prelude OvsNotation OvsTypes World.

Local Open Scope go_scope.

(** * Requests and responses *)

Record IPAMData : Type := mkIPAM {
  AddressSpace : string;
  Pool : string;
  IPAM_Gateway : string;
  AuxAddresses : option (smap gval)
}.

Record CreateNetworkRequest : Type := mkCreateNetwork {
  cn_NetworkID : string;
  cn_Options : option (smap gval);
  IPv4Data : list (option IPAMData);
  IPv6Data : list (option IPAMData)
}.

Record DeleteNetworkRequest : Type := mkDeleteNetwork { dn_NetworkID : string }.

Record EndpointInterface : Type := mkInterface {
  Address : string; AddressIPv6 : string; MacAddress : string }.

Record CreateEndpointRequest : Type := mkCreateEndpoint {
  ce_NetworkID : string;
  ce_EndpointID : string;
  ce_Interface : option EndpointInterface;
  ce_Options : option (smap gval)
}.

Record DeleteEndpointRequest : Type := mkDeleteEndpoint {
  de_NetworkID : string; de_EndpointID : string }.

Record InterfaceName : Type := mkInterfaceName { SrcName : string; DstPrefix : string }.

Record InfoRequest : Type := mkInfo { in_NetworkID : string; EnpointID : string }.
Record InfoResponse : Type := mkInfoResponse { Value : smap string }.

Record JoinRequest : Type := mkJoin {
  jn_NetworkID : string;
  jn_EndpointID : string;
  SandboxKey : string;
  jn_Options : option (smap gval)
}.

Record StaticRoute : Type := mkRoute { Destination : string; RouteType : Z; NextHop : string }.

Record JoinResponse : Type := mkJoinResponse {
  jr_Gateway : string;
  jr_InterfaceName : InterfaceName;
  StaticRoutes : option (list (option StaticRoute))
}.

Record LeaveRequest : Type := mkLeave {
  lv_NetworkID : string;
  lv_EndpointID : string;
  lv_Options : option (smap gval)
}.

(** * Decoding requests *)

(** A [map[string]interface{}], nil and empty told apart. *)
Definition decode_anymap (j : json) : dec (option (smap gval)) :=
  match j with
  | JNull => DVal None
  | _ => dmap Some (decode_map j)
  end.

(** A pointer: null is nil. *)
Definition decode_ptr {A} (d : json -> dec A) (j : json) : dec (option A) :=
  match j with
  | JNull => DVal None
  | _ => dmap Some (d j)
  end.

(** A struct: null changes nothing, a document that is no object is an error. *)
Definition decode_struct {A} (zero : A) (d : list (string * json) -> dec A) (j : json) : dec A :=
  match j with
  | JNull => DVal zero
  | JObj m => d m
  | _ => DErr
  end.

Definition ipam_fields : list string := ["AddressSpace"; "Pool"; "Gateway"; "AuxAddresses"].

Definition decode_IPAMData : json -> dec IPAMData :=
  decode_struct (mkIPAM "" "" "" None) (fun m =>
    dmap (fun '(a, (p, (g, x))) => mkIPAM a p g x)
      (dpair (dfield ipam_fields m "AddressSpace" "" decode_string)
      (dpair (dfield ipam_fields m "Pool" "" decode_string)
      (dpair (dfield ipam_fields m "Gateway" "" decode_string)
             (dfield ipam_fields m "AuxAddresses" None decode_anymap))))).

Definition cn_fields : list string := ["NetworkID"; "Options"; "IPv4Data"; "IPv6Data"].

Definition decode_CreateNetwork : json -> dec CreateNetworkRequest :=
  decode_struct (mkCreateNetwork "" None [] []) (fun m =>
    dmap (fun '(n, (o, (v4, v6))) => mkCreateNetwork n o v4 v6)
      (dpair (dfield cn_fields m "NetworkID" "" decode_string)
      (dpair (dfield cn_fields m "Options" None decode_anymap)
      (dpair (dfield cn_fields m "IPv4Data" [] (decode_list (decode_ptr decode_IPAMData)))
             (dfield cn_fields m "IPv6Data" [] (decode_list (decode_ptr decode_IPAMData))))))).

Definition decode_DeleteNetwork : json -> dec DeleteNetworkRequest :=
  decode_struct (mkDeleteNetwork "") (fun m =>
    dmap mkDeleteNetwork (dfield ["NetworkID"] m "NetworkID" "" decode_string)).

Definition interface_fields : list string := ["Address"; "AddressIPv6"; "MacAddress"].

Definition decode_EndpointInterface : json -> dec EndpointInterface :=
  decode_struct (mkInterface "" "" "") (fun m =>
    dmap (fun '(a, (b, c)) => mkInterface a b c)
      (dpair (dfield interface_fields m "Address" "" decode_string)
      (dpair (dfield interface_fields m "AddressIPv6" "" decode_string)
             (dfield interface_fields m "MacAddress" "" decode_string)))).

Definition ce_fields : list string := ["NetworkID"; "EndpointID"; "Interface"; "Options"].

Definition decode_CreateEndpoint : json -> dec CreateEndpointRequest :=
  decode_struct (mkCreateEndpoint "" "" None None) (fun m =>
    dmap (fun '(n, (e, (i, o))) => mkCreateEndpoint n e i o)
      (dpair (dfield ce_fields m "NetworkID" "" decode_string)
      (dpair (dfield ce_fields m "EndpointID" "" decode_string)
      (dpair (dfield ce_fields m "Interface" None (decode_ptr decode_EndpointInterface))
             (dfield ce_fields m "Options" None decode_anymap))))).

Definition de_fields : list string := ["NetworkID"; "EndpointID"].

Definition decode_DeleteEndpoint : json -> dec DeleteEndpointRequest :=
  decode_struct (mkDeleteEndpoint "" "") (fun m =>
    dmap (fun '(n, e) => mkDeleteEndpoint n e)
      (dpair (dfield de_fields m "NetworkID" "" decode_string)
             (dfield de_fields m "EndpointID" "" decode_string))).

(** The field is spelled [EnpointID] in the struct, so the protocol's EndpointID is
    ignored. *)
Definition in_fields : list string := ["NetworkID"; "EnpointID"].

Definition decode_Info : json -> dec InfoRequest :=
  decode_struct (mkInfo "" "") (fun m =>
    dmap (fun '(n, e) => mkInfo n e)
      (dpair (dfield in_fields m "NetworkID" "" decode_string)
             (dfield in_fields m "EnpointID" "" decode_string))).

Definition jn_fields : list string := ["NetworkID"; "EndpointID"; "SandboxKey"; "Options"].

Definition decode_Join : json -> dec JoinRequest :=
  decode_struct (mkJoin "" "" "" None) (fun m =>
    dmap (fun '(n, (e, (k, o))) => mkJoin n e k o)
      (dpair (dfield jn_fields m "NetworkID" "" decode_string)
      (dpair (dfield jn_fields m "EndpointID" "" decode_string)
      (dpair (dfield jn_fields m "SandboxKey" "" decode_string)
             (dfield jn_fields m "Options" None decode_anymap))))).

Definition lv_fields : list string := ["NetworkID"; "EndpointID"; "Options"].

Definition decode_Leave : json -> dec LeaveRequest :=
  decode_struct (mkLeave "" "" None) (fun m =>
    dmap (fun '(n, (e, o)) => mkLeave n e o)
      (dpair (dfield lv_fields m "NetworkID" "" decode_string)
      (dpair (dfield lv_fields m "EndpointID" "" decode_string)
             (dfield lv_fields m "Options" None decode_anymap)))).

(** * Encoding responses *)

Definition encode_route (r : StaticRoute) : json :=
  JObj [("Destination", JStr (Destination r)); ("RouteType", JNum (pretty (RouteType r)));
        ("NextHop", JStr (NextHop r))].

Definition encode_ptr {A} (enc : A -> json) (o : option A) : json :=
  match o with Some a => enc a | None => JNull end.

Definition encode_JoinResponse (r : JoinResponse) : json :=
  JObj [("Gateway", JStr (jr_Gateway r));
        ("InterfaceName", JObj [("SrcName", JStr (SrcName (jr_InterfaceName r)));
                                ("DstPrefix", JStr (DstPrefix (jr_InterfaceName r)))]);
        ("StaticRoutes", encode_ptr (fun l => JArr (map (encode_ptr encode_route) l))
                                    (StaticRoutes r))].

Definition encode_InfoResponse (r : InfoResponse) : json :=
  JObj [("Value", JObj (map (fun '(k, v) => (k, JStr v)) (Value r)))].

(** * The interface of a driver *)

Class NetDriver : Type := {
  drv_CreateNetwork : CreateNetworkRequest -> prog (option error);
  drv_DeleteNetwork : DeleteNetworkRequest -> prog (option error);
  drv_CreateEndpoint : CreateEndpointRequest -> prog (option error);
  drv_DeleteEndpoint : DeleteEndpointRequest -> prog (option error);
  drv_EndpointInfo : InfoRequest -> prog (option InfoResponse * option error);
  drv_Join : JoinRequest -> prog (option JoinResponse * option error);
  drv_Leave : LeaveRequest -> prog (option error)
}.

(** * Handlers *)

Definition contentType : string := "application/vnd.docker.plugins.v1.1+json".

(** The body of a response: a JSON document, or the object that holds the text of
    an error under the key Err. *)
Inductive body : Type :=
| BJson (j : json)
| BErr (e : error).

Record Response : Type := mkResponse {
  code : Z;
  ctype : option string;
  resp : body
}.

Definition badRequestResponse : Response :=
  mkResponse 400 (Some contentType) (BErr (errors_New "Failed to decode request")).
Definition errorResponse (e : error) : Response := mkResponse 500 (Some contentType) (BErr e).
Definition objectResponse (obj : json) : Response := mkResponse 200 (Some contentType) (BJson obj).
Definition successResponse : Response := mkResponse 200 (Some contentType) (BJson (JObj [])).

Definition decodeRequest {R} (decode : json -> dec R) (b : option json) : dec R :=
  match b with
  | Some j => decode j
  | None => DErr
  end.

(** The shape of the handlers whose driver operation returns an error. *)
Definition error_handler {R} (decode : json -> dec R) (op : R -> prog (option error))
    (b : option json) : prog Response :=
  match decodeRequest decode b with
  | DErr => Ret badRequestResponse
  | DHalt h => Stop h
  | DVal req =>
      let! err := op req in
      match err with
      | Some e => Ret (errorResponse e)
      | None => Ret successResponse
      end
  end.

(** The shape of the handlers whose driver operation returns an object. *)
Definition object_handler {R A} (decode : json -> dec R)
    (op : R -> prog (option A * option error)) (enc : A -> json) (b : option json)
    : prog Response :=
  match decodeRequest decode b with
  | DErr => Ret badRequestResponse
  | DHalt h => Stop h
  | DVal req =>
      let! (res, err) := op req in
      match err with
      | Some e => Ret (errorResponse e)
      | None => Ret (objectResponse (encode_ptr enc res))
      end
  end.

Inductive path : Type :=
| activatePath | capabilitiesPath | createNetworkPath | deleteNetworkPath | createEndpointPath
| endpointInfoPath | deleteEndpointPath | joinPath | leavePath.

Definition path_string (p : path) : string :=
  match p with
  | activatePath => "/Plugin.Activate"
  | capabilitiesPath => "/NetworkDriver.GetCapabilities"
  | createNetworkPath => "/NetworkDriver.CreateNetwork"
  | deleteNetworkPath => "/NetworkDriver.DeleteNetwork"
  | createEndpointPath => "/NetworkDriver.CreateEndpoint"
  | endpointInfoPath => "/NetworkDriver.EndpointOperInfo"
  | deleteEndpointPath => "/NetworkDriver.DeleteEndpoint"
  | joinPath => "/NetworkDriver.Join"
  | leavePath => "/NetworkDriver.Leave"
  end.

(** initMux: the handler registered for each path. *)
Definition initMux {D : NetDriver} (p : path) (b : option json) : prog Response :=
  match p with
  | activatePath =>
      Ret (mkResponse 200 (Some contentType)
             (BJson (JObj [("Implements", JArr [JStr "NetworkDriver"])])))
  | capabilitiesPath => Ret (mkResponse 200 None (BJson (JObj [("Scope", JStr "local")])))
  | createNetworkPath => error_handler decode_CreateNetwork drv_CreateNetwork b
  | deleteNetworkPath => error_handler decode_DeleteNetwork drv_DeleteNetwork b
  | createEndpointPath => error_handler decode_CreateEndpoint drv_CreateEndpoint b
  | deleteEndpointPath => error_handler decode_DeleteEndpoint drv_DeleteEndpoint b
  | endpointInfoPath => object_handler decode_Info drv_EndpointInfo encode_InfoResponse b
  | joinPath => object_handler decode_Join drv_Join encode_JoinResponse b
  | leavePath => error_handler decode_Leave drv_Leave b
  end.

(** The requests of a server, one after the other. net/http recovers from a panic
    of a handler: the connection is closed without a response and the process goes
    on with the memory the handler left; an exit ends the process. *)
Inductive served : Type :=
| Replied (r : Response)
| Aborted (why : string)
| Exited (code : Z).

Fixpoint serve {W} {H : Host W} {D : NetDriver} (reqs : list (path * option json)) (s : St) (w : W)
    : list served * St :=
  match reqs with
  | [] => ([], s)
  | (p, b) :: rest =>
      let f := run (initMux p b) s w in
      match out f with
      | Returned r => let '(l, s') := serve rest (state f) (world f) in (Replied r :: l, s')
      | Halted (GoPanic why) => let '(l, s') := serve rest (state f) (world f) in (Aborted why :: l, s')
      | Halted (OsExit c) => ([Exited c], state f)
      end
  end.

(** * Decoding never crashes *)

Definition calm {A} (d : dec A) : Prop := forall h, d <> DHalt h.

Lemma calm_dmap {A B} (f : A -> B) d : calm d -> calm (dmap f d).
Proof. intros Hd h. destruct d; simpl; try done. by destruct (Hd h0). Qed.

Lemma calm_dpair {A B} (x : dec A) (y : dec B) : calm x -> calm y -> calm (dpair x y).
Proof. intros Hx Hy h. destruct x; [destruct y| |]; simpl; try done; unfold calm in *; [naive_solver|destruct y; naive_solver|naive_solver]. Qed.

Lemma calm_dopt {A} (o : option A) : calm (dopt o).
Proof. by destruct o. Qed.

Lemma calm_dfield {A} names m f (zero : A) d : (forall j, calm (d j)) -> calm (dfield names m f zero d).
Proof. intros Hd. unfold dfield. destruct (field names f m); [apply Hd|done]. Qed.

Lemma calm_decode_string j : calm (decode_string j).
Proof. apply calm_dopt. Qed.

Lemma calm_decode_map j : calm (decode_map j).
Proof. by destruct j. Qed.

Lemma calm_decode_anymap j : calm (decode_anymap j).
Proof. destruct j; try done; apply calm_dmap, calm_decode_map. Qed.

Lemma calm_dall {A} (l : list (dec A)) : Forall calm l -> calm (dall l).
Proof. induction 1; simpl; [done|]. by apply calm_dmap, calm_dpair. Qed.

Lemma calm_decode_list {A} (d : json -> dec A) j : (forall j, calm (d j)) -> calm (decode_list d j).
Proof.
  intros Hd. destruct j; try done. simpl. apply calm_dall, Forall_forall.
  intros x Hx. apply list_elem_of_fmap in Hx as (y & -> & _). apply Hd.
Qed.

Lemma calm_decode_ptr {A} (d : json -> dec A) j : (forall j, calm (d j)) -> calm (decode_ptr d j).
Proof. intros Hd. destruct j; try done; apply calm_dmap, Hd. Qed.

Lemma calm_decode_struct {A} (zero : A) d j : (forall m, calm (d m)) -> calm (decode_struct zero d j).
Proof. intros Hd. destruct j; try done. apply Hd. Qed.

Create HintDb go_calm.
#[export] Hint Resolve calm_decode_string calm_decode_anymap : go_calm.

Ltac calm_tac :=
  repeat first
    [ solve [auto with go_calm]
    | apply calm_decode_struct; intros
    | apply calm_dmap
    | apply calm_dpair
    | apply calm_dfield; intros
    | apply calm_decode_list; intros
    | apply calm_decode_ptr; intros ].

Lemma calm_IPAMData j : calm (decode_IPAMData j).
Proof. unfold decode_IPAMData. calm_tac. Qed.
#[export] Hint Resolve calm_IPAMData : go_calm.
Lemma calm_EndpointInterface j : calm (decode_EndpointInterface j).
Proof. unfold decode_EndpointInterface. calm_tac. Qed.
#[export] Hint Resolve calm_EndpointInterface : go_calm.
Lemma calm_CreateNetwork j : calm (decode_CreateNetwork j).
Proof. unfold decode_CreateNetwork. calm_tac. Qed.
Lemma calm_DeleteNetwork j : calm (decode_DeleteNetwork j).
Proof. unfold decode_DeleteNetwork. calm_tac. Qed.
Lemma calm_CreateEndpoint j : calm (decode_CreateEndpoint j).
Proof. unfold decode_CreateEndpoint. calm_tac. Qed.
Lemma calm_DeleteEndpoint j : calm (decode_DeleteEndpoint j).
Proof. unfold decode_DeleteEndpoint. calm_tac. Qed.
Lemma calm_Info j : calm (decode_Info j).
Proof. unfold decode_Info. calm_tac. Qed.
Lemma calm_Join j : calm (decode_Join j).
Proof. unfold decode_Join. calm_tac. Qed.
Lemma calm_Leave j : calm (decode_Leave j).
Proof. unfold decode_Leave. calm_tac. Qed.
#[export] Hint Resolve calm_CreateNetwork calm_DeleteNetwork calm_CreateEndpoint
  calm_DeleteEndpoint calm_Info calm_Join calm_Leave : go_calm.

Lemma calm_decodeRequest {R} (d : json -> dec R) b : (forall j, calm (d j)) -> calm (decodeRequest d b).
Proof. intros Hd. destruct b; simpl; [apply Hd|done]. Qed.

(** * What the handlers guarantee *)

(** The request a body decodes to is malformed. *)
Definition is_err {A} (d : dec A) : bool := match d with DErr => true | _ => false end.

Definition rejects (p : path) (b : option json) : bool :=
  match p with
  | activatePath | capabilitiesPath => false
  | createNetworkPath => is_err (decodeRequest decode_CreateNetwork b)
  | deleteNetworkPath => is_err (decodeRequest decode_DeleteNetwork b)
  | createEndpointPath => is_err (decodeRequest decode_CreateEndpoint b)
  | deleteEndpointPath => is_err (decodeRequest decode_DeleteEndpoint b)
  | endpointInfoPath => is_err (decodeRequest decode_Info b)
  | joinPath => is_err (decodeRequest decode_Join b)
  | leavePath => is_err (decodeRequest decode_Leave b)
  end.

(** A response of a driver operation. *)
Definition from_driver (r : Response) : Prop :=
  (code r = 200%Z /\ exists j, resp r = BJson j) \/ (code r = 500%Z /\ exists e, resp r = BErr e).

Definition handled (rejected : bool) (s : St) (tr : trace)
    (o : outcome Response) (s' : St) (tr' : trace) : Prop :=
  if rejected then o = Returned badRequestResponse /\ s' = s /\ tr' = tr
  else forall r, o = Returned r -> from_driver r.

Lemma wp_error_handler {R} (d : json -> dec R) op b s tr :
  (forall j, calm (d j)) ->
  wp (error_handler d op b) s tr (handled (is_err (decodeRequest d b)) s tr).
Proof.
  intros Hd. unfold error_handler. pose proof (calm_decodeRequest d b Hd) as Hc.
  destruct (decodeRequest d b) as [req| |h]; [|by cbn|by destruct (Hc h)].
  cbn [is_err]. apply wp_bind. eapply wp_mono; [|apply (only_True (op req))].
  intros [[e|]|h] s' tr' _; cbn; intros r [= <-].
  - right. split; [done|]. by eexists.
  - left. split; [done|]. by eexists.
Qed.

Lemma wp_object_handler {R A} (d : json -> dec R) op (enc : A -> json) b s tr :
  (forall j, calm (d j)) ->
  wp (object_handler d op enc b) s tr (handled (is_err (decodeRequest d b)) s tr).
Proof.
  intros Hd. unfold object_handler. pose proof (calm_decodeRequest d b Hd) as Hc.
  destruct (decodeRequest d b) as [req| |h]; [|by cbn|by destruct (Hc h)].
  cbn [is_err]. apply wp_bind. eapply wp_mono; [|apply (only_True (op req))].
  intros [[res [e|]]|h] s' tr' _; cbn; intros r [= <-].
  - right. split; [done|]. by eexists.
  - left. split; [done|]. by eexists.
Qed.

Lemma wp_initMux {D : NetDriver} p b s tr : wp (initMux p b) s tr (handled (rejects p b) s tr).
Proof.
  destruct p; cbn [initMux rejects].
  all: try (apply wp_error_handler; auto with go_calm).
  all: try (apply wp_object_handler; auto with go_calm).
  all: cbn; intros r [= <-]; left; (split; [done|]); by eexists.
Qed.

(** C17: whatever driver is served, a malformed body is answered with status 400
    before any effect: the driver is not called, nothing is changed and no call is
    made. Every other response has status 200 with a document or 500 with an error. *)
Theorem handler_contract {W} {H : Host W} {D : NetDriver} p b s (w : W) :
  let f := run (initMux p b) s w in
  (rejects p b = true -> out f = Returned badRequestResponse /\ state f = s /\ log f = []) /\
  (rejects p b = false -> forall r, out f = Returned r -> from_driver r).
Proof.
  cbv zeta. pose proof (wp_run _ s w _ (wp_initMux p b s [])) as Hf. unfold handled in Hf.
  by destruct (rejects p b).
Qed.

(** The handler of an operation that returns an error is that operation, with its
    result turned into a response. *)
Definition respond (o : outcome (option error)) : outcome Response :=
  match o with
  | Returned None => Returned successResponse
  | Returned (Some e) => Returned (errorResponse e)
  | Halted h => Halted h
  end.

Lemma run_from_error_tail {W} {H : Host W} (p : prog (option error)) s (w : W) tr :
  let g := run_from (let! err := p in
                     match err with
                     | Some e => Ret (errorResponse e)
                     | None => Ret successResponse
                     end) s w tr in
  let f := run_from p s w tr in
  out g = respond (out f) /\ state g = state f /\ log g = log f /\ world g = world f.
Proof.
  revert s w tr. induction p as [a|h|k IH|f k IH|e k IH]; intros s w tr; cbn.
  - by destruct a.
  - done.
  - apply IH.
  - apply IH.
  - destruct (answer e w) as [r w']. apply IH.
Qed.

Lemma run_error_handler {W} {H : Host W} {R} (d : json -> dec R) op j req s (w : W) :
  d j = DVal req ->
  let g := run (error_handler d op (Some j)) s w in
  let f := run (op req) s w in
  out g = respond (out f) /\ state g = state f /\ log g = log f /\ world g = world f.
Proof.
  intros Hd. unfold error_handler, decodeRequest. rewrite Hd. apply run_from_error_tail.
Qed.

(** * A sequence of requests *)

Section served.
Context {W : Type} {H : Host W} {D : NetDriver}.

Lemma serve_invariant (I : St -> Prop) reqs s (w : W) :
  (forall p b, frame (keeps I) (initMux p b)) ->
  I s -> I (serve reqs s w).2.
Proof.
  intros Hf. revert s w. induction reqs as [|[p b] reqs IH]; intros s w Hs; cbn; [done|].
  pose proof (frame_run _ (initMux p b) s w (Hf p b) Hs) as HI.
  destruct (out _) as [r|[why|c]]; [| |done].
  - specialize (IH _ (world (run (initMux p b) s w)) HI). by destruct (serve _ _ _).
  - specialize (IH _ (world (run (initMux p b) s w)) HI). by destruct (serve _ _ _).
Qed.

Definition ends_process (l : list served) : Prop := exists c, last l = Some (Exited c).

Lemma ends_process_cons x l : ends_process l -> ends_process (x :: l).
Proof. intros [c Hc]. exists c. destruct l; [done|]. exact Hc. Qed.

Lemma serve_count reqs s (w : W) :
  let l := (serve reqs s w).1 in
  length l = length reqs \/ (length l <= length reqs /\ ends_process l).
Proof.
  revert s w. induction reqs as [|[p b] reqs IH]; intros s w; cbn; [by left|].
  specialize (IH (state (run (initMux p b) s w)) (world (run (initMux p b) s w))).
  destruct (out _) as [r|[why|c]]; [| |right; split; [cbn; lia|by eexists]].
  - destruct (serve _ _ _) as [l s']. cbn in *. destruct IH as [IH|[IH He]]; [by left; rewrite IH|].
    right. split; [lia|by apply ends_process_cons].
  - destruct (serve _ _ _) as [l s']. cbn in *. destruct IH as [IH|[IH He]]; [by left; rewrite IH|].
    right. split; [lia|by apply ends_process_cons].
Qed.
End served.
