(* ===== verification/Driver.v ===== *)
(** ovs/driver.go: the driver Docker talks to. The options of a network, creating
    and deleting networks, and joining and leaving an endpoint. *)

From S2P Require Import Prelude OvsNotation OvsTypes World NetIP Utils Client Ovsdb Samples Ports Bridge Dknet.

Local Open Scope go_scope.

(** * Constants *)

Definition ovsPortPrefix : string := "ovs-veth0-".
Definition bridgePrefix : string := "ovsbr-".
Definition containerEthName : string := "eth".
Definition optionKey : string := "com.docker.network.generic".
Definition mtuOption : string := "linker.net.ovs.bridge.mtu".
Definition modeOption : string := "linker.net.ovs.bridge.mode".
Definition bridgeNameOption : string := "linker.net.ovs.bridge.name".
Definition bindInterfaceOption : string := "linker.net.ovs.bridge.bind_interface".
Definition typeOption : string := "linker.net.ovs.bridge.type".
Definition networkNameOption : string := "linker.net.ovs.network.name".
Definition defaultMTU : Z := 1500.
Definition defaultMode : string := modeNAT.
Definition validModes : list string := [modeNAT; modeFlat].

(** * Names *)

Definition truncateID (id : string) : outcome string := slice_to id 5.

Definition vethPair (suffix : string) : Veth :=
  mkVeth (ovsPortPrefix +:+ suffix) ("ethc" +:+ suffix).

(** The veth as a netlink link; netlink finds its index by name. *)
Definition veth_link (v : Veth) : Link := mkLink (veth_name v) 0.

(** [fmt.Sprintf(format)] with no arguments: a directive is replaced by a complaint
    about the missing argument, and %% by %. Exact for formats whose directives
    use neither an explicit argument index nor a star. *)
Definition is_flag (a : ascii) : bool :=
  existsb (Ascii.eqb a) ["#"; "0"; "+"; "-"; " "; "1"; "2"; "3"; "4"; "5"; "6"; "7"; "8"; "9"; "."]%char.

Fixpoint Sprintf_go (verb : bool) (format : string) : string :=
  match format with
  | EmptyString => if verb then "%!(NOVERB)" else EmptyString
  | String a rest =>
      if verb then
        if is_flag a then Sprintf_go true rest
        else if Ascii.eqb a "%"%char then String a (Sprintf_go false rest)
        else "%!" +:+ String a ("(MISSING)" +:+ Sprintf_go false rest)
      else if Ascii.eqb a "%"%char then Sprintf_go true rest
      else String a (Sprintf_go false rest)
  end.

Definition Sprintf (format : string) : string := Sprintf_go false format.

Lemma Sprintf_plain s : occurs "%"%char s = 0 -> Sprintf s = s.
Proof.
  unfold Sprintf. induction s as [|a s IH]; cbn; [done|].
  destruct (Ascii.eqb a "%"%char); [done|]. intros H. by rewrite IH.
Qed.

(** * The options of a network *)

(** [r.Options[key]], nothing when the map is nil or has no such key. *)
Definition option_of (r : CreateNetworkRequest) (key : string) : option gval :=
  cn_Options r ≫= sget key.

Definition getBridgeMTU (r : CreateNetworkRequest) : Z :=
  match option_of r mtuOption with
  | Some (VInt mtu) => mtu
  | _ => defaultMTU
  end.

Definition getBridgeName (r : CreateNetworkRequest) (networkname : string) : outcome string :=
  let? networkid := truncateID (cn_NetworkID r) in
  let bridgeName := if 0 <? String.length networkname then networkname +:+ "-" +:+ networkid
                    else bridgePrefix +:+ networkid in
  Returned (match option_of r bridgeNameOption with
            | Some (VString name) => name
            | _ => bridgeName
            end).

Definition getBridgeMode (r : CreateNetworkRequest) : error + string :=
  match option_of r modeOption with
  | Some (VString mode) =>
      if existsb (String.eqb mode) validModes then inr mode
      else inl (Errorf "%s is not a valid mode" [mode])
  | _ => inr defaultMode
  end.

(** The gateway of the first element, when there is one. *)
Definition first_gateway (l : list (option IPAMData)) : option string :=
  match l with
  | Some d :: _ => if String.eqb (IPAM_Gateway d) "" then None else Some (IPAM_Gateway d)
  | _ => None
  end.

Definition getGatewayIP (r : CreateNetworkRequest) : outcome (error + string * string) :=
  let gatewayIP := default "" (first_gateway (IPv6Data r)) in
  let gatewayIP := default gatewayIP (first_gateway (IPv4Data r)) in
  if String.eqb gatewayIP "" then Returned (inl (errors_New "No gateway IP found"))
  else
    let parts := Split slash gatewayIP in
    let? p0 := index parts 0 in
    if String.eqb p0 "" then Returned (inl (errors_New "Cannot split gateway IP address"))
    else
      let? p1 := index parts 1 in
      if String.eqb p1 "" then Returned (inl (errors_New "Cannot split gateway IP address"))
      else Returned (inr (p0, p1)).

(** The common part of the three readers of the generic options: the assertion that
    they are a map is not checked. *)
Definition generic_option (r : CreateNetworkRequest) (key : string) : outcome string :=
  match option_of r optionKey with
  | None | Some VNil => Returned ""
  | Some (VMap option) =>
      match sget key option with
      | Some (VString v) => Returned v
      | _ => Returned ""
      end
  | Some _ => Halted type_assertion_failed
  end.

Definition getBindInterface (r : CreateNetworkRequest) : outcome string :=
  generic_option r bindInterfaceOption.
Definition getNetworkName (r : CreateNetworkRequest) : outcome string :=
  generic_option r networkNameOption.
Definition getNetworkType (r : CreateNetworkRequest) : outcome string :=
  generic_option r typeOption.

Definition ps_command : string := "ps -ef | grep /usr/sbin/ovsopt.sh | grep -v grep | wc -l".

(** The result of the command is not used. *)
Definition checkExecutable (networkType networkName : string) : prog (option error) :=
  if negb (EqualFold networkType type_sgw) && negb (EqualFold networkType type_pgw)
  then Ret None
  else if String.length networkName <=? 0
  then Ret (Some (errors_New "options must specify network name for sgw or pgw type"))
  else
    let! _ := ExecCommandWithComplete ps_command in
    Ret None.

(** * Networks *)

Definition CreateNetwork (r : CreateNetworkRequest) : prog (option error) :=
  let mtu := getBridgeMTU r in
  match getBridgeMode r with
  | inl e => Ret (Some e)
  | inr mode =>
      let! g := lift (getGatewayIP r) in
      match g with
      | inl e => Ret (Some e)
      | inr (gateway, mask) =>
          let! bindInterface := lift (getBindInterface r) in
          let! networkName := lift (getNetworkName r) in
          let! bridgeName := lift (getBridgeName r networkName) in
          let! networktype := lift (getNetworkType r) in
          let! errc := checkExecutable networktype networkName in
          match errc with
          | Some e => Ret (Some e)
          | None =>
              let ns := mkNetwork bridgeName mtu mode gateway mask bindInterface
                                  networktype networkName in
              modify (set_networks (fun m => <[cn_NetworkID r := ns]> m)) ;;;
              let! err := initBridge (cn_NetworkID r) in
              match err with
              | Some e =>
                  modify (set_networks (fun m => delete (cn_NetworkID r) m)) ;;;
                  Ret (Some e)
              | None => Ret None
              end
          end
      end
  end.

Definition DeleteNetwork (r : DeleteNetworkRequest) : prog (option error) :=
  let! (bridgeName, errg) := getBridgeNameByNetworkId (dn_NetworkID r) in
  match errg with
  | Some e => Ret (Some e)
  | None =>
      let! err := deleteBridge bridgeName in
      match err with
      | Some e => Ret (Some e)
      | None =>
          modify (set_networks (fun m => delete (dn_NetworkID r) m)) ;;;
          Ret None
      end
  end.

(** * Endpoints *)

Definition CreateEndpoint (r : CreateEndpointRequest) : prog (option error) := Ret None.
Definition DeleteEndpoint (r : DeleteEndpointRequest) : prog (option error) := Ret None.
Definition EndpointInfo (r : InfoRequest) : prog (option InfoResponse * option error) :=
  Ret (Some (mkInfoResponse []), None).

(** The parse error is ignored, and a nil address prints as <nil>. *)
Definition getIPByInterface (iname : string) : prog (string * option error) :=
  let! err := call (EInterfaceByName iname) in
  match err with
  | Some e => Ret ("", Some e)
  | None =>
      let! r := call (EInterfaceAddrs iname) in
      match r with
      | inl e => Ret ("", Some e)
      | inr addrs =>
          match addrs with
          | a0 :: _ =>
              Ret (IP_String (match ParseCIDR a0 with Some (ip, _) => ip | None => [] end), None)
          | [] => Ret ("", Some (errors_New "get ip by interface name error"))
          end
      end
  end.

Definition Join (r : JoinRequest) : prog (option JoinResponse * option error) :=
  let! suffix := lift (truncateID (jn_EndpointID r)) in
  let localVethPair := vethPair suffix in
  let! err := call (ELinkAdd localVethPair) in
  match err with Some e => Ret (None, Some e) | None =>
  let! err := call (ELinkSetUp (veth_link localVethPair)) in
  match err with Some e => Ret (None, Some e) | None =>
  let! (bridgeName, err) := getBridgeNameByNetworkId (jn_NetworkID r) in
  match err with Some e => Ret (None, Some e) | None =>
  let! erra := addOvsVethPort bridgeName (veth_name localVethPair) 0 in
  match erra with Some e => Ret (None, Some e) | None =>
  let! (gatewayIP, err) := getIPByInterface bridgeName in
  match err with
  | Some e => Ret (None, Some e)
  | None =>
      Ret (Some (mkJoinResponse gatewayIP
                   (mkInterfaceName (PeerName localVethPair) containerEthName) None), None)
  end end end end end.

Definition Leave (r : LeaveRequest) : prog (option error) :=
  let! suffix := lift (truncateID (lv_EndpointID r)) in
  let localVethPair := vethPair suffix in
  let! _ := call (ELinkDel localVethPair) in
  let! suffix := lift (truncateID (lv_EndpointID r)) in
  let portID := Sprintf (ovsPortPrefix +:+ suffix) in
  let! (bridgeName, err) := getBridgeNameByNetworkId (lv_NetworkID r) in
  match err with
  | Some e => Ret (Some e)
  | None =>
      let! errd := deletePort bridgeName portID in
      match errd with
      | Some e => Ret (Some e)
      | None => Ret None
      end
  end.

(** The driver, as the interface the handlers are written against. *)
#[export] Instance Driver : NetDriver := {
  drv_CreateNetwork := CreateNetwork;
  drv_DeleteNetwork := DeleteNetwork;
  drv_CreateEndpoint := CreateEndpoint;
  drv_DeleteEndpoint := DeleteEndpoint;
  drv_EndpointInfo := EndpointInfo;
  drv_Join := Join;
  drv_Leave := Leave
}.

(** * Names *)

(** The longest interface name Linux accepts (IFNAMSIZ, less the final zero). *)
Definition max_ifname : nat := 15.

Lemma truncateID_ok id : 5 <= String.length id -> truncateID id = Returned (substring 0 5 id).
Proof. apply slice_to_ok. Qed.

(** An id of fewer than five bytes crashes truncateID; any other gives a veth
    whose two names are accepted by Linux, the host end using all 15 bytes. *)
Theorem veth_names_fit id :
  (String.length id < 5 -> panics (truncateID id)) /\
  (5 <= String.length id -> exists suffix, truncateID id = Returned suffix /\
     String.length (veth_name (vethPair suffix)) = max_ifname /\
     String.length (PeerName (vethPair suffix)) < max_ifname).
Proof.
  split; [apply slice_to_short|]. intros Hl. exists (substring 0 5 id).
  split; [by apply truncateID_ok|]. unfold vethPair, max_ifname. cbn [veth_name PeerName].
  rewrite !length_string_app, length_substring_0 by done. cbn. lia.
Qed.

(** * Options *)

Lemma smap_of_elem {A} (l : list (string * A)) k v :
  sget k (smap_of l) = Some v -> (k, v) ∈ l.
Proof.
  unfold smap_of. rewrite <- fold_left_rev_right. intros H.
  cut ((k, v) ∈ rev l); [by rewrite !list_elem_of_In, <- in_rev|].
  induction (rev l) as [|[k' v'] l' IH]; cbn in *; [done|].
  destruct (decide (k' = k)) as [->|Hne].
  - rewrite sget_sput_eq in H. simplify_eq. left.
  - rewrite sget_sput_ne in H by done. right. by apply IH.
Qed.

Lemma dpair_DVal {A B} (x : dec A) (y : dec B) a b : dpair x y = DVal (a, b) -> x = DVal a /\ y = DVal b.
Proof. destruct x, y; cbn; naive_solver. Qed.

Lemma decode_anymap_values j o k v :
  decode_anymap j = DVal (Some o) -> sget k o = Some v -> exists j', v = unmarshal_any j'.
Proof.
  destruct j as [| | | | |m]; try done. cbn. intros [= <-] Hk%smap_of_elem.
  apply list_elem_of_fmap in Hk as ([k' j'] & [= -> ->] & _). by exists j'.
Qed.

(** The options of a request that came over the wire hold decoded JSON values. *)
Lemma decoded_options j r k v :
  decode_CreateNetwork j = DVal r -> option_of r k = Some v -> exists j', v = unmarshal_any j'.
Proof.
  destruct j as [| | | | |m]; try done; [by intros [= <-]|].
  unfold decode_CreateNetwork. cbn [decode_struct]. intros Hd Hk.
  destruct (dpair _ _) as [[n [o [v4 v6]]]| |] eqn:E; try done.
  cbn in Hd. simplify_eq. apply dpair_DVal in E as [_ [Eo _]%dpair_DVal].
  unfold option_of in Hk. cbn in Hk. destruct o as [o|]; [|done]. cbn in Hk.
  unfold dfield in Eo. destruct (field _ _ m) as [j'|]; [|done].
  by eapply decode_anymap_values.
Qed.

Lemma decoded_mtu j r : decode_CreateNetwork j = DVal r -> getBridgeMTU r = defaultMTU.
Proof.
  intros Hd. unfold getBridgeMTU. destruct (option_of r mtuOption) as [v|] eqn:E; [|done].
  destruct (decoded_options _ _ _ _ Hd E) as [j' ->]. by destruct j'.
Qed.

(** The MTU option has no effect on a request that Docker sends: JSON numbers
    are decoded as floating-point values, never as the int the driver asks for, so
    every network gets the default of 1500. *)
Theorem mtu_option_ignored j r : decode_CreateNetwork j = DVal r -> getBridgeMTU r = defaultMTU.
Proof. apply decoded_mtu. Qed.

Lemma mtu_option_ignored_witness :
  let j := JObj [("NetworkID", JStr "12345678");
                 ("Options", JObj [("linker.net.ovs.bridge.mtu", JNum "9000")])] in
  exists r, decode_CreateNetwork j = DVal r /\ option_of r mtuOption = Some (VFloat "9000") /\
    getBridgeMTU r = defaultMTU.
Proof.
  intros j. eexists. split; [by vm_compute|]. split; [done|].
  apply (mtu_option_ignored j). by vm_compute.
Defined.

Lemma getBridgeMode_valid r :
  match getBridgeMode r with
  | inr m => m ∈ validModes
  | inl _ => exists m, option_of r modeOption = Some (VString m) /\ m ∉ validModes
  end.
Proof.
  unfold getBridgeMode. destruct (option_of r modeOption) as [[]|]; try (by left).
  destruct (existsb (String.eqb s) validModes) eqn:E.
  - apply existsb_exists in E as (x & Hx & ->%String.eqb_eq). by apply list_elem_of_In.
  - exists s. split; [done|]. intros Hin%list_elem_of_In.
    assert (existsb (String.eqb s) validModes = true) as E'; [|congruence].
    apply existsb_exists. exists s. by rewrite String.eqb_refl.
Qed.

(** The mode a request asks for, NAT when it asks for none. *)
Definition mode_asked (r : CreateNetworkRequest) : string :=
  match option_of r modeOption with
  | Some (VString mode) => mode
  | _ => "nat"
  end.

Lemma getBridgeMode_iff r mode :
  getBridgeMode r = inr mode <-> mode = mode_asked r /\ mode ∈ ["nat"; "flat"].
Proof.
  pose proof (getBridgeMode_valid r) as Hv. unfold getBridgeMode, mode_asked in *.
  destruct (option_of r modeOption) as [[]|];
    try (split; [intros [= <-]; split; [done|left]|by intros [-> _]]).
  destruct (existsb (String.eqb s) validModes).
  - split; [by intros [= <-]|by intros [-> _]].
  - split; [done|]. intros [-> Hin]. destruct Hv as (m & [= ->] & Hn). done.
Qed.

(** The gateway a request names: that of its first IPv4 data, else of its first
    IPv6 data. *)
Definition gateway_of (r : CreateNetworkRequest) : string :=
  default (default "" (first_gateway (IPv6Data r))) (first_gateway (IPv4Data r)).

(** The gateway of a request consists of an address and a prefix length, separated by a
    slash (what follows a second slash does not matter). *)
Definition gateway_parts (r : CreateNetworkRequest) (addr mask : string) : Prop :=
  addr <> "" /\ mask <> "" /\ occurs slash addr = 0 /\ occurs slash mask = 0 /\
  exists rest, gateway_of r = addr +:+ String slash (mask +:+ rest) /\ at_sep slash rest.

Lemma string_app_sep (a b : string) : a +:+ String slash b <> "".
Proof. by destruct a. Qed.

Lemma getGatewayIP_iff r addr mask :
  getGatewayIP r = Returned (inr (addr, mask)) <-> gateway_parts r addr mask.
Proof.
  unfold getGatewayIP, gateway_parts. fold (gateway_of r). split.
  - destruct (String.eqb (gateway_of r) ""); [done|].
    pose proof (Split_parts slash (gateway_of r)) as Hp.
    pose proof (Join_Split slash (gateway_of r)) as Hj. unfold index.
    destruct (Split slash (gateway_of r)) as [|p0 [|p1 ps]]; cbn [lookup list_lookup obind];
      [done|by destruct (String.eqb p0 "")|].
    destruct (String.eqb_spec p0 ""), (String.eqb_spec p1 ""); cbn; intros [= <- <-].
    destruct (Join_part slash p1 ps) as (rest & Er & Hr).
    split; [done|]. split; [done|]. split; [apply Hp; left|]. split; [apply Hp; right; left|].
    exists rest. split; [|done]. rewrite <- Hj, <- Er. done.
  - intros (Ha & Hm & Hsa & Hsm & rest & -> & Hr).
    destruct (String.eqb_spec (addr +:+ String slash (mask +:+ rest)) "") as [E|_];
      [by apply string_app_sep in E|].
    rewrite Split_app by done. destruct (Split_part slash mask rest Hsm Hr) as [ps ->]. cbn.
    destruct (String.eqb_spec addr ""); [done|]. cbn. by destruct (String.eqb_spec mask "").
Qed.

Lemma getGatewayIP_parts r a m :
  getGatewayIP r = Returned (inr (a, m)) ->
  occurs slash a = 0 /\ occurs slash m = 0 /\ a <> "" /\ m <> "".
Proof. rewrite getGatewayIP_iff. intros (? & ? & ? & ? & _). done. Qed.

(** A gateway that is missing, or lacks the address or the prefix length. *)
Definition bad_gateway (r : CreateNetworkRequest) : Prop :=
  gateway_of r = "" \/ (exists rest, gateway_of r = String slash rest) \/
  exists addr rest, occurs slash addr = 0 /\ gateway_of r = addr +:+ String slash rest /\ at_sep slash rest.

Lemma getGatewayIP_bad r : bad_gateway r -> exists e, getGatewayIP r = Returned (inl e).
Proof.
  unfold getGatewayIP. fold (gateway_of r).
  intros [->|[[rest ->]|(addr & rest & Ha & -> & Hr)]]; [by eexists| |].
  - change (String slash rest) with ("" +:+ String slash rest). rewrite Split_app by done.
    by eexists.
  - destruct (String.eqb_spec (addr +:+ String slash rest) "") as [E|_]; [by apply string_app_sep in E|].
    rewrite Split_app by done.
    destruct (Split_part slash "" rest eq_refl Hr) as [ps Hps].
    change ("" +:+ rest) with rest in Hps. rewrite Hps. cbn.
    destruct (String.eqb addr ""); by eexists.
Qed.

Lemma getGatewayIP_no_slash r :
  gateway_of r <> "" -> occurs slash (gateway_of r) = 0 -> panics (getGatewayIP r).
Proof.
  intros Hne Hs. unfold getGatewayIP. fold (gateway_of r).
  destruct (String.eqb_spec (gateway_of r) ""); [done|].
  rewrite Split_no_sep by done. cbn. destruct (String.eqb_spec (gateway_of r) ""); [done|].
  by eexists.
Qed.

(** The gateway is split at its slash. A request with the gateway addr/mask gives back
    both parts, and only such a request does; a missing gateway, address or prefix
    length is an error; a gateway without a slash crashes the request. *)
Theorem getGatewayIP_spec r :
  (bad_gateway r -> exists e, getGatewayIP r = Returned (inl e)) /\
  (gateway_of r <> "" -> occurs slash (gateway_of r) = 0 -> panics (getGatewayIP r)) /\
  (forall addr mask, getGatewayIP r = Returned (inr (addr, mask)) <-> gateway_parts r addr mask).
Proof.
  split; [apply getGatewayIP_bad|]. split; [apply getGatewayIP_no_slash|]. apply getGatewayIP_iff.
Qed.

(** * Frames *)

Lemma checkExecutable_frame R `{!PreOrder R} t n : frame R (checkExecutable t n).
Proof. unfold checkExecutable. frame_tac. Qed.
Lemma getIPByInterface_frame R `{!PreOrder R} n : frame R (getIPByInterface n).
Proof. unfold getIPByInterface. frame_tac. Qed.
#[export] Hint Resolve checkExecutable_frame getIPByInterface_frame : go_frame.
Lemma Join_frame R `{!PreOrder R} r : frame R (Join r).
Proof. unfold Join. frame_tac. Qed.
Lemma Leave_frame R `{!PreOrder R} r : frame R (Leave r).
Proof. unfold Leave. frame_tac. Qed.
Lemma EndpointInfo_frame R `{!PreOrder R} r : frame R (EndpointInfo r).
Proof. unfold EndpointInfo. frame_tac. Qed.
#[export] Hint Resolve Join_frame Leave_frame EndpointInfo_frame : go_frame.

(** * Creating a network *)

(** A driver option of the request, the empty string when it is missing or not a string; the
    generic options are missing, or a map. *)
Definition generic_asked (r : CreateNetworkRequest) (key v : string) : Prop :=
  (option_of r "com.docker.network.generic" ∈ [None; Some VNil] /\ v = "") \/
  exists o, option_of r "com.docker.network.generic" = Some (VMap o) /\
    (sget key o = Some (VString v) \/ ((forall v', sget key o <> Some (VString v')) /\ v = "")).

Lemma generic_option_iff r key v : generic_option r key = Returned v <-> generic_asked r key v.
Proof.
  unfold generic_option, generic_asked. fold optionKey.
  destruct (option_of r optionKey) as [[| | | | | | |o| | |]|].
  all: try (split; [done|intros [[H _]|(o' & [=] & _)]; set_solver]).
  - split; [intros [= <-]; left; split; [set_solver|done]|].
    intros [[_ ->]|(o' & [=] & _)]. done.
  - split.
    + intros H. right. exists o. split; [done|].
      destruct (sget key o) as [[]|]; injection H as <-; naive_solver.
    + intros [[H _]|(o' & [= <-] & [->|[Hn ->]])]; [set_solver|done|].
      destruct (sget key o) as [[]|]; try done. by destruct (Hn s).
  - split; [intros [= <-]; left; split; [set_solver|done]|].
    intros [[_ ->]|(o' & [=] & _)]. done.
Qed.

(** The name of the bridge: the one asked for, or the network name, or the prefix of bridges,
    with the first five bytes of the id. *)
Definition name_asked (r : CreateNetworkRequest) (networkName : string) : string :=
  match option_of r "linker.net.ovs.bridge.name" with
  | Some (VString name) => name
  | _ => (if String.eqb networkName "" then "ovsbr-" else networkName +:+ "-")
         +:+ substring 0 5 (cn_NetworkID r)
  end.

Lemma getBridgeName_iff r n b :
  getBridgeName r n = Returned b <-> 5 <= String.length (cn_NetworkID r) /\ b = name_asked r n.
Proof.
  unfold getBridgeName, name_asked, truncateID, slice_to. fold bridgeNameOption.
  destruct (Nat.leb_spec 5 (String.length (cn_NetworkID r))) as [Hl|Hl]; cbn [obind].
  2: { split; [done|]. intros [? _]. lia. }
  assert ((if 0 <? String.length n then n +:+ "-" +:+ substring 0 5 (cn_NetworkID r)
           else bridgePrefix +:+ substring 0 5 (cn_NetworkID r))
          = (if String.eqb n "" then "ovsbr-" else n +:+ "-") +:+ substring 0 5 (cn_NetworkID r)) as ->.
  { destruct n; [done|]. cbn [String.length String.eqb]. apply string_app_assoc. }
  destruct (option_of r bridgeNameOption) as [[]|]; (split; [by intros [= <-]|by intros [_ ->]]).
Qed.

(** The state a request asks for. *)
Definition config_of (r : CreateNetworkRequest) (ns : NetworkState) : Prop :=
  MTU ns = match option_of r "linker.net.ovs.bridge.mtu" with
           | Some (VInt mtu) => mtu
           | _ => 1500%Z
           end /\
  (Mode ns = mode_asked r /\ Mode ns ∈ ["nat"; "flat"]) /\
  gateway_parts r (Gateway ns) (GatewayMask ns) /\
  generic_asked r "linker.net.ovs.bridge.bind_interface" (FlatBindInterface ns) /\
  generic_asked r "linker.net.ovs.network.name" (NetworkName ns) /\
  (5 <= String.length (cn_NetworkID r) /\ BridgeName ns = name_asked r (NetworkName ns)) /\
  generic_asked r "linker.net.ovs.bridge.type" (NetworkType ns) /\
  (is_gateway (NetworkType ns) = true -> NetworkName ns <> "").

(** The readers of the options read just that. *)
Lemma config_of_readers r ns :
  config_of r ns <->
  MTU ns = getBridgeMTU r /\
  getBridgeMode r = inr (Mode ns) /\
  getGatewayIP r = Returned (inr (Gateway ns, GatewayMask ns)) /\
  getBindInterface r = Returned (FlatBindInterface ns) /\
  getNetworkName r = Returned (NetworkName ns) /\
  getBridgeName r (NetworkName ns) = Returned (BridgeName ns) /\
  getNetworkType r = Returned (NetworkType ns) /\
  (is_gateway (NetworkType ns) = true -> NetworkName ns <> "").
Proof.
  unfold getBindInterface, getNetworkName, getNetworkType.
  rewrite getBridgeMode_iff, getGatewayIP_iff, getBridgeName_iff, !generic_option_iff. done.
Qed.

(** The ways CreateNetwork ends. A request that asks for no configuration is refused or
    crashes before any call is made, with the memory as it was. For any other the
    entry of the id is set, after the command that is run for a gateway network, and
    the bridge is initialised: the entry stays on a success and on a crash, and an
    error of the initialisation deletes it. *)
Definition create_post (r : CreateNetworkRequest) (s : St)
    (o : outcome (option error)) (s' : St) (tr : trace) : Prop :=
  ((forall ns, ~ config_of r ns) /\ s' = s /\ tr = [] /\ o <> Returned None) \/
  exists ns tc ti, config_of r ns /\ tr = tc ++ ti /\ (is_gateway (NetworkType ns) = false -> tc = []) /\
    let s1 := set_networks (fun m => <[cn_NetworkID r := ns]> m) s in
    match o with
    | Returned None => networks s' = <[cn_NetworkID r := ns]> (networks s) /\ init_stages ns s1 s' ti
    | Returned (Some _) => networks s' = delete (cn_NetworkID r) (networks s)
    | Halted _ => networks s' = <[cn_NetworkID r := ns]> (networks s)
    end.

Lemma wp_lift {A} (o : outcome A) s tr Q : Q o s tr -> wp (lift o) s tr Q.
Proof. by destruct o. Qed.

(** The command of checkExecutable never ends the process. *)
Lemma wp_ExecCommandWithComplete input s tr Q :
  (forall r t, Q (Returned r) s (tr ++ t)) -> wp (ExecCommandWithComplete input) s tr Q.
Proof.
  intros HQ. unfold ExecCommandWithComplete. wp_norm.
  repeat (let r := fresh in intros r _; repeat destruct r as [? r]; destruct r; wp_norm;
          rewrite <- ?app_assoc; try apply HQ).
Qed.

Lemma wp_checkExecutable t n s tr Q :
  (forall t', (is_gateway t = true -> n <> "") -> (is_gateway t = false -> t' = []) ->
     Q (Returned None) s (tr ++ t')) ->
  (forall e, is_gateway t = true -> n = "" -> Q (Returned (Some e)) s tr) ->
  wp (checkExecutable t n) s tr Q.
Proof.
  intros Hok He. unfold checkExecutable.
  destruct (negb (EqualFold t type_sgw) && negb (EqualFold t type_pgw)) eqn:Eg.
  - cbn. rewrite <- (app_nil_r tr). apply Hok; [|done]. unfold is_gateway.
    apply andb_true_iff in Eg as [E1%negb_true_iff E2%negb_true_iff]. by rewrite E1, E2.
  - assert (is_gateway t = true) as Hg.
    { unfold is_gateway. destruct (EqualFold t type_sgw), (EqualFold t type_pgw); done. }
    destruct (Nat.leb_spec (String.length n) 0).
    + cbn. apply He; [done|]. destruct n; [done|]. cbn in *; lia.
    + apply wp_bind, wp_ExecCommandWithComplete. intros r t'. cbn. apply Hok; [|by rewrite Hg].
      intros _ ->. cbn in *; lia.
Qed.

Lemma refused_post r s o :
  (forall ns, config_of r ns -> False) -> o <> Returned None -> create_post r s o s [].
Proof. intros Hc Ho. by left. Qed.

Lemma wp_CreateNetwork r s : wp (CreateNetwork r) s [] (create_post r s).
Proof.
  unfold CreateNetwork. destruct (getBridgeMode r) as [e|mode] eqn:Em.
  { apply refused_post; [|done]. intros ns (_ & ? & _)%config_of_readers. congruence. }
  apply wp_bind, wp_lift. destruct (getGatewayIP r) as [[e|[gw mask]]|h] eqn:Eg; cbn [post_bind].
  1,3: apply refused_post; [|done]; intros ns (_ & _ & ? & _)%config_of_readers; congruence.
  apply wp_bind, wp_lift. destruct (getBindInterface r) as [bi|h] eqn:Eb; cbn [post_bind].
  2: { apply refused_post; [|done]. intros ns (_ & _ & _ & ? & _)%config_of_readers. congruence. }
  apply wp_bind, wp_lift. destruct (getNetworkName r) as [nn|h] eqn:En; cbn [post_bind].
  2: { apply refused_post; [|done]. intros ns (_ & _ & _ & _ & ? & _)%config_of_readers. congruence. }
  apply wp_bind, wp_lift. destruct (getBridgeName r nn) as [bn|h] eqn:Ebn; cbn [post_bind].
  2: { apply refused_post; [|done]. intros ns (_ & _ & _ & _ & ? & ? & _)%config_of_readers. congruence. }
  apply wp_bind, wp_lift. destruct (getNetworkType r) as [nt|h] eqn:Et; cbn [post_bind].
  2: { apply refused_post; [|done]. intros ns (_ & _ & _ & _ & _ & _ & ? & _)%config_of_readers. congruence. }
  apply wp_bind, wp_checkExecutable; cbn [post_bind].
  2: { intros e Hg Hn. apply refused_post; [|done].
       intros ns (_ & _ & _ & _ & ? & _ & ? & Hname)%config_of_readers. apply Hname; congruence. }
  intros tc Hname Htc. cbn [modify bind wp].
  set (ns := mkNetwork bn (getBridgeMTU r) mode gw mask bi nt nn).
  assert (config_of r ns) as Hc by by apply config_of_readers; do 7 (split; [done|]).
  apply wp_bind. eapply wp_mono; [|apply (wp_initBridge _ _ _ ns); cbn; by rewrite lookup_insert_eq].
  intros o s' tr' (Hs' & ti & -> & Hst). cbn in Hs'.
  destruct o as [[e|]|h]; cbn; right; exists ns, tc, ti; do 3 (split; [done|]); cbn.
  - rewrite Hs'. apply delete_insert_eq.
  - auto.
  - done.
Qed.

(** C1: what CreateNetwork does, on every outcome and every host. A request that asks for
    no configuration (an invalid mode, a gateway that is not an address and a prefix
    length, a short id, generic options that are not a map, a gateway network without
    a name) is refused or crashes before any call, and the memory, including an entry
    the id had before, is unchanged. For every other request the entry of the id is
    set to exactly the configuration the request asks for and the bridge is
    initialised: a success keeps the entry, after all the stages of initBridge; an
    error deletes it, whether or not the id had one before; a crash or exit leaves the
    new entry in place. No other network is touched. *)
Theorem CreateNetwork_spec {W} {H : Host W} r s (w : W) :
  let f := run (CreateNetwork r) s w in
  create_post r s (out f) (state f) (log f).
Proof. cbv zeta. apply (wp_run _ s w _ (wp_CreateNetwork r s)). Qed.







Definition sample_request (opts : smap gval) : CreateNetworkRequest :=
  mkCreateNetwork "12345678" (Some opts) [Some (mkIPAM "" "172.18.40.0/24" "172.18.40.1/24" None)] [].


(** A flat-mode request, and a host on which the interface of the bridge is seen by
    the net package but not found by netlink. *)
Definition flat_request : CreateNetworkRequest := sample_request [(modeOption, VString "flat")].

Definition no_link_ans (past : list ext) (e : ext) : ans e :=
  match e return ans e with
  | ELinkByName _ => inl (errors_New "Link not found")
  | e' => sim_ans (one_bridge "") past e'
  end.

Lemma no_link_legal past e : legal e (no_link_ans past e).
Proof. destruct e; try exact (sim_legal _ past _). done. Qed.

Definition no_link_host : Host (list ext) := history_host no_link_ans no_link_legal.

(** An error that interfaceUp should report is a crash instead, because the nil
    link is dereferenced in its log statement: the request is aborted without a
    response and the network stays registered. *)
Theorem CreateNetwork_crash_leaves_entry :
  let f := @run _ _ no_link_host (CreateNetwork flat_request) st_ready [] in
  panics (out f) /\ exists ns, networks (state f) !! "12345678" = Some ns /\ Mode ns = modeFlat.
Proof. cbv zeta. split; [by eexists; vm_compute|]. eexists. split; by vm_compute. Qed.

(** * Deleting a network *)


#[export] Instance outcome_error_dec : EqDecision (outcome (option error)).
Proof. solve_decision. Defined.

(** The bridge the server names for the network, and what was done to it. *)
Lemma wp_DeleteNetwork r s :
  wp (DeleteNetwork r) s [] (fun o s' tr =>
    (if decide (o = Returned None)
     then s' = set_networks (fun m => delete (dn_NetworkID r) m) s /\
       exists name t1 t2, tr = t1 ++ t2 /\ answered_with "network_id" (dn_NetworkID r) "name" name t1
     else s' = s)).
Proof.
  unfold DeleteNetwork, getBridgeNameByNetworkId. apply wp_bind, wp_query_column; cbn [post_bind app].
  - intros e t _. cbn. by rewrite decide_False.
  - intros name t Ht. apply wp_bind, wp_frame_eq; [auto with go_frame|].
    intros [[e|]|h] t'; cbn [post_bind wp modify bind].
    + by rewrite decide_False.
    + rewrite decide_True by done. split; [done|]. by exists name, t, t'.
    + by rewrite decide_False.
  - intros h t _. by rewrite decide_False.
Qed.

(** C15: DeleteNetwork forgets the network when it reports success, and then the
    server has named a bridge for that network; on an error or a crash the memory
    is unchanged. *)
Theorem DeleteNetwork_spec {W} {H : Host W} r s (w : W) :
  let f := run (DeleteNetwork r) s w in
  (out f = Returned None ->
     state f = set_networks (fun m => delete (dn_NetworkID r) m) s /\
     exists name t1 t2, log f = t1 ++ t2 /\
       answered_with "network_id" (dn_NetworkID r) "name" name t1) /\
  (out f <> Returned None -> state f = s).
Proof.
  cbv zeta. pose proof (wp_run _ s w _ (wp_DeleteNetwork r s)) as Hd. cbn in Hd.
  split; intros Ho; [rewrite decide_True in Hd by done|rewrite decide_False in Hd by done]; done.
Qed.

(** * An invariant of the server *)

(** What every network the driver knows satisfies. *)
Definition wf_network (id : string) (ns : NetworkState) : Prop :=
  5 <= String.length id /\ Mode ns ∈ validModes /\ MTU ns = defaultMTU /\
  Gateway ns <> "" /\ GatewayMask ns <> "" /\
  occurs slash (Gateway ns) = 0 /\ occurs slash (GatewayMask ns) = 0 /\
  (is_gateway (NetworkType ns) = true -> NetworkName ns <> "").

Definition wf (s : St) : Prop := map_Forall wf_network (networks s).

Lemma config_wf r ns :
  getBridgeMTU r = defaultMTU -> config_of r ns -> wf_network (cn_NetworkID r) ns.
Proof.
  intros Hmtu Hc. pose proof Hc as (Em & _)%config_of_readers.
  destruct Hc as (_ & [_ Hmode] & (? & ? & ? & ? & _) & _ & _ & [? _] & _ & Hname).
  split; [done|]. split; [done|]. split; [congruence|done].
Qed.

Lemma CreateNetwork_wf r : getBridgeMTU r = defaultMTU -> frame (keeps wf) (CreateNetwork r).
Proof.
  intros Hmtu s tr. apply (wp_any_trace _ _ []). eapply wp_mono; [|apply wp_CreateNetwork].
  intros o s' tr' Hp Hwf. unfold wf in *.
  destruct Hp as [(_ & -> & _)|(ns & tc & ti & Hc%config_wf & _ & _ & Hs)]; [done| |done].
  destruct o as [[e|]|h]; [rewrite Hs|destruct Hs as [-> _]|rewrite Hs];
    first [by apply map_Forall_delete|by apply map_Forall_insert_2].
Qed.

Lemma DeleteNetwork_wf r : frame (keeps wf) (DeleteNetwork r).
Proof.
  intros s tr. apply (wp_any_trace _ _ []). eapply wp_mono; [|apply wp_DeleteNetwork].
  cbn. intros o s' tr' Hp Hwf. destruct (decide _); [|by subst].
  destruct Hp as [-> _]. by apply map_Forall_delete.
Qed.
#[export] Hint Resolve DeleteNetwork_wf : go_frame.

Lemma initMux_wf p b : frame (keeps wf) (initMux p b).
Proof.
  destruct p; cbn [initMux drv_CreateNetwork drv_DeleteNetwork drv_CreateEndpoint
    drv_DeleteEndpoint drv_EndpointInfo drv_Join drv_Leave Driver];
    unfold error_handler, object_handler, CreateEndpoint, DeleteEndpoint.
  3: { destruct b as [j|]; cbn; [|frame_tac]. destruct (decode_CreateNetwork j) as [r| |h] eqn:E;
       [|frame_tac|frame_tac]. apply frame_bind; [apply _| |intros; frame_tac].
       apply CreateNetwork_wf. by eapply decoded_mtu. }
  all: frame_tac.
Qed.

(** C2: starting with no networks, after any sequence of requests, malformed,
    failing and crashing ones included, and against any host, every network the
    driver knows is well formed: a valid mode, the default MTU, a gateway address
    and a prefix length that are not empty and hold no slash, an id of at least
    five bytes, and a name if it is a gateway network. *)
Theorem served_networks_wf {W} {H : Host W} reqs s (w : W) :
  networks s = ∅ -> wf (serve reqs s w).2.
Proof.
  intros Hs. apply serve_invariant; [apply initMux_wf|]. unfold wf. rewrite Hs.
  apply map_Forall_empty.
Qed.

Definition create_json : json :=
  JObj [("NetworkID", JStr "12345678");
        ("Options", JObj [("com.docker.network.generic", JObj [])]);
        ("IPv4Data", JArr [JObj [("Gateway", JStr "172.18.40.1/24")]])].

Lemma served_networks_wf_witness :
  let r := @serve _ sample_host _ [(createNetworkPath, Some create_json);
                                   (joinPath, None)] st_ipt [] in
  r.1 = [Replied successResponse; Replied badRequestResponse] /\ wf r.2.
Proof. split; [by vm_compute|]. by apply (@served_networks_wf _ sample_host). Defined.

(** The server answers every request, in order, with a response or a closed
    connection, unless a request ends the process, and that one is the last. *)
Theorem every_request_served {W} {H : Host W} reqs s (w : W) :
  let l := (serve reqs s w).1 in
  length l = length reqs \/ (length l <= length reqs /\ ends_process l).
Proof. apply serve_count. Qed.

(** * Joining an endpoint *)

(** What net said when the address of an interface could not be had. *)
Definition no_address (iname : string) (t : trace) : Prop :=
  (exists e, t = [Entry (EInterfaceByName iname) (Some e)]) \/
  (exists e, t = [Entry (EInterfaceByName iname) None; Entry (EInterfaceAddrs iname) (inl e)]) \/
  t = [Entry (EInterfaceByName iname) None; Entry (EInterfaceAddrs iname) (inr [])].

Lemma wp_getIPByInterface iname s tr Q :
  (forall a0 rest, Q (Returned (IP_String (match ParseCIDR a0 with Some (ip, _) => ip | None => [] end), None))
     s (tr ++ [Entry (EInterfaceByName iname) None; Entry (EInterfaceAddrs iname) (inr (a0 :: rest))])) ->
  (forall e t, no_address iname t -> Q (Returned ("", Some e)) s (tr ++ t)) ->
  wp (getIPByInterface iname) s tr Q.
Proof.
  intros Hok He. unfold getIPByInterface. wp_norm.
  intros [e|] _; wp_norm; [apply He; left; by eexists|].
  intros [e|[|a0 rest]] _; wp_norm; rewrite <- app_assoc; [apply He|apply He|apply Hok].
  - right; left. by eexists.
  - by right; right.
Qed.

(** The client sends a transaction only on a database whose schema it has read, and when
    the schema knows the tables and columns of the operations. *)
Definition sendable (s : St) (ops : list Operation) : Prop :=
  exists sch, Schema s !! Open_vSwitch = Some sch /\ validateOperations sch ops = true.

(** The transaction was sent, if it can be at all, and if the server's results could be
    read none of them reports an error. *)
Definition tx_unrefused (s : St) (ops : list Operation) (t : trace) : Prop :=
  (sendable s ops /\ exists r, t = [Entry (transact_call Open_vSwitch ops) r] /\
     forall j reply, r = RpcResult j -> decode_results j = DVal reply ->
       Forall (fun o => ResError o = "") reply) \/
  (~ sendable s ops /\ t = []).

(** The transaction was sent and one of the results reports an error. *)
Definition tx_refused (s : St) (ops : list Operation) (t : trace) : Prop :=
  sendable s ops /\ exists reply, tx_answered Open_vSwitch ops t reply /\
    Exists (fun o => ResError o <> "") reply.

(** The lookup of the bridge of a network failed: it could not be sent, or the answer names no
    bridge. *)
Definition lookup_failed (s : St) (id : string) (t : trace) : Prop :=
  let ops := [select_op "BridgeOpt" "network_id" id] in
  (~ sendable s ops /\ t = []) \/
  (sendable s ops /\ (exists r, t = [Entry (transact_call Open_vSwitch ops) r]) /\
   forall name, ~ answered_with "network_id" id "name" name t).

Lemma transact_entry_inj db ops (r r' : rpc_reply) :
  [Entry (transact_call db ops) r] = [Entry (transact_call db ops) r'] -> r = r'.
Proof. intros H. apply (f_equal (map reply_of)) in H. by injection H. Qed.

Lemma wp_lookup id s tr Q :
  (forall e t, lookup_failed s id t -> Q (Returned ("", Some e)) s (tr ++ t)) ->
  (forall v t, answered_with "network_id" id "name" v t -> Q (Returned (v, None)) s (tr ++ t)) ->
  (forall h t, tx_replied Open_vSwitch [select_op "BridgeOpt" "network_id" id] t ->
     Q (Halted h) s (tr ++ t)) ->
  wp (getBridgeNameByNetworkId id) s tr Q.
Proof.
  intros He Hv Hh. unfold getBridgeNameByNetworkId, query_column, select_rows, Transact. wp_norm.
  set (ops := [select_op "BridgeOpt" "network_id" id]).
  assert (forall e, ~ sendable s ops -> Q (Returned ("", Some e)) s tr) as Hnone.
  { intros e Hs. rewrite <- (app_nil_r tr). apply He. by left. }
  destruct (Schema s !! Open_vSwitch) as [sch|] eqn:Es; [|apply Hnone; intros (? & ? & _); congruence].
  destruct (validateOperations sch ops) eqn:Ev; cbn [negb];
    [|apply Hnone; intros (? & ? & ?); congruence].
  assert (sendable s ops) as Hsend by by exists sch.
  assert (forall e r, (forall name, ~ answered_with "network_id" id "name" name
            [Entry (transact_call Open_vSwitch ops) r]) ->
          Q (Returned ("", Some e)) s (tr ++ [Entry (transact_call Open_vSwitch ops) r])) as Hfail.
  { intros e r Hr. apply He. right. split; [done|]. split; [by exists r|done]. }
  unfold rpc. wp_norm. intros [j|e] _; wp_norm.
  2: { apply Hfail. intros name (? & ? & ? & ? & (j & Hj%transact_entry_inj & _) & _). done. }
  destruct (decode_results j) as [[|r0 rest]| |h] eqn:E; cbn.
  - apply Hfail. intros name (r1 & ? & ? & ? & (j' & [= <-]%transact_entry_inj & Hd) & _). congruence.
  - assert (forall name, (forall row rows, ResError r0 = "" -> ResRows r0 = row :: rows ->
        sget "name" row = Some (VString name) -> False) ->
        ~ answered_with "network_id" id "name" name [Entry (transact_call Open_vSwitch ops) (RpcResult j)]) as Hno.
    { intros name Hn (r1 & rest' & row & rows & (j' & [= <-]%transact_entry_inj & Hd) & H1 & H2 & H3).
      rewrite E in Hd. injection Hd as -> ->. exact (Hn row rows H1 H2 H3). }
    destruct (String.eqb_spec (ResError r0) "") as [E0|E0]; cbn [negb]; wp_norm.
    2: { apply Hfail. intros name. apply Hno. congruence. }
    destruct (ResRows r0) as [|row rows] eqn:Er; cbn; [apply Hfail; intros name; apply Hno; congruence|].
    destruct (sget "name" row) as [[]|] eqn:En; cbn.
    all: first [apply Hv; exists r0, rest, row, rows; split; [by exists j|done]|apply Hh; by exists j].
  - apply Hfail. intros name (r1 & ? & ? & ? & (j' & [= <-]%transact_entry_inj & Hd) & _). congruence.
  - apply Hh. by exists j.
Qed.

Lemma scan_replies_Some n i reply fe fd e :
  scan_replies n i reply fe fd = Some e -> Exists (fun o => ResError o <> "") reply.
Proof.
  revert i. induction reply as [|o reply IH]; intros i; cbn; [done|].
  destruct (String.eqb_spec (ResError o) "") as [_|Ho]; cbn.
  - intros H. apply Exists_cons_tl. by eapply IH.
  - intros _. by apply Exists_cons_hd.
Qed.

Lemma wp_addOvsVethPort bridgeName portName tag s tr Q :
  (forall t, tx_unrefused s (veth_port_ops bridgeName portName) t -> Q (Returned None) s (tr ++ t)) ->
  (forall e t, tx_refused s (veth_port_ops bridgeName portName) t ->
     Q (Returned (Some e)) s (tr ++ t)) ->
  (forall h t, tx_replied Open_vSwitch (veth_port_ops bridgeName portName) t ->
     Q (Halted h) s (tr ++ t)) ->
  wp (addOvsVethPort bridgeName portName tag) s tr Q.
Proof.
  intros Hok He Hh. unfold addOvsVethPort, Transact. wp_norm.
  set (ops := veth_port_ops bridgeName portName).
  assert (~ sendable s ops -> Q (Returned None) s tr) as Hnone.
  { intros Hs. rewrite <- (app_nil_r tr). apply Hok. by right. }
  destruct (Schema s !! Open_vSwitch) as [sch|] eqn:Es; [|apply Hnone; intros (? & ? & _); congruence].
  destruct (validateOperations sch ops) eqn:Ev; cbn [negb];
    [|apply Hnone; intros (? & ? & ?); congruence].
  assert (sendable s ops) as Hsend by by exists sch.
  unfold rpc. wp_norm. intros [j|e] _; wp_norm.
  2: { apply Hok. left. split; [done|]. by eexists. }
  destruct (decode_results j) as [reply| |h] eqn:E; cbn.
  - destruct (scan_replies _ _ _ _ _) as [e|] eqn:Er.
    + apply He. split; [done|]. exists reply. split; [by exists j|]. by eapply scan_replies_Some.
    + apply scan_replies_None in Er. apply Hok. left. split; [done|]. eexists. split; [done|].
      intros j' reply' [= <-] E'. congruence.
  - apply Hok. left. split; [done|]. eexists. split; [done|]. intros j' reply' [= <-] E'. congruence.
  - apply Hh. by eexists.
Qed.

(** The calls of a join that succeeds, and its answer. *)
Definition join_stages (r : JoinRequest) (s : St) (suffix : string) (res : JoinResponse) (tr : trace)
    : Prop :=
  exists bridgeName tname tport a0 rest,
    answered_with "network_id" (jn_NetworkID r) "name" bridgeName tname /\
    tx_unrefused s (veth_port_ops bridgeName (veth_name (vethPair suffix))) tport /\
    tr = [Entry (ELinkAdd (vethPair suffix)) None;
          Entry (ELinkSetUp (veth_link (vethPair suffix))) None] ++ tname ++ tport ++
         [Entry (EInterfaceByName bridgeName) None;
          Entry (EInterfaceAddrs bridgeName) (inr (a0 :: rest))] /\
    res = mkJoinResponse (IP_String (match ParseCIDR a0 with Some (ip, _) => ip | None => [] end))
            (mkInterfaceName (PeerName (vethPair suffix)) containerEthName) None.

(** The calls of a join that fails, up to the one that failed: adding the link, bringing
    it up, looking up the bridge, attaching the port, or reading the address. *)
Definition join_failed (r : JoinRequest) (s : St) (suffix : string) (tr : trace) : Prop :=
  let v := vethPair suffix in
  (exists e, tr = [Entry (ELinkAdd v) (Some e)]) \/
  (exists e, tr = [Entry (ELinkAdd v) None; Entry (ELinkSetUp (veth_link v)) (Some e)]) \/
  exists t, tr = [Entry (ELinkAdd v) None; Entry (ELinkSetUp (veth_link v)) None] ++ t /\
    (lookup_failed s (jn_NetworkID r) t \/
     exists bridgeName tname t', t = tname ++ t' /\
       answered_with "network_id" (jn_NetworkID r) "name" bridgeName tname /\
       (tx_refused s (veth_port_ops bridgeName (veth_name v)) t' \/
        exists tport taddr, t' = tport ++ taddr /\
          tx_unrefused s (veth_port_ops bridgeName (veth_name v)) tport /\
          no_address bridgeName taddr)).

(** A crash: of an id that is too short, before any call, or of a reply of the server
    that cannot be read, the last call made. *)
Definition join_crashed (r : JoinRequest) (tr : trace) : Prop :=
  (String.length (jn_EndpointID r) < 5 /\ tr = []) \/
  exists t ops j, tr = t ++ [Entry (transact_call Open_vSwitch ops) (RpcResult j)].

Definition join_post (r : JoinRequest) (s : St) (o : outcome (option JoinResponse * option error))
    (tr : trace) : Prop :=
  match o with
  | Returned (Some res, None) => exists suffix,
      truncateID (jn_EndpointID r) = Returned suffix /\ join_stages r s suffix res tr
  | Returned (None, Some _) => exists suffix,
      truncateID (jn_EndpointID r) = Returned suffix /\ join_failed r s suffix tr
  | Returned _ => False
  | Halted _ => join_crashed r tr
  end.

Lemma truncateID_halts id h : truncateID id = Halted h -> String.length id < 5.
Proof. unfold truncateID, slice_to. by destruct (Nat.leb_spec 5 (String.length id)). Qed.

Lemma wp_Join r s : wp (Join r) s [] (fun o s' tr => s' = s /\ join_post r s o tr).
Proof.
  unfold Join. apply wp_bind, wp_lift.
  destruct (truncateID (jn_EndpointID r)) as [suffix|h] eqn:Et; cbn [post_bind].
  2: { split; [done|]. left. split; [by eapply truncateID_halts|done]. }
  assert (forall e tr, join_failed r s suffix tr -> s = s /\ join_post r s (Returned (None, Some e)) tr)
    as Hfail by (intros e tr Hj; split; [done|]; by exists suffix).
  wp_norm. intros [e|] _; wp_norm; [apply (Hfail e); left; by eexists|].
  intros [e|] _; wp_norm; [apply (Hfail e); right; left; by eexists|].
  apply wp_bind, wp_lookup; cbn [post_bind].
  - intros e t Ht. cbn. apply (Hfail e). right; right. exists t. split; [done|]. by left.
  - intros bridgeName tname Hname. apply wp_bind, wp_addOvsVethPort; cbn [post_bind].
    + intros tport Hport. apply wp_bind, wp_getIPByInterface; cbn [post_bind].
      * intros a0 rest. cbn. split; [done|]. exists suffix. split; [done|].
        exists bridgeName, tname, tport, a0, rest. do 2 (split; [done|]). split; [|done].
        by rewrite <- !app_assoc.
      * intros e t Ht. cbn. apply (Hfail e). right; right. exists (tname ++ tport ++ t).
        split; [cbn; by rewrite <- ?app_assoc|]. right. exists bridgeName, tname, (tport ++ t).
        do 2 (split; [done|]). right. by exists tport, t.
    + intros e t Ht. cbn. apply (Hfail e). right; right. exists (tname ++ t).
      split; [cbn; by rewrite <- ?app_assoc|]. right. exists bridgeName, tname, t.
      do 2 (split; [done|]). by left.
    + intros h t (j & ->). split; [done|]. right. by eexists _, _, j.
  - intros h t (j & ->). split; [done|]. right. by eexists _, _, j.
Qed.

(** C5: what Join does, on every outcome and every host. A join that succeeds has created
    and brought up the veth pair named after the endpoint, obtained from the server the
    bridge of the network, and sent the server the one transaction that attaches the
    host end of the pair to that bridge, with no error among the results it could read
    (nothing is sent only when the client has no schema of the database, or one without
    the tables or columns of the operations, which Join does not notice); it answers
    with the container end, the prefix eth and the first address of the bridge
    interface as the gateway. A join that fails made the same calls up to the one that
    failed. It crashes only on an endpoint id of fewer than five bytes, before any
    call, or on a reply of the server. A join never changes the driver's memory and
    returns either a response or an error. *)
Theorem Join_spec {W} {H : Host W} r s (w : W) :
  let f := run (Join r) s w in
  state f = s /\ join_post r s (out f) (log f).
Proof. cbv zeta. apply (wp_run _ s w _ (wp_Join r s)). Qed.

(** The gateway handed to a container is the IPv4 address of the bridge: when
    the first address of the interface is a.b.c.d/n, getIPByInterface returns
    a.b.c.d. *)
Theorem getIPByInterface_dotted {W} {H : Host W} iname s (w : W) a b c d n :
  Forall is_byte [a; b; c; d] -> (0 <= n <= 32)%Z ->
  (forall w, (answer (EInterfaceByName iname) w).1 = None) ->
  (forall w, exists rest,
     (answer (EInterfaceAddrs iname) w).1 = inr ((dotted [a; b; c; d] +:+ String slash (pretty n)) :: rest)) ->
  out (run (getIPByInterface iname) s w) = Returned (dotted [a; b; c; d], None).
Proof.
  intros Hb Hn Hi Ha. unfold run, getIPByInterface. cbn [bind call run_from].
  specialize (Hi w). destruct (answer (EInterfaceByName iname) w) as [r1 w1]. cbn in Hi. subst r1.
  cbn [run_from]. destruct (Ha w1) as [rest Hr].
  destruct (answer (EInterfaceAddrs iname) w1) as [r2 w2]. cbn [fst] in Hr. subst r2.
  cbn [run_from]. rewrite ParseCIDR_dotted by done. done.
Qed.

Lemma getIPByInterface_dotted_witness :
  out (@run _ _ sample_host (getIPByInterface "br") st_ready []) = Returned ("172.18.40.1", None).
Proof.
  apply (@getIPByInterface_dotted _ sample_host "br" st_ready [] 172 18 40 1 24).
  - repeat (constructor; [unfold is_byte; lia|]). constructor.
  - lia.
  - done.
  - intros w. by exists [].
Defined.

(** No call of a run deletes a link. *)
Definition keeps_links (e : ext) : Prop := match e with ELinkDel _ => False | _ => True end.

Lemma rpc_keeps_links {A} (p : prog A) : only is_rpc p -> only keeps_links p.
Proof. apply only_mono. by intros []. Qed.

Lemma Join_keeps_links r : only keeps_links (Join r).
Proof.
  unfold Join, getBridgeNameByNetworkId, query_column, column_string, select_rows, addOvsVethPort,
    getIPByInterface.
  repeat first [ apply rpc_keeps_links, Transact_only | frame_step ]; done.
Qed.

(** No run of Join deletes a link, so a join that fails after the veth pair was
    created leaves the pair behind; such a join exists: with the connection to
    OVSDB shut down, the pair is created and the join returns an error. *)
Theorem Join_leaks_veth :
  (forall W (H : Host W) r s (w : W), Forall keeps_links (exts (log (run (Join r) s w)))) /\
  let f := @run _ _ down_host (Join (mkJoin "12345678" "abcdef" "" None)) st_ready [] in
  (exists e, out f = Returned (None, Some e)) /\
  Entry (ELinkAdd (vethPair "abcde")) None ∈ log f.
Proof.
  split; [intros; apply only_run, Join_keeps_links|]. cbv zeta. split.
  - eexists. vm_compute. reflexivity.
  - vm_compute. left.
Qed.

(** * Leaving *)

(** The part of a successful leave after the link was deleted. *)
Definition leave_stages (r : LeaveRequest) (port : string) (s : St) (t : trace) : Prop :=
  exists bridgeName u row tname t0 t1,
    t = tname ++ t0 ++ t1 /\
    answered_with "network_id" (lv_NetworkID r) "name" bridgeName tname /\
    table_of (ovsdbCache s) "Port" !! u = Some row /\ name_is port row = true /\
    tx_committed (delete_port_ops bridgeName port u) t1.

Lemma wp_Leave r s suffix :
  truncateID (lv_EndpointID r) = Returned suffix -> occurs "%"%char suffix = 0 ->
  table_of (ovsdbCache s) "Port" !! "" = None ->
  wp (Leave r) s [] (fun o s' tr => s' = s /\ exists d t,
    tr = Entry (ELinkDel (vethPair suffix)) d :: t /\
    (o = Returned None -> leave_stages r (veth_name (vethPair suffix)) s t)).
Proof.
  intros Ht Hp Hno. unfold Leave, getBridgeNameByNetworkId. rewrite Ht. cbn [lift bind].
  rewrite (Sprintf_plain (ovsPortPrefix +:+ suffix)) by (rewrite occurs_app; exact Hp).
  wp_norm. intros d _.
  apply wp_bind, wp_query_column; cbn [post_bind].
  - intros e t _. split; [done|]. by exists d, t.
  - intros bridgeName tname Hname. apply wp_bind, wp_deletePort; [done| | |]; cbn [post_bind app].
    + intros _ e t. cbn. split; [done|]. by eexists d, _.
    + intros u row t0 t Hrow Hn Htx. cbn. split; [done|]. eexists d, _. split; [done|].
      intros _. by exists bridgeName, u, row, tname, t0, t.
    + intros u row _ _. split; intros e t; cbn; (split; [done|]); by eexists d, _.
  - intros h t _. split; [done|]. by exists d, t.
Qed.

(** C6: Leave deletes the link and then the port that Join attached for the same
    endpoint: it reports success only after the server committed the deletion of
    the port with the name of the veth, on the bridge the server names for the
    network. (Endpoint ids that hold a percent sign in their first five bytes are
    excluded: the name is passed through Sprintf.) *)
Theorem Leave_success {W} {H : Host W} r s (w : W) suffix :
  truncateID (lv_EndpointID r) = Returned suffix -> occurs "%"%char suffix = 0 ->
  table_of (ovsdbCache s) "Port" !! "" = None ->
  let f := run (Leave r) s w in
  state f = s /\ exists d t, log f = Entry (ELinkDel (vethPair suffix)) d :: t /\
    (out f = Returned None -> leave_stages r (veth_name (vethPair suffix)) s t).
Proof. intros Ht Hp Hno. cbv zeta. apply (wp_run _ s w _ (wp_Leave r s suffix Ht Hp Hno)). Qed.

Lemma Leave_success_witness :
  let f := @run _ _ sample_host (Leave (mkLeave "12345678" "abcdef" None)) st_ready [] in
  out f = Returned None /\
  exists d t, log f = Entry (ELinkDel (vethPair "abcde")) d :: t /\
    (out f = Returned None -> leave_stages (mkLeave "12345678" "abcdef" None)
                                (veth_name (vethPair "abcde")) st_ready t).
Proof.
  split; [by vm_compute|].
  apply (@Leave_success _ sample_host (mkLeave "12345678" "abcdef" None) st_ready [] "abcde");
    by vm_compute.
Defined.

(** * The handlers of the driver *)

(** C16: end to end, a CreateNetwork request is answered with status 200 exactly when
    its body decodes to a request for which CreateNetwork returns without an error, and
    then the driver has registered, under the id of the request, the configuration the
    body asks for. (A crash of CreateNetwork during the initialisation of the bridge
    leaves the configuration registered too, and is not answered with 200.) *)
Theorem create_network_served {W} {H : Host W} j s (w : W) :
  let f := run (initMux createNetworkPath (Some j)) s w in
  (out f = Returned successResponse <->
   exists r, decode_CreateNetwork j = DVal r /\ out (run (CreateNetwork r) s w) = Returned None) /\
  (out f = Returned successResponse ->
   exists r ns, decode_CreateNetwork j = DVal r /\ config_of r ns /\
     networks (state f) = <[cn_NetworkID r := ns]> (networks s)).
Proof.
  cbv zeta. cbn [initMux drv_CreateNetwork Driver].
  destruct (decode_CreateNetwork j) as [r| |h] eqn:Ed.
  - destruct (run_error_handler decode_CreateNetwork CreateNetwork j r s w Ed) as (Ho & Hs & _).
    rewrite Ho, Hs. pose proof (wp_run _ s w _ (wp_CreateNetwork r s)) as Hp.
    destruct (out (run (CreateNetwork r) s w)) as [[e|]|h] eqn:Eo; cbn [respond].
    + split; [|done]. split; [done|]. intros (? & [= <-] & ?). congruence.
    + split; [split; [by exists r|done]|]. intros _.
      destruct Hp as [(_ & _ & _ & ?)|(ns & _ & _ & Hc & _ & _ & Hn & _)]; [done|]. by exists r, ns.
    + split; [|done]. split; [done|]. intros (? & [= <-] & ?). congruence.
  - unfold error_handler, decodeRequest. rewrite Ed. split; [|done]. split; [done|]. by intros (? & ? & _).
  - by destruct (calm_CreateNetwork j h).
Qed.
