(* ===== verification/Monitor.v ===== *)
(** Start-up and notifications: NewDriver (ovs/driver.go), initDBCache and
    monitorBridges (ovs/ovsdb.go), Run (main.go), and what the order in which
    notifications are applied means for the cache.

    Notifications arrive while initDBCache waits for the root row; they are given to
    the definitions as a list of batches, one per second of waiting. *)

From S2P Require Import Prelude OvsNotation OvsTypes World Client Ovsdb Samples Ports Bridge.

Local Open Scope go_scope.

(** * monitorBridges *)

Definition or_none (r : string * option error) : string :=
  match r with
  | (_, Some _) => "none"
  | (v, None) => v
  end.

(** A bridge row that changed its name: the bridge is created again under its old
    name. *)
Definition monitor_row (row : RowUpdate) : prog (option unit) :=
  if negb (row_is_empty (New row)) then
    match Fields_get (Old row) "name" with
    | None => Ret None
    | Some (VString name) =>
        let! servicetype := getBridgeServiceType name in
        let! networkid := getNetworkidByBridgeName name in
        let! _ := createOvsdbBridge name (or_none servicetype) (or_none networkid) in
        Ret None
    | Some _ => Stop type_assertion_failed
    end
  else Ret None.

(** One turn of the loop of monitorBridges. *)
Definition monitor_update (currUpdate : TableUpdates) : prog unit :=
  let! _ := range (Updates currUpdate) (fun table tableUpdate =>
    if String.eqb table "Bridge"
    then
      let! _ := range (Rows tableUpdate) (fun _ row => monitor_row row) in
      Ret (None : option unit)
    else Ret None) in
  Ret tt.

(** The goroutine, on the updates it receives. *)
Fixpoint monitorBridges (received : list TableUpdates) : prog unit :=
  match received with
  | [] => Ret tt
  | u :: us => monitor_update u ;;; monitorBridges us
  end.

(** * initDBCache *)

Fixpoint deliver (us : list TableUpdates) : prog unit :=
  match us with
  | [] => Ret tt
  | u :: us' => OvsdbNotifier_Update u ;;; deliver us'
  end.

(** The final loop: whether it ended when the batches were used up. *)
Fixpoint wait_root (batches : list (list TableUpdates)) : prog bool :=
  let! root := getRootUUID in
  if negb (String.eqb root "") then Ret true
  else
    call (ESleep 1) ;;;
    match batches with
    | [] => Ret false
    | us :: rest => deliver us ;;; wait_root rest
    end.

Definition initDBCache (batches : list (list TableUpdates)) : prog bool :=
  modify (set_cache (fun _ => ∅)) ;;;
  Register ;;;
  let! (initCache, _) := MonitorAll Open_vSwitch (JStr "") in
  match initCache with
  | None => panic "invalid memory address or nil pointer dereference"
  | Some c =>
      populateCache c ;;;
      modify (set_contextCache (fun _ => ∅)) ;;;
      populateContextCache ;;;
      wait_root batches
  end.

(** * NewDriver *)

Fixpoint connect_retry (retries : nat) : prog bool :=
  match retries with
  | O => Ret false
  | S n =>
      let! err := Connect localhost ovsdbPort in
      match err with
      | None => Ret true
      | Some _ => call (ESleep 5) ;;; connect_retry n
      end
  end.

(** The driver is the memory; the result says whether start-up has ended. *)
Definition NewDriver (batches : list (list TableUpdates)) : prog (error + bool) :=
  let! err := call (ENewDockerClient "unix:///var/run/docker.sock") in
  match err with
  | Some e => Ret (inl (Errorf "could not connect to docker: %s" [err_format e]))
  | None =>
      let! ovsdb := connect_retry 3 in
      if negb ovsdb then Ret (inl (errors_New "could not connect to open vswitch"))
      else
        modify (set_connected true) ;;;
        modify (set_networks (fun _ => ∅)) ;;;
        let! ready := initDBCache batches in
        Ret (inr ready)
  end.

(** main.go, up to the point where the handler listens. *)
Definition Run (batches : list (list TableUpdates)) : prog bool :=
  let! d := NewDriver batches in
  match d with
  | inl _ => panic "NewDriver"
  | inr ready => Ret ready
  end.

(** * Frames *)

Lemma monitor_row_frame R `{!PreOrder R} row : frame R (monitor_row row).
Proof. unfold monitor_row. frame_tac. Qed.
#[export] Hint Resolve monitor_row_frame : go_frame.

Lemma monitor_update_frame R `{!PreOrder R} u : frame R (monitor_update u).
Proof. unfold monitor_update. frame_tac. Qed.
#[export] Hint Resolve monitor_update_frame : go_frame.

(** * The monitor *)

Definition is_range (e : ext) : Prop := match e with ERange _ => True | _ => False end.

(** No bridge of the update has a former name. *)
Definition no_rename (u : TableUpdates) : Prop :=
  forall tu uuid row, Updates u !! "Bridge" = Some tu -> Rows tu !! uuid = Some row ->
    Fields_get (Old row) "name" = None.

Lemma wp_range_inv {V A} (m : gmap string V) (body : string -> V -> prog (option A)) s tr
    (P : St -> trace -> Prop) :
  (forall keys t, P s t -> P s (t ++ [Entry (ERange (map_to_list m).*1) keys])) ->
  (forall k v t, m !! k = Some v -> P s t ->
     wp (body k v) s t (fun o s' t' => o = Returned None /\ s' = s /\ P s t')) ->
  P s tr -> wp (range m body) s tr (fun o s' t' => o = Returned None /\ s' = s /\ P s t').
Proof.
  intros Hk Hb Htr. unfold range. cbn [bind call wp]. intros order _.
  specialize (Hk order tr Htr). revert Hk. generalize (tr ++ [Entry (ERange (map_to_list m).*1) order]).
  induction order as [|k order IH]; intros t Ht; cbn; [done|].
  apply wp_bind. destruct (m !! k) as [v|] eqn:E; [|by apply IH].
  eapply wp_mono; [|by apply Hb]. intros o s' t' (-> & -> & Ht'). by apply IH.
Qed.

Lemma wp_monitor_quiet u s tr :
  no_rename u ->
  wp (monitor_update u) s tr (fun o s' tr' =>
    o = Returned tt /\ s' = s /\ exists t, tr' = tr ++ t /\ Forall is_range (exts t)).
Proof.
  intros Hno. unfold monitor_update. apply wp_bind.
  set (P := fun (_ : St) tr' => exists t, tr' = tr ++ t /\ Forall is_range (exts t)).
  assert (forall keys (order : list string) t, P s t -> P s (t ++ [Entry (ERange keys) order])) as HP.
  { intros keys order t (t' & -> & Ht'). exists (t' ++ [Entry (ERange keys) order]).
    split; [by rewrite app_assoc|]. unfold exts. rewrite map_app. apply Forall_app.
    split; [done|by repeat constructor]. }
  eapply wp_mono; [|apply (wp_range_inv _ _ _ _ P)].
  - intros o s' t (-> & -> & Ht). by cbn.
  - intros keys t. apply HP.
  - intros table tu t Htu Ht. destruct (String.eqb_spec table "Bridge") as [->|]; [|by cbn].
    apply wp_bind. eapply wp_mono; [|apply (wp_range_inv _ _ _ _ P)].
    + intros o s' t' (-> & -> & Ht'). by cbn.
    + intros keys t'. apply HP.
    + intros uuid row t' Hrow Ht'. unfold monitor_row. rewrite (Hno _ _ _ Htu Hrow).
      by destruct (row_is_empty (New row)).
    + done.
  - exists []. by rewrite app_nil_r.
Qed.

(** An update in which no bridge has changed its name is ignored by the
    monitor: nothing is asked of the server and nothing changes, whatever the order
    in which the tables and rows are visited. *)
Theorem monitor_ignores_other_updates {W} {H : Host W} u s (w : W) :
  no_rename u ->
  let f := run (monitor_update u) s w in
  out f = Returned tt /\ state f = s /\ Forall is_range (exts (log f)).
Proof.
  intros Hno. cbv zeta. destruct (wp_run _ s w _ (wp_monitor_quiet u s [] Hno)) as (Ho & Hs & t & Ht & Hr).
  cbn [app] in Ht. by rewrite Ht.
Qed.

Definition inserted_bridge : TableUpdates :=
  mkTableUpdates {["Bridge" := mkTableUpdate {[bridge_uuid := mkRowUpdate "" (row_named "b") row0]}]}.

Lemma monitor_ignores_other_updates_witness :
  let f := @run _ _ sample_host (monitor_update inserted_bridge) st_ready [] in
  out f = Returned tt /\ state f = st_ready /\ Forall is_range (exts (log f)).
Proof.
  apply (@monitor_ignores_other_updates _ sample_host).
  unfold no_rename, inserted_bridge. cbn [Updates]. intros tu uuid row [_ <-]%lookup_singleton_Some.
  cbn [Rows]. by intros [_ <-]%lookup_singleton_Some.
Defined.

(** * Waiting for the root row *)

Definition has_root (c : gmap string (gmap string Row)) : Prop := table_of c "Open_vSwitch" <> ∅.

(** No row has the empty string as its UUID. *)
Definition named_roots (c : gmap string (gmap string Row)) : Prop :=
  table_of c "Open_vSwitch" !! "" = None.

Definition apply_batch (us : list TableUpdates) (c : gmap string (gmap string Row)) :
    gmap string (gmap string Row) := foldl (fun c u => apply_updates u c) c us.

(** The cache after the first [n] batches. *)
Definition cache_after (n : nat) (batches : list (list TableUpdates))
    (c : gmap string (gmap string Row)) : gmap string (gmap string Row) :=
  apply_batch (concat (take n batches)) c.

Lemma wp_deliver us s tr :
  wp (deliver us) s tr (fun o s' _ =>
    o = Returned tt /\ s' = with_cache (apply_batch us (ovsdbCache s)) s).
Proof.
  revert s tr. induction us as [|u us IH]; intros s tr; cbn [deliver]; [by destruct s|].
  unfold OvsdbNotifier_Update. apply wp_bind, wp_bind. eapply wp_mono; [|apply wp_populateCache].
  intros o s' tr' [-> ->]. cbn. intros ? _.
  eapply wp_mono; [|apply IH]. by cbn.
Qed.

Lemma wp_getRootUUID_exact s tr Q :
  named_roots (ovsdbCache s) ->
  (forall u t, u <> "" -> has_root (ovsdbCache s) -> Q (Returned u) s (tr ++ t)) ->
  (forall t, ~ has_root (ovsdbCache s) -> Q (Returned "") s (tr ++ t)) ->
  wp getRootUUID s tr Q.
Proof.
  intros Hn Hs He. unfold getRootUUID, getTableCache. cbn [gets bind wp].
  apply (wp_search_table _ (fun uuid _ => Some uuid)).
  intros [a|] t Hr; cbn.
  - destruct Hr as (key & row & Hrow & [= <-]). apply Hs.
    + intros ->. unfold named_roots in Hn. congruence.
    + intros E. by rewrite E, lookup_empty in Hrow.
  - apply He. intros Hne. apply Hne, map_eq. intros k. rewrite lookup_empty.
    destruct (table_of _ _ !! k) as [row|] eqn:E; [by specialize (Hr _ _ E)|done].
Qed.

(** The loop ended after [n] batches: the first after which there is a root row. *)
Definition root_after (n : nat) (batches : list (list TableUpdates))
    (c : gmap string (gmap string Row)) : Prop :=
  n <= length batches /\ has_root (cache_after n batches c) /\
  forall m, m < n -> ~ has_root (cache_after m batches c).

Definition never_root (batches : list (list TableUpdates)) (c : gmap string (gmap string Row)) : Prop :=
  forall m, m <= length batches -> ~ has_root (cache_after m batches c).

Lemma cache_after_S n us batches c :
  cache_after (S n) (us :: batches) c = cache_after n batches (apply_batch us c).
Proof. unfold cache_after, apply_batch. cbn [take concat]. by rewrite foldl_app. Qed.

Lemma wp_wait_root batches s tr :
  (forall n, named_roots (cache_after n batches (ovsdbCache s))) ->
  wp (wait_root batches) s tr (fun o s' _ =>
    (o = Returned true /\ exists n, root_after n batches (ovsdbCache s) /\
       s' = with_cache (cache_after n batches (ovsdbCache s)) s) \/
    (o = Returned false /\ never_root batches (ovsdbCache s))).
Proof.
  revert s tr. induction batches as [|us batches IH]; intros s tr Hn; cbn [wait_root].
  all: apply wp_bind, wp_getRootUUID_exact; [exact (Hn 0)| |]; cbn [post_bind].
  1,3: intros u t Hu Hr; destruct (String.eqb_spec u ""); [done|]; cbn; left; split; [done|];
    exists 0; split; [split; [lia|split; [done|lia]]|by destruct s].
  - intros t Hr. cbn. intros ? _. right. split; [done|]. intros [|m] Hm; [done|cbn in Hm; lia].
  - intros t Hr. cbn. intros ? _. apply wp_bind. eapply wp_mono; [|apply wp_deliver].
    intros o s' tr' [-> ->]. cbn [post_bind]. eapply wp_mono; [|apply IH].
    + cbn. intros o s' _ [[-> (n & (Hl & Hroot & Hmin) & ->)]|[-> Hnever]].
      * left. split; [done|]. exists (S n). split; [|by rewrite cache_after_S].
        split; [cbn; lia|]. rewrite cache_after_S. split; [done|].
        intros [|m] Hm; [done|]. rewrite cache_after_S. apply Hmin. lia.
      * right. split; [done|]. intros [|m] Hm; [done|]. rewrite cache_after_S. apply Hnever.
        cbn in Hm. lia.
    + intros n. cbn. rewrite <- cache_after_S. apply Hn.
Qed.

(** C20: the loop at the end of initDBCache ends exactly when the notifications bring
    a row of the Open_vSwitch table: it returns after the first batch that does,
    with the cache all batches up to it produce, and keeps waiting if none does. *)
Theorem wait_root_spec {W} {H : Host W} batches s (w : W) :
  (forall n, named_roots (cache_after n batches (ovsdbCache s))) ->
  let f := run (wait_root batches) s w in
  (out f = Returned true /\ exists n, root_after n batches (ovsdbCache s) /\
     state f = with_cache (cache_after n batches (ovsdbCache s)) s) \/
  (out f = Returned false /\ never_root batches (ovsdbCache s)).
Proof. intros Hn. cbv zeta. apply (wp_run _ s w _ (wp_wait_root batches s [] Hn)). Qed.

Definition root_update : TableUpdates :=
  mkTableUpdates {["Open_vSwitch" :=
    mkTableUpdate {[root_uuid := mkRowUpdate "" (mkRow (Some ∅)) row0]}]}.

Lemma wait_root_spec_witness :
  let f := @run _ _ sample_host (wait_root [[]; [root_update]]) st0 [] in
  (out f = Returned true /\ exists n, root_after n [[]; [root_update]] ∅ /\
     state f = with_cache (cache_after n [[]; [root_update]] ∅) st0) \/
  (out f = Returned false /\ never_root [[]; [root_update]] ∅).
Proof.
  apply (@wait_root_spec _ sample_host [[]; [root_update]] st0 []).
  intros [|[|[|n]]]; by vm_compute.
Defined.

(** * The order of notifications

    rpc2 runs the handler of each notification in a goroutine of its own, so two
    notifications may be applied to the cache in either order. *)

(** Two updates that have no row in common. *)
Definition disjoint_updates (u v : TableUpdates) : Prop :=
  forall table tu tv uuid, Updates u !! table = Some tu -> Updates v !! table = Some tv ->
    Rows tu !! uuid = None \/ Rows tv !! uuid = None.

Lemma apply_rows_comm (ru rv : gmap string RowUpdate) t :
  (forall uuid, ru !! uuid = None \/ rv !! uuid = None) ->
  apply_rows rv (apply_rows ru t) = apply_rows ru (apply_rows rv t).
Proof.
  intros Hd. apply map_eq. intros k. unfold apply_rows. rewrite !lookup_merge.
  destruct (Hd k) as [-> | ->].
  - destruct (rv !! k), (t !! k); cbn; unfold row_change; by repeat case_match.
  - destruct (ru !! k), (t !! k); cbn; unfold row_change; by repeat case_match.
Qed.

Lemma apply_updates_comm u v c :
  disjoint_updates u v ->
  apply_updates v (apply_updates u c) = apply_updates u (apply_updates v c).
Proof.
  intros Hd. apply map_eq. intros table. unfold apply_updates. rewrite !lookup_merge.
  specialize (Hd table).
  destruct (Updates u !! table) as [tu|], (Updates v !! table) as [tv|], (c !! table) as [t|];
    cbn; try done; unfold table_change; cbn; rewrite apply_rows_comm; try done; intros uuid;
    by apply Hd.
Qed.

(** C19: two notifications that have no row in common may be applied in either
    order: the cache ends up the same. *)
Theorem disjoint_notifications_commute {W} {H : Host W} u v s (w w' : W) :
  disjoint_updates u v ->
  let f := run (deliver [u; v]) s w in
  let g := run (deliver [v; u]) s w' in
  out f = Returned tt /\ out g = Returned tt /\ state f = state g.
Proof.
  intros Hd. cbv zeta.
  destruct (wp_run _ s w _ (wp_deliver [u; v] s [])) as [-> ->].
  destruct (wp_run _ s w' _ (wp_deliver [v; u] s [])) as [-> ->].
  do 2 (split; [done|]). f_equal. cbn. by apply apply_updates_comm.
Qed.

Definition port_row_update (new : Row) : TableUpdates :=
  mkTableUpdates {["Port" := mkTableUpdate {["u1" := mkRowUpdate "" new row0]}]}.

Lemma disjoint_notifications_commute_witness :
  let f := @run _ _ sample_host (deliver [root_update; inserted_bridge]) st0 [] in
  let g := @run _ _ sample_host (deliver [inserted_bridge; root_update]) st0 [] in
  out f = Returned tt /\ out g = Returned tt /\ state f = state g.
Proof.
  apply (@disjoint_notifications_commute _ sample_host).
  intros table tu tv uuid Hu Hv. unfold root_update, inserted_bridge in Hu, Hv. cbn [Updates] in Hu, Hv.
  apply lookup_singleton_Some in Hu as [<- _]. by apply lookup_singleton_Some in Hv as [? _].
Defined.

(** Two notifications about the same row do not commute: the insertion of a port
    followed by its deletion leaves no port, while the same two applied in the
    other order leave a port in the cache that the server no longer has. *)
Theorem reordered_notifications_go_stale :
  let ins := port_row_update (row_named "p1") in
  let del := port_row_update row0 in
  let f := @run _ _ sample_host (deliver [ins; del]) st0 [] in
  let g := @run _ _ sample_host (deliver [del; ins]) st0 [] in
  out (@run _ _ sample_host (portUUIDForName "p1") (state f) []) = Returned "" /\
  out (@run _ _ sample_host (portUUIDForName "p1") (state g) []) = Returned "u1".
Proof. split; by vm_compute. Qed.

(** * Start-up *)

Definition ovsdb_target : string := "127.0.0.1:6640".

Definition is_dial (e : ext) : bool := match e with EDial t => String.eqb t ovsdb_target | _ => false end.
Definition dials (tr : trace) : nat := length (List.filter is_dial (exts tr)).

Lemma dials_app t1 t2 : dials (t1 ++ t2) = dials t1 + dials t2.
Proof. unfold dials, exts. by rewrite map_app, List.filter_app, length_app. Qed.

Lemma rpc_no_dials t : Forall is_rpc (exts t) -> dials t = 0.
Proof.
  unfold dials. induction t as [|[e r] t IH]; cbn; [done|].
  intros [He Ht]%Forall_cons. destruct e; cbn in *; try done. by apply IH.
Qed.

Lemma GetSchema_only db : only is_rpc (GetSchema db).
Proof. unfold GetSchema. frame_tac. Qed.
#[export] Hint Resolve GetSchema_only : go_frame.
Lemma read_schemas_only dbs : only is_rpc (read_schemas dbs).
Proof. induction dbs; cbn [read_schemas]; frame_tac. Qed.
Lemma ListDbs_only : only is_rpc ListDbs.
Proof. unfold ListDbs. frame_tac. Qed.
#[export] Hint Resolve read_schemas_only ListDbs_only : go_frame.

(** The session: what start-up sets up before the cache is filled. *)
Definition same_session (s s' : St) : Prop :=
  networks s' = networks s /\ connected s' = connected s /\ alive s' = alive s.
#[export] Instance same_session_preorder : PreOrder same_session.
Proof.
  split; [done|]. intros s1 s2 s3 (? & ? & ?) (? & ? & ?).
  split; [congruence|split; congruence].
Qed.

Lemma read_schemas_session dbs : frame same_session (read_schemas dbs).
Proof. induction dbs; cbn [read_schemas]; unfold GetSchema; frame_tac; done. Qed.
Lemma ListDbs_session : frame same_session ListDbs.
Proof. unfold ListDbs. frame_tac. Qed.

Definition connect_tail : prog (option error) := let! dbs := ListDbs in read_schemas dbs.

Lemma wp_connect_tail s tr Q :
  (forall o s' t, same_session s s' -> dials t = 0 -> Q o s' (tr ++ t)) -> wp connect_tail s tr Q.
Proof.
  intros HQ. assert (frame same_session connect_tail) as Hf.
  { apply frame_bind; [apply _|apply ListDbs_session|apply read_schemas_session]. }
  assert (only is_rpc connect_tail) as Ho by (unfold connect_tail; frame_tac).
  eapply wp_mono; [|exact (wp_conj _ _ _ _ _ (Hf s tr) (Ho s tr))].
  cbn. intros o s' tr' [Hs (t & -> & Ht)]. by apply HQ, rpc_no_dials.
Qed.

Lemma wp_Connect s tr Q :
  (forall o s' t, dials t = 1 -> (o = Returned None -> alive s' = true) -> Q o s' (tr ++ t)) ->
  wp (Connect localhost ovsdbPort) s tr Q.
Proof.
  intros HQ. unfold Connect. cbn [String.eqb localhost]. cbv zeta.
  change (wp (let! err := call (EDial ovsdb_target) in
              match err with
              | Some e => Ret (Some e)
              | None => modify (set_alive true) ;;; modify (set_Schema (fun _ => ∅)) ;;; connect_tail
              end) s tr Q).
  cbn [bind call wp]. intros [e|] _.
  - cbn. by apply HQ.
  - cbn [bind modify wp]. apply wp_connect_tail. intros o s' t (_ & _ & Hc) Ht.
    rewrite <- app_assoc. apply HQ; [|by intros _; rewrite Hc].
    cbn [app]. change (dials ([Entry (EDial ovsdb_target) None] ++ t) = 1). by rewrite dials_app, Ht.
Qed.

Lemma wp_connect_retry n s tr Q :
  (forall o s' t, dials t <= n -> (o = Returned true -> alive s' = true) ->
     (o = Returned false -> dials t = n) -> Q o s' (tr ++ t)) ->
  wp (connect_retry n) s tr Q.
Proof.
  revert s tr Q. induction n as [|n IH]; intros s tr Q HQ; cbn [connect_retry].
  { cbn. rewrite <- (app_nil_r tr). by apply HQ. }
  apply wp_bind, wp_Connect. intros [[e|]|h] s' t Ht Hc; cbn [post_bind].
  - cbn [bind call wp]. intros r _. apply IH. intros o s'' t' Hle Htrue Hfalse.
    rewrite <- !app_assoc. apply HQ.
    + rewrite !dials_app, Ht. cbn. lia.
    + done.
    + intros Ho. rewrite !dials_app, Ht, (Hfalse Ho). cbn. lia.
  - cbn. apply HQ; [lia|by intros _; apply Hc|done].
  - apply HQ; [lia|done|done].
Qed.

(** * Frames of the initialisation *)

Lemma populateCache_session u : frame same_session (populateCache u).
Proof. unfold populateCache, populate_table, populate_row. frame_tac; done. Qed.
#[export] Hint Resolve populateCache_session : go_frame.
Lemma deliver_session us : frame same_session (deliver us).
Proof. induction us; cbn [deliver]; unfold OvsdbNotifier_Update; frame_tac. Qed.
#[export] Hint Resolve deliver_session : go_frame.
Lemma wait_root_session b : frame same_session (wait_root b).
Proof. induction b; cbn [wait_root]; frame_tac. Qed.
Lemma traverse_frame {K A} R `{!PreOrder R} (f : K -> prog A) l :
  (forall k, frame R (f k)) -> frame R (traverse f l).
Proof. intros Hf. induction l; cbn [traverse]; frame_tac. Qed.
Lemma MonitorAll_session db c : frame same_session (MonitorAll db c).
Proof.
  unfold MonitorAll, Monitor. frame_tac. apply traverse_frame; [apply _|].
  intros k. unfold table_request. frame_tac.
Qed.
Lemma populateContextCache_session : frame same_session populateContextCache.
Proof. unfold populateContextCache, context_row. frame_tac; done. Qed.
#[export] Hint Resolve wait_root_session MonitorAll_session populateContextCache_session : go_frame.
Lemma initDBCache_session b : frame same_session (initDBCache b).
Proof. unfold initDBCache, Register. frame_tac; done. Qed.

(** * NewDriver *)

Definition start_post_driver (s : St) (o : outcome (error + bool)) (s' : St) (tr : trace) : Prop :=
  dials tr <= 3 /\
  match o with
  | Returned (inl _) => (dials tr = 0 /\ s' = s) \/ dials tr = 3
  | Returned (inr ready) =>
      networks s' = ∅ /\ connected s' = true /\ alive s' = true /\ (ready = true -> has_root (ovsdbCache s'))
  | Halted _ => True
  end.

Lemma wait_root_found b s tr :
  wp (wait_root b) s tr (fun o s' _ => o = Returned true -> has_root (ovsdbCache s')).
Proof.
  revert s tr. induction b as [|us b IH]; intros s tr; cbn [wait_root].
  all: apply wp_bind, wp_getRootUUID; intros root t Hroot; cbn [post_bind];
    destruct (String.eqb_spec root "") as [|Hne]; cbn [negb].
  2,4: cbn; intros _ E; destruct Hroot as [[row Hrow]|?]; [|done];
    by rewrite E, lookup_empty in Hrow.
  - cbn. by intros ? _.
  - cbn [bind call wp]. intros ? _. eapply wp_seq; [apply wp_deliver|by intros; apply IH|].
    by intros h s' tr' [? _].
Qed.

Lemma initDBCache_found b s tr :
  wp (initDBCache b) s tr (fun o s' _ => o = Returned true -> has_root (ovsdbCache s')).
Proof.
  unfold initDBCache, Register. cbn [bind modify wp].
  apply wp_bind, (wp_skip same_session); [auto with go_frame|].
  intros [[[c|] e]|h] s' t _; cbn [post_bind]; [|done|done].
  apply wp_bind. eapply wp_mono; [|apply wp_populateCache]. intros o s'' tr' [-> _]. cbn [post_bind].
  cbn [bind modify wp]. apply wp_bind, (wp_skip same_session); [auto with go_frame|].
  intros [a|h] s3 t3 _; cbn [post_bind]; [apply wait_root_found|done].
Qed.

Definition no_dial (e : ext) : Prop := is_dial e = false.

Lemma no_dial_dials t : Forall no_dial (exts t) -> dials t = 0.
Proof.
  unfold dials, no_dial. induction t as [|[e r] t IH]; cbn; [done|].
  intros [He Ht]%Forall_cons. rewrite He. by apply IH.
Qed.

Lemma traverse_only {K A} E (f : K -> prog A) l : (forall k, only E (f k)) -> only E (traverse f l).
Proof. intros Hf. induction l; cbn [traverse]; frame_tac. Qed.

Lemma rpc_no_dial {A} (p : prog A) : only is_rpc p -> only no_dial p.
Proof. apply only_mono. by intros []. Qed.

Lemma MonitorAll_no_dial db c : only no_dial (MonitorAll db c).
Proof.
  unfold MonitorAll, Monitor. repeat first [apply rpc_no_dial, rpc_only | frame_step]; try done.
  apply traverse_only. intros k. unfold table_request. by frame_tac.
Qed.
Lemma populateCache_no_dial u : only no_dial (populateCache u).
Proof. unfold populateCache, populate_table, populate_row. by frame_tac. Qed.
#[export] Hint Resolve MonitorAll_no_dial populateCache_no_dial : go_frame.
Lemma deliver_no_dial us : only no_dial (deliver us).
Proof. induction us; cbn [deliver]; unfold OvsdbNotifier_Update; by frame_tac. Qed.
#[export] Hint Resolve deliver_no_dial : go_frame.
Lemma wait_root_no_dial b : only no_dial (wait_root b).
Proof. induction b; cbn [wait_root]; unfold getRootUUID, getTableCache; by frame_tac. Qed.
#[export] Hint Resolve wait_root_no_dial : go_frame.
Lemma initDBCache_no_dial b : only no_dial (initDBCache b).
Proof.
  unfold initDBCache, Register, populateContextCache, context_row, getTableCache. by frame_tac.
Qed.

Lemma wp_initDBCache b s tr Q :
  (forall o s' t, same_session s s' -> dials t = 0 ->
     (o = Returned true -> has_root (ovsdbCache s')) -> Q o s' (tr ++ t)) ->
  wp (initDBCache b) s tr Q.
Proof.
  intros HQ. eapply wp_mono; [|exact (wp_conj _ _ _ _ _ (initDBCache_session b s tr)
    (wp_conj _ _ _ _ _ (initDBCache_no_dial b s tr) (initDBCache_found b s tr)))].
  cbn. intros o s' tr' (Hs & (t & -> & Ht) & Hr). by apply HQ; [|apply no_dial_dials|].
Qed.

(** C21: NewDriver tries to reach OVSDB at most three times. It gives up with an
    error either at once, when the Docker client cannot be made, or after three
    failed attempts; when it succeeds, the driver knows no network, has a client
    with a live connection, and its cache has the root row of the database. *)
Theorem NewDriver_spec {W} {H : Host W} batches s (w : W) :
  let f := run (NewDriver batches) s w in
  start_post_driver s (out f) (state f) (log f).
Proof.
  cbv zeta. apply (wp_run (NewDriver batches) s w (start_post_driver s)).
  unfold NewDriver. cbn [bind call wp]. intros [e|] _.
  - cbn. split; [cbn; lia|]. by left.
  - cbn [bind]. apply wp_bind, wp_connect_retry. intros o s' t Hle Htrue Hfalse.
    destruct o as [[]|h]; cbn [post_bind negb].
    + cbn [bind modify wp]. apply wp_bind, wp_initDBCache. intros o s'' t' (Hn & Hc & Ha) Ht' Hr.
      destruct o as [ready|h]; cbn [post_bind wp]; unfold start_post_driver; rewrite !dials_app, Ht';
        (split; [cbn; lia|]); [|done].
      split; [by rewrite Hn|]. split; [by rewrite Hc|].
      split; [by rewrite Ha; cbn; apply Htrue|]. intros ->. by apply Hr.
    + split; [rewrite !dials_app; cbn; lia|]. right. rewrite !dials_app, (Hfalse eq_refl). done.
    + split; [rewrite !dials_app; cbn; lia|done].
Qed.

(** A database with one table, the root table, with one row. *)
Definition startup_ans (past : list ext) (e : ext) : ans e :=
  match e return ans e with
  | ERpc m params =>
      if String.eqb m "list_dbs" then RpcResult (JArr [JStr "Open_vSwitch"])
      else if String.eqb m "get_schema" then
        RpcResult (JObj [("name", JStr "Open_vSwitch");
                         ("tables", JObj [("Open_vSwitch", JObj [("columns", JObj [])])])])
      else RpcResult (JObj [("Open_vSwitch", JObj [(root_uuid, JObj [("new", JObj [])])])])
  | e' => good e'
  end.

Lemma startup_legal past e : legal e (startup_ans past e).
Proof. destruct e; try exact (good_legal _). done. Qed.

Definition startup_host : Host (list ext) := history_host startup_ans startup_legal.

Lemma NewDriver_starts :
  out (@run _ _ startup_host (NewDriver []) st0 []) = Returned (inr true).
Proof. by vm_compute. Qed.

Lemma wp_rpc_down {A} m args (d : json -> dec A) s tr :
  wp (rpc m args d) s tr (fun o _ tr' =>
    Forall no_rpc_reply tr' -> exists e, o = Returned (None, Some e)).
Proof.
  unfold rpc. cbn [bind call wp]. intros [j|e] _; [|cbn; by eexists].
  eapply wp_mono; [|apply (only_True (reply_body (d j)))]. cbn.
  intros o s' tr' (t & -> & _) Hd. rewrite !Forall_app in Hd. by destruct Hd as [[_ ?%Forall_inv] _].
Qed.

#[export] Instance no_rpc_reply_dec en : Decision (no_rpc_reply en).
Proof. destruct en as [[] r]; try (by left); destruct r; [right|left]; cbn; tauto. Defined.

Lemma wp_seq_down {A B} (p : prog A) (f : A -> prog B) s tr (Q : outcome B -> Prop) (R : outcome A -> Prop) :
  wp p s tr (fun o _ tr' => Forall no_rpc_reply tr' -> R o) ->
  (forall a s' tr', R (Returned a) -> wp (f a) s' tr' (fun o _ tr'' => Forall no_rpc_reply tr'' -> Q o)) ->
  (forall h, R (Halted h) -> Q (Halted h)) ->
  wp (bind p f) s tr (fun o _ tr' => Forall no_rpc_reply tr' -> Q o).
Proof.
  intros Hp Hf Hh. apply wp_bind. eapply wp_mono; [|exact Hp].
  intros [a|h] s' tr' HR; cbn [post_bind]; [|auto].
  destruct (decide (Forall no_rpc_reply tr')) as [Hd|Hd]; [auto|].
  eapply wp_mono; [|apply (only_True (f a))]. cbn. intros o s'' t'' (t & -> & _) [? _]%Forall_app. done.
Qed.

Definition returns {A} (o : outcome A) : Prop := exists a, o = Returned a.

Lemma table_requests_return tables l s tr :
  wp (traverse (table_request tables) l) s tr (fun o _ _ => returns o).
Proof.
  revert s tr. induction l as [|k l IH]; intros s tr; cbn [traverse]; [by eexists|].
  apply wp_bind. unfold table_request at 1.
  destruct (tables !! k) as [ts|]; cbn [bind call wp]; [intros cols _|]; cbn [wp post_bind];
    (apply wp_bind; eapply wp_mono; [|apply IH]); intros o s' tr' [a ->]; cbn; by eexists.
Qed.

Lemma MonitorAll_down db c s tr :
  wp (MonitorAll db c) s tr (fun o _ tr' =>
    Forall no_rpc_reply tr' -> exists e, o = Returned (None, Some e)).
Proof.
  unfold MonitorAll. cbn [gets bind wp]. destruct (Schema s !! db) as [sch|]; [|cbn; by eexists].
  cbn [bind call wp]. intros tables _.
  apply (wp_seq_down _ _ _ _ _ returns).
  - eapply wp_mono; [|apply table_requests_return]. by intros.
  - intros reqs s' tr' _. unfold Monitor.
    apply (wp_seq_down _ _ _ _ _ (fun o => exists e, o = Returned (None, Some e))).
    + apply wp_rpc_down.
    + intros a s'' tr'' [e [= ->]]. cbn. by eexists.
    + by intros h [].
  - by intros h [].
Qed.

Lemma initDBCache_down b s tr :
  wp (initDBCache b) s tr (fun o _ tr' => Forall no_rpc_reply tr' -> panics o).
Proof.
  unfold initDBCache, Register. cbn [bind modify wp].
  apply (wp_seq_down _ _ _ _ _ (fun o => exists e, o = Returned (None, Some e))).
  - apply MonitorAll_down.
  - intros a s' tr' [e [= ->]]. cbn. by eexists.
  - by intros h [].
Qed.

(** Start-up crashes when the initial monitor call fails: the error is logged,
    and then the cache that was not returned is dereferenced. *)
Theorem initDBCache_nil_cache {W} {H : Host W} batches s (w : W) :
  (forall m params w, exists e, (answer (ERpc m params) w).1 = RpcError e) ->
  panics (out (run (initDBCache batches) s w)).
Proof.
  intros Hdown. apply (wp_run _ s w _ (initDBCache_down batches s [])). by apply down_log.
Qed.

Lemma initDBCache_nil_cache_witness :
  panics (out (@run _ _ down_host (initDBCache []) st_ready [])).
Proof. apply (@initDBCache_nil_cache _ down_host). intros m params w. by eexists. Defined.

(** * After the connection is lost *)

Lemma wp_clearConnection s tr :
  wp (clearConnection (Ret tt)) s tr (fun o s' tr' => o = Returned tt /\ s' = set_alive false s /\ tr' = tr).
Proof.
  unfold clearConnection. cbn [gets bind wp].
  assert (forall n, repeat_prog n (Ret tt) = Ret tt) as Hr by (induction n; cbn; done).
  destruct (alive s); rewrite ?Hr; by cbn.
Qed.

Lemma update_dead notify params s tr :
  alive s = false -> wp (Client.update notify params) s tr (fun _ s' tr' => s' = s /\ tr' = tr).
Proof.
  intros Ha. unfold Client.update. destruct params as [|p0 [|p1 rest]]; [done|done|].
  destruct p1; try done. destruct (decode_rowupdates _) as [ru| |h]; [|done|done].
  cbn [gets bind wp]. by rewrite Ha.
Qed.

(** Once the connection has gone away its table entry is removed: every later
    notification is dropped, so the cache stays as it is, while the driver still
    takes itself to be connected. *)
Theorem disconnected_cache_is_frozen {W} {H : Host W} s (w : W) params (w' : W) :
  let f := run (clearConnection (Ret tt)) s w in
  let g := run (Client.update OvsdbNotifier_Update params) (state f) w' in
  connected (state f) = connected s /\ state g = state f /\ log g = [].
Proof.
  cbv zeta. destruct (wp_run _ s w _ (wp_clearConnection s [])) as (_ & -> & _).
  split; [done|].
  exact (wp_run _ (set_alive false s) w' _
    (update_dead OvsdbNotifier_Update params (set_alive false s) [] eq_refl)).
Qed.
