(* ===== verification/Rpc2.v ===== *)
(** The client side of an rpc2 connection (Godeps/.../cenkalti/rpc2/client.go): how
    calls are numbered, matched with responses and ended when the connection goes
    away.

    Goroutines call [send] concurrently with the read loop. The steps below are the
    sections the two mutexes of the client make atomic: [send] holds [sending] from
    the registration of a call to the end of the write, the read loop takes
    [sending] only when it ends, and the map of pending calls is touched under
    [mutex]. A call is a number; [completed] is the history of the values sent on
    the channels of the calls. *)

From S2P Require Import Prelude OvsNotation World.

Local Open Scope Z_scope.

Definition uint64 (z : Z) : Z := z mod 2 ^ 64.

Inductive completion : Type :=
| Reply (seq : Z) (r : rpc_reply)
| Failed (e : error).

Record Client : Type := mkClient {
  seq : Z;
  pending : gmap Z nat;
  sending : option Z;
  closing : bool;
  shutdown : bool;
  assigned : gmap Z nat;
  started : gset nat;
  completed : list (nat * completion)
}.

(** NewClientWithCodec: number 0 means a notification. *)
Definition NewClientWithCodec : Client := mkClient 1 ∅ None false false ∅ ∅ [].

Definition ErrShutdown : error := errors_New "connection is shut down".

Definition is_none {A} (o : option A) : bool := match o with None => true | Some _ => false end.

(** [call.done()]. *)
Definition complete (c : nat) (r : completion) (s : Client) : Client :=
  mkClient (seq s) (pending s) (sending s) (closing s) (shutdown s) (assigned s) (started s)
           (completed s ++ [(c, r)]).

Definition unregister (q : Z) (s : Client) : Client :=
  mkClient (seq s) (delete q (pending s)) (sending s) (closing s) (shutdown s) (assigned s)
           (started s) (completed s).

Definition end_send (s : Client) : Client :=
  mkClient (seq s) (pending s) None (closing s) (shutdown s) (assigned s) (started s) (completed s).

Definition start (c : nat) (s : Client) : Client :=
  mkClient (seq s) (pending s) (sending s) (closing s) (shutdown s) (assigned s)
           ({[c]} ∪ started s) (completed s).

(** Take the call numbered [q] out of the pending ones and complete it. *)
Definition take_pending (q : Z) (r : completion) (s : Client) : Client :=
  match pending s !! q with
  | Some c => complete c r (unregister q s)
  | None => s
  end.

(** The first part of [send], up to the write. *)
Definition register (c : nat) (s : Client) : Client :=
  mkClient (uint64 (seq s + 1)) (<[seq s := c]> (pending s)) (Some (seq s)) (closing s) (shutdown s)
           (<[seq s := c]> (assigned s)) ({[c]} ∪ started s) (completed s).

(** The end of the read loop: every pending call fails. *)
Definition terminate (e : error) (s : Client) : Client :=
  mkClient (seq s) (pending s) (sending s) (closing s) true (assigned s) (started s)
           (completed s ++ map (fun c => (c, Failed e)) (map_to_list (pending s)).*2).

Inductive action : Type :=
| Send (c : nat)
| Written
| WriteError (e : error)
| ReadResponse (q : Z) (r : rpc_reply)
| Close
| EndLoop (e : error).

(** The state after an action, when its guard holds. *)
Definition step (s : Client) (a : action) : option Client :=
  match a with
  | Send c =>
      if bool_decide (c ∈ started s) || negb (is_none (sending s)) then None
      else if shutdown s || closing s then Some (complete c (Failed ErrShutdown) (start c s))
      else Some (register c s)
  | Written => match sending s with Some _ => Some (end_send s) | None => None end
  | WriteError e =>
      match sending s with
      | Some q => Some (take_pending q (Failed e) (end_send s))
      | None => None
      end
  | ReadResponse q r => if shutdown s then None else Some (take_pending q (Reply q r) s)
  | Close =>
      if shutdown s || closing s then Some s
      else Some (mkClient (seq s) (pending s) (sending s) true (shutdown s) (assigned s)
                          (started s) (completed s))
  | EndLoop e =>
      if shutdown s || negb (is_none (sending s)) then None else Some (terminate e s)
  end.

(** The states reached by a sequence of actions. *)
Inductive reachable : list action -> Client -> Prop :=
| reach_new : reachable [] NewClientWithCodec
| reach_step acts a s s' : reachable acts s -> step s a = Some s' -> reachable (acts ++ [a]) s'.

Fixpoint steps (s : Client) (acts : list action) : option Client :=
  match acts with
  | [] => Some s
  | a :: rest => s' ← step s a; steps s' rest
  end.

Lemma steps_reachable acts0 s acts s' :
  reachable acts0 s -> steps s acts = Some s' -> reachable (acts0 ++ acts) s'.
Proof.
  revert acts0 s. induction acts as [|a acts IH]; intros acts0 s Hr; cbn.
  - intros [= <-]. by rewrite app_nil_r.
  - destruct (step s a) as [s1|] eqn:E; [|done]. cbn. intros Hs.
    replace (acts0 ++ a :: acts) with ((acts0 ++ [a]) ++ acts) by (by rewrite <- app_assoc).
    apply (IH _ s1); [|done]. by econstructor.
Qed.

(** * The invariant *)

Definition is_send (a : action) : bool := match a with Send _ => true | _ => false end.
Definition sends (acts : list action) : Z := Z.of_nat (length (List.filter is_send acts)).

Lemma sends_snoc acts a : sends (acts ++ [a]) = sends acts + (if is_send a then 1 else 0).
Proof.
  unfold sends. rewrite List.filter_app, length_app. cbn. destruct (is_send a); cbn; lia.
Qed.

(** The calls waiting for a response. *)
Definition waiting (s : Client) (c : nat) : Prop := exists q, pending s !! q = Some c.

Record inv (n : Z) (s : Client) : Prop := mkInv {
  i_seq : 1 <= seq s <= 1 + n;
  i_assigned q c : assigned s !! q = Some c -> 1 <= q < seq s /\ c ∈ started s;
  i_inj q q' c : assigned s !! q = Some c -> assigned s !! q' = Some c -> q = q';
  i_pending : pending s ⊆ assigned s;
  i_done c : c ∈ (completed s).*1 -> c ∈ started s;
  i_nodup : NoDup (completed s).*1;
  i_wait c : shutdown s = false -> waiting s c -> c ∉ (completed s).*1;
  i_cover c : c ∈ started s -> c ∈ (completed s).*1 \/ (shutdown s = false /\ waiting s c);
  i_reply c q r : (c, Reply q r) ∈ completed s -> assigned s !! q = Some c;
  i_sending q : sending s = Some q -> shutdown s = false
}.

Lemma inv_new : inv 0 NewClientWithCodec.
Proof.
  split; cbn; try done; try lia; try set_solver. constructor.
Qed.

Lemma inv_weaken n n' s : n <= n' -> inv n s -> inv n' s.
Proof. intros Hn [? ? ? ? ? ? ? ? ? ?]. split; try done. lia. Qed.

(** Completing a waiting call. *)
Lemma inv_take n q r s :
  inv n s -> shutdown s = false ->
  (forall q' r', r = Reply q' r' -> q' = q) ->
  inv n (take_pending q r s).
Proof.
  intros Hi Hsh Hr. unfold take_pending. destruct (pending s !! q) as [c|] eqn:E; [|done].
  assert (assigned s !! q = Some c) as Ea by (by eapply lookup_weaken, i_pending).
  assert (c ∉ (completed s).*1) as Hc by (apply (i_wait n); [done|done|by exists q]).
  destruct Hi as [H1 H2 H3 H4 H5 H6 H7 H8 H9 H10].
  split; cbn; try done.
  - etransitivity; [apply delete_subseteq|done].
  - intros c'. rewrite fmap_app, elem_of_app. cbn. intros [?| ->%list_elem_of_singleton]; [auto|].
    by apply (H2 q).
  - rewrite fmap_app. apply NoDup_app. split; [done|]. split; [|apply NoDup_singleton].
    cbn. intros x Hx ->%list_elem_of_singleton. done.
  - intros c' _ [q' Hq']. cbn in Hq'. apply lookup_delete_Some in Hq' as [Hne Hq'].
    rewrite fmap_app, elem_of_app. cbn. intros [Hin| ->%list_elem_of_singleton].
    + apply (H7 c'); [done|by exists q'|done].
    + apply Hne, (H3 _ _ c); [done|]. by eapply lookup_weaken.
  - intros c' Hc'. rewrite fmap_app, elem_of_app. cbn.
    destruct (H8 c' Hc') as [?|[_ [q' Hq']]]; [by left; left|].
    destruct (decide (q' = q)) as [->|Hne].
    + left; right. assert (c' = c) as -> by congruence. by apply list_elem_of_singleton.
    + right. split; [done|]. exists q'. cbn. by rewrite lookup_delete_ne.
  - intros c' q' r'. rewrite elem_of_app. intros [?|[= -> Heq]%list_elem_of_singleton]; [eauto|].
    symmetry in Heq. by rewrite (Hr _ _ Heq).
Qed.

(** A call that is registered. *)
Lemma inv_register n c s :
  inv n s -> n < 2 ^ 64 - 2 -> c ∉ started s -> shutdown s = false -> inv (n + 1) (register c s).
Proof.
  intros Hi Hn Hc Hsh. destruct Hi as [H1 H2 H3 H4 H5 H6 H7 H8 H9 H10].
  assert (uint64 (seq s + 1) = seq s + 1) as Hu by (unfold uint64; apply Z.mod_small; lia).
  assert (assigned s !! seq s = None) as Hnone.
  { destruct (assigned s !! seq s) as [c'|] eqn:E; [|done]. apply H2 in E. lia. }
  split; cbn; rewrite ?Hu; try done.
  - lia.
  - intros q c'. destruct (decide (q = seq s)) as [->|Hne].
    + rewrite lookup_insert_eq. intros [= <-]. split; [lia|set_solver].
    + rewrite lookup_insert_ne by done. intros [? ?]%H2. split; [lia|set_solver].
  - intros q q' c'. rewrite !lookup_insert_Some.
    intros [[<- <-]|[? E]] [[<- E']|[? E']]; [done| | |by eapply H3].
    + apply H2 in E'. set_solver.
    + subst. apply H2 in E. set_solver.
  - by apply insert_mono.
  - intros c' ?%H5. set_solver.
  - intros c' _ [q Hq]. cbn in Hq. apply lookup_insert_Some in Hq as [[_ <-]|[_ Hq]]; [|by apply H7; [|exists q]].
    by intros ?%H5.
  - intros c' [->%elem_of_singleton|Hc']%elem_of_union.
    + right. split; [done|]. exists (seq s). cbn. by rewrite lookup_insert_eq.
    + destruct (H8 c' Hc') as [?|[_ [q Hq]]]; [by left|]. right. split; [done|]. exists q.
      cbn. rewrite lookup_insert_ne; [done|]. intros <-. by rewrite (lookup_weaken _ _ _ _ Hq H4) in Hnone.
  - intros c' q r Hr%H9. rewrite lookup_insert_ne; [done|]. intros <-. congruence.
Qed.

(** A call that is refused. *)
Lemma inv_refused n c r s :
  inv n s -> c ∉ started s -> (forall q' r', r <> Reply q' r') -> inv n (complete c r (start c s)).
Proof.
  intros Hi Hc Hr. destruct Hi as [H1 H2 H3 H4 H5 H6 H7 H8 H9 H10].
  split; cbn; try done.
  - intros q c' [? ?]%H2. split; [done|set_solver].
  - intros c'. rewrite fmap_app, elem_of_app. cbn. rewrite list_elem_of_singleton.
    intros [?%H5| ->]; set_solver.
  - rewrite fmap_app. apply NoDup_app. split; [done|]. split; [|apply NoDup_singleton].
    cbn. intros x Hx%H5 ->%list_elem_of_singleton. done.
  - intros c' Hsh Hw. rewrite fmap_app, elem_of_app. cbn. rewrite list_elem_of_singleton.
    intros [?| ->]; [by eapply H7|]. destruct Hw as [q Hq].
    apply (lookup_weaken _ _ _ _ Hq) in H4. by apply H2 in H4 as [_ ?].
  - intros c' [->%elem_of_singleton|Hc']%elem_of_union; rewrite fmap_app, elem_of_app; cbn.
    + left; right. by apply list_elem_of_singleton.
    + destruct (H8 c' Hc'); auto.
  - intros c' q r'. rewrite elem_of_app. intros [?|[= -> Heq]%list_elem_of_singleton]; [eauto|].
    by destruct (Hr q r').
Qed.

(** The end of the loop: the waiting calls fail, each once. *)
Definition waiting_calls (s : Client) : list nat := (map_to_list (pending s)).*2.

Lemma elem_of_waiting_calls s c : c ∈ waiting_calls s <-> waiting s c.
Proof.
  unfold waiting_calls, waiting. rewrite list_elem_of_fmap. split.
  - intros ([q c'] & -> & Hin%elem_of_map_to_list). by exists q.
  - intros [q Hq]. exists (q, c). by rewrite elem_of_map_to_list.
Qed.

Lemma NoDup_snd {A B} (l : list (A * B)) :
  NoDup l -> (forall a a' b, (a, b) ∈ l -> (a', b) ∈ l -> a = a') -> NoDup l.*2.
Proof.
  induction 1 as [|[a b] l Hx Hl IH]; intros Hinj; cbn; [constructor|]. constructor.
  - intros ([a' b'] & -> & Hin)%list_elem_of_fmap. apply Hx.
    rewrite (Hinj a a' b'); [done|left|by right].
  - apply IH. intros x x' y H1 H2. apply (Hinj x x' y); by right.
Qed.

Lemma NoDup_waiting_calls n s : inv n s -> NoDup (waiting_calls s).
Proof.
  intros Hi. apply NoDup_snd; [apply NoDup_map_to_list|].
  intros q q' c H1%elem_of_map_to_list H2%elem_of_map_to_list.
  pose proof (i_pending _ _ Hi) as Hp. eapply (i_inj _ _ Hi _ _ c); by eapply lookup_weaken.
Qed.

Lemma completed_terminate e s :
  (completed (terminate e s)).*1 = (completed s).*1 ++ waiting_calls s.
Proof.
  cbn. rewrite fmap_app. f_equal. unfold waiting_calls. induction (map_to_list (pending s)) as [|x l IH];
    cbn; [done|]. by rewrite IH.
Qed.

Lemma inv_terminate n e s :
  inv n s -> sending s = None -> shutdown s = false -> inv n (terminate e s).
Proof.
  intros Hi Hse Hsh. pose proof (NoDup_waiting_calls n s Hi) as Hnd.
  destruct Hi as [H1 H2 H3 H4 H5 H6 H7 H8 H9 H10].
  assert (forall c, waiting s c -> c ∈ started s) as Hw.
  { intros c [q Hq]. eapply H2, lookup_weaken; done. }
  split; try done.
  - intros c. rewrite completed_terminate, elem_of_app, elem_of_waiting_calls.
    intros [?|?]; [by apply H5|by apply Hw].
  - rewrite completed_terminate. apply NoDup_app. split; [done|]. split; [|done].
    intros c Hc Hin%elem_of_waiting_calls. by apply (H7 c).
  - intros c Hc. left. rewrite completed_terminate, elem_of_app, elem_of_waiting_calls.
    destruct (H8 c Hc) as [?|[_ ?]]; auto.
  - cbn. intros c q r. rewrite elem_of_app. intros [?|Hin]; [eauto|].
    apply list_elem_of_fmap in Hin as (c' & [=] & _).
  - cbn. congruence.
Qed.

Lemma inv_end_send n s : inv n s -> inv n (end_send s).
Proof. intros [? ? ? ? ? ? ? ? ? ?]. by split. Qed.

Lemma inv_step n s a s' :
  inv n s -> n < 2 ^ 64 - 2 -> step s a = Some s' -> inv (n + (if is_send a then 1 else 0)) s'.
Proof.
  intros Hi Hn. destruct a as [c| |e|q r| |e]; cbn [step is_send]; rewrite ?Z.add_0_r.
  - destruct (bool_decide_reflect (c ∈ started s)) as [|Hc]; cbn [orb]; [done|].
    destruct (sending s) eqn:Es; cbn [is_none negb]; [done|].
    destruct (shutdown s || closing s) eqn:E; intros [= <-].
    + apply (inv_weaken n); [lia|]. by apply inv_refused.
    + apply inv_register; try done. by destruct (shutdown s).
  - destruct (sending s); [|done]. intros [= <-]. by apply inv_end_send.
  - destruct (sending s) as [q|] eqn:Es; [|done]. intros [= <-].
    apply inv_take; [by apply inv_end_send| |done]. cbn. by eapply i_sending.
  - destruct (shutdown s) eqn:Es; [done|]. intros [= <-]. apply inv_take; try done.
    by intros q' r' [= -> _].
  - destruct (shutdown s || closing s); intros [= <-]; [done|]. destruct Hi. by split.
  - destruct (shutdown s) eqn:Es; [done|]. destruct (sending s) eqn:Ese; [done|]. intros [= <-].
    by apply inv_terminate.
Qed.

Lemma sends_nonneg acts : 0 <= sends acts.
Proof. unfold sends. lia. Qed.

Lemma reachable_inv acts s : reachable acts s -> sends acts < 2 ^ 64 - 2 -> inv (sends acts) s.
Proof.
  induction 1 as [|acts a s s' Hr IH Hs]; intros Hb; [apply inv_new|].
  rewrite sends_snoc in Hb |- *. eapply inv_step; [apply IH| |done]; destruct (is_send a); lia.
Qed.

(** C4: on a connection that has carried fewer than 2^64 - 2 calls, whatever the
    interleaving of senders, responses, write errors, closing and the end of the
    read loop: a call is completed at most once; a response is delivered to the
    call that was sent with its number; and a started call is either completed or
    still waiting, so that once the read loop has ended none is left hanging. *)
Theorem calls_completed_once acts s :
  reachable acts s -> sends acts < 2 ^ 64 - 2 ->
  NoDup (completed s).*1 /\
  (forall c q r, (c, Reply q r) ∈ completed s -> assigned s !! q = Some c) /\
  (forall c, c ∈ started s -> c ∈ (completed s).*1 \/ (shutdown s = false /\ waiting s c)).
Proof.
  intros Hr Hb. pose proof (reachable_inv acts s Hr Hb) as Hi.
  split; [apply (i_nodup _ _ Hi)|]. split; [apply (i_reply _ _ Hi)|apply (i_cover _ _ Hi)].
Qed.

(** Two calls; the response to the second comes first, and the connection ends
    before the response to the first. *)
Definition sample_actions : list action :=
  [Send 10; Written; Send 20; ReadResponse 2 (RpcResult JNull); Written;
   EndLoop (errors_New "unexpected EOF"); Send 30].

Lemma calls_completed_once_witness :
  exists s, steps NewClientWithCodec sample_actions = Some s /\
    (completed s).*1 = [20; 10; 30]%nat /\ NoDup (completed s).*1.
Proof.
  eexists. split; [by vm_compute|]. split; [done|].
  apply (calls_completed_once ([] ++ sample_actions)).
  - eapply steps_reachable; [constructor|]. by vm_compute.
  - by vm_compute.
Defined.
