(* ===== verification/Hub.v ===== *)
(** cenkalti/hub, the dispatcher of events (Godeps/.../cenkalti/hub/hub.go), which the server
    side of rpc2 uses for the connections of clients (rpc2/server.go: OnConnect, OnDisconnect,
    ServeCodecWithState).

    A handler is a number, an event its kind and its value. The function that Subscribe returns
    closes over the kind, the id and a flag: it is called on these. The slice of a kind is its
    elements; cancelling works on a second slice of the same array, so that the elements change
    and the length does not. The mutex is held or not; a call that cannot take it never
    returns. *)

From S2P Require Import Prelude.

Local Open Scope Z_scope.

Record handler : Type := mkHandler { h_f : nat; h_id : Z }.

Record Hub : Type := mkHub {
  subscribers : gmap Z (list handler);
  locked : bool;                (* the mutex is held by a call that has returned *)
  hub_seq : Z;
  cancelled : gset Z;           (* the flags of the cancel functions, by id *)
  called : list (nat * Z) }.    (* the handlers called, and with which event *)

Definition new_hub : Hub := mkHub ∅ false 0 ∅ [].

(** Subscribe, with the id that its cancel function closes over *)
Definition Subscribe (kind : Z) (f : nat) (h : Hub) : option (Z * Hub) :=
  if locked h then None
  else
    let id := (hub_seq h + 1) mod 2 ^ 64 in
    Some (id, mkHub (<[kind := default [] (subscribers h !! kind) ++ [mkHandler f id]]> (subscribers h))
                    false id (cancelled h) (called h)).

(** The place of the first handler with the id. *)
Fixpoint place (id : Z) (a : list handler) : option nat :=
  match a with
  | [] => None
  | x :: a' => if h_id x =? id then Some O else option_map S (place id a')
  end.

(** a[i], a = a[len(a)-1], a[:len(a)-1]: the array, and the length of the second slice *)
Definition remove_at (id : Z) (a : list handler) : list handler * nat :=
  match place id a with
  | Some i => match last a with
              | Some x => (<[i := x]> a, (length a - 1)%nat)
              | None => (a, length a)
              end
  | None => (a, length a)
  end.

(** The function that Subscribe returned. A second call takes the mutex and does not give it
    back. *)
Definition cancel (kind id : Z) (h : Hub) : option Hub :=
  if locked h then None
  else if bool_decide (id ∈ cancelled h)
  then Some (mkHub (subscribers h) true (hub_seq h) (cancelled h) (called h))
  else
    let '(a, n) := remove_at id (default [] (subscribers h !! kind)) in
    let subs := match subscribers h !! kind with
                | Some _ => <[kind := a]> (subscribers h)
                | None => subscribers h
                end in
    Some (mkHub (if (n =? 0)%nat then delete kind subs else subs) false (hub_seq h)
                ({[id]} ∪ cancelled h) (called h)).

Definition Publish (kind e : Z) (h : Hub) : option Hub :=
  if locked h then None
  else
    let handlers := default [] (subscribers h !! kind) in
    Some (mkHub (subscribers h) false (hub_seq h) (cancelled h)
                (called h ++ map (fun x => (h_f x, e)) handlers)).

(** * The events of the server of rpc2 *)

Definition clientConnected : Z := 0.
Definition clientDisconnected : Z := 1.

Definition OnConnect (f : nat) (h : Hub) : option Hub := option_map snd (Subscribe clientConnected f h).
Definition OnDisconnect (f : nat) (h : Hub) : option Hub := option_map snd (Subscribe clientDisconnected f h).

(** ServeCodecWithState for a client, around the run of its read loop, in which others may use
    the hub. *)
Definition ServeCodec (client : Z) (run : Hub -> option Hub) (h : Hub) : option Hub :=
  match Publish clientConnected client h with
  | None => None
  | Some h => match run h with
              | None => None
              | Some h => Publish clientDisconnected client h
              end
  end.

(** * Properties *)

(** The functions that were subscribed to a kind, in order. *)
Definition functions (kind : Z) (h : Hub) : list nat := map h_f (default [] (subscribers h !! kind)).

Definition subscribe_all (l : list (Z * nat)) (h : Hub) : option Hub :=
  fold_left (fun o '(kind, f) => match o with
                                 | Some h => option_map snd (Subscribe kind f h)
                                 | None => None
                                 end) l (Some h).

Lemma functions_subscribe kind f kind' h id h' :
  Subscribe kind f h = Some (id, h') ->
  locked h' = false
  /\ functions kind' h' = functions kind' h ++ (if kind =? kind' then [f] else []).
Proof.
  unfold Subscribe. destruct (locked h); [done|]. intros [= <- <-]. split; [done|].
  unfold functions. simpl. destruct (Z.eqb_spec kind kind') as [->|Hne].
  - rewrite lookup_insert_eq. simpl. by rewrite map_app.
  - rewrite lookup_insert_ne by done. by rewrite app_nil_r.
Qed.

Lemma subscribe_all_spec l : forall h,
  locked h = false -> exists h', subscribe_all l h = Some h' /\ locked h' = false
  /\ called h' = called h
  /\ forall kind, functions kind h' = functions kind h ++ map snd (List.filter (fun kf => kf.1 =? kind) l).
Proof.
  induction l as [|[kind f] l IH]; intros h Hl.
  - exists h. repeat split; [done|]. intros kind. by rewrite app_nil_r.
  - assert (exists id h1, Subscribe kind f h = Some (id, h1) /\ called h1 = called h) as (id & h1 & Hs & Hc)
      by (unfold Subscribe; rewrite Hl; eauto).
    destruct (functions_subscribe kind f 0 h id h1 Hs) as [Hl1 _].
    destruct (IH h1 Hl1) as (h' & Hall & Hl' & Hc' & Hf). exists h'.
    split; [unfold subscribe_all in *; simpl; by rewrite Hs|].
    split; [done|]. split; [by rewrite Hc'|]. intros kind'. rewrite Hf.
    destruct (functions_subscribe kind f kind' h id h1 Hs) as [_ ->]. simpl.
    destruct (kind =? kind'); simpl; by rewrite <- app_assoc.
Qed.

(** As long as nothing is cancelled, which is how the server of rpc2 uses the hub, an event
    calls the functions that subscribed to its kind, each as often as it subscribed, in the
    order in which they did, and no others. *)
Theorem Publish_subscribed l kind e :
  exists h h', subscribe_all l new_hub = Some h /\ Publish kind e h = Some h'
  /\ called h' = map (fun f => (f, e)) (map snd (List.filter (fun kf => kf.1 =? kind) l)).
Proof.
  destruct (subscribe_all_spec l new_hub eq_refl) as (h & Hall & Hl & Hc & Hf).
  exists h. unfold Publish. rewrite Hl. eexists. split; [done|]. split; [done|]. simpl.
  rewrite Hc. simpl. specialize (Hf kind). unfold functions in Hf. cbn [new_hub subscribers] in Hf.
  rewrite lookup_empty in Hf. simpl in Hf. by rewrite <- Hf, map_map.
Qed.

Lemma place_last a x :
  ~ In (h_id x) (map h_id a) -> place (h_id x) (a ++ [x]) = Some (length a).
Proof.
  induction a as [|y a IH]; simpl; intros H; [by rewrite Z.eqb_refl|].
  destruct (Z.eqb_spec (h_id y) (h_id x)); [tauto|]. by rewrite IH by tauto.
Qed.

(** Cancelling the last of several subscriptions to a kind leaves all of them in place: the
    function is called for every later event as before. *)
Theorem cancel_last_kept kind a x h :
  subscribers h !! kind = Some (a ++ [x]) -> a <> [] -> ~ In (h_id x) (map h_id a) ->
  locked h = false -> h_id x ∉ cancelled h ->
  exists h', cancel kind (h_id x) h = Some h' /\ subscribers h' = subscribers h.
Proof.
  intros Hs Ha Hx Hl Hc. unfold cancel. rewrite Hl, bool_decide_false by done. rewrite Hs. simpl.
  unfold remove_at. rewrite place_last by done. rewrite last_snoc.
  eexists. split; [done|]. simpl. rewrite length_app. simpl.
  destruct (Nat.eqb_spec (length a + 1 - 1) 0) as [H0|H0]; [destruct a; simpl in H0; [done|lia]|].
  rewrite list_insert_id; [|by rewrite lookup_app_r, Nat.sub_diag by lia].
  by apply insert_id.
Qed.

Definition sample_hub : Hub := default new_hub (subscribe_all [(0, 1%nat); (0, 2%nat)] new_hub).

Lemma cancel_last_kept_witness :
  exists h', cancel 0 2 sample_hub = Some h' /\ subscribers h' = subscribers sample_hub.
Proof.
  apply (cancel_last_kept 0 [mkHandler 1 1] (mkHandler 2 2) sample_hub).
  - vm_compute. reflexivity.
  - discriminate.
  - simpl. intros [H|[]]. discriminate H.
  - reflexivity.
  - apply not_elem_of_empty.
Defined.

(** Cancelling the first subscription of two makes the event call the second twice; cancelling
    twice locks the hub. *)
Example cancel_first_doubles :
  (match cancel 0 1 sample_hub with
   | Some h => match Publish 0 9 h with Some h => called h | None => [] end
   | None => []
   end) = [(2%nat, 9); (2%nat, 9)].
Proof. vm_compute. reflexivity. Qed.

Example cancel_twice_locks :
  (match cancel 0 1 sample_hub with
   | Some h => match cancel 0 1 h with Some h => Publish 0 9 h | None => Some h end
   | None => Some new_hub
   end) = None.
Proof. vm_compute. reflexivity. Qed.
