(* ===== verification/Rpc2Server.v ===== *)
(** cenkalti/rpc2, handlers and the gob codec (Godeps/.../cenkalti/rpc2/server.go, codec.go).

    A handler is registered by what reflection says of its type. The streams of package gob are
    the sequences of the values that were encoded; what gob makes of a value that is decoded as
    the header of a message is a parameter, and so is which values it can encode. *)

From S2P Require Import Prelude.

Local Open Scope go_scope.
Local Open Scope Z_scope.

(** * Handlers *)

(** Types as reflection shows them: pointers, named types with the path of their package (empty
    for the predeclared ones), and types without a name. *)
Inductive rtype : Type :=
| RPtr (t : rtype)
| RNamed (pkg name : string)
| RUnnamed (desc : string).

#[export] Instance rtype_eq_dec : EqDecision rtype.
Proof. solve_decision. Defined.

Definition typeOfClient : rtype := RPtr (RNamed "github.com/cenkalti/rpc2" "Client").
Definition typeOfError : rtype := RNamed "" "error".

Record functype : Type := mkFunc { ft_In : list rtype; ft_Out : list rtype }.

Record rpc_handler (F : Type) : Type := mkRpcHandler { rh_fn : F; rh_argType : rtype; rh_replyType : rtype }.
Arguments mkRpcHandler {F} _ _ _.
Arguments rh_fn {F} _.
Arguments rh_argType {F} _.
Arguments rh_replyType {F} _.

Section handlers.
(** Whether a name that does not start with an ASCII character starts with an upper-case rune. *)
Variable IsUpperRune : string -> bool.
Context {F : Type}.

Definition isExported (name : string) : bool :=
  match name with
  | EmptyString => false
  | String a _ => if (N_of_ascii a <? 128)%N then (65 <=? N_of_ascii a)%N && (N_of_ascii a <=? 90)%N
                  else IsUpperRune name
  end.

Fixpoint isExportedOrBuiltinType (t : rtype) : bool :=
  match t with
  | RPtr t => isExportedOrBuiltinType t
  | RNamed pkg name => isExported name || bool_decide (pkg = "")
  | RUnnamed _ => true
  end.

Definition is_ptr (t : rtype) : bool := match t with RPtr _ => true | _ => false end.

Definition addHandler (handlers : gmap string (rpc_handler F)) (mname : string) (fn : F) (mtype : functype)
    : outcome (gmap string (rpc_handler F)) :=
  let panic why := Halted (GoPanic why) in
  match handlers !! mname with
  | Some _ => panic "rpc2: multiple registrations"
  | None =>
      match ft_In mtype with
      | [clientType; argType; replyType] =>
          if negb (is_ptr clientType) then panic "client type not a pointer"
          else if negb (bool_decide (clientType = typeOfClient)) then panic "first argument not *rpc2.Client"
          else if negb (isExportedOrBuiltinType argType) then panic "argument type not exported"
          else if negb (is_ptr replyType) then panic "reply type not a pointer"
          else if negb (isExportedOrBuiltinType replyType) then panic "reply type not exported"
          else
            match ft_Out mtype with
            | [returnType] =>
                if negb (bool_decide (returnType = typeOfError)) then panic "returns not error"
                else Returned (<[mname := mkRpcHandler fn argType replyType]> handlers)
            | _ => panic "wrong number of outs"
            end
      | _ => panic "wrong number of ins"
      end
  end.

(** Server, up to its hub of events, and the two operations that register a handler. *)
Record Server : Type := mkServer { srv_handlers : gmap string (rpc_handler F) }.
Definition NewServer : Server := mkServer ∅.

Definition Handle (method : string) (fn : F) (mtype : functype) (s : Server) : outcome Server :=
  let? hs := addHandler (srv_handlers s) method fn mtype in Returned (mkServer hs).

(** The functions that can serve requests. *)
Definition serves (mtype : functype) (argType replyType : rtype) : Prop :=
  ft_In mtype = [typeOfClient; argType; replyType] /\ ft_Out mtype = [typeOfError]
  /\ isExportedOrBuiltinType argType = true /\ is_ptr replyType = true
  /\ isExportedOrBuiltinType replyType = true.

(** A handler is registered exactly when its method has none yet and its type is
    func( *Client, T, *R) error with types that gob and json can fill; it is then the handler of its
    method, with the types of its argument and its reply, and no other method is touched. In
    every other case registering panics. *)
Theorem addHandler_spec handlers mname fn mtype :
  (forall handlers', addHandler handlers mname fn mtype = Returned handlers' <->
     handlers !! mname = None /\ exists argType replyType, serves mtype argType replyType
     /\ handlers' = <[mname := mkRpcHandler fn argType replyType]> handlers)
  /\ forall h, addHandler handlers mname fn mtype = Halted h -> exists why, h = GoPanic why.
Proof.
  unfold addHandler, serves. destruct mtype as [ins outs]. cbn [ft_In ft_Out]. split.
  - intros handlers'. split.
    + repeat case_match; try done. intros [= <-]. split; [done|].
      repeat match goal with H : negb _ = false |- _ => apply negb_false_iff in H end.
      repeat match goal with H : bool_decide _ = true |- _ => apply bool_decide_eq_true in H end.
      subst. by eexists _, _.
    + intros [-> (argType & replyType & (-> & -> & Ha & Hp & Hr) & ->)].
      rewrite bool_decide_true by done. rewrite Ha, Hp, Hr. cbn [negb is_ptr typeOfClient].
      by rewrite bool_decide_true.
  - intros h. repeat case_match; try done; intros [= <-]; by eexists.
Qed.

End handlers.

(** * The gob codec *)

Section gob.
Context {T : Type}.
(** What the program encodes, what gob can encode, and what a value that is not a header looks
    like when it is decoded as one. *)
Variable encodable : T -> bool.
Variable as_message : T -> option (Z * string * string).

Inductive item : Type :=
| IRequest (Seq : Z) (method : string)
| IResponse (Seq : Z) (err : string)
| IBody (body : T).

Inductive gob_header : Type :=
| GRequest (Seq : Z) (method : string)
| GResponse (Seq : Z) (err : string).

Record gobCodec : Type := mkGob {
  g_buf : list item;            (* encoded, and not flushed *)
  g_out : list item;            (* written to the connection *)
  g_in : list item }.           (* what the connection will give *)

Definition newGobCodec (incoming : list item) : gobCodec := mkGob [] [] incoming.

(** Decode into the struct message, whose fields are found by their names. *)
Definition decode_message (i : item) : option (Z * string * string) :=
  match i with
  | IRequest q m => Some (q, m, ""%string)
  | IResponse q e => Some (q, ""%string, e)
  | IBody b => as_message b
  end.

Definition gob_ReadHeader (c : gobCodec) : option gob_header * gobCodec :=
  match g_in c with
  | [] => (None, c)
  | i :: rest =>
      let c := mkGob (g_buf c) (g_out c) rest in
      match decode_message i with
      | None => (None, c)
      | Some (q, m, e) =>
          (Some (if negb (String.eqb m "") then GRequest q m else GResponse q e), c)
      end
  end.

(** ReadRequestBody and ReadResponseBody *)
Definition gob_ReadBody (c : gobCodec) : option T * gobCodec :=
  match g_in c with
  | IBody b :: rest => (Some b, mkGob (g_buf c) (g_out c) rest)
  | _ :: rest => (None, mkGob (g_buf c) (g_out c) rest)
  | [] => (None, c)
  end.

(** WriteRequest and WriteResponse: whether it succeeded. An error of the second Encode returns
    before the header is flushed. [ok] says whether the connection takes what is flushed. *)
Definition gob_write (ok : bool) (header : item) (body : T) (c : gobCodec) : bool * gobCodec :=
  let buf := g_buf c ++ [header] in
  if encodable body then
    let buf := buf ++ [IBody body] in
    if ok then (true, mkGob [] (g_out c ++ buf) (g_in c)) else (false, mkGob buf (g_out c) (g_in c))
  else (false, mkGob buf (g_out c) (g_in c)).

Definition gob_WriteRequest (ok : bool) (Seq : Z) (method : string) := gob_write ok (IRequest Seq method).
Definition gob_WriteResponse (ok : bool) (Seq : Z) (err : string) := gob_write ok (IResponse Seq err).

(** A request, whose method is not empty, and a response that are written without an error in
    between are read as they were written, with their bodies. *)
Theorem gob_roundtrip q m q' e b b' c1 c2 rest :
  m <> ""%string -> g_buf c1 = [] -> g_out c1 = [] -> encodable b = true -> encodable b' = true ->
  c2 = snd (gob_WriteResponse true q' e b' (snd (gob_WriteRequest true q m b c1))) ->
  let r1 := gob_ReadHeader (newGobCodec (g_out c2 ++ rest)) in
  let r2 := gob_ReadBody (snd r1) in
  let r3 := gob_ReadHeader (snd r2) in
  let r4 := gob_ReadBody (snd r3) in
  fst r1 = Some (GRequest q m) /\ fst r2 = Some b /\ fst r3 = Some (GResponse q' e) /\ fst r4 = Some b'
  /\ g_in (snd r4) = rest.
Proof.
  intros Hm Hb Ho He He' ->. unfold gob_WriteResponse, gob_WriteRequest, gob_write.
  rewrite He. cbn [snd g_buf g_out g_in]. rewrite He'. cbn [snd g_buf g_out g_in]. rewrite Hb, Ho. cbn.
  apply String.eqb_neq in Hm. by rewrite Hm.
Qed.

(** After a body that cannot be encoded the stream is out of step: its header is sent in front of
    the next message, and the peer, which reads a body after it, gets the header of that
    message. *)
Theorem gob_out_of_step q m b q' m' b' c rest :
  m <> ""%string -> g_buf c = [] -> g_out c = [] -> encodable b = false -> encodable b' = true ->
  let '(ok, c) := gob_WriteRequest true q m b c in
  let '(ok', c) := gob_WriteRequest true q' m' b' c in
  ok = false /\ ok' = true
  /\ fst (gob_ReadHeader (newGobCodec (g_out c ++ rest))) = Some (GRequest q m)
  /\ fst (gob_ReadBody (snd (gob_ReadHeader (newGobCodec (g_out c ++ rest))))) = None.
Proof.
  intros Hm Hb Ho He He'. unfold gob_WriteRequest, gob_write. rewrite He. cbn [g_buf g_out g_in].
  rewrite He'. rewrite Hb, Ho. cbn. apply String.eqb_neq in Hm. by rewrite Hm.
Qed.

End gob.
