(* ===== verification/Jsonrpc.v ===== *)
(** The JSON-RPC codec under the OVSDB connection and the dispatch of incoming messages
    (Godeps/.../cenkalti/rpc2/jsonrpc/jsonrpc.go; readLoop and readRequest of
    rpc2/client.go).

    A message on the wire is a JSON document. The codec numbers the requests the other
    side makes and keeps their ids, so that a handler's result can be sent under the id
    of its request. The read loop dispatches each message; handlers run in goroutines of
    their own and may finish in any order. The handlers of this program take their
    arguments as a slice of values. *)

From S2P Require Import Prelude OvsNotation OvsTypes World Rpc2.

Local Open Scope go_scope.
Local Open Scope Z_scope.

(** * Messages *)

(** Raw fields are nil when absent or null; the error is an interface, nil when null. *)
Record message : Type := mkMsg {
  Method : string; Params : option json; Id : option json; Result : option json; Error : json }.

Definition message_fields : list string := ["method"; "params"; "id"; "result"; "error"].

Definition raw_field (m : list (string * json)) (f : string) : option json :=
  match field message_fields f m with
  | None | Some JNull => None
  | Some v => Some v
  end.

(** Decoding the struct; [None] is an error. Decoding null leaves it empty. *)
Definition decode_message (doc : json) : option message :=
  match doc with
  | JNull => Some (mkMsg "" None None None JNull)
  | JObj m =>
      method ← match field message_fields "method" m with
               | None => Some EmptyString
               | Some v => unmarshal_string v
               end;
      Some (mkMsg method (raw_field m "params") (raw_field m "id") (raw_field m "result")
                  (default JNull (field message_fields "error" m)))
  | _ => None
  end.

(** json.Unmarshal into a uint64. *)
Definition decode_uint64 (j : json) : option Z :=
  match j with
  | JNum lit =>
      match lit with
      | EmptyString => None
      | _ => z ← digits 0 lit; if z <? 2 ^ 64 then Some z else None
      end
  | JNull => Some 0
  | _ => None
  end.

(** * The codec *)

(** The fields that outlive a message: seq and pending, and the parts of the last request
    and of the last response that the body readers use. *)
Record jsonCodec : Type := mkCodec {
  cseq : Z;
  cpending : gmap Z (option json);
  serverRequest_Params : option json;
  clientResponse_Result : option json
}.

Definition NewJSONCodec : jsonCodec := mkCodec 0 ∅ None None.

Inductive header : Type :=
| HRequest (Seq : Z) (method : string)
| HResponse (Seq : Z) (err : string).

Definition err_decode : error := errors_New "json: cannot unmarshal".

(** ReadHeader, on the next document of the stream. *)
Definition ReadHeader (c : jsonCodec) (doc : json) : outcome ((error + header) * jsonCodec) :=
  match decode_message doc with
  | None => Returned (inl err_decode, c)
  | Some msg =>
      if negb (String.eqb (Method msg) "") then
        let c := mkCodec (cseq c) (cpending c) (Params msg) (clientResponse_Result c) in
        match Id msg with
        | None => Returned (inr (HRequest 0 (Method msg)), c)
        | Some id =>
            let seq := uint64 (cseq c + 1) in
            Returned (inr (HRequest seq (Method msg)),
                      mkCodec seq (<[seq := Some id]> (cpending c)) (Params msg) (clientResponse_Result c))
        end
      else
        match Id msg with
        | None => Halted (GoPanic "nil pointer dereference")
        | Some id =>
            match decode_uint64 id with
            | None => Returned (inl err_decode, c)
            | Some seq =>
                let c := mkCodec (cseq c) (cpending c) (serverRequest_Params c) (Result msg) in
                match Error msg, Result msg with
                | JNull, Some _ => Returned (inr (HResponse seq ""), c)
                | JStr x, _ =>
                    let x := if String.eqb x "" then "unspecified error" else x in
                    Returned (inr (HResponse seq x), c)
                | _, _ => Returned (inl (errors_New "invalid error %v"), c)
                end
            end
        end
  end.

Definition errMissingParams : error := errors_New "jsonrpc: request body missing params".

(** ReadRequestBody into a slice of values. *)
Definition ReadRequestBody (c : jsonCodec) : error + list gval :=
  match serverRequest_Params c with
  | None => inl errMissingParams
  | Some (JArr l) => inr (map unmarshal_any l)
  | Some _ => inl err_decode
  end.

(** ReadResponseBody: the document given to the decoder of the reply. *)
Definition ReadResponseBody (c : jsonCodec) : outcome json :=
  match clientResponse_Result c with
  | Some j => Returned j
  | None => Halted (GoPanic "nil pointer dereference")
  end.

(** The document WriteRequest encodes. Number 0 is a notification. *)
Definition WriteRequest (Seq : Z) (method : string) (params : list json) : json :=
  JObj [("method", JStr method); ("params", JArr params);
        ("id", if Seq =? 0 then JNull else JNum (pretty Seq))].

Definition err_seq : error := errors_New "invalid sequence number in response".

Definition response_doc (id : option json) (err : string) (x : json) : json :=
  JObj [("id", default JNull id);
        ("result", if String.eqb err "" then x else JNull);
        ("error", if String.eqb err "" then JNull else JStr err)].

(** WriteResponse: the document it encodes, or its error; the id is forgotten. *)
Definition WriteResponse (c : jsonCodec) (Seq : Z) (err : string) (x : json)
    : (error + json) * jsonCodec :=
  match cpending c !! Seq with
  | None => (inl err_seq, c)
  | Some b =>
      (inr (response_doc b err x),
       mkCodec (cseq c) (delete Seq (cpending c)) (serverRequest_Params c) (clientResponse_Result c))
  end.

(** * The read loop and the handlers *)

(** A connection: the codec, the handlers that are running (number, method, arguments),
    the responses given to the encoder with the number of their request, the responses to
    this side's calls that were read, and the error that ended the loop. [arrived] is the
    history of the numbered requests and their ids. *)
Record Conn : Type := mkConn {
  codec : jsonCodec;
  running : list (Z * string * list gval);
  written : list (Z * json);
  replies : list (Z * rpc_reply);
  ended : option error;
  arrived : list (Z * json)
}.

Definition NewConn : Conn := mkConn NewJSONCodec [] [] [] None [].

Definition set_codec (c : jsonCodec) (s : Conn) : Conn :=
  mkConn c (running s) (written s) (replies s) (ended s) (arrived s).
Definition end_with (e : option error) (s : Conn) : Conn :=
  mkConn (codec s) (running s) (written s) (replies s) e (arrived s).
Definition log_response (r : Z * json) (s : Conn) : Conn :=
  mkConn (codec s) (running s) (written s ++ [r]) (replies s) (ended s) (arrived s).

Section loop.
(** The methods that have a handler. *)
Context (handled : string -> bool).

(** readRequest; [io] is what the encoder would answer. *)
Definition readRequest (seq : Z) (method : string) (io : option error) (s : Conn) : Conn :=
  if negb (handled method) then
    match WriteResponse (codec s) seq ("rpc2: can't find method " +:+ method) JNull with
    | (inl e, c) => end_with (Some e) (set_codec c s)
    | (inr doc, c) => end_with io (log_response (seq, doc) (set_codec c s))
    end
  else
    match ReadRequestBody (codec s) with
    | inl e => end_with (Some e) s
    | inr args =>
        mkConn (codec s) (running s ++ [(seq, method, args)]) (written s) (replies s) None (arrived s)
    end.

(** readResponse: the reply goes to the call with its number (see Rpc2); the loop goes on
    whatever the body is. *)
Definition readResponse (seq : Z) (err : string) (s : Conn) : outcome Conn :=
  let deliver r := mkConn (codec s) (running s) (written s) (replies s ++ [(seq, r)]) None (arrived s) in
  if String.eqb err "" then
    let? body := ReadResponseBody (codec s) in
    Returned (deliver (RpcResult body))
  else Returned (deliver (RpcError (errors_New err))).

(** One round of the read loop. *)
Definition read_message (doc : json) (io : option error) (s : Conn) : outcome Conn :=
  let? (r, c) := ReadHeader (codec s) doc in
  match r with
  | inl e => Returned (end_with (Some e) (set_codec c s))
  | inr (HRequest seq method) =>
      let s1 := mkConn c (running s) (written s) (replies s) None
                       (arrived s ++ (if seq =? 0 then [] else
                                        match cpending c !! seq with
                                        | Some (Some id) => [(seq, id)]
                                        | _ => []
                                        end)) in
      Returned (readRequest seq method io s1)
  | inr (HResponse seq err) => readResponse seq err (set_codec c s)
  end.

(** The end of a handler's goroutine: nothing for a notification, a response otherwise; the
    result of the encoder is dropped. *)
Definition handler_done (i : nat) (err : string) (x : json) (s : Conn) : option Conn :=
  '(seq, method, args) ← running s !! i;
  let s := mkConn (codec s) (delete i (running s)) (written s) (replies s) (ended s) (arrived s) in
  if seq =? 0 then Some s
  else match WriteResponse (codec s) seq err x with
       | (inl _, c) => Some (set_codec c s)
       | (inr doc, c) => Some (log_response (seq, doc) (set_codec c s))
       end.

Inductive event : Type :=
| Arrive (doc : json) (io : option error)
| Done (i : nat) (err : string) (x : json).

(** Messages are read while the loop runs; a crash of the loop ends the process. *)
Definition conn_step (s : Conn) (e : event) : option Conn :=
  match e with
  | Arrive doc io =>
      match ended s with
      | Some _ => None
      | None => match read_message doc io s with
                | Returned s' => Some s'
                | Halted _ => None
                end
      end
  | Done i err x => handler_done i err x s
  end.

Inductive conn_reachable : list event -> Conn -> Prop :=
| conn_new : conn_reachable [] NewConn
| conn_next evs e s s' :
    conn_reachable evs s -> conn_step s e = Some s' -> conn_reachable (evs ++ [e]) s'.

Fixpoint conn_steps (s : Conn) (evs : list event) : option Conn :=
  match evs with
  | [] => Some s
  | e :: evs' => s' ← conn_step s e; conn_steps s' evs'
  end.

End loop.

(** * The invariant of a connection *)

(** The numbers of the running handlers that owe a response. *)
Definition owed (l : list (Z * string * list gval)) : list Z :=
  List.filter (fun k => negb (k =? 0)) (map (fun r => r.1.1) l).

#[local] Arguments owed : simpl never.

Record conn_inv (n : Z) (s : Conn) : Prop := mkConnInv {
  ci_seq : 0 <= cseq (codec s) <= n;
  ci_arrived k : k ∈ (arrived s).*1 -> 1 <= k <= cseq (codec s);
  ci_arrived_nodup : NoDup (arrived s).*1;
  ci_pending k b : cpending (codec s) !! k = Some b ->
    (exists id, b = Some id /\ (k, id) ∈ arrived s) /\ k ∉ (written s).*1;
  ci_written k doc : (k, doc) ∈ written s ->
    exists id err x, (k, id) ∈ arrived s /\ doc = response_doc (Some id) err x;
  ci_written_nodup : NoDup (written s).*1;
  ci_owed k : k ∈ owed (running s) -> is_Some (cpending (codec s) !! k);
  ci_owed_nodup : NoDup (owed (running s));
  ci_cover k id : (k, id) ∈ arrived s ->
    k ∈ (written s).*1 \/ k ∈ owed (running s) \/ ended s <> None
}.

Lemma conn_inv_new : conn_inv 0 NewConn.
Proof.
  split; cbn; [lia|by intros k ?%not_elem_of_nil|constructor| | |constructor| |constructor|].
  - intros k b. by rewrite lookup_empty.
  - by intros k doc ?%not_elem_of_nil.
  - by intros k ?%not_elem_of_nil.
  - by intros k id ?%not_elem_of_nil.
Qed.

Lemma owed_app l1 l2 : owed (l1 ++ l2) = owed l1 ++ owed l2.
Proof. unfold owed. by rewrite map_app, List.filter_app. Qed.

Lemma elem_of_owed k l : k ∈ owed l <-> k <> 0 /\ exists m a, (k, m, a) ∈ l.
Proof.
  unfold owed. rewrite list_elem_of_In, filter_In, negb_true_iff, Z.eqb_neq, in_map_iff. split.
  - intros [([[k' m] a] & <- & Hin) Hne]. split; [done|]. exists m, a. by apply list_elem_of_In.
  - intros [Hne (m & a & Hin)]. split; [|done]. exists (k, m, a). split; [done|]. by apply list_elem_of_In.
Qed.

Lemma owed_perm l l' : l ≡ₚ l' -> owed l ≡ₚ owed l'.
Proof.
  intros H. unfold owed. induction H as [|x l l' _ IH|x y l|l1 l2 l3 _ IH1 _ IH2]; cbn; [done| | |].
  - destruct (negb (x.1.1 =? 0)); [by constructor|done].
  - destruct (negb (x.1.1 =? 0)), (negb (y.1.1 =? 0)); try done. apply Permutation_swap.
  - by etransitivity.
Qed.

(** A response is given to the encoder, for a request that waits for one. *)
Lemma conn_inv_respond n s k b err x c doc rest e :
  conn_inv n s -> cpending (codec s) !! k = Some b ->
  WriteResponse (codec s) k err x = (inr doc, c) ->
  (forall k', k' ∈ owed rest -> k' ∈ owed (running s) /\ k' <> k) -> NoDup (owed rest) ->
  (forall k', k' ∈ owed (running s) -> k' = k \/ k' ∈ owed rest) ->
  (ended s <> None -> e <> None) ->
  conn_inv n (mkConn c rest (written s ++ [(k, doc)]) (replies s) e (arrived s)).
Proof.
  intros [H1 H2 H3 H4 H5 H6 H7 H8 H9] Hk Hw Hrest Hnd Hback He.
  unfold WriteResponse in Hw. rewrite Hk in Hw. injection Hw as <- <-.
  destruct (H4 _ _ Hk) as [(id & -> & Hid) Hnw].
  split; cbn; try done.
  - intros k' b'. rewrite lookup_delete_Some. intros [Hne Hp]. destruct (H4 _ _ Hp) as [? Hn].
    split; [done|]. rewrite fmap_app, elem_of_app. cbn.
    intros [?| ->%list_elem_of_singleton]; [done|done].
  - intros k' doc'. rewrite elem_of_app. intros [?|[= -> ->]%list_elem_of_singleton]; [eauto|].
    by exists id, err, x.
  - rewrite fmap_app. apply NoDup_app. split; [done|]. split; [|apply NoDup_singleton].
    cbn. intros k' Hk' ->%list_elem_of_singleton. done.
  - intros k' [Ho Hne]%Hrest. rewrite lookup_delete_ne by done. by apply H7.
  - intros k' id' Ha. rewrite fmap_app, elem_of_app. cbn. rewrite list_elem_of_singleton.
    destruct (H9 _ _ Ha) as [?|[Ho|?]]; [by left; left| |by right; right; auto].
    destruct (Hback _ Ho) as [->|?]; [by left; right|by right; left].
Qed.

Lemma conn_inv_mono n n' s : n <= n' -> conn_inv n s -> conn_inv n' s.
Proof. intros Hn [H1 H2 H3 H4 H5 H6 H7 H8 H9]. split; try done. lia. Qed.

(** The end of a handler. *)
Lemma conn_inv_done n i err x s s' :
  conn_inv n s -> handler_done i err x s = Some s' -> conn_inv n s'.
Proof.
  intros Hi. unfold handler_done. destruct (running s !! i) as [[[k m] a]|] eqn:Er; [|done].
  cbn [mbind option_bind].
  pose proof (owed_perm _ _ (delete_Permutation _ _ _ Er)) as Hp.
  destruct (Z.eqb_spec k 0) as [->|Hk].
  - intros [= <-]. destruct Hi as [H1 H2 H3 H4 H5 H6 H7 H8 H9].
    assert (Hp' : owed (running s) ≡ₚ owed (delete i (running s))) by exact Hp.
    split; cbn; try done.
    + intros k'. rewrite <- Hp'. apply H7.
    + by rewrite <- Hp'.
    + intros k' id Ha. rewrite <- Hp'. by eapply H9.
  - assert (Hp' : owed (running s) ≡ₚ k :: owed (delete i (running s))).
    { rewrite Hp. unfold owed at 1. cbn. apply Z.eqb_neq in Hk. by rewrite Hk. }
    destruct (ci_owed _ _ Hi k) as [b Hb]; [rewrite Hp'; left|].
    destruct (WriteResponse (codec s) k err x) as [[e|doc] c] eqn:Ew; cbn [codec].
    { unfold WriteResponse in Ew. by rewrite Hb in Ew. }
    rewrite Ew. intros [= <-].
    pose proof (ci_owed_nodup _ _ Hi) as Hnd. rewrite Hp' in Hnd. apply NoDup_cons in Hnd as [Hnk Hnd].
    unfold log_response, set_codec. cbn [running written replies ended arrived].
    apply (conn_inv_respond n s k b err x c doc _ (ended s)); try done.
    + intros k' Hin. rewrite Hp'. split; [by right|]. by intros ->.
    + intros k'. rewrite Hp'. by intros [->|?]%elem_of_cons; auto.
Qed.

(** Steps that leave numbers, ids and handlers alone. *)
Lemma conn_inv_same n s c rs e :
  conn_inv n s -> cseq c = cseq (codec s) -> cpending c = cpending (codec s) ->
  (ended s <> None -> e <> None) ->
  conn_inv n (mkConn c (running s) (written s) rs e (arrived s)).
Proof.
  intros [H1 H2 H3 H4 H5 H6 H7 H8 H9] Hs Hp He.
  split; cbn; rewrite ?Hs, ?Hp; try done.
  intros k id Ha. destruct (H9 _ _ Ha) as [?|[?|?]]; auto.
Qed.

(** A request with an id: its handler starts, or the loop ends. *)
Lemma conn_inv_arrive n s c id new e :
  conn_inv n s -> n < 2 ^ 64 - 1 -> ended s = None ->
  cseq c = cseq (codec s) + 1 -> cpending c = <[cseq (codec s) + 1 := Some id]> (cpending (codec s)) ->
  owed new = [cseq (codec s) + 1] \/ (owed new = [] /\ e <> None) ->
  conn_inv (n + 1) (mkConn c (running s ++ new) (written s) (replies s) e
                           (arrived s ++ [(cseq (codec s) + 1, id)])).
Proof.
  intros [H1 H2 H3 H4 H5 H6 H7 H8 H9] Hn Hend Hs Hp Hnew.
  set (k := cseq (codec s) + 1) in *.
  assert (Hka : k ∉ (arrived s).*1) by (intros ?%H2; lia).
  assert (Hkw : k ∉ (written s).*1).
  { intros ([k' doc] & Hk & Hin)%list_elem_of_fmap. cbn in Hk. subst k'.
    destruct (H5 _ _ Hin) as (id' & _ & _ & Ha & _). apply Hka. apply list_elem_of_fmap. by exists (k, id'). }
  assert (Hko : k ∉ owed (running s)).
  { intros [b Hb]%H7. destruct (H4 _ _ Hb) as [(id' & _ & Ha) _]. apply Hka, list_elem_of_fmap.
    by exists (k, id'). }
  split; cbn; rewrite ?Hs, ?Hp.
  - lia.
  - intros k'. rewrite fmap_app, elem_of_app. cbn. rewrite list_elem_of_singleton.
    intros [?%H2| ->]; lia.
  - rewrite fmap_app. apply NoDup_app. split; [done|]. split; [|apply NoDup_singleton].
    cbn. intros x Hx ->%list_elem_of_singleton. done.
  - intros k' b. rewrite lookup_insert_Some. intros [[<- <-]|[Hne Hb]].
    + split; [|done]. exists id. split; [done|]. apply elem_of_app. right. by apply list_elem_of_singleton.
    + destruct (H4 _ _ Hb) as [(id' & -> & Ha) Hw]. split; [|done]. exists id'. split; [done|].
      apply elem_of_app. by left.
  - intros k' doc (id' & err & x & Ha & ->)%H5. exists id', err, x. split; [|done].
    apply elem_of_app. by left.
  - done.
  - intros k'. rewrite owed_app, elem_of_app. intros [Ho|Ho].
    + rewrite lookup_insert_ne; [by apply H7|]. by intros <-.
    + destruct Hnew as [Hnew|[Hnew _]]; rewrite Hnew in Ho; [|by apply not_elem_of_nil in Ho].
      apply list_elem_of_singleton in Ho as ->. rewrite lookup_insert_eq. by eexists.
  - rewrite owed_app. apply NoDup_app. split; [done|]. destruct Hnew as [-> |[-> _]].
    + split; [|apply NoDup_singleton]. intros x Hx ->%list_elem_of_singleton. done.
    + split; [by intros x _ ?%not_elem_of_nil|constructor].
  - intros k' id' [Ha|[= -> ->]%list_elem_of_singleton]%elem_of_app; rewrite owed_app, elem_of_app.
    + destruct (H9 _ _ Ha) as [?|[?|?]]; [by left|by right; left; left|done].
    + destruct Hnew as [->|[_ ?]]; [|by right; right]. right; left; right. by apply list_elem_of_singleton.
Qed.

(** A notification. *)
Lemma conn_inv_notification n s c new e :
  conn_inv n s -> cseq c = cseq (codec s) -> cpending c = cpending (codec s) -> owed new = [] ->
  (ended s <> None -> e <> None) ->
  conn_inv n (mkConn c (running s ++ new) (written s) (replies s) e (arrived s ++ [])).
Proof.
  intros [H1 H2 H3 H4 H5 H6 H7 H8 H9] Hs Hp Hnew He. rewrite app_nil_r.
  split; cbn; rewrite ?Hs, ?Hp, ?owed_app, ?Hnew, ?app_nil_r; try done.
  intros k id Ha. destruct (H9 _ _ Ha) as [?|[?|?]]; auto.
Qed.

Lemma conn_inv_request handled n s id m p r io :
  conn_inv n s -> n < 2 ^ 64 - 1 -> ended s = None ->
  let k := cseq (codec s) + 1 in
  conn_inv (n + 1)
    (readRequest handled k m io
       (mkConn (mkCodec k (<[k := Some id]> (cpending (codec s))) p r) (running s) (written s) (replies s)
               None (arrived s ++ [(k, id)]))).
Proof.
  intros Hi Hn Hend k. unfold readRequest. cbn [codec]. set (c := mkCodec k _ _ _).
  assert (Hk0 : (k =? 0) = false) by (apply Z.eqb_neq; pose proof (ci_seq _ _ Hi); lia).
  destruct (handled m); cbn [negb].
  - unfold ReadRequestBody. cbn [serverRequest_Params c].
    assert (Hfail : forall e, conn_inv (n + 1) (mkConn c (running s) (written s) (replies s) (Some e)
                                (arrived s ++ [(k, id)]))).
    { intros e. rewrite <- (app_nil_r (running s)). apply (conn_inv_arrive n s); try done. by right. }
    destruct p as [[| | | |l|]|]; cbn; try apply Hfail.
    apply (conn_inv_arrive n s); try done. left. unfold owed. cbn. by rewrite Hk0.
  - destruct (WriteResponse c k _ JNull) as [[e|doc'] c'] eqn:Ew; cbn.
    { unfold WriteResponse in Ew. cbn [cpending c] in Ew. by rewrite lookup_insert_eq in Ew. }
    assert (Hi2 : conn_inv (n + 1) (mkConn c (running s ++ [(k, m, [])]) (written s) (replies s)
                    None (arrived s ++ [(k, id)]))).
    { apply (conn_inv_arrive n s); try done. left. unfold owed. cbn. by rewrite Hk0. }
    assert (Ho : owed (running s ++ [(k, m, [])]) = owed (running s) ++ [k]).
    { rewrite owed_app. unfold owed at 2. cbn. by rewrite Hk0. }
    pose proof (ci_owed_nodup _ _ Hi2) as Hnd. cbn in Hnd. rewrite Ho in Hnd.
    apply NoDup_app in Hnd as (Hnd & Hdis & _).
    eapply (conn_inv_respond (n + 1) _ k (Some id) _ JNull c' doc' (running s) io Hi2).
    + cbn. by rewrite lookup_insert_eq.
    + exact Ew.
    + cbn [running]. intros k' Hk'. rewrite Ho. split; [apply elem_of_app; by left|].
      intros ->. apply (Hdis _ Hk'). by apply list_elem_of_singleton.
    + exact Hnd.
    + cbn [running]. intros k'. rewrite Ho, elem_of_app, list_elem_of_singleton. intros [?| ->]; auto.
    + done.
Qed.

Lemma pending_zero n s : conn_inv n s -> cpending (codec s) !! 0 = None.
Proof.
  intros Hi. destruct (cpending (codec s) !! 0) as [b|] eqn:E; [|done].
  destruct (ci_pending _ _ Hi _ _ E) as [(id & _ & Ha) _].
  assert (1 <= 0); [|lia]. eapply ci_arrived; [exact Hi|]. apply list_elem_of_fmap. by exists (0, id).
Qed.

Lemma conn_inv_notify handled n s m p r io :
  conn_inv n s -> ended s = None ->
  conn_inv n
    (readRequest handled 0 m io
       (mkConn (mkCodec (cseq (codec s)) (cpending (codec s)) p r) (running s) (written s) (replies s)
               None (arrived s ++ []))).
Proof.
  intros Hi Hend. unfold readRequest. cbn [codec]. destruct (handled m); cbn [negb].
  - unfold ReadRequestBody. cbn [serverRequest_Params].
    destruct p as [[| | | |l|]|]; cbn;
      first [ by apply (conn_inv_notification n s)
            | rewrite <- (app_nil_r (running s)); by apply (conn_inv_notification n s) ].
  - unfold WriteResponse. cbn [cpending]. rewrite (pending_zero n s Hi). cbn.
    rewrite <- (app_nil_r (running s)). by apply (conn_inv_notification n s).
Qed.

Lemma conn_inv_arrive_doc handled n doc io s s' :
  conn_inv n s -> n < 2 ^ 64 - 1 -> ended s = None ->
  read_message handled doc io s = Returned s' -> conn_inv (n + 1) s'.
Proof.
  intros Hi Hn Hend. unfold read_message, ReadHeader.
  destruct (decode_message doc) as [msg|].
  2:{ intros [= <-]. apply (conn_inv_mono n); [lia|]. by apply (conn_inv_same n s). }
  destruct (negb (String.eqb (Method msg) "")).
  - destruct (Id msg) as [id|]; cbn [obind].
    + assert (Hu : uint64 (cseq (codec s) + 1) = cseq (codec s) + 1).
      { unfold uint64. apply Z.mod_small. pose proof (ci_seq _ _ Hi). lia. }
      cbn [cseq cpending]. rewrite Hu.
      assert (Hk0 : (cseq (codec s) + 1 =? 0) = false) by (apply Z.eqb_neq; pose proof (ci_seq _ _ Hi); lia).
      rewrite Hk0, lookup_insert_eq. intros [= <-]. by apply conn_inv_request.
    + intros [= <-]. apply (conn_inv_mono n); [lia|]. by apply conn_inv_notify.
  - destruct (Id msg) as [id|]; [|done]. destruct (decode_uint64 id) as [q|]; cbn [obind].
    2:{ intros [= <-]. apply (conn_inv_mono n); [lia|]. by apply (conn_inv_same n s). }
    intros H. eapply (conn_inv_mono n); [lia|]. revert H.
    destruct (Error msg) as [| | |x| |], (Result msg) as [r|]; cbn [obind];
      unfold readResponse, ReadResponseBody; cbn [set_codec codec clientResponse_Result];
      repeat match goal with |- context [if ?b then _ else _] => destruct b end; cbn [obind];
      first [ discriminate | injection 1 as <-; by apply (conn_inv_same n s) ].
Qed.

Definition arrivals (evs : list event) : Z :=
  Z.of_nat (length (List.filter (fun e => match e with Arrive _ _ => true | Done _ _ _ => false end) evs)).

Lemma arrivals_snoc evs e :
  arrivals (evs ++ [e]) = arrivals evs + match e with Arrive _ _ => 1 | Done _ _ _ => 0 end.
Proof. unfold arrivals. rewrite List.filter_app, length_app. destruct e; cbn; lia. Qed.

Lemma conn_reachable_inv handled evs s :
  conn_reachable handled evs s -> arrivals evs < 2 ^ 64 - 1 -> conn_inv (arrivals evs) s.
Proof.
  induction 1 as [|evs e s s' Hr IH Hs]; intros Hb; [apply conn_inv_new|].
  rewrite arrivals_snoc in Hb |- *. destruct e as [doc io|i err x]; cbn [conn_step] in Hs.
  - destruct (ended s) eqn:Ee; [done|].
    destruct (read_message handled doc io s) as [s1|] eqn:Em; [|done]. injection Hs as <-.
    eapply conn_inv_arrive_doc; [apply IH; lia|lia|done|done].
  - rewrite Z.add_0_r. eapply conn_inv_done; [apply IH; lia|done].
Qed.

Lemma conn_steps_reachable handled evs0 s evs s' :
  conn_reachable handled evs0 s -> conn_steps handled s evs = Some s' ->
  conn_reachable handled (evs0 ++ evs) s'.
Proof.
  revert evs0 s. induction evs as [|e evs IH]; intros evs0 s Hr; cbn.
  - intros [= <-]. by rewrite app_nil_r.
  - destruct (conn_step handled s e) as [s1|] eqn:E; [|done]. cbn. intros Hs.
    replace (evs0 ++ e :: evs) with ((evs0 ++ [e]) ++ evs) by (by rewrite <- app_assoc).
    apply (IH _ s1); [|done]. by econstructor.
Qed.

(** * What the other side gets *)

(** C11: However the handlers of incoming requests interleave with the read loop, as long as
    fewer than 2^64 - 1 messages have arrived: no request is answered twice; every response
    carries exactly the id the request arrived with; and a request is answered, or its handler
    still runs, or the loop has ended with an error. *)
Theorem requests_answered_once handled evs s :
  conn_reachable handled evs s -> arrivals evs < 2 ^ 64 - 1 ->
  NoDup (written s).*1 /\
  (forall k doc, (k, doc) ∈ written s ->
     exists id err x, (k, id) ∈ arrived s /\ doc = response_doc (Some id) err x) /\
  (forall k id, (k, id) ∈ arrived s ->
     k ∈ (written s).*1 \/ (exists m a, (k, m, a) ∈ running s) \/ ended s <> None).
Proof.
  intros Hr Hb. pose proof (conn_reachable_inv handled evs s Hr Hb) as Hi.
  split; [apply (ci_written_nodup _ _ Hi)|]. split; [apply (ci_written _ _ Hi)|].
  intros k id Ha. destruct (ci_cover _ _ Hi _ _ Ha) as [?|[Ho|?]]; auto.
  apply elem_of_owed in Ho as [_ ?]. auto.
Qed.

Definition ovsdb_handled (m : string) : bool := String.eqb m "echo" || String.eqb m "update".

(** Two echo requests, answered in the opposite order, and one for an unknown method. *)
Definition sample_events : list event :=
  [Arrive (JObj [("method", JStr "echo"); ("params", JArr [JStr "a"]); ("id", JStr "x")]) None;
   Arrive (JObj [("method", JStr "echo"); ("params", JArr []); ("id", JNum "7")]) None;
   Done 1 "" (JArr []);
   Arrive (JObj [("method", JStr "steal"); ("id", JNum "8")]) None;
   Done 0 "" (JArr [JStr "a"])].

Lemma requests_answered_once_witness :
  exists s, conn_steps ovsdb_handled NewConn sample_events = Some s /\
    (written s).*1 = [2; 3; 1] /\ NoDup (written s).*1.
Proof.
  eexists. split; [by vm_compute|]. split; [done|].
  apply (requests_answered_once ovsdb_handled ([] ++ sample_events)).
  - eapply conn_steps_reachable; [constructor|]. by vm_compute.
  - by vm_compute.
Defined.

(** * Which messages the loop survives *)










(** * A call over the wire *)

Lemma decode_uint64_pretty q : 0 < q < 2 ^ 64 -> decode_uint64 (JNum (pretty q)) = Some q.
Proof.
  intros Hq. destruct q as [|p|p]; [lia| |lia].
  pose proof (digits_pretty (Z.pos p) ltac:(lia)) as Hd.
  unfold decode_uint64. destruct (pretty (Z.pos p)) eqn:Ep; [done|].
  rewrite Hd. cbn [mbind option_bind]. destruct (Z.ltb_spec (Z.pos p) (2 ^ 64)); [done|lia].
Qed.

Lemma decode_request q m l :
  m <> "" ->
  decode_message (WriteRequest q m l)
  = Some (mkMsg m (Some (JArr l)) (if q =? 0 then None else Some (JNum (pretty q))) None JNull).
Proof. intros Hm. unfold WriteRequest. destruct (q =? 0); reflexivity. Qed.

Lemma read_response_doc c q err x :
  0 < q < 2 ^ 64 ->
  exists c', ReadHeader c (response_doc (Some (JNum (pretty q))) err x)
  = Returned (if negb (String.eqb err "") then inr (HResponse q err)
              else match x with JNull => inl (errors_New "invalid error %v") | _ => inr (HResponse q "") end, c')
  /\ (err = "" -> x <> JNull -> ReadResponseBody c' = Returned x).
Proof.
  intros Hq. unfold ReadHeader, response_doc. cbn [default].
  destruct (String.eqb_spec err "") as [->|Hne]; cbn [negb].
  - replace (decode_message _) with
      (Some (mkMsg "" None (Some (JNum (pretty q))) (match x with JNull => None | _ => Some x end) JNull))
      by (by destruct x).
    cbn [Method Id Error Result String.eqb negb]. rewrite decode_uint64_pretty by done.
    destruct x; eexists; split; try done.
  - replace (decode_message _) with (Some (mkMsg "" None (Some (JNum (pretty q))) None (JStr err))) by done.
    cbn [Method Id Error Result String.eqb negb]. rewrite decode_uint64_pretty by done.
    apply String.eqb_neq in Hne. rewrite Hne. eexists. split; [done|]. intros ->. done.
Qed.

(** C38: A call goes over the wire and back: the request a caller writes with number q is read
    by the other side as the same method and arguments; when its handler ends, the response
    that is written is read by the caller as the answer to call q, with the handler's result
    or with its error; only a result of null is not delivered but taken for a protocol error. *)
Theorem call_roundtrip handled n s c q m l err x io :
  conn_inv n s -> n < 2 ^ 64 - 1 -> ended s = None ->
  0 < q < 2 ^ 64 -> m <> "" -> handled m = true ->
  exists s1 k s2 doc c',
    read_message handled (WriteRequest q m l) io s = Returned s1
    /\ running s1 = running s ++ [(k, m, map unmarshal_any l)] /\ ended s1 = None
    /\ handler_done (length (running s)) err x s1 = Some s2
    /\ written s2 = written s ++ [(k, doc)]
    /\ ReadHeader c doc
       = Returned (if negb (String.eqb err "") then inr (HResponse q err)
                   else match x with JNull => inl (errors_New "invalid error %v") | _ => inr (HResponse q "") end, c')
    /\ (err = "" -> x <> JNull -> ReadResponseBody c' = Returned x).
Proof.
  intros Hi Hn He Hq Hm Hh. pose proof (ci_seq _ _ Hi) as Hs.
  destruct (read_response_doc c q err x Hq) as (c' & Hc & Hbody).
  set (k := cseq (codec s) + 1).
  assert (Hu : uint64 (cseq (codec s) + 1) = k) by (unfold uint64; apply Z.mod_small; lia).
  assert (Hq0 : (q =? 0) = false) by (apply Z.eqb_neq; lia).
  assert (Hk0 : (k =? 0) = false) by (apply Z.eqb_neq; lia).
  unfold read_message, ReadHeader at 1. rewrite decode_request, Hq0 by done.
  cbn [Method Id Params]. rewrite (proj2 (String.eqb_neq m "") Hm). cbn [negb obind cseq cpending].
  rewrite Hu, Hk0, lookup_insert_eq. unfold readRequest. rewrite Hh.
  cbn [negb codec ReadRequestBody serverRequest_Params]. unfold ReadRequestBody. cbn [serverRequest_Params].
  eexists _, k, _, _, c'. split; [reflexivity|]. cbn [running ended]. split; [done|]. split; [done|].
  split.
  { unfold handler_done. cbn [running]. rewrite list_lookup_middle by done. cbn [mbind option_bind].
    rewrite Hk0. unfold WriteResponse. cbn [codec cpending]. rewrite lookup_insert_eq. reflexivity. }
  cbn [log_response set_codec written]. split; [reflexivity|]. by split.
Qed.

Lemma call_roundtrip_witness :
  exists s1 k s2 doc c',
    read_message ovsdb_handled (WriteRequest 5 "echo" [JStr "a"]) None NewConn = Returned s1
    /\ running s1 = [(k, "echo", [VString "a"])] /\ ended s1 = None
    /\ handler_done 0 "" (JArr [JStr "a"]) s1 = Some s2
    /\ written s2 = [(k, doc)]
    /\ ReadHeader NewJSONCodec doc = Returned (inr (HResponse 5 ""), c')
    /\ ReadResponseBody c' = Returned (JArr [JStr "a"]).
Proof.
  destruct (call_roundtrip ovsdb_handled 0 NewConn NewJSONCodec 5 "echo" [JStr "a"] "" (JArr [JStr "a"]) None
              conn_inv_new ltac:(lia) eq_refl ltac:(lia) ltac:(discriminate) eq_refl)
    as (s1 & k & s2 & doc & c' & H1 & H2 & H3 & H4 & H5 & H6 & H7).
  exists s1, k, s2, doc, c'. repeat (split; [assumption|]). apply H7; [reflexivity|discriminate].
Defined.
