(* ===== verification/UserDb.v ===== *)
(** opencontainers/runc/libcontainer/user (Godeps/.../user: user.go, lookup.go,
    lookup_unix.go): the files /etc/passwd and /etc/group, looking users and groups up
    in them, and the parsing of user specifications.

    A reader is nil or has a content. What bufio.Scanner makes of a content is the list
    of its lines up to the first one that does not fit the scanner's buffer of 64 KiB;
    the error that stops it there is not looked at after the loop. strings.TrimSpace is
    exact for lines that begin and end with ASCII characters. *)

From S2P Require Import Prelude OvsNotation OvsTypes World.

Local Open Scope go_scope.
Local Open Scope Z_scope.

(** * Library functions *)

(** strconv.Atoi: the value and whether there is no error. Out of range, the value is the
    nearest one of the type. *)
Definition Atoi (s : string) : Z * bool :=
  let '(neg, body) := match s with
                      | String "-"%char s' => (true, s')
                      | String "+"%char s' => (false, s')
                      | _ => (false, s)
                      end in
  match body with
  | EmptyString => (0, false)
  | _ =>
      match digits 0 body with
      | None => (0, false)
      | Some n =>
          if neg then if 2 ^ 63 <? n then (- 2 ^ 63, false) else (- n, true)
          else if 2 ^ 63 <=? n then (2 ^ 63 - 1, false) else (n, true)
      end
  end.

Definition Itoa (z : Z) : string := pretty z.

Definition is_space (a : ascii) : bool :=
  let n := N_of_ascii a in ((9 <=? n) && (n <=? 13) || (n =? 32))%N.

Fixpoint trim_left (s : string) : string :=
  match s with
  | String a s' => if is_space a then trim_left s' else s
  | EmptyString => EmptyString
  end.

Fixpoint trim_right (s : string) : string :=
  match s with
  | String a s' =>
      match trim_right s' with
      | EmptyString => if is_space a then EmptyString else String a EmptyString
      | t => String a t
      end
  | EmptyString => EmptyString
  end.

Definition TrimSpace (s : string) : string := trim_right (trim_left s).

Definition newline : ascii := ascii_of_N 10.
Definition return_ : ascii := ascii_of_N 13.

Fixpoint dropCR (s : string) : string :=
  match s with
  | EmptyString => EmptyString
  | String a EmptyString => if Ascii.eqb a return_ then EmptyString else s
  | String a s' => String a (dropCR s')
  end.

Definition MaxScanTokenSize : Z := 65536.

(** The lines a scanner yields: nothing after a last newline, nothing from a line that is
    too long on. *)
Fixpoint scan_parts (parts : list string) : list string :=
  match parts with
  | [] => []
  | [p] => if String.eqb p "" || (MaxScanTokenSize <=? Z.of_nat (String.length p)) then [] else [dropCR p]
  | p :: ps => if MaxScanTokenSize <=? Z.of_nat (String.length p) then [] else dropCR p :: scan_parts ps
  end.

Definition scan_lines (content : string) : list string := scan_parts (Split newline content).

(** * user.go *)

Definition minId : Z := 0.
Definition maxId : Z := 2 ^ 31 - 1.
Definition ErrRange : error :=
  Errorf "Uids and gids must be in range %d-%d" [pretty minId; pretty maxId].

Record User : Type := mkUser {
  u_Name : string; u_Pass : string; u_Uid : Z; u_Gid : Z; u_Gecos : string; u_Home : string;
  u_Shell : string }.

Record Group : Type := mkGroup { g_Name : string; g_Pass : string; g_Gid : Z; g_List : list string }.

(** The places parseLine writes to. *)
Inductive cell : Type :=
| CStr (s : string)
| CInt (z : Z)
| CList (l : list string).

Definition set_cell (c : cell) (p : string) : cell :=
  match c with
  | CStr _ => CStr p
  | CInt _ => CInt (Atoi p).1
  | CList _ => CList (if String.eqb p "" then [] else Split ","%char p)
  end.

Fixpoint fill (parts : list string) (v : list cell) : list cell :=
  match parts, v with
  | p :: ps, c :: cs => set_cell c p :: fill ps cs
  | _, _ => v
  end.

Definition parseLine (line : string) (v : list cell) : list cell :=
  if String.eqb line "" then v else fill (Split ":"%char line) v.

Definition parse_user (text : string) : User :=
  match parseLine text [CStr ""; CStr ""; CInt 0; CInt 0; CStr ""; CStr ""; CStr ""] with
  | [CStr n; CStr p; CInt u; CInt g; CStr e; CStr h; CStr sh] => mkUser n p u g e h sh
  | _ => mkUser "" "" 0 0 "" "" ""
  end.

Definition parse_group (text : string) : Group :=
  match parseLine text [CStr ""; CStr ""; CInt 0; CList []] with
  | [CStr n; CStr p; CInt g; CList l] => mkGroup n p g l
  | _ => mkGroup "" "" 0 []
  end.

(** A reader: nil, or its content. *)
Definition reader : Type := option string.

Definition nonempty (s : string) : bool := negb (String.eqb s "").

Definition ParsePasswdFilter (r : reader) (filter : User -> bool) : error + list User :=
  match r with
  | None => inl (errors_New "nil source for passwd-formatted data")
  | Some content =>
      inr (List.filter filter (map parse_user (List.filter nonempty (map TrimSpace (scan_lines content)))))
  end.

Definition ParsePasswd (r : reader) : error + list User := ParsePasswdFilter r (fun _ => true).

Definition ParseGroupFilter (r : reader) (filter : Group -> bool) : error + list Group :=
  match r with
  | None => inl (errors_New "nil source for group-formatted data")
  | Some content =>
      inr (List.filter filter (map parse_group (List.filter nonempty (scan_lines content))))
  end.

Definition ParseGroup (r : reader) : error + list Group := ParseGroupFilter r (fun _ => true).

(** os.Open and reading. *)
Definition ParsePasswdFileFilter (path : string) (filter : User -> bool) : prog (error + list User) :=
  let! f := call (EReadFile path) in
  match f with
  | inl err => Ret (inl err)
  | inr content => Ret (ParsePasswdFilter (Some content) filter)
  end.
Definition ParsePasswdFile (path : string) : prog (error + list User) :=
  ParsePasswdFileFilter path (fun _ => true).

Definition ParseGroupFileFilter (path : string) (filter : Group -> bool) : prog (error + list Group) :=
  let! f := call (EReadFile path) in
  match f with
  | inl err => Ret (inl err)
  | inr content => Ret (ParseGroupFilter (Some content) filter)
  end.
Definition ParseGroupFile (path : string) : prog (error + list Group) :=
  ParseGroupFileFilter path (fun _ => true).

Record ExecUser : Type := mkExec { e_Uid : Z; e_Gid : Z; e_Sgids : list Z; e_Home : string }.

(** A numeric argument that was not found: the number, when it is one and in range. *)
Definition numeric_id (arg : string) (notfound : error) : error + Z :=
  let '(n, ok) := Atoi arg in
  if negb ok then inl notfound
  else if (n <? minId) || (maxId <? n) then inl ErrRange
  else inr n.

Definition match_user (userArg : string) (uid : Z) (u : User) : bool :=
  if String.eqb userArg "" then u_Uid u =? uid
  else String.eqb (u_Name u) userArg || String.eqb (Itoa (u_Uid u)) userArg.

Definition match_group (groupArg name : string) (g : Group) : bool :=
  if negb (String.eqb groupArg "") then String.eqb (g_Name g) groupArg || String.eqb (Itoa (g_Gid g)) groupArg
  else existsb (String.eqb name) (g_List g).

(** The first part: the user, and the name of its entry. *)
Definition exec_user (userArg : string) (user : ExecUser) (users : list User)
    : error + (ExecUser * string) :=
  match users with
  | u :: _ => inr (mkExec (u_Uid u) (u_Gid u) (e_Sgids user) (u_Home u), u_Name u)
  | [] =>
      if String.eqb userArg "" then inr (user, EmptyString)
      else match numeric_id userArg (Errorf "Unable to find user %v" [userArg]) with
           | inl e => inl e
           | inr n => inr (mkExec n (e_Gid user) (e_Sgids user) (e_Home user), EmptyString)
           end
  end.

(** The second part: the group, or the supplementary groups. *)
Definition exec_group (groupArg : string) (user : ExecUser) (groups : list Group) : error + ExecUser :=
  if negb (String.eqb groupArg "") then
    match groups with
    | g :: _ => inr (mkExec (e_Uid user) (g_Gid g) (e_Sgids user) (e_Home user))
    | [] =>
        match numeric_id groupArg (Errorf "Unable to find group %v" [groupArg]) with
        | inl e => inl e
        | inr n => inr (mkExec (e_Uid user) n (e_Sgids user) (e_Home user))
        end
    end
  else match groups with
       | [] => inr user
       | _ => inr (mkExec (e_Uid user) (e_Gid user) (map g_Gid groups) (e_Home user))
       end.

(** A reader that is nil has no entries and its error is ignored. *)
Definition entries {A} (r : error + list A) : list A := match r with inr l => l | inl _ => [] end.

Definition GetExecUser (userSpec : string) (defaults : option ExecUser) (passwd group : reader)
    : error + ExecUser :=
  let user := default (mkExec 0 0 [] "") defaults in
  let '(userArg, groupArg) := match parseLine userSpec [CStr ""; CStr ""] with
                              | [CStr u; CStr g] => (u, g)
                              | _ => (EmptyString, EmptyString)
                              end in
  match exec_user userArg user (entries (ParsePasswdFilter passwd (match_user userArg (e_Uid user)))) with
  | inl e => inl e
  | inr (user, name) =>
      if nonempty groupArg || nonempty name then
        exec_group groupArg user (entries (ParseGroupFilter group (match_group groupArg name)))
      else inr user
  end.

(** Files that cannot be opened are passed on as nil pointers, which are readers without
    content. *)
Definition GetExecUserPath (userSpec : string) (defaults : option ExecUser) (passwdPath groupPath : string)
    : prog (error + ExecUser) :=
  let content (r : error + string) : reader := Some (match r with inr c => c | inl _ => EmptyString end) in
  let! passwd := call (EReadFile passwdPath) in
  let! group := call (EReadFile groupPath) in
  Ret (GetExecUser userSpec defaults (content passwd) (content group)).

Definition group_is (ag : string) (g : Group) : bool :=
  String.eqb (g_Name g) ag || String.eqb (Itoa (g_Gid g)) ag.

(** The loop over the groups asked for; the keys of gidMap, newest first. *)
Fixpoint additional (groups : list Group) (ags : list string) (gidMap : list Z) : error + list Z :=
  match ags with
  | [] => inr gidMap
  | ag :: ags' =>
      match List.find (fun g => group_is ag g && negb (existsb (Z.eqb (g_Gid g)) gidMap)) groups with
      | Some g => additional groups ags' (g_Gid g :: gidMap)
      | None =>
          match numeric_id ag (Errorf "Unable to find group %s" [ag]) with
          | inl e => inl e
          | inr n => additional groups ags' (if existsb (Z.eqb n) gidMap then gidMap else n :: gidMap)
          end
      end
  end.

(** The result is in the order in which the map is visited. *)
Definition GetAdditionalGroups (ags : list string) (group : reader) : error + list Z :=
  let groups := match group with
                | None => []
                | Some _ => entries (ParseGroupFilter group (fun g => existsb (fun ag => group_is ag g) ags))
                end in
  additional groups ags [].

Definition GetAdditionalGroupsPath (ags : list string) (groupPath : string) : prog (error + list Z) :=
  let! group := call (EReadFile groupPath) in
  Ret (GetAdditionalGroups ags (Some (match group with inr c => c | inl _ => EmptyString end))).

(** * lookup.go *)

Definition unixPasswdPath : string := "/etc/passwd".
Definition unixGroupPath : string := "/etc/group".

(** The first entry that matches. *)
Definition first_entry {A} (r : error + list A) (none : error) : error + A :=
  match r with
  | inl e => inl e
  | inr [] => inl none
  | inr (x :: _) => inr x
  end.

Definition lookupUser (filter : User -> bool) : prog (error + User) :=
  let! users := ParsePasswdFileFilter unixPasswdPath filter in
  Ret (first_entry users (errors_New "no matching entries in passwd file")).

Definition LookupUser (username : string) : prog (error + User) :=
  lookupUser (fun u => String.eqb (u_Name u) username).
Definition LookupUid (uid : Z) : prog (error + User) := lookupUser (fun u => u_Uid u =? uid).
(** [Getuid] is the argument. *)
Definition CurrentUser (getuid : Z) : prog (error + User) := LookupUid getuid.

Definition lookupGroup (filter : Group -> bool) : prog (error + Group) :=
  let! groups := ParseGroupFileFilter unixGroupPath filter in
  Ret (first_entry groups (errors_New "no matching entries in group file")).

Definition LookupGroup (groupname : string) : prog (error + Group) :=
  lookupGroup (fun g => String.eqb (g_Name g) groupname).
Definition LookupGid (gid : Z) : prog (error + Group) := lookupGroup (fun g => g_Gid g =? gid).
Definition CurrentGroup (getgid : Z) : prog (error + Group) := LookupGid getgid.

(** * Group files, written and read *)

Definition colon : ascii := ":"%char.
Definition comma : ascii := ","%char.

Definition render_group (g : Group) : string :=
  Join colon [g_Name g; g_Pass g; pretty (g_Gid g); Join comma (g_List g)].

Fixpoint render_groups (gs : list Group) : string :=
  match gs with
  | [] => EmptyString
  | g :: gs' => render_group g +:+ String newline (render_groups gs')
  end.

(** A field without the separators of the file. *)
Definition plain (s : string) : Prop :=
  occurs colon s = 0%nat /\ occurs newline s = 0%nat /\ occurs return_ s = 0%nat.

(** An entry that can be written to a group file. *)
Definition wf_group (g : Group) : Prop :=
  plain (g_Name g) /\ plain (g_Pass g) /\ 0 <= g_Gid g < 2 ^ 63
  /\ Forall (fun u => plain u /\ occurs comma u = 0%nat) (g_List g) /\ g_List g <> [EmptyString]
  /\ Z.of_nat (String.length (render_group g)) < MaxScanTokenSize.

Lemma occurs_Join c sep l :
  c <> sep -> occurs c (Join sep l) = fold_right (fun s n => (occurs c s + n)%nat) 0%nat l.
Proof.
  intros Hne. induction l as [|p [|q l] IH]; [done| |].
  - cbn. lia.
  - cbn [fold_right] in *. change (Join sep (p :: q :: l)) with (p +:+ String sep (Join sep (q :: l))).
    rewrite occurs_app. cbn [occurs].
    destruct (Ascii.eqb_spec sep c); [congruence|]. rewrite IH. lia.
Qed.

Lemma plain_list c l :
  c <> comma -> Forall (fun u => occurs c u = 0%nat) l -> occurs c (Join comma l) = 0%nat.
Proof.
  intros Hne Hl. rewrite occurs_Join by done. induction Hl as [|u l Hu _ IH]; [done|]. cbn. lia.
Qed.

(** A separator other than the colon does not occur in an entry. *)
Lemma occurs_render_group c g :
  wf_group g -> c = newline \/ c = return_ -> occurs c (render_group g) = 0%nat.
Proof.
  intros ((H1 & H2 & H3) & (H4 & H5 & H6) & H7 & H8 & _ & _) Hc.
  assert (Hd : occurs c (pretty (g_Gid g)) = 0%nat)
    by (apply occurs_pretty; [lia|destruct Hc as [->| ->]; reflexivity]).
  assert (Hl : occurs c (Join comma (g_List g)) = 0%nat).
  { apply plain_list; [by destruct Hc as [->| ->]|]. eapply Forall_impl; [exact H8|].
    intros u [(_ & Hn & Hr) _]. by destruct Hc as [->| ->]. }
  unfold render_group. rewrite occurs_Join by (by destruct Hc as [->| ->]). cbn [fold_right].
  destruct Hc as [->| ->]; lia.
Qed.

Lemma dropCR_plain s : occurs return_ s = 0%nat -> dropCR s = s.
Proof.
  induction s as [|a s IH]; [done|]. cbn [occurs]. intros H.
  destruct (Ascii.eqb a return_) eqn:Ea; [cbn in H; lia|].
  destruct s as [|b s]; cbn [dropCR]; [by rewrite Ea|]. f_equal. apply IH. exact H.
Qed.

Lemma render_group_nonempty g : nonempty (render_group g) = true.
Proof. unfold render_group. cbn. by destruct (g_Name g). Qed.

Lemma Atoi_pretty z : 0 <= z < 2 ^ 63 -> Atoi (pretty z) = (z, true).
Proof.
  intros Hz. pose proof (digits_pretty z ltac:(lia)) as Hd. unfold Atoi.
  assert (Hend : match pretty z with
                 | EmptyString => (0, false)
                 | _ => match digits 0 (pretty z) with
                        | None => (0, false)
                        | Some n => if 2 ^ 63 <=? n then (2 ^ 63 - 1, false) else (n, true)
                        end
                 end = (z, true)).
  { destruct (pretty z) eqn:Ep.
    - assert (0 = z) by (by injection Hd). subst z. by vm_compute in Ep.
    - rewrite Hd. destruct (Z.leb_spec (2 ^ 63) z); [lia|done]. }
  destruct (pretty z) as [|a s] eqn:Ep; [done|].
  destruct (ascii_dec a "-"%char) as [->|Hm]; [by vm_compute in Hd|].
  destruct (ascii_dec a "+"%char) as [->|Hp]; [by vm_compute in Hd|].
  destruct a as [[] [] [] [] [] [] [] []]; done.
Qed.

Lemma parse_render_group g : wf_group g -> parse_group (render_group g) = g.
Proof.
  intros ((H1 & _ & _) & (H4 & _ & _) & H7 & H8 & H9 & _). unfold parse_group, parseLine.
  pose proof (render_group_nonempty g) as Hne. unfold nonempty in Hne.
  apply negb_true_iff in Hne. rewrite Hne.
  assert (Hd : occurs colon (pretty (g_Gid g)) = 0%nat) by (apply occurs_pretty; [lia|reflexivity]).
  assert (Hl : occurs colon (Join comma (g_List g)) = 0%nat).
  { apply plain_list; [done|]. eapply Forall_impl; [exact H8|]. by intros u [(Hc & _) _]. }
  unfold render_group. cbn [Join]. change ":"%char with colon.
  rewrite !Split_app by done. rewrite (Split_no_sep colon (Join comma (g_List g))) by done.
  cbn [fill set_cell]. rewrite Atoi_pretty by done. cbn [fst].
  destruct g as [n p gid l]. cbn [g_Name g_Pass g_Gid g_List] in *. f_equal. clear - H8 H9.
  assert (Hs : l <> [] -> Split ","%char (Join comma l) = l).
  { clear H9. induction H8 as [|u l [_ Hu] Hl IH]; [done|]. intros _. destruct l as [|v l].
    - by apply Split_no_sep.
    - change (Join comma (u :: v :: l)) with (u +:+ String comma (Join comma (v :: l))).
      change ","%char with comma. rewrite Split_app by done. f_equal. by apply IH. }
  destruct (String.eqb_spec (Join comma l) "") as [He|He].
  - destruct l as [|u [|v l]]; [done| |].
    + cbn in He. by subst.
    + exfalso. change (u +:+ String comma (Join comma (v :: l)) = "") in He. by destruct u.
  - apply Hs. by intros ->.
Qed.

Lemma scan_parts_cons p ps :
  ps <> [] -> Z.of_nat (String.length p) < MaxScanTokenSize -> scan_parts (p :: ps) = dropCR p :: scan_parts ps.
Proof.
  intros Hps Hl. destruct ps as [|q ps]; [done|]. cbn [scan_parts].
  destruct (Z.leb_spec MaxScanTokenSize (Z.of_nat (String.length p))); [lia|done].
Qed.

Lemma scan_render_groups gs :
  Forall wf_group gs -> scan_lines (render_groups gs) = map render_group gs.
Proof.
  unfold scan_lines. induction 1 as [|g gs Hg _ IH]; [done|]. cbn [render_groups map].
  rewrite Split_app by (apply occurs_render_group; auto).
  rewrite scan_parts_cons, dropCR_plain, IH; [done| | |].
  - apply occurs_render_group; auto.
  - apply Split_not_nil.
  - apply Hg.
Qed.

Lemma ParseGroupFilter_render gs f :
  Forall wf_group gs -> ParseGroupFilter (Some (render_groups gs)) f = inr (List.filter f gs).
Proof.
  intros Hg. unfold ParseGroupFilter. rewrite scan_render_groups by done. do 2 f_equal.
  induction Hg as [|g gs Hg _ IH]; [done|]. cbn [map List.filter]. rewrite render_group_nonempty.
  cbn [map]. by rewrite IH, parse_render_group.
Qed.

(** A group file is read back as the entries it was written from: for entries whose
    fields do not contain the separators, ParseGroup of the file gives the same entries in
    the same order, and a filtered parse gives those that satisfy the filter. *)
Theorem group_file_roundtrip gs filter :
  Forall wf_group gs ->
  ParseGroup (Some (render_groups gs)) = inr gs
  /\ ParseGroupFilter (Some (render_groups gs)) filter = inr (List.filter filter gs).
Proof.
  intros Hg. split; [|by apply ParseGroupFilter_render].
  unfold ParseGroup. rewrite ParseGroupFilter_render by done. f_equal.
  clear Hg. induction gs as [|g gs IH]; [done|]. cbn. by rewrite IH.
Qed.

Definition sample_groups : list Group :=
  [mkGroup "root" "x" 0 []; mkGroup "adm" "x" 4 ["root"; "daemon"]; mkGroup "docker" "" 998 ["ops"]].

Lemma sample_groups_wf : Forall wf_group sample_groups.
Proof.
  repeat constructor; vm_compute; try done; try (by intros [=]); try lia.
Qed.

Lemma group_file_roundtrip_witness :
  ParseGroup (Some (render_groups sample_groups)) = inr sample_groups.
Proof. apply (group_file_roundtrip sample_groups (fun _ => true)), sample_groups_wf. Defined.

(** * Supplementary groups *)

Lemma existsb_eqb_false n l : existsb (Z.eqb n) l = false -> n ∉ l.
Proof.
  intros H Hin. assert (existsb (Z.eqb n) l = true); [|congruence].
  apply existsb_exists. exists n. by rewrite <- list_elem_of_In, Z.eqb_refl.
Qed.

(** What a resulting id comes from: an entry that one of the arguments names, or an argument
    that is itself a number in range. *)
Definition asked_for (groups : list Group) (ags : list string) (n : Z) : Prop :=
  exists ag, ag ∈ ags /\
    ((exists g, g ∈ groups /\ group_is ag g = true /\ g_Gid g = n)
     \/ (Atoi ag = (n, true) /\ minId <= n <= maxId)).

Lemma numeric_id_inr ag e n : numeric_id ag e = inr n -> Atoi ag = (n, true) /\ minId <= n <= maxId.
Proof.
  unfold numeric_id. destruct (Atoi ag) as [m []]; cbn [negb]; [|done].
  destruct (Z.ltb_spec m minId), (Z.ltb_spec maxId m); cbn [orb]; try done.
  intros [= ->]. split; [done|lia].
Qed.

Lemma additional_sound groups ags acc res :
  additional groups ags acc = inr res -> NoDup acc ->
  NoDup res /\ forall n, n ∈ res -> n ∈ acc \/ asked_for groups ags n.
Proof.
  revert acc. induction ags as [|ag ags IH]; intros acc; cbn [additional].
  { intros [= ->] Hnd. split; [done|]. by left. }
  assert (Hweak : forall n, asked_for groups ags n -> asked_for groups (ag :: ags) n).
  { intros n (a & Ha & Hn). exists a. split; [by right|done]. }
  destruct (List.find _ groups) as [g|] eqn:Ef.
  - apply List.find_some in Ef as [Hin Hg]. apply andb_true_iff in Hg as [Hg Hnew].
    apply negb_true_iff, existsb_eqb_false in Hnew. intros Hrec Hnd.
    apply IH in Hrec as [Hnd' Hres]; [|by constructor]. split; [done|].
    intros n [[->|?]%elem_of_cons|?]%Hres; [|by left|by right; apply Hweak].
    right. exists ag. split; [by left|]. left. exists g. by rewrite list_elem_of_In.
  - destruct (numeric_id ag _) as [e|m] eqn:En; [done|]. intros Hrec Hnd.
    apply numeric_id_inr in En.
    destruct (existsb (Z.eqb m) acc) eqn:Ex; apply IH in Hrec as [Hnd' Hres]; try done.
    + split; [done|]. intros n [?|?]%Hres; [by left|by right; apply Hweak].
    + split; [done|]. intros n [[->|?]%elem_of_cons|?]%Hres; [|by left|by right; apply Hweak].
      right. exists ag. split; [by left|by right].
    + constructor; [by apply existsb_eqb_false|done].
Qed.

(** The ids GetAdditionalGroups returns are distinct, and each of them is the id of a
    group in the file that one of the arguments names (by name or by id), or an argument that
    is a number between 0 and 2^31 - 1. *)
Theorem additional_groups_sound ags gs res :
  Forall wf_group gs ->
  GetAdditionalGroups ags (Some (render_groups gs)) = inr res ->
  NoDup res /\ forall n, n ∈ res -> asked_for gs ags n.
Proof.
  intros Hg. unfold GetAdditionalGroups. rewrite ParseGroupFilter_render by done. cbn [entries].
  intros H. destruct (additional_sound _ _ _ _ H (NoDup_nil_2)) as [Hnd Hres]. split; [done|].
  intros n Hn. destruct (Hres n Hn) as [?%not_elem_of_nil|(ag & Ha & Hw)]; [done|].
  exists ag. split; [done|]. destruct Hw as [(g & Hin & Hrest)|?]; [left|by right].
  exists g. split; [|done]. rewrite list_elem_of_In, filter_In in Hin. rewrite list_elem_of_In. apply Hin.
Qed.

Lemma additional_groups_sound_witness :
  GetAdditionalGroups ["adm"; "4"; "77"] (Some (render_groups sample_groups)) = inr [77; 4]
  /\ NoDup [77; 4].
Proof.
  assert (H : GetAdditionalGroups ["adm"; "4"; "77"] (Some (render_groups sample_groups)) = inr [77; 4])
    by (vm_compute; reflexivity).
  split; [exact H|]. apply (additional_groups_sound _ _ _ sample_groups_wf H).
Defined.

Lemma find_none_same_gid ag groups g :
  (forall g', g' ∈ groups -> group_is ag g' = true -> g_Gid g' = g_Gid g) ->
  List.find (fun g' => group_is ag g' && negb (existsb (Z.eqb (g_Gid g')) [g_Gid g])) groups = None.
Proof.
  intros Hsame. destruct (List.find _ groups) as [g'|] eqn:Ef; [|done]. exfalso.
  apply List.find_some in Ef as [Hin Hb]. apply andb_true_iff in Hb as [Hg Hn].
  rewrite (Hsame g'), <- list_elem_of_In in *; try done.
  - cbn in Hn. by rewrite Z.eqb_refl in Hn.
  - by apply list_elem_of_In.
Qed.

(** A group that is named twice is reported as not found: whenever all entries with the
    name have one id, asking for the name two times fails with "Unable to find group", although
    asking for it once succeeds, because the second search skips the ids it has already. *)
Theorem additional_groups_twice ag gs g :
  Forall wf_group gs -> g ∈ gs -> group_is ag g = true -> (Atoi ag).2 = false ->
  (forall g', g' ∈ gs -> group_is ag g' = true -> g_Gid g' = g_Gid g) ->
  GetAdditionalGroups [ag] (Some (render_groups gs)) = inr [g_Gid g]
  /\ GetAdditionalGroups [ag; ag] (Some (render_groups gs)) = inl (Errorf "Unable to find group %s" [ag]).
Proof.
  intros Hw Hin Hg Ha Hsame. unfold GetAdditionalGroups. rewrite !ParseGroupFilter_render by done.
  cbn [entries].
  assert (Hfind : forall f, (forall g', g' ∈ gs -> group_is ag g' = true -> f g' = true) ->
    exists g', List.find (fun g' => group_is ag g' && negb (existsb (Z.eqb (g_Gid g')) [])) (List.filter f gs)
               = Some g' /\ g_Gid g' = g_Gid g).
  { intros f Hf. destruct (List.find _ (List.filter f gs)) as [g'|] eqn:Ef.
    - exists g'. split; [done|]. apply List.find_some in Ef as [Hin' Hb].
      apply filter_In in Hin' as [Hin' _]. apply andb_true_iff in Hb as [Hb _].
      apply Hsame; [by apply list_elem_of_In|done].
    - exfalso. pose proof (List.find_none _ _ Ef g) as Hn. cbn in Hn. rewrite Hg in Hn.
      assert (true && true = false); [|done]. apply Hn. apply filter_In.
      split; [by apply list_elem_of_In|by apply Hf]. }
  split.
  - destruct (Hfind (fun g' => existsb (fun a => group_is a g') [ag])) as (g' & Hf & Hid).
    { intros g' _ Hg'. cbn. by rewrite Hg'. }
    cbn [additional]. rewrite Hf. by rewrite Hid.
  - destruct (Hfind (fun g' => existsb (fun a => group_is a g') [ag; ag])) as (g' & Hf & Hid).
    { intros g'' _ Hg'. cbn. by rewrite Hg'. }
    cbn [additional]. rewrite Hf, Hid. rewrite find_none_same_gid.
    + unfold numeric_id. destruct (Atoi ag) as [m []]; [done|done].
    + intros g'' Hin'. apply Hsame. rewrite list_elem_of_In, filter_In in Hin'.
      apply list_elem_of_In, Hin'.
Qed.

Lemma additional_groups_twice_witness :
  GetAdditionalGroups ["adm"] (Some (render_groups sample_groups)) = inr [4]
  /\ GetAdditionalGroups ["adm"; "adm"] (Some (render_groups sample_groups))
     = inl (Errorf "Unable to find group %s" ["adm"]).
Proof.
  apply (additional_groups_twice "adm" sample_groups (mkGroup "adm" "x" 4 ["root"; "daemon"])).
  - apply sample_groups_wf.
  - right. left.
  - reflexivity.
  - reflexivity.
  - intros g' Hin. unfold sample_groups in Hin.
    repeat (apply elem_of_cons in Hin as [->|Hin]; [vm_compute; intros H; try discriminate H; reflexivity|]).
    by apply not_elem_of_nil in Hin.
Defined.
