(* ===== verification/IptablesChain.v ===== *)
(** Chains of libnetwork's iptables package (Godeps/.../docker/libnetwork/iptables/iptables.go):
    creating, programming and removing a chain, and the rules that publish a port or link two
    containers, over [Raw] of Iptables. The second half states what iptables(8) documents of
    the binary ([Netfilter], laws on a host with a view of its rules) and proves that
    ProgramChain refines an update of the lists of rules. *)

From S2P Require Import Prelude OvsNotation OvsTypes World NetIP UserDb Iptables Samples.

Local Open Scope go_scope.

(** * Data *)

Definition Append : string := "-A".
Definition Delete : string := "-D".
Definition Insert : string := "-I".
Definition Nat : string := "nat".
Definition Filter : string := "filter".
Definition Mangle : string := "mangle".

Record ChainInfo : Type := mkChain { ci_Name : string; ci_Table : string; ci_HairpinMode : bool }.

Definition ChainError_Error (chain output : string) : error :=
  Errorf "Error iptables %s: %s" [chain; output].

(** net.JoinHostPort: brackets around a host with a colon or a percent sign. *)
Definition JoinHostPort (host port : string) : string :=
  if (0 <? occurs ":"%char host) || (0 <? occurs "%"%char host)
  then "[" +:+ host +:+ "]:" +:+ port
  else host +:+ ":" +:+ port.

(** IP.IsUnspecified: 0.0.0.0, in four bytes or mapped, or ::. *)
Definition IsUnspecified (ip : list Z) : bool :=
  match To4 ip with
  | Some p => forallb (Z.eqb 0) p
  | None => Nat.eqb (length ip) 16 && forallb (Z.eqb 0) ip
  end.

(** The idiom of the package: an error of the command, or any output of it, is an error. *)
Definition raw_quiet (args : list string) (complain : string -> error) : prog (option error) :=
  let! (output, err) := Raw args in
  match err with
  | Some e => Ret (Some e)
  | None => if String.eqb output "" then Ret None else Ret (Some (complain output))
  end.

(** * Operations *)

Definition or_filter (table : string) : string := if String.eqb table "" then Filter else table.

Definition NewChain (name table : string) (hairpinMode : bool) : prog (error + ChainInfo) :=
  let c := mkChain name (or_filter table) hairpinMode in
  let! (_, err) := Raw ["-t"; ci_Table c; "-n"; "-L"; ci_Name c] in
  match err with
  | None => Ret (inr c)
  | Some _ =>
      let! err := raw_quiet ["-t"; ci_Table c; "-N"; ci_Name c]
                    (fun output => Errorf "Could not create %s/%s chain: %s"
                                          [ci_Table c; ci_Name c; output]) in
      match err with
      | Some e => Ret (inl e)
      | None => Ret (inr c)
      end
  end.

Definition Exists (table chain : string) (rule : list string) : prog bool :=
  let table := or_filter table in
  let! (_, err) := Raw (["-t"; table; "-C"; chain] ++ rule) in
  match err with
  | None => Ret true
  | Some _ =>
      let ruleString := String.concat " " rule in
      let! path := gets iptablesPath in
      let! (existingRules, _) := call (EOutput [path; "-t"; table; "-S"; chain]) in
      Ret (Contains existingRules ruleString)
  end.

Definition Prerouting (c : ChainInfo) (action : string) (args : list string) : prog (option error) :=
  raw_quiet (["-t"; Nat; action; "PREROUTING"] ++ args) (ChainError_Error "PREROUTING").

Definition Output (c : ChainInfo) (action : string) (args : list string) : prog (option error) :=
  raw_quiet (["-t"; ci_Table c; action; "OUTPUT"] ++ args) (ChainError_Error "OUTPUT").

(** [if !Exists(...) && enable { add } else if Exists(...) && !enable { del }]: the rule is
    looked up a second time when the first condition fails. *)
Definition toggle (table chain : string) (rule : list string) (enable : bool)
    (add del : prog (option error)) : prog (option error) :=
  let! there := Exists table chain rule in
  if negb there && enable then add
  else
    let! there := Exists table chain rule in
    if (there : bool) && negb enable then del else Ret None.

Definition wrap (format : string) (p : prog (option error)) : prog (option error) :=
  let! err := p in
  match err with
  | Some e => Ret (Some (Errorf format (err_format e :: err_args e)))
  | None => Ret None
  end.

Definition preroute_rule (c : ChainInfo) : list string :=
  ["-m"; "addrtype"; "--dst-type"; "LOCAL"; "-j"; ci_Name c].
Definition output_rule (c : ChainInfo) (hairpinMode : bool) : list string :=
  preroute_rule c ++ (if hairpinMode then [] else ["!"; "--dst"; "127.0.0.0/8"]).
Definition link_rule (c : ChainInfo) (bridgeName : string) : list string :=
  ["-o"; bridgeName; "-j"; ci_Name c].

Definition ProgramChain (c : ChainInfo) (bridgeName : string) (hairpinMode enable : bool)
    : prog (option error) :=
  if String.eqb (ci_Name c) "" then
    Ret (Some (errors_New "Could not program chain, missing chain name."))
  else if String.eqb (ci_Table c) Nat then
    let preroute := preroute_rule c in
    let! err := toggle Nat "PREROUTING" preroute enable
      (wrap "Failed to inject docker in PREROUTING chain: %s" (Prerouting c Append preroute))
      (wrap "Failed to remove docker in PREROUTING chain: %s" (Prerouting c Delete preroute)) in
    match err with
    | Some e => Ret (Some e)
    | None =>
        let output := output_rule c hairpinMode in
        toggle Nat "OUTPUT" output enable
          (wrap "Failed to inject docker in OUTPUT chain: %s" (Output c Append output))
          (wrap "Failed to inject docker in OUTPUT chain: %s" (Output c Delete output))
    end
  else if String.eqb (ci_Table c) Filter then
    if String.eqb bridgeName "" then
      Ret (Some (Errorf "Could not program chain %s/%s, missing bridge name." [ci_Table c; ci_Name c]))
    else
      let link := link_rule c bridgeName in
      toggle Filter "FORWARD" link enable
        (raw_quiet ([Insert; "FORWARD"] ++ link)
           (fun output => Errorf "Could not create linking rule to %s/%s: %s"
                                 [ci_Table c; ci_Name c; output]))
        (raw_quiet ([Delete; "FORWARD"] ++ link)
           (fun output => Errorf "Could not delete linking rule from %s/%s: %s"
                                 [ci_Table c; ci_Name c; output]))
  else Ret None.

Definition Remove (c : ChainInfo) : prog (option error) :=
  (if String.eqb (ci_Table c) Nat then
     let local := ["-m"; "addrtype"; "--dst-type"; "LOCAL"] in
     Prerouting c Delete (local ++ ["-j"; ci_Name c]) ;;;
     Output c Delete (local ++ ["!"; "--dst"; "127.0.0.0/8"; "-j"; ci_Name c]) ;;;
     Output c Delete (local ++ ["-j"; ci_Name c]) ;;;
     Prerouting c Delete [] ;;;
     Output c Delete []
   else Ret None) ;;;
  Raw ["-t"; ci_Table c; "-F"; ci_Name c] ;;;
  Raw ["-t"; ci_Table c; "-X"; ci_Name c] ;;;
  Ret None.

Definition RemoveExistingChain (name table : string) : prog (option error) :=
  Remove (mkChain name (or_filter table) false).

(** The three commands of Forward. *)
Definition forward_rules (c : ChainInfo) (action : string) (ip : list Z) (port : Z)
    (proto destAddr : string) (destPort : Z) (bridgeName : string) : list (list string) :=
  let daddr := if IsUnspecified ip then "0/0" else IP_String ip in
  [["-t"; Nat; action; ci_Name c; "-p"; proto; "-d"; daddr; "--dport"; Itoa port; "-j"; "DNAT";
    "--to-destination"; JoinHostPort destAddr (Itoa destPort)]
     ++ (if ci_HairpinMode c then [] else ["!"; "-i"; bridgeName]);
   ["-t"; Filter; action; ci_Name c; "!"; "-i"; bridgeName; "-o"; bridgeName; "-p"; proto;
    "-d"; destAddr; "--dport"; Itoa destPort; "-j"; "ACCEPT"];
   ["-t"; Nat; action; "POSTROUTING"; "-p"; proto; "-s"; destAddr; "-d"; destAddr;
    "--dport"; Itoa destPort; "-j"; "MASQUERADE"]].

(** One command after the other, up to the first that fails. *)
Fixpoint raw_all (commands : list (list string)) (complain : string -> error) : prog (option error) :=
  match commands with
  | [] => Ret None
  | args :: rest =>
      let! err := raw_quiet args complain in
      match err with
      | Some e => Ret (Some e)
      | None => raw_all rest complain
      end
  end.

Definition Forward (c : ChainInfo) (action : string) (ip : list Z) (port : Z)
    (proto destAddr : string) (destPort : Z) (bridgeName : string) : prog (option error) :=
  raw_all (forward_rules c action ip port proto destAddr destPort bridgeName)
          (ChainError_Error "FORWARD").

Definition link_rules (c : ChainInfo) (action : string) (ip1 ip2 : list Z) (port : Z)
    (proto bridgeName : string) : list (list string) :=
  let rule src dst flag :=
    ["-t"; Filter; action; ci_Name c; "-i"; bridgeName; "-o"; bridgeName; "-p"; proto;
     "-s"; IP_String src; "-d"; IP_String dst; flag; Itoa port; "-j"; "ACCEPT"] in
  [rule ip1 ip2 "--dport"; rule ip2 ip1 "--sport"].

Definition ChainInfo_Link (c : ChainInfo) (action : string) (ip1 ip2 : list Z) (port : Z)
    (proto bridgeName : string) : prog (option error) :=
  raw_all (link_rules c action ip1 ip2 port proto bridgeName)
          (fun output => Errorf "Error iptables forward: %s" [output]).

(** * What the binary does

    iptables(8): each chain of a table is a list of rules; -C succeeds exactly when the rule
    is in the chain, -A and -I add it at the end and at the front, -D deletes the first match
    and fails without one. A command that fails for another reason (-C aside) changes nothing,
    one that succeeds prints nothing, or that it had to wait for the lock. -S prints the
    rules of a chain. Without -t the table is filter. *)

Definition rule : Type := list string.

Inductive command : Type := CmdCheck | CmdAppend | CmdInsert | CmdDelete.

Definition flag (cmd : command) : string :=
  match cmd with
  | CmdCheck => "-C"
  | CmdAppend => Append
  | CmdInsert => Insert
  | CmdDelete => Delete
  end.

Fixpoint remove_first (r : rule) (l : list rule) : list rule :=
  match l with
  | [] => []
  | r' :: l' => if bool_decide (r' = r) then l' else r' :: remove_first r l'
  end.

Definition effect (cmd : command) (r : rule) (l : list rule) : option (list rule) :=
  match cmd with
  | CmdCheck => if bool_decide (r ∈ l) then Some l else None
  | CmdAppend => Some (l ++ [r])
  | CmdInsert => Some (r :: l)
  | CmdDelete => if bool_decide (r ∈ l) then Some (remove_first r l) else None
  end.

(** The rules of every chain of every table. *)
Definition ruleset : Type := string -> string -> list rule.

Definition set_chain (t c : string) (l : list rule) (T : ruleset) : ruleset :=
  fun t' c' => if String.eqb t t' && String.eqb c c' then l else T t' c'.

Definition targs (table : option string) : list string :=
  match table with
  | Some t => ["-t"; t]
  | None => []
  end.

Definition quiet (output : string) : Prop :=
  output = "" \/ Contains output "waiting for it to exit" = true.

Class Netfilter (W : Type) {H : Host W} : Type := {
  rules : W -> ruleset;
  (** what -S prints of a chain *)
  listing : string -> string -> list rule -> string;
  iptables_law : forall (path : string) (wait : bool) (table : option string) (cmd : command)
      (c : string) (r : rule) (w : W),
    let t := default Filter table in
    let a := answer (ECombinedOutput (iptables_argv path wait (targs table ++ [flag cmd; c] ++ r))) w in
    match a.1.2 with
    | None => exists l, effect cmd r (rules w t c) = Some l
                /\ (forall t' c', rules a.2 t' c' = set_chain t c l (rules w) t' c') /\ quiet a.1.1
    | Some _ => (forall t' c', rules a.2 t' c' = rules w t' c')
                /\ (cmd = CmdCheck -> effect cmd r (rules w t c) = None)
    end;
  listing_law : forall (path t c : string) (w : W),
    let a := answer (EOutput [path; "-t"; t; "-S"; c]) w in
    a.1.1 = listing t c (rules w t c) /\ forall t' c', rules a.2 t' c' = rules w t' c'
}.

(** * Triples on runs *)

Section triples.
Context {W : Type} {H : Host W}.

(** From memory [s] and a host that satisfies [P], the program returns, leaves the memory,
    and its result and the host satisfy [Q]. *)
Definition triple {A} (s : St) (P : W -> Prop) (p : prog A) (Q : A -> W -> Prop) : Prop :=
  forall w tr, P w ->
    exists a, out (run_from p s w tr) = Returned a /\ state (run_from p s w tr) = s
      /\ Q a (world (run_from p s w tr)).

Lemma run_from_bind {A B} (p : prog A) (f : A -> prog B) s w tr :
  run_from (bind p f) s w tr =
  match out (run_from p s w tr) with
  | Returned a => run_from (f a) (state (run_from p s w tr)) (world (run_from p s w tr))
                           (log (run_from p s w tr))
  | Halted h => Final (Halted h) (state (run_from p s w tr)) (world (run_from p s w tr))
                      (log (run_from p s w tr))
  end.
Proof.
  revert s w tr. induction p as [a|h|k IH|g k IH|e k IH]; intros s w tr; cbn; auto.
  destruct (answer e w). apply IH.
Qed.

Lemma triple_ret {A} s (P : W -> Prop) (a : A) (Q : A -> W -> Prop) :
  (forall w, P w -> Q a w) -> triple s P (Ret a) Q.
Proof. intros HQ w tr Hw. exists a. auto. Qed.

Lemma triple_bind {A B} s P (p : prog A) (f : A -> prog B) R Q :
  triple s P p R -> (forall a, triple s (R a) (f a) Q) -> triple s P (bind p f) Q.
Proof.
  intros Hp Hf w tr Hw. rewrite run_from_bind.
  destruct (Hp w tr Hw) as (a & -> & -> & Ha). by apply Hf.
Qed.

Lemma triple_gets {A B} s P (g : St -> A) (f : A -> prog B) Q :
  triple s P (f (g s)) Q -> triple s P (bind (gets g) f) Q.
Proof. intros Hf w tr. apply Hf. Qed.

Lemma triple_call s P e :
  triple s P (call e) (fun r w' => exists w, P w /\ (r, w') = answer e w).
Proof.
  intros w tr Hw. cbn. destruct (answer e w) as [r w'] eqn:E. exists r. split; [done|].
  split; [done|]. by exists w.
Qed.

Lemma triple_pre {A} s (P P' : W -> Prop) (p : prog A) Q :
  (forall w, P' w -> P w) -> triple s P p Q -> triple s P' p Q.
Proof. intros HP Hp w tr Hw. auto. Qed.

Lemma triple_post {A} s (P : W -> Prop) (p : prog A) (Q Q' : A -> W -> Prop) :
  (forall a w, Q a w -> Q' a w) -> triple s P p Q -> triple s P p Q'.
Proof. intros HQ Hp w tr Hw. destruct (Hp w tr Hw) as (a & ? & ? & ?). eauto. Qed.

End triples.

(** * ProgramChain refines an update of the rules *)

Definition switch (front enable : bool) (r : rule) (l : list rule) : list rule :=
  if enable then (if bool_decide (r ∈ l) then l else if front then r :: l else l ++ [r])
  else (if bool_decide (r ∈ l) then remove_first r l else l).

(** What ProgramChain is to make of the rules. *)
Definition programmed (c : ChainInfo) (bridgeName : string) (hairpinMode enable : bool)
    (T : ruleset) : ruleset :=
  let update front t ch r T := set_chain t ch (switch front enable r (T t ch)) T in
  if String.eqb (ci_Name c) "" then T
  else if String.eqb (ci_Table c) Nat then
    update false Nat "OUTPUT" (output_rule c hairpinMode)
      (update false Nat "PREROUTING" (preroute_rule c) T)
  else if String.eqb (ci_Table c) Filter then
    if String.eqb bridgeName "" then T else update true Filter "FORWARD" (link_rule c bridgeName) T
  else T.

Lemma set_chain_eq t c l T : set_chain t c l T t c = l.
Proof. unfold set_chain. by rewrite !String.eqb_refl. Qed.

Lemma set_chain_ne t c l T t' c' : c <> c' -> set_chain t c l T t' c' = T t' c'.
Proof. intros Hc%String.eqb_neq. unfold set_chain. by rewrite Hc, andb_false_r. Qed.

Lemma set_chain_ne_table t c l T t' c' : t <> t' -> set_chain t c l T t' c' = T t' c'.
Proof. intros Hc%String.eqb_neq. unfold set_chain. by rewrite Hc. Qed.

Lemma set_chain_id t c T t' c' : set_chain t c (T t c) T t' c' = T t' c'.
Proof.
  unfold set_chain. destruct (String.eqb_spec t t') as [->|]; [|done].
  by destruct (String.eqb_spec c c') as [->|].
Qed.

Section refinement.
Context {W : Type} {H : Host W} {N : Netfilter W}.

Definition holds (T : ruleset) (w : W) : Prop := forall t c, rules w t c = T t c.

(** A rule that is not in the chain is not found in the text of the chain either. *)
Definition unambiguous (T : ruleset) (t c : string) (r : rule) : Prop :=
  r ∉ T t c -> Contains (listing t c (T t c)) (String.concat " " r) = false.

Context (s : St) (Hfw : firewalldRunning s = false) (Hpath : iptablesPath s <> "").

Lemma triple_Raw table cmd c r T :
  triple s (holds T) (Raw (targs table ++ [flag cmd; c] ++ r))
    (fun res w => match res.2 with
      | None => exists l, effect cmd r (T (default Filter table) c) = Some l
                  /\ holds (set_chain (default Filter table) c l T) w /\ res.1 = ""
      | Some _ => holds T w /\ (cmd = CmdCheck -> effect cmd r (T (default Filter table) c) = None)
      end).
Proof.
  unfold Raw. apply triple_gets. rewrite Hfw. unfold raw_exec, initCheck.
  apply (triple_bind _ _ _ _ (fun err w => err = None /\ holds T w)).
  { apply triple_gets. apply String.eqb_neq in Hpath. rewrite Hpath. by apply triple_ret. }
  intros [e|]; [by intros w tr [? _]|]. apply triple_gets, triple_gets.
  eapply triple_bind; [apply triple_call|]. intros [output err]. cbv beta iota.
  intros w' tr (w & [_ Hw] & Ha).
  pose proof (iptables_law (iptablesPath s) (supportsXlock s) table cmd c r w) as Hl. cbv zeta in Hl.
  unfold iptables_argv in Hl. rewrite <- Ha in Hl. cbn [fst snd] in Hl.
  destruct err as [e|]; cbn; eexists; (split; [done|]); (split; [done|]); cbn [fst snd].
  - destruct Hl as [Hr Hc]. split; [|intros ->; rewrite <- Hw; auto]. intros t' c'. by rewrite Hr.
  - destruct Hl as (l & He & Hr & Hq). exists l. rewrite <- Hw. split; [done|]. split.
    + intros t' c'. rewrite Hr. unfold set_chain. by rewrite Hw.
    + destruct Hq as [->| ->]; [|done]. by destruct (Contains "" _).
Qed.

Lemma triple_Exists t c r T :
  t <> "" -> unambiguous T t c r ->
  triple s (holds T) (Exists t c r) (fun b w => b = bool_decide (r ∈ T t c) /\ holds T w).
Proof.
  intros Ht Hu. unfold Exists, or_filter. apply String.eqb_neq in Ht. rewrite Ht.
  eapply triple_bind; [apply (triple_Raw (Some t) CmdCheck)|]. intros [output [e|]]; cbn [fst snd default].
  - apply triple_gets. eapply triple_bind; [apply triple_call|]. intros [text err]. apply triple_ret.
    intros w' (w & [Hw Hc] & Ha). specialize (Hc eq_refl). cbn in Hc.
    destruct (listing_law (iptablesPath s) t c w) as [Hl1 Hl2]. rewrite <- Ha in Hl1, Hl2. cbn in Hl1, Hl2.
    case_bool_decide as Hin; [done|]. split; [|intros t' c'; by rewrite Hl2].
    rewrite Hl1, Hw. by apply Hu.
  - apply triple_ret. intros w (l & He & Hw & _). cbn in He. case_bool_decide; [|done].
    split; [done|]. simplify_eq. intros t' c'. by rewrite Hw, set_chain_id.
Qed.

Definition changes (T T' : ruleset) (err : option error) (w : W) : Prop :=
  match err with
  | None => holds T' w
  | Some _ => holds T w
  end.

Lemma triple_raw_quiet table cmd c r T complain l :
  effect cmd r (T (default Filter table) c) = Some l ->
  triple s (holds T) (raw_quiet (targs table ++ [flag cmd; c] ++ r) complain)
    (changes T (set_chain (default Filter table) c l T)).
Proof.
  intros Hl. unfold raw_quiet. eapply triple_bind; [apply triple_Raw|].
  intros [output [e|]]; cbn [fst snd].
  - apply triple_ret. by intros w [? _].
  - intros w tr (l' & He & Hw & ->). simplify_eq. exists None. by split_and!.
Qed.

Lemma triple_wrap format p T T' :
  triple s (holds T) p (changes T T') -> triple s (holds T) (wrap format p) (changes T T').
Proof.
  intros Hp. unfold wrap. eapply triple_bind; [exact Hp|].
  by intros [e|]; apply triple_ret.
Qed.

Lemma triple_toggle t c r enable add del front T :
  t <> "" -> unambiguous T t c r ->
  triple s (holds T) add (changes T (set_chain t c (if front : bool then r :: T t c else T t c ++ [r]) T)) ->
  (r ∈ T t c -> triple s (holds T) del (changes T (set_chain t c (remove_first r (T t c)) T))) ->
  triple s (holds T) (toggle t c r enable add del)
    (changes T (set_chain t c (switch front enable r (T t c)) T)).
Proof.
  intros Ht Hu Hadd Hdel. unfold toggle, switch.
  assert (Hid : forall w, holds T w -> holds (set_chain t c (T t c) T) w)
    by (intros w Hw t' c'; by rewrite set_chain_id).
  eapply triple_bind; [by apply triple_Exists|]. intros b.
  intros w tr [-> Hw]. revert w tr Hw.
  case_bool_decide as Hin; destruct enable; cbn [negb andb]; try exact Hadd;
    (eapply triple_bind; [by apply triple_Exists|]); intros b w tr [-> Hw]; revert w tr Hw.
  - rewrite bool_decide_eq_true_2 by done. by apply triple_ret.
  - rewrite bool_decide_eq_true_2 by done. by apply Hdel.
  - rewrite bool_decide_eq_false_2 by done. by apply triple_ret.
Qed.

Lemma triple_nat c hairpin enable T :
  ci_Table c = Nat ->
  unambiguous T Nat "PREROUTING" (preroute_rule c) ->
  unambiguous T Nat "OUTPUT" (output_rule c hairpin) ->
  let T1 := set_chain Nat "PREROUTING" (switch false enable (preroute_rule c) (T Nat "PREROUTING")) T in
  let T2 := set_chain Nat "OUTPUT" (switch false enable (output_rule c hairpin) (T1 Nat "OUTPUT")) T1 in
  triple s (holds T)
    (let! err := toggle Nat "PREROUTING" (preroute_rule c) enable
       (wrap "Failed to inject docker in PREROUTING chain: %s" (Prerouting c Append (preroute_rule c)))
       (wrap "Failed to remove docker in PREROUTING chain: %s" (Prerouting c Delete (preroute_rule c))) in
     match err with
     | Some e => Ret (Some e)
     | None =>
         toggle Nat "OUTPUT" (output_rule c hairpin) enable
           (wrap "Failed to inject docker in OUTPUT chain: %s" (Output c Append (output_rule c hairpin)))
           (wrap "Failed to inject docker in OUTPUT chain: %s" (Output c Delete (output_rule c hairpin)))
     end)
    (fun err w => match err with
                  | None => holds T2 w
                  | Some _ => holds T w \/ holds T1 w
                  end).
Proof.
  intros Ht Hu1 Hu2 T1 T2. unfold Prerouting, Output. rewrite Ht.
  eapply triple_bind.
  - apply (triple_toggle Nat "PREROUTING" _ enable _ _ false T); [done|done| |intros Hin]; apply triple_wrap.
    + by apply (triple_raw_quiet (Some Nat) CmdAppend).
    + apply (triple_raw_quiet (Some Nat) CmdDelete). cbn. by rewrite bool_decide_eq_true_2.
  - intros [e|]; [by apply triple_ret; left|]. cbn [changes].
    eapply triple_post; [|apply (triple_toggle Nat "OUTPUT" _ enable _ _ false T1)].
    + intros [e|] w Hw; [by right|done].
    + done.
    + unfold unambiguous. subst T1. by rewrite !set_chain_ne.
    + apply triple_wrap. by apply (triple_raw_quiet (Some Nat) CmdAppend).
    + intros Hin. apply triple_wrap, (triple_raw_quiet (Some Nat) CmdDelete). cbn.
      by rewrite bool_decide_eq_true_2.
Qed.

(** The rules whose text must not be confused. *)
Definition clear_text (c : ChainInfo) (bridgeName : string) (hairpinMode : bool) (T : ruleset) : Prop :=
  unambiguous T Nat "PREROUTING" (preroute_rule c)
  /\ unambiguous T Nat "OUTPUT" (output_rule c hairpinMode)
  /\ unambiguous T Filter "FORWARD" (link_rule c bridgeName).

Lemma triple_ProgramChain c bridgeName hairpin enable T :
  clear_text c bridgeName hairpin T ->
  triple s (holds T) (ProgramChain c bridgeName hairpin enable)
    (fun err w => match err with
      | None => holds (programmed c bridgeName hairpin enable T) w
      | Some _ => forall t ch, rules w t ch = T t ch
                    \/ rules w t ch = programmed c bridgeName hairpin enable T t ch
      end).
Proof.
  intros (Hu1 & Hu2 & Hu3). unfold ProgramChain, programmed.
  destruct (String.eqb (ci_Name c) ""); [by apply triple_ret; left|].
  destruct (String.eqb_spec (ci_Table c) Nat) as [Ht|_].
  { eapply triple_post; [|by apply triple_nat]. intros [e|] w; [|done].
    intros [Hw|Hw] t ch; rewrite Hw; [by left|].
    destruct (String.eqb_spec "OUTPUT" ch) as [<-|Hne].
    - left. by rewrite set_chain_ne.
    - right. by rewrite (set_chain_ne _ "OUTPUT"). }
  destruct (String.eqb (ci_Table c) Filter); [|by apply triple_ret].
  destruct (String.eqb bridgeName ""); [by apply triple_ret; left|].
  eapply triple_post; [|apply (triple_toggle Filter "FORWARD" _ enable _ _ true T)]; try done.
  - intros [e|] w Hw; [|done]. intros t ch. left. apply Hw.
  - by apply (triple_raw_quiet None CmdInsert).
  - intros Hin. apply (triple_raw_quiet None CmdDelete). cbn. by rewrite bool_decide_eq_true_2.
Qed.

End refinement.

Lemma switch_on_twice front r l : switch front true r (switch front true r l) = switch front true r l.
Proof.
  unfold switch. destruct (decide (r ∈ l)) as [Hin|Hin].
  - by rewrite !(bool_decide_eq_true_2 (r ∈ l)) by done.
  - rewrite !(bool_decide_eq_false_2 (r ∈ l)) by done.
    rewrite bool_decide_eq_true_2; [done|]. destruct front; set_solver.
Qed.

Lemma set_chain_twice t c l l' T t' c' : set_chain t c l (set_chain t c l' T) t' c' = set_chain t c l T t' c'.
Proof. unfold set_chain. by destruct (String.eqb t t' && String.eqb c c'). Qed.

Lemma programmed_twice c bridgeName hairpin T t ch :
  let p := programmed c bridgeName hairpin true in p (p T) t ch = p T t ch.
Proof.
  cbv zeta. unfold programmed.
  destruct (String.eqb (ci_Name c) ""); [done|]. destruct (String.eqb (ci_Table c) Nat).
  - set (o := output_rule c hairpin). set (pr := preroute_rule c).
    destruct (String.eqb_spec Nat t) as [<-|Ht]; [|by rewrite !set_chain_ne_table by done].
    destruct (String.eqb_spec "OUTPUT" ch) as [<-|Ho].
    + rewrite !set_chain_eq, !(set_chain_ne _ "PREROUTING"), set_chain_eq by done.
      apply switch_on_twice.
    + rewrite !(set_chain_ne _ "OUTPUT") by done.
      destruct (String.eqb_spec "PREROUTING" ch) as [<-|Hp]; [|by rewrite !set_chain_ne by done].
      rewrite !set_chain_eq. apply switch_on_twice.
  - destruct (String.eqb (ci_Table c) Filter); [|done]. destruct (String.eqb bridgeName ""); [done|].
    rewrite set_chain_eq, switch_on_twice. apply set_chain_twice.
Qed.

Lemma unambiguous_kept {W} {H : Host W} {N : Netfilter W} (T T' : ruleset) t c r :
  unambiguous T t c r -> T' t c = T t c \/ r ∈ T' t c -> unambiguous T' t c r.
Proof. unfold unambiguous. intros Hu [->|Hin] Hn; [by apply Hu|done]. Qed.

Lemma switch_on_elem front r l : r ∈ switch front true r l.
Proof. unfold switch. case_bool_decide; [done|]. destruct front; set_solver. Qed.

(** Switching a chain on keeps its rules from being confused: they are there. *)
Lemma clear_text_on {W} {H : Host W} {N : Netfilter W} c bridgeName hairpin (T : ruleset) :
  clear_text c bridgeName hairpin T ->
  clear_text c bridgeName hairpin (programmed c bridgeName hairpin true T).
Proof.
  intros (H1 & H2 & H3). unfold programmed.
  destruct (String.eqb (ci_Name c) ""); [done|]. destruct (String.eqb (ci_Table c) Nat).
  - split; [|split].
    + eapply unambiguous_kept; [exact H1|]. right.
      rewrite (set_chain_ne _ "OUTPUT"), set_chain_eq by done. apply switch_on_elem.
    + eapply unambiguous_kept; [exact H2|]. right. rewrite set_chain_eq. apply switch_on_elem.
    + eapply unambiguous_kept; [exact H3|]. left. by rewrite !set_chain_ne_table.
  - destruct (String.eqb (ci_Table c) Filter); [|done]. destruct (String.eqb bridgeName ""); [done|].
    split; [|split].
    + eapply unambiguous_kept; [exact H1|]. left. by rewrite !set_chain_ne_table.
    + eapply unambiguous_kept; [exact H2|]. left. by rewrite !set_chain_ne_table.
    + eapply unambiguous_kept; [exact H3|]. right. rewrite set_chain_eq. apply switch_on_elem.
Qed.

(** C18: on a host that behaves as iptables(8) documents, without firewalld, with the path
    of the binary known, and as long as a rule ProgramChain asks for is found in the
    printed text of its chain only when it is in the chain (not as part of another rule's
    text), ProgramChain brings the lists of rules to the state asked for: a chain that is
    switched on has its rules exactly where they belong, added only if they were missing
    (the jump from FORWARD first, those from PREROUTING and OUTPUT last), one that is
    switched off has lost the first occurrence of each, and every other rule stays. An
    error leaves each list as it was or as asked for. A second run that switches on the
    chain after a successful first changes no rule. *)
Theorem ProgramChain_refines {W} {H : Host W} {N : Netfilter W} c bridgeName hairpin enable s (w : W) :
  firewalldRunning s = false -> iptablesPath s <> "" ->
  clear_text c bridgeName hairpin (rules w) ->
  let f := run (ProgramChain c bridgeName hairpin enable) s w in
  let goal := programmed c bridgeName hairpin enable (rules w) in
  state f = s
  /\ (exists err, out f = Returned err
        /\ (err = None -> forall t ch, rules (world f) t ch = goal t ch)
        /\ forall t ch, rules (world f) t ch = rules w t ch \/ rules (world f) t ch = goal t ch)
  /\ (enable = true -> out f = Returned None ->
        let g := run (ProgramChain c bridgeName hairpin enable) s (world f) in
        state g = s /\ (exists err, out g = Returned err)
        /\ forall t ch, rules (world g) t ch = rules (world f) t ch).
Proof.
  intros Hfw Hp Hc. cbv zeta.
  destruct (triple_ProgramChain s Hfw Hp c bridgeName hairpin enable (rules w) Hc w [] ltac:(done))
    as (err & Ho & Hs & Hw). fold (run (ProgramChain c bridgeName hairpin enable) s w) in Ho, Hs, Hw.
  split; [exact Hs|]. split.
  - exists err. split; [exact Ho|]. destruct err as [e|]; [done|]. split; [done|].
    intros t ch. right. apply Hw.
  - intros -> Ho'. rewrite Ho' in Ho. injection Ho as <-.
    destruct (triple_ProgramChain s Hfw Hp c bridgeName hairpin true _
                (clear_text_on _ _ _ _ Hc) _ [] Hw) as (err & Ho2 & Hs2 & Hw2).
    split; [exact Hs2|]. split; [by exists err|]. intros t ch. rewrite (Hw t ch). unfold run in *.
    destruct err as [e|]; [|by rewrite (Hw2 t ch), programmed_twice].
    destruct (Hw2 t ch) as [E|E]; [exact E|]. by rewrite programmed_twice in E.
Qed.

(** ** A model of the binary *)

Definition tables : Type := gmap (string * string) (list rule).
Definition table_rules (w : tables) : ruleset := fun t c => default [] (w !! (t, c)).

Definition list_rules (t c : string) (l : list rule) : string :=
  String.concat " ; " (map (fun r => "-A " +:+ c +:+ " " +:+ String.concat " " r) l).

Definition flag_of (f : string) : option command :=
  if String.eqb f "-C" then Some CmdCheck
  else if String.eqb f "-A" then Some CmdAppend
  else if String.eqb f "-I" then Some CmdInsert
  else if String.eqb f "-D" then Some CmdDelete
  else None.

Definition run_command (t : string) (args : list string) (w : tables) : (string * option error) * tables :=
  let fail := (("iptables: Bad rule", Some (errors_New "exit status 1")), w) in
  match args with
  | f :: c :: r =>
      match flag_of f with
      | Some cmd => match effect cmd r (table_rules w t c) with
                    | Some l => (("", None), <[(t, c) := l]> w)
                    | None => fail
                    end
      | None => fail
      end
  | _ => fail
  end.

Definition skip_wait (args : list string) : list string :=
  match args with
  | a :: rest => if String.eqb a "--wait" then rest else args
  | [] => []
  end.

Definition run_iptables (args : list string) (w : tables) : (string * option error) * tables :=
  match skip_wait args with
  | a :: t :: rest => if String.eqb a "-t" then run_command t rest w
                      else run_command Filter (a :: t :: rest) w
  | args => run_command Filter args w
  end.

Definition netfilter_answer (e : ext) (w : tables) : ans e * tables :=
  match e return ans e * tables with
  | ECombinedOutput argv => run_iptables (tail argv) w
  | EOutput argv =>
      match argv with
      | [_; _; t; _; c] => ((list_rules t c (table_rules w t c), None), w)
      | _ => (("", None), w)
      end
  | e => (good e, w)
  end.

#[export] Program Instance netfilter_host : Host tables := { answer := netfilter_answer }.
Next Obligation. intros e w. destruct e; try exact I; apply good_legal. Qed.

Lemma table_rules_insert t c l w t' c' :
  table_rules (<[(t, c) := l]> w) t' c' = set_chain t c l (table_rules w) t' c'.
Proof.
  unfold table_rules, set_chain, tables in *. destruct (String.eqb_spec t t') as [->|Ht]; cbn [andb].
  - destruct (String.eqb_spec c c') as [->|Hc]; [by rewrite lookup_insert_eq|].
    by rewrite lookup_insert_ne by congruence.
  - by rewrite lookup_insert_ne by congruence.
Qed.

Lemma run_iptables_argv path wait table cmd c r w :
  run_iptables (tail (iptables_argv path wait (targs table ++ [flag cmd; c] ++ r))) w
  = run_command (default Filter table) (flag cmd :: c :: r) w.
Proof. by destruct wait, table, cmd. Qed.

#[export] Program Instance netfilter_model : Netfilter tables :=
  { rules := table_rules; listing := list_rules }.
Next Obligation.
  intros path wait table cmd c r w. cbv zeta. cbn [answer netfilter_host netfilter_answer].
  rewrite run_iptables_argv. unfold run_command.
  replace (flag_of (flag cmd)) with (Some cmd) by by destruct cmd.
  destruct (effect cmd r (table_rules w (default Filter table) c)) as [l|] eqn:E; cbn [fst snd].
  - exists l. split; [done|]. split; [|by left]. intros. apply table_rules_insert.
  - by split.
Qed.
Next Obligation. by intros path t c w. Qed.

Definition st_iptables : St := set_iptables "/sbin/iptables" true st_ready.
Definition docker_chain : ChainInfo := mkChain "DOCKER" Filter false.
Definition some_rules : tables :=
  {[ (Filter, "FORWARD") := [["-i"; "eth0"; "-j"; "DROP"]] ]}.

Lemma ProgramChain_refines_witness :
  rules (world (run (ProgramChain docker_chain "ovsbr0" false true) st_iptables some_rules)) Filter "FORWARD"
  = [["-o"; "ovsbr0"; "-j"; "DOCKER"]; ["-i"; "eth0"; "-j"; "DROP"]].
Proof.
  destruct (ProgramChain_refines docker_chain "ovsbr0" false true st_iptables some_rules)
    as (_ & (err & Ho & Hn & _) & _).
  - reflexivity.
  - discriminate.
  - repeat split; intros _; vm_compute; reflexivity.
  - rewrite Hn; [vm_compute; reflexivity|].
    enough (Some err = Some None) by congruence. transitivity
      (match out (run (ProgramChain docker_chain "ovsbr0" false true) st_iptables some_rules) with
       | Returned e => Some e | Halted _ => None end); [by rewrite Ho|vm_compute; reflexivity].
Defined.

(** The text of a rule may be part of another's: with a jump to DOCKER-USER in the chain,
    ProgramChain takes the jump to DOCKER to be there, reports success and adds nothing. *)
Theorem ProgramChain_mistaken :
  let user := ["-o"; "ovsbr0"; "-j"; "DOCKER-USER"] in
  let w : tables := {[ (Filter, "FORWARD") := [user] ]} in
  let f := run (ProgramChain docker_chain "ovsbr0" false true) st_iptables w in
  out f = Returned None /\ rules (world f) Filter "FORWARD" = [user]
  /\ programmed docker_chain "ovsbr0" false true (rules w) Filter "FORWARD"
     = [link_rule docker_chain "ovsbr0"; user].
Proof. cbv zeta. split_and!; vm_compute; reflexivity. Qed.

(** * Publishing a port and taking it back *)

(** A rule with its place: table, chain, rule. *)
Definition item : Type := string * string * rule.

Definition item_args (cmd : command) (i : item) : list string :=
  let '(t, c, r) := i in targs (Some t) ++ [flag cmd; c] ++ r.

Fixpoint perform_items (cmd : command) (is_ : list item) (T : ruleset) : option ruleset :=
  match is_ with
  | [] => Some T
  | (t, c, r) :: rest =>
      match effect cmd r (T t c) with
      | Some l => perform_items cmd rest (set_chain t c l T)
      | None => None
      end
  end.

(** The rules of a list for one chain, in order. *)
Fixpoint rules_for (t c : string) (is_ : list item) : list rule :=
  match is_ with
  | [] => []
  | (t', c', r) :: rest =>
      if String.eqb t' t && String.eqb c' c then r :: rules_for t c rest else rules_for t c rest
  end.

Lemma remove_first_app r l l' : r ∉ l -> remove_first r (l ++ r :: l') = l ++ l'.
Proof.
  induction l as [|r' l IH]; cbn; intros Hr.
  - by rewrite bool_decide_eq_true_2.
  - rewrite bool_decide_eq_false_2 by set_solver. rewrite IH by set_solver. done.
Qed.

Lemma perform_append is_ : forall T,
  exists T', perform_items CmdAppend is_ T = Some T' /\ forall t c, T' t c = T t c ++ rules_for t c is_.
Proof.
  induction is_ as [|[[t c] r] rest IH]; intros T; cbn.
  - exists T. split; [done|]. intros t c. by rewrite app_nil_r.
  - destruct (IH (set_chain t c (T t c ++ [r]) T)) as (T' & HT' & Hr). exists T'. split; [done|].
    intros t' c'. rewrite Hr. unfold set_chain. destruct (String.eqb_spec t t') as [->|]; [|done].
    destruct (String.eqb_spec c c') as [->|]; [|done]. cbn. by rewrite <- app_assoc.
Qed.

Lemma perform_delete is_ T : forall T1 T2,
  Forall (fun '(t, c, r) => r ∉ T t c) is_ ->
  (forall t c, T1 t c = T t c ++ rules_for t c is_) ->
  perform_items CmdDelete is_ T1 = Some T2 -> forall t c, T2 t c = T t c.
Proof.
  induction is_ as [|[[t c] r] rest IH]; intros T1 T2 Habs HT1; cbn.
  - intros [= <-] t c. by rewrite HT1, app_nil_r.
  - apply Forall_cons in Habs as [Hr Hrest].
    pose proof (HT1 t c) as Htc. cbn in Htc. rewrite !String.eqb_refl in Htc. cbn in Htc.
    rewrite Htc, bool_decide_eq_true_2 by set_solver. rewrite remove_first_app by done.
    apply IH; [done|]. intros t' c'. unfold set_chain.
    destruct (String.eqb_spec t t') as [<-|Ht], (String.eqb_spec c c') as [<-|Hc]; try done; cbn;
      rewrite HT1; cbn; rewrite ?String.eqb_refl; f_equal.
    all: first [apply String.eqb_neq in Ht; by rewrite Ht | apply String.eqb_neq in Hc; by rewrite Hc].
Qed.

Section publishing.
Context {W : Type} {H : Host W} {N : Netfilter W}.
Context (s : St) (Hfw : firewalldRunning s = false) (Hpath : iptablesPath s <> "").

Lemma triple_raw_all cmd complain is_ : forall T,
  triple s (holds T) (raw_all (map (item_args cmd) is_) complain)
    (fun err w => err = None -> exists T', perform_items cmd is_ T = Some T' /\ holds T' w).
Proof.
  induction is_ as [|[[t c] r] rest IH]; intros T; cbn [map raw_all perform_items].
  - apply triple_ret. eauto.
  - unfold raw_quiet.
    apply (triple_bind _ _ _ _ (fun err w => err = None ->
      exists l, effect cmd r (T t c) = Some l /\ holds (set_chain t c l T) w)).
    + eapply triple_bind; [apply (triple_Raw s Hfw Hpath (Some t) cmd c r T)|].
      intros [output [e|]]; cbn [fst snd]; [by apply triple_ret|].
      destruct (String.eqb output ""); apply triple_ret; [|done].
      intros w (l & He & Hw & _) _. eauto.
    + intros [e|]; [by apply triple_ret|]. intros w tr Hw. destruct (Hw eq_refl) as (l & -> & Hl).
      by apply IH.
Qed.

End publishing.

Definition forward_items (c : ChainInfo) (ip : list Z) (port : Z) (proto destAddr : string)
    (destPort : Z) (bridgeName : string) : list item :=
  let daddr := if IsUnspecified ip then "0/0" else IP_String ip in
  [(Nat, ci_Name c, ["-p"; proto; "-d"; daddr; "--dport"; Itoa port; "-j"; "DNAT";
      "--to-destination"; JoinHostPort destAddr (Itoa destPort)]
      ++ (if ci_HairpinMode c then [] else ["!"; "-i"; bridgeName]));
   (Filter, ci_Name c, ["!"; "-i"; bridgeName; "-o"; bridgeName; "-p"; proto; "-d"; destAddr;
      "--dport"; Itoa destPort; "-j"; "ACCEPT"]);
   (Nat, "POSTROUTING", ["-p"; proto; "-s"; destAddr; "-d"; destAddr; "--dport"; Itoa destPort;
      "-j"; "MASQUERADE"])].

Lemma forward_rules_items cmd c ip port proto destAddr destPort bridgeName :
  forward_rules c (flag cmd) ip port proto destAddr destPort bridgeName
  = map (item_args cmd) (forward_items c ip port proto destAddr destPort bridgeName).
Proof. done. Qed.

(** Publishing a port and taking it back leaves no trace: when Forward with Append and
    then with Delete both report success, and the three rules were not there before, every
    chain of every table holds exactly the rules it held, in the same order. *)
Theorem Forward_undone {W} {H : Host W} {N : Netfilter W} c ip port proto destAddr destPort bridgeName
    s (w : W) :
  firewalldRunning s = false -> iptablesPath s <> "" ->
  Forall (fun '(t, ch, r) => r ∉ rules w t ch)
         (forward_items c ip port proto destAddr destPort bridgeName) ->
  let f := run (let! err1 := Forward c Append ip port proto destAddr destPort bridgeName in
                let! err2 := Forward c Delete ip port proto destAddr destPort bridgeName in
                Ret (err1, err2)) s w in
  out f = Returned (None, None) -> forall t ch, rules (world f) t ch = rules w t ch.
Proof.
  intros Hfw Hp Habs. cbv zeta. unfold Forward.
  change Append with (flag CmdAppend). change Delete with (flag CmdDelete).
  rewrite !forward_rules_items. set (is_ := forward_items _ _ _ _ _ _ _) in *.
  destruct (perform_append is_ (rules w)) as (T1 & H1 & HT1).
  assert (Ht : triple s (holds (rules w))
    (let! err1 := raw_all (map (item_args CmdAppend) is_) (ChainError_Error "FORWARD") in
     let! err2 := raw_all (map (item_args CmdDelete) is_) (ChainError_Error "FORWARD") in
     Ret (err1, err2)) (fun r w' => r = (None, None) -> forall t ch, rules w' t ch = rules w t ch)).
  { eapply triple_bind; [by apply triple_raw_all|]. intros [e|].
    - intros w1 tr1 _.
      destruct (triple_raw_all s Hfw Hp CmdDelete (ChainError_Error "FORWARD") is_ (rules w1) w1 tr1 ltac:(done))
        as (e2 & Ho & Hs & _).
      exists (Some e, e2). rewrite run_from_bind, Ho. by split_and!.
    - intros w1 tr1 Hw1. destruct (Hw1 eq_refl) as (T1' & HT & Hh). simplify_eq.
      destruct (triple_raw_all s Hfw Hp CmdDelete (ChainError_Error "FORWARD") is_ T1 w1 tr1 Hh)
        as (e2 & Ho & Hs & Hd).
      exists (None, e2). rewrite run_from_bind, Ho. split_and!; [done|done|]. cbn.
      intros [= ->]. destruct (Hd eq_refl) as (T2 & HT2 & Hh2). intros t ch. rewrite Hh2.
      by apply (perform_delete is_ (rules w) T1 T2). }
  destruct (Ht w [] ltac:(done)) as (r & Hr & _ & Hq). unfold run. intros Ho. apply Hq. congruence.
Qed.

Lemma Forward_undone_witness :
  rules (world (run (let! err1 := Forward docker_chain Append [0; 0; 0; 0]%Z 8080 "tcp" "172.17.0.2" 80 "ovsbr0" in
                     let! err2 := Forward docker_chain Delete [0; 0; 0; 0]%Z 8080 "tcp" "172.17.0.2" 80 "ovsbr0" in
                     Ret (err1, err2)) st_iptables some_rules)) Filter "FORWARD"
  = [["-i"; "eth0"; "-j"; "DROP"]].
Proof.
  rewrite (Forward_undone docker_chain [0; 0; 0; 0]%Z 8080 "tcp" "172.17.0.2" 80 "ovsbr0"
             st_iptables some_rules eq_refl ltac:(discriminate)).
  - vm_compute. reflexivity.
  - repeat constructor; vm_compute; intros Hin; by apply not_elem_of_nil in Hin.
  - vm_compute. reflexivity.
Defined.
