(* ===== verification/Listen.v ===== *)
(** The socket Docker connects to (Godeps/.../gopher-net/dknet: unix_listener.go,
    tcp_listener.go, and listenAndServe of api.go; Godeps/.../docker/docker/pkg/sockets:
    unix_socket.go, tcp_socket.go; pkg/listenbuffer/buffer.go), and the end of main.go.

    The host answers the system calls. The requests that Serve handles are those of
    [serve] in Dknet; here it is one call, which returns an error when the server stops. *)

From S2P Require Import Prelude OvsNotation OvsTypes World UserDb Monitor.

Local Open Scope go_scope.
Local Open Scope Z_scope.

(** * Paths *)

(** filepath.Clean of a rooted path, on its elements: the elements kept, last one first. *)
Fixpoint clean_parts (parts : list string) (acc : list string) : list string :=
  match parts with
  | [] => acc
  | p :: ps =>
      if String.eqb p "" || String.eqb p "." then clean_parts ps acc
      else if String.eqb p ".." then clean_parts ps (tail acc)
      else clean_parts ps (p :: acc)
  end.

Definition Clean_abs (path : string) : string :=
  String slash (Join slash (rev (clean_parts (Split slash path) []))).

(** filepath.Join of a rooted directory and a name. *)
Definition filepath_Join (dir name : string) : string := Clean_abs (dir +:+ String slash name).

Definition IsAbs (path : string) : bool := String.prefix "/" path.

(** * pkg/listenbuffer and pkg/sockets *)

Definition err_not_exist : error := errors_New "no such file or directory".
Definition IsNotExist (e : error) : bool := bool_decide (e = err_not_exist).

(** A listener is its address. *)
Definition NewListenBuffer (proto addr : string) : prog (error + string) := call (EListen proto addr).

(** No TLS configuration is given by this program. *)
Definition NewTCPSocket (addr : string) : prog (error + string) := NewListenBuffer "tcp" addr.

Definition lookupGidByName (nameOrGid : string) : prog (error + Z) :=
  let! groups := ParseGroupFileFilter unixGroupPath (group_is nameOrGid) in
  match groups with
  | inl err => Ret (inl err)
  | inr (g :: _) => Ret (inr (g_Gid g))
  | inr [] =>
      let '(gid, ok) := Atoi nameOrGid in
      if ok : bool then Ret (inr gid)
      else Ret (inl (Errorf "Group %s not found" [nameOrGid]))
  end.

Definition changeGroup (path nameOrGid : string) : prog (option error) :=
  let! gid := lookupGidByName nameOrGid in
  match gid with
  | inl err => Ret (Some err)
  | inr gid => call (EChown path 0 gid)
  end.

Definition setSocketGroup (path group : string) : prog (option error) :=
  if String.eqb group "" then Ret None
  else
    let! err := changeGroup path group in
    match err with
    | Some e => if negb (String.eqb group "docker") then Ret (Some e) else Ret None
    | None => Ret None
    end.

(** Octal 0777 and 0660. *)
Definition mode_0777 : Z := 511.
Definition mode_0660 : Z := 432.

(** The part of NewUnixSocket under the changed umask. *)
Definition open_socket (path group : string) : prog (error + string) :=
  let! l := NewListenBuffer "unix" path in
  match l with
  | inl err => Ret (inl err)
  | inr l =>
      let! err := setSocketGroup path group in
      match err with
      | Some e => let! _ := call (ECloseListener l) in Ret (inl e)
      | None =>
          let! err := call (EChmod path mode_0660) in
          match err with
          | Some e => let! _ := call (ECloseListener l) in Ret (inl e)
          | None => Ret (inr l)
          end
      end
  end.

Definition NewUnixSocket (path group : string) : prog (error + string) :=
  let! err := call (EUnlink path) in
  match err with
  | Some e =>
      if negb (IsNotExist e) then Ret (inl e)
      else
        let! mask := call (EUmask mode_0777) in
        let! r := open_socket path group in
        let! _ := call (EUmask mask) in Ret r
  | None =>
      let! mask := call (EUmask mode_0777) in
      let! r := open_socket path group in
      let! _ := call (EUmask mask) in Ret r
  end.

(** * dknet *)

Definition pluginSockDir : string := "/run/docker/plugins".
Definition pluginSpecDir : string := "/etc/docker/plugins".
Definition mode_0755 : Z := 493.
Definition mode_0644 : Z := 420.

Definition fullSocketAddress (address : string) : prog (error + string) :=
  let! err := call (EMkdirAll pluginSockDir mode_0755) in
  match err with
  | Some e => Ret (inl e)
  | None => Ret (inr (if IsAbs address then address else filepath_Join pluginSockDir (address +:+ ".sock")))
  end.

(** The listener and the file to remove in the end; the file is empty on an error. *)
Definition newUnixListener (volumeDriverName group : string) : prog (error + (string * string)) :=
  let! path := fullSocketAddress volumeDriverName in
  match path with
  | inl e => Ret (inl e)
  | inr path =>
      let! l := NewUnixSocket path group in
      match l with
      | inl e => Ret (inl e)
      | inr l => Ret (inr (l, path))
      end
  end.

Definition writeSpec (name address : string) : prog (error + string) :=
  let! err := call (EMkdirAll pluginSpecDir mode_0755) in
  match err with
  | Some e => Ret (inl e)
  | None =>
      let spec := filepath_Join pluginSpecDir (name +:+ ".spec") in
      let! err := call (EWriteFile spec ("tcp://" +:+ address) mode_0644) in
      match err with
      | Some e => Ret (inl e)
      | None => Ret (inr spec)
      end
  end.

Definition newTCPListener (volumeDriverName address : string) : prog (error + (string * string)) :=
  let! l := NewTCPSocket address in
  match l with
  | inl e => Ret (inl e)
  | inr l =>
      let! spec := writeSpec volumeDriverName l in
      match spec with
      | inl e => Ret (inl e)
      | inr spec => Ret (inr (l, spec))
      end
  end.

(** The paths are not empty, so the removal is deferred exactly on success. Any other
    protocol leaves the listener nil, and Serve dereferences it. *)
Definition listenAndServe (proto addr group : string) : prog (option error) :=
  let serve r : prog (option error) :=
    match r with
    | inl e => Ret (Some e)
    | inr (l, spec) =>
        let! err := call (EServe l) in
        let! _ := call (EOsRemove spec) in
        Ret err
    end in
  if String.eqb proto "tcp" then let! r := newTCPListener group addr in serve r
  else if String.eqb proto "unix" then let! r := newUnixListener addr group in serve r
  else panic "nil pointer dereference".

Definition ServeTCP (pluginName addr : string) : prog (option error) := listenAndServe "tcp" addr pluginName.
Definition ServeUnix (systemGroup addr : string) : prog (option error) :=
  listenAndServe "unix" addr systemGroup.

(** main.go: Run, to its end; [false] when it still waits for the database. The error of the
    server is only logged. *)
Definition Run_main (batches : list (list TableUpdates)) : prog bool :=
  let! ready := Run batches in
  if ready : bool then (let! _ := ServeUnix "root" "ovs" in Ret true) else Ret false.

(** * The socket *)

(** The calls to umask, with their answers. *)
Definition umask_of (e : entry) : list (Z * Z) :=
  match ent_ext e as x return ans x -> list (Z * Z) with
  | EUmask m => fun old => [(m, old)]
  | _ => fun _ => []
  end (ent_ans e).
Definition umasks (tr : trace) : list (Z * Z) := flat_map umask_of tr.

(** The listeners that are open: the protocol and the address they were opened with, and the
    listener itself. *)
Definition listener : Type := string * string * string.
Definition listen_step (open : list listener) (e : entry) : list listener :=
  match ent_ext e as x return ans x -> list listener with
  | EListen proto addr => fun r => match r with inr l => (proto, addr, l) :: open | inl _ => open end
  | ECloseListener l => fun _ => List.filter (fun x => negb (String.eqb x.2 l)) open
  | _ => fun _ => open
  end (ent_ans e).
Definition listeners (tr : trace) : list listener := fold_left listen_step tr [].

(** The entries of a group file, and the id of a group: that of the first entry that has its
    name, or its number as text, or else the number itself. *)
Definition group_entries (content : string) : list Group :=
  map parse_group (List.filter nonempty (scan_lines content)).

Definition group_found (name content : string) (gid : Z) : Prop :=
  (exists before g after, group_entries content = before ++ g :: after /\
     (g_Name g = name \/ Itoa (g_Gid g) = name) /\ gid = g_Gid g /\
     forall g', g' ∈ before -> g_Name g' <> name /\ Itoa (g_Gid g') <> name) \/
  ((forall g', g' ∈ group_entries content -> g_Name g' <> name /\ Itoa (g_Gid g') <> name) /\
   Atoi name = (gid, true)).

(** The calls that give the socket to the group: none was asked for; or it is docker, for
    which any failure is tolerated; or the group was found in the group file and the file
    given to it. *)
Definition group_set (path group : string) (t : trace) : Prop :=
  (group = "" /\ t = []) \/ group = "docker" \/
  exists content gid, group_found group content gid /\
    t = [Entry (EReadFile unixGroupPath) (inr content); Entry (EChown path 0 gid) None].

(** A computation that keeps the memory, extends the trace, and ends with a result that [Q]
    relates to the new part of the trace. *)
Definition extends {A} (p : prog A) (Q : A -> trace -> Prop) : Prop :=
  forall s tr, wp p s tr (fun o s' tr' =>
    s' = s /\ exists a t, o = Returned a /\ tr' = tr ++ t /\ Q a t).

Lemma extends_ret {A} (a : A) (Q : A -> trace -> Prop) : Q a [] -> extends (Ret a) Q.
Proof. intros H s tr. cbn. split; [done|]. exists a, []. by rewrite app_nil_r. Qed.

Lemma extends_call (e : ext) (Q : ans e -> trace -> Prop) :
  (forall r, Q r [Entry e r]) -> extends (call e) Q.
Proof. intros HQ s tr. wp_norm. intros r _. split; [done|]. by exists r, [Entry e r]. Qed.

Lemma extends_bind {A B} (p : prog A) (f : A -> prog B) (P : A -> trace -> Prop) (Q : B -> trace -> Prop) :
  extends p P -> (forall a t, P a t -> extends (f a) (fun b t' => Q b (t ++ t'))) -> extends (bind p f) Q.
Proof.
  intros Hp Hf s tr. eapply wp_seq; [apply Hp| |by intros h s' tr' (_ & a & t & [=] & _)].
  intros a s' tr' (-> & a' & t & [= ->] & -> & HP). eapply wp_mono; [|apply (Hf _ _ HP)].
  intros o s'' tr'' (-> & b & t' & -> & -> & HQ). split; [done|].
  exists b, (t ++ t'). by rewrite app_assoc.
Qed.

(** One call, whose entry is all that is added. *)
Lemma extends_call_bind {B} (e : ext) (f : ans e -> prog B) (Q : B -> trace -> Prop) :
  (forall r, extends (f r) (fun b t => Q b ([Entry e r] ++ t))) -> extends (bind (call e) f) Q.
Proof.
  intros Hf. eapply (extends_bind _ _ (fun r t => t = [Entry e r])); [by apply extends_call|].
  intros r t ->. apply Hf.
Qed.

Lemma extends_only {A} (E : ext -> Prop) (p : prog A) (Q : A -> trace -> Prop) :
  extends p Q -> only E p -> extends p (fun a t => Q a t /\ Forall E (exts t)).
Proof.
  intros Hq Ho s tr. eapply wp_mono; [|apply (wp_conj p s tr _ _ (Hq s tr) (Ho s tr))].
  intros o s' tr' [(-> & a & t & -> & -> & HQ) (t' & Ht & HE)]. apply app_inv_head in Ht. subst t'.
  split; [done|]. by exists a, t.
Qed.

Lemma extends_run {W A} {H : Host W} (p : prog A) Q s (w : W) :
  extends p Q ->
  state (run p s w) = s /\ exists a, out (run p s w) = Returned a /\ Q a (log (run p s w)).
Proof.
  intros Hp. pose proof (wp_run p s w _ (Hp s [])) as (Hs & a & t & Ho & Hl & HQ).
  split; [done|]. exists a. split; [done|]. by rewrite Hl.
Qed.

Lemma umasks_app t1 t2 : umasks (t1 ++ t2) = umasks t1 ++ umasks t2.
Proof. apply flat_map_app. Qed.

(** No listener is opened or closed, and the umask is not touched. *)
Definition still (t : trace) : Prop := umasks t = [] /\ forall b, fold_left listen_step t b = b.

Lemma still_app t1 t2 : still t1 -> still t2 -> still (t1 ++ t2).
Proof.
  intros [U1 H1] [U2 H2]. split; [by rewrite umasks_app, U1, U2|].
  intros b. by rewrite fold_left_app, H1, H2.
Qed.

Lemma group_is_iff name g : group_is name g = true <-> g_Name g = name \/ Itoa (g_Gid g) = name.
Proof. unfold group_is. by rewrite orb_true_iff, !String.eqb_eq. Qed.

Lemma group_is_not name g : group_is name g = false -> g_Name g <> name /\ Itoa (g_Gid g) <> name.
Proof. unfold group_is. by rewrite orb_false_iff, !String.eqb_neq. Qed.

(** The head of a filtered list is the first element that passes. *)
Lemma filter_head {A} (f : A -> bool) (l : list A) :
  match List.filter f l with
  | x :: _ => exists before after, l = before ++ x :: after /\ f x = true /\
                forall y, y ∈ before -> f y = false
  | [] => forall y, y ∈ l -> f y = false
  end.
Proof.
  induction l as [|a l IH]; cbn; [by intros y ?%elem_of_nil|]. destruct (f a) eqn:E.
  - exists [], l. split; [done|]. split; [done|]. by intros y ?%elem_of_nil.
  - destruct (List.filter f l) as [|x r].
    + intros y [->|Hy]%elem_of_cons; auto.
    + destruct IH as (before & after & -> & Hx & Hb). exists (a :: before), after.
      split; [done|]. split; [done|]. intros y [->|Hy]%elem_of_cons; auto.
Qed.

Lemma lookupGidByName_found name :
  extends (lookupGidByName name) (fun r t => still t /\ forall gid, r = inr gid ->
    exists content, t = [Entry (EReadFile unixGroupPath) (inr content)] /\ group_found name content gid).
Proof.
  unfold lookupGidByName, ParseGroupFileFilter.
  eapply (extends_bind _ _ (fun r t => still t /\ forall gs, r = inr gs -> exists content,
    t = [Entry (EReadFile unixGroupPath) (inr content)] /\
    gs = List.filter (group_is name) (group_entries content))).
  - apply extends_call_bind. intros [e|c]; apply extends_ret; rewrite app_nil_r; split; try done.
    intros gs [= <-]. by exists c.
  - intros r t [Hst Hr].
    assert (forall x : error + Z, (forall gid, x = inr gid -> exists content,
        t = [Entry (EReadFile unixGroupPath) (inr content)] /\ group_found name content gid) ->
        extends (Ret x) (fun r t' => still (t ++ t') /\ forall gid, r = inr gid -> exists content,
          t ++ t' = [Entry (EReadFile unixGroupPath) (inr content)] /\ group_found name content gid)) as Hret.
    { intros x Hx. apply extends_ret. by rewrite app_nil_r. }
    destruct r as [e|gs]; cbv beta iota; [by apply Hret|].
    destruct (Hr gs eq_refl) as (content & Ht & ->).
    pose proof (filter_head (group_is name) (group_entries content)) as Hh.
    destruct (List.filter (group_is name) (group_entries content)) as [|g rest].
    + destruct (Atoi name) as [gid []] eqn:Ea; apply Hret; [|done]. intros gid' [= <-].
      exists content. split; [done|]. right. split; [|done]. intros g' Hg. by apply group_is_not, Hh.
    + destruct Hh as (before & after & Hl & Hg%group_is_iff & Hb). apply Hret. intros gid [= <-].
      exists content. split; [done|]. left. exists before, g, after. split_and!; try done.
      intros g' Hg'. by apply group_is_not, Hb.
Qed.

Lemma setSocketGroup_still path group :
  extends (setSocketGroup path group) (fun r t => still t /\ (r = None -> group_set path group t)).
Proof.
  unfold setSocketGroup. destruct (String.eqb_spec group "") as [->|Hne].
  { apply extends_ret. split; [done|]. intros _. by left. }
  eapply (extends_bind _ _ (fun r t => still t /\ (r = None -> group_set path group t))).
  - unfold changeGroup. eapply extends_bind; [apply lookupGidByName_found|].
    intros [e|gid] t [Ht Hf]; cbv beta iota.
    + apply extends_ret. by rewrite app_nil_r.
    + destruct (Hf gid eq_refl) as (content & -> & Hg).
      apply (extends_call (EChown path 0 gid)). intros r. split; [by apply still_app|].
      intros ->. right; right. by exists content, gid.
  - intros [e|] t [Hs Hg]; cbv beta iota.
    + destruct (String.eqb_spec group "docker") as [->|Hd]; apply extends_ret; rewrite app_nil_r.
      * split; [done|]. intros _. right. by left.
      * by split.
    + apply extends_ret. rewrite app_nil_r. by split.
Qed.

(** The calls that open the socket: it listens at the path, is given to the group, and gets
    mode 0660. On a failure no listener is left open. *)
Definition opened (path group : string) (r : error + string) (t : trace) : Prop :=
  match r with
  | inl _ => listeners t = []
  | inr l => exists tg, group_set path group tg /\
      t = [Entry (EListen "unix" path) (inr l)] ++ tg ++ [Entry (EChmod path mode_0660) None]
  end.

Lemma open_socket_opened path group :
  extends (open_socket path group) (fun r t => umasks t = [] /\ opened path group r t).
Proof.
  unfold open_socket, NewListenBuffer. apply extends_call_bind. intros [e|l]; [by apply extends_ret|].
  eapply extends_bind; [apply setSocketGroup_still|]. intros [e|] t [[Hu Hst] Hg]; cbv beta iota;
    apply extends_call_bind; [intros r|intros [e|]; cbv beta iota; [apply extends_call_bind; intros r|]];
    apply extends_ret; rewrite ?app_nil_r, !umasks_app, Hu; (split; [done|]);
    unfold opened, listeners; [| |by exists t; auto];
    rewrite !fold_left_app; cbn; rewrite ?Hst; cbn; by rewrite String.eqb_refl.
Qed.

Definition umask_restored (t : trace) : Prop :=
  umasks t = [] \/ exists mask last, umasks t = [(mode_0777, mask); (mask, last)].

(** The calls of NewUnixSocket: an old file of that name is removed, or was not there, and
    the socket is opened with the umask changed. *)
Definition socket_opened (path group : string) (r : error + string) (t : trace) : Prop :=
  match r with
  | inl _ => listeners t = []
  | inr l => exists un mask t' last,
      (forall e, un = Some e -> IsNotExist e = true) /\ opened path group (inr l) t' /\
      t = [Entry (EUnlink path) un; Entry (EUmask mode_0777) mask] ++ t' ++ [Entry (EUmask mask) last]
  end.

Lemma under_umask path group un :
  (forall e, un = Some e -> IsNotExist e = true) ->
  extends (let! mask := call (EUmask mode_0777) in
           let! r := open_socket path group in
           let! _ := call (EUmask mask) in Ret r)
    (fun r t => socket_opened path group r ([Entry (EUnlink path) un] ++ t)
                /\ umask_restored ([Entry (EUnlink path) un] ++ t)).
Proof.
  intros Hun. apply extends_call_bind. intros mask. eapply extends_bind; [apply open_socket_opened|].
  intros r t [Hu Ho]. apply extends_call_bind. intros last. apply extends_ret. rewrite app_nil_r. split.
  - destruct r as [e|l]; cbn [socket_opened opened] in *.
    + unfold listeners in *. rewrite !fold_left_app. cbn. by rewrite Ho.
    + by exists un, mask, t, last.
  - right. exists mask, last. rewrite !umasks_app, Hu. done.
Qed.

Lemma NewUnixSocket_opened path group :
  extends (NewUnixSocket path group) (fun r t => socket_opened path group r t /\ umask_restored t).
Proof.
  unfold NewUnixSocket. apply extends_call_bind. intros [e|]; [|by apply under_umask].
  destruct (negb (IsNotExist e)) eqn:E; [apply extends_ret; split; [done|by left]|].
  apply under_umask. intros e' [= <-]. by apply negb_false_iff.
Qed.

(** NewUnixSocket restores the umask whatever happens (it is set at most once, and then
    set back to the value it had); it reports success only when the socket listens, its mode
    was changed to 0660 and its group was set (unless none is asked for, or it is docker); and
    on every failure no listener is left open. The memory of the plugin is not touched. *)
Theorem NewUnixSocket_safe {W} {H : Host W} path group s (w : W) :
  let f := run (NewUnixSocket path group) s w in
  state f = s /\ exists r, out f = Returned r /\ socket_opened path group r (log f) /\ umask_restored (log f).
Proof. cbv zeta. apply (extends_run _ _ s w (NewUnixSocket_opened path group)). Qed.

(** * Serving *)

Definition plugin_socket : string := "/run/docker/plugins/ovs.sock".

Definition not_serving (e : ext) : Prop := match e with EServe _ => False | _ => True end.

Lemma NewUnixSocket_not_serving path group : only not_serving (NewUnixSocket path group).
Proof.
  unfold NewUnixSocket, open_socket, setSocketGroup, changeGroup, lookupGidByName, NewListenBuffer,
    ParseGroupFileFilter. frame_tac; exact I.
Qed.

(** The calls of a run of ServeUnix that gets to serve, up to then: the directory is made,
    an old socket removed, the socket opened for the group root, under the changed umask. *)
Definition socket_ready (l : string) (t : trace) : Prop :=
  exists un mask content gid last,
    (forall e, un = Some e -> IsNotExist e = true) /\ group_found "root" content gid /\
    t = [Entry (EMkdirAll pluginSockDir mode_0755) None;
         Entry (EUnlink plugin_socket) un;
         Entry (EUmask mode_0777) mask;
         Entry (EListen "unix" plugin_socket) (inr l);
         Entry (EReadFile unixGroupPath) (inr content);
         Entry (EChown plugin_socket 0 gid) None;
         Entry (EChmod plugin_socket mode_0660) None;
         Entry (EUmask mask) last].

(** The end of a run of ServeUnix: it failed before serving, or it served on that very
    listener and then removed the socket's file. *)
Definition served_post (err : option error) (t : trace) : Prop :=
  (exists e, err = Some e /\ Forall not_serving (exts t) /\ listeners t = []) \/
  exists pre l r, socket_ready l pre /\
    t = pre ++ [Entry (EServe l) err; Entry (EOsRemove plugin_socket) r].

Lemma newUnixListener_ready :
  extends (newUnixListener "ovs" "root") (fun r t =>
    match r with
    | inl _ => Forall not_serving (exts t) /\ listeners t = []
    | inr (l, path) => path = plugin_socket /\ socket_ready l t
    end).
Proof.
  unfold newUnixListener, fullSocketAddress.
  change (if IsAbs "ovs" then "ovs" else filepath_Join pluginSockDir ("ovs" +:+ ".sock")) with plugin_socket.
  eapply (extends_bind _ _ (fun r t => exists x, t = [Entry (EMkdirAll pluginSockDir mode_0755) x]
                              /\ (forall p, r = inr p -> x = None /\ p = plugin_socket))).
  { apply extends_call_bind. intros [e|]; apply extends_ret; rewrite app_nil_r; eexists; split; try done.
    by intros p [= <-]. }
  intros [e|path] t (x & -> & Hp); cbv beta iota.
  - apply extends_ret. rewrite app_nil_r. split; [by repeat constructor|done].
  - destruct (Hp path eq_refl) as [-> ->]. clear Hp.
    eapply extends_bind; [apply (extends_only not_serving), NewUnixSocket_not_serving; apply NewUnixSocket_opened|].
    intros [e|l] t [[Ho _] Hns]; cbv beta iota; apply extends_ret; rewrite app_nil_r.
    + split; [by constructor|exact Ho].
    + split; [done|]. destruct Ho as (un & mask & t' & last & Hun & (tg & Hg & ->) & ->).
      destruct Hg as [[? _]|[?|(content & gid & Hg & ->)]]; [done|done|].
      by exists un, mask, content, gid, last.
Qed.

Lemma ServeUnix_served : extends (ServeUnix "root" "ovs") served_post.
Proof.
  unfold ServeUnix, listenAndServe. cbn [String.eqb Ascii.eqb Bool.eqb].
  eapply extends_bind; [apply newUnixListener_ready|]. intros [e|[l path]] t H; cbv beta iota.
  - apply extends_ret. rewrite app_nil_r. left. by exists e.
  - destruct H as [-> Hr]. apply extends_call_bind. intros err. apply extends_call_bind.
    intros r. apply extends_ret. rewrite app_nil_r. right. by exists t, l, r.
Qed.

(** C39: on every host, the plugin serves Docker's requests only on the listener it has just
    opened on the unix socket /run/docker/plugins/ovs.sock, after making the directory,
    removing an old socket (or finding none), giving the file to root and to the id of the
    first group of /etc/group that is called root (or has that as its number), and changing
    its mode to 0660, in this order and with every one of these calls successful; the umask
    is set back before. When the server stops, the socket's file is removed; if anything
    fails before, nothing was served and no listener is left open. *)
Theorem plugin_serves_on_socket {W} {H : Host W} s (w : W) :
  let f := run (ServeUnix "root" "ovs") s w in
  state f = s /\ exists err, out f = Returned err /\ served_post err (log f).
Proof. cbv zeta. apply (extends_run _ _ s w ServeUnix_served). Qed.
