(* ===== verification/Nl.v ===== *)
(** vishvananda/netlink/nl (Godeps/.../netlink/nl: nl_linux.go, addr_linux.go): the
    wire format of netlink. Native-endian integers, interface and address
    messages, attributes and their nesting, requests, and the parsing of
    attributes and messages.

    A byte is an integer from 0 to 255. The byte order of the machine is the
    instance [Endian]; every theorem holds for both. A Go slice is its bytes
    together with the bytes of its array after them ([spare]), since a slice
    expression may reach into those. *)

From S2P Require Import Prelude NetIP.

Local Open Scope go_scope.
Local Open Scope nat_scope.

(** * Integers *)

Class Endian : Type := big_endian : bool.

Fixpoint le_bytes (n : nat) (v : Z) : list Z :=
  match n with
  | O => []
  | S n' => (v mod 256)%Z :: le_bytes n' (v / 256)%Z
  end.

Fixpoint le_val (l : list Z) : Z :=
  match l with
  | [] => 0%Z
  | b :: l' => (b + 256 * le_val l')%Z
  end.

Section nl.
Context {E : Endian}.

(** The methods PutUint16, PutUint32, Uint16 and Uint32 of NativeEndian(). *)
Definition put_uint (n : nat) (v : Z) : list Z :=
  if big_endian then rev (le_bytes n v) else le_bytes n v.
Definition get_uint (l : list Z) : Z := le_val (if big_endian then rev l else l).

Definition uint_n (n : nat) (v : Z) : Z := (v mod 256 ^ Z.of_nat n)%Z.

(** The two's complement reading of 32 bits. *)
Definition int32 (z : Z) : Z :=
  let u := (z mod 2 ^ 32)%Z in if (u <? 2 ^ 31)%Z then u else (u - 2 ^ 32)%Z.

Definition Swap16 (i : Z) : Z :=
  if big_endian then i
  else Z.lor (Z.shiftr (Z.land i 0xff00) 8) (Z.shiftl (Z.land i 0xff) 8).

Definition Swap32 (i : Z) : Z :=
  if big_endian then i
  else Z.lor (Z.lor (Z.lor (Z.shiftr (Z.land i 0xff000000) 24) (Z.shiftr (Z.land i 0xff0000) 8))
                    (Z.shiftl (Z.land i 0xff00) 8))
             (Z.shiftl (Z.land i 0xff) 24).

Definition FAMILY_ALL : Z := 0.
Definition FAMILY_V4 : Z := 2.
Definition FAMILY_V6 : Z := 10.

Definition GetIPFamily (ip : list Z) : Z :=
  if length ip <=? 4 then FAMILY_V4
  else match To4 ip with
       | Some _ => FAMILY_V4
       | None => FAMILY_V6
       end.

(** * Slices *)

Record slice : Type := mkSlice { items : list Z; spare : list Z }.

Definition slice_panic {A} : outcome A := Halted (GoPanic "slice bounds out of range").

(** [s[lo:hi]]: the bound is the capacity. *)
Definition sub (s : slice) (lo hi : nat) : outcome slice :=
  let all := items s ++ spare s in
  if (lo <=? hi) && (hi <=? length all)
  then Returned (mkSlice (take (hi - lo) (drop lo all)) (drop hi all))
  else slice_panic.

(** [s[lo:]]: the upper bound is the length. *)
Definition sub_from (s : slice) (lo : nat) : outcome slice :=
  if lo <=? length (items s) then Returned (mkSlice (drop lo (items s)) (spare s))
  else slice_panic.

(** [s[:len(s)-1]], as a string of bytes. *)
Definition drop_last (s : slice) : outcome (list Z) :=
  if length (items s) =? 0 then slice_panic
  else Returned (take (length (items s) - 1) (items s)).

(** [native.UintN(s[0:n])] *)
Definition read_uint (s : slice) (n : nat) : outcome Z :=
  let? t := sub s 0 n in
  Returned (get_uint (items t)).

(** [copy(buf[next:], src)] *)
Definition copy_at (buf : list Z) (next : nat) (src : list Z) : list Z :=
  take next buf ++ take (length buf - next) src ++ drop (next + length src) buf.

(** * Messages and attributes *)

Record IfInfomsg : Type := mkIfInfo {
  if_Family : Z; if_Type : Z; if_Index : Z; if_Flags : Z; if_Change : Z }.

Definition SizeofIfInfomsg : nat := 16.
Definition NewIfInfomsg (family : Z) : IfInfomsg := mkIfInfo (uint_n 1 family) 0 0 0 0.

(** The struct as it lies in memory: one byte of padding after the family. *)
Definition IfInfomsg_Serialize (m : IfInfomsg) : list Z :=
  put_uint 1 (if_Family m) ++ [0%Z] ++ put_uint 2 (if_Type m) ++ put_uint 4 (if_Index m)
  ++ put_uint 4 (if_Flags m) ++ put_uint 4 (if_Change m).

Definition DeserializeIfInfomsg (b : slice) : outcome IfInfomsg :=
  let? s := sub b 0 SizeofIfInfomsg in
  let l := items s in
  Returned (mkIfInfo (get_uint (take 1 l)) (get_uint (take 2 (drop 2 l)))
                     (int32 (get_uint (take 4 (drop 4 l)))) (get_uint (take 4 (drop 8 l)))
                     (get_uint (take 4 (drop 12 l)))).

Record IfAddrmsg : Type := mkIfAddr {
  ifa_Family : Z; ifa_Prefixlen : Z; ifa_Flags : Z; ifa_Scope : Z; ifa_Index : Z }.

Definition SizeofIfAddrmsg : nat := 8.
Definition NewIfAddrmsg (family : Z) : IfAddrmsg := mkIfAddr (uint_n 1 family) 0 0 0 0.

Definition IfAddrmsg_Serialize (m : IfAddrmsg) : list Z :=
  put_uint 1 (ifa_Family m) ++ put_uint 1 (ifa_Prefixlen m) ++ put_uint 1 (ifa_Flags m)
  ++ put_uint 1 (ifa_Scope m) ++ put_uint 4 (ifa_Index m).

Definition DeserializeIfAddrmsg (b : slice) : outcome IfAddrmsg :=
  let? s := sub b 0 SizeofIfAddrmsg in
  let l := items s in
  Returned (mkIfAddr (get_uint (take 1 l)) (get_uint (take 1 (drop 1 l)))
                     (get_uint (take 1 (drop 2 l))) (get_uint (take 1 (drop 3 l)))
                     (get_uint (take 4 (drop 4 l)))).

(** nl/route_linux.go *)
Record RtMsg : Type := mkRtMsg {
  rt_Family : Z; rt_Dst_len : Z; rt_Src_len : Z; rt_Tos : Z; rt_Table : Z; rt_Protocol : Z;
  rt_Scope : Z; rt_Type : Z; rt_Flags : Z }.

Definition SizeofRtMsg : nat := 12.
Definition RT_TABLE_MAIN : Z := 254.
Definition RT_SCOPE_UNIVERSE : Z := 0.
Definition RT_SCOPE_NOWHERE : Z := 255.
Definition RTPROT_BOOT : Z := 3.
Definition RTN_UNICAST : Z := 1.

Definition NewRtMsg : RtMsg :=
  mkRtMsg 0 0 0 0 RT_TABLE_MAIN RTPROT_BOOT RT_SCOPE_UNIVERSE RTN_UNICAST 0.
Definition NewRtDelMsg : RtMsg := mkRtMsg 0 0 0 0 RT_TABLE_MAIN 0 RT_SCOPE_NOWHERE 0 0.

Definition RtMsg_Serialize (m : RtMsg) : list Z :=
  put_uint 1 (rt_Family m) ++ put_uint 1 (rt_Dst_len m) ++ put_uint 1 (rt_Src_len m)
  ++ put_uint 1 (rt_Tos m) ++ put_uint 1 (rt_Table m) ++ put_uint 1 (rt_Protocol m)
  ++ put_uint 1 (rt_Scope m) ++ put_uint 1 (rt_Type m) ++ put_uint 4 (rt_Flags m).

Definition DeserializeRtMsg (b : slice) : outcome RtMsg :=
  let? s := sub b 0 SizeofRtMsg in
  let l := items s in
  let byte i := get_uint (take 1 (drop i l)) in
  Returned (mkRtMsg (byte 0) (byte 1) (byte 2) (byte 3) (byte 4) (byte 5) (byte 6) (byte 7)
                    (get_uint (take 4 (drop 8 l)))).

(** neigh_linux.go; three bytes of padding follow the family. *)
Record Ndmsg : Type := mkNdmsg {
  nd_Family : Z; nd_Index : Z; nd_State : Z; nd_Flags : Z; nd_Type : Z }.

Definition SizeofNdmsg : nat := 12.

Definition Ndmsg_Serialize (m : Ndmsg) : list Z :=
  put_uint 1 (nd_Family m) ++ replicate 3 0%Z ++ put_uint 4 (nd_Index m) ++ put_uint 2 (nd_State m)
  ++ put_uint 1 (nd_Flags m) ++ put_uint 1 (nd_Type m).

Definition deserializeNdmsg (b : slice) : outcome Ndmsg :=
  let? s := sub b 0 SizeofNdmsg in
  let l := items s in
  Returned (mkNdmsg (get_uint (take 1 l)) (get_uint (take 4 (drop 4 l)))
                    (get_uint (take 2 (drop 8 l))) (get_uint (take 1 (drop 10 l)))
                    (get_uint (take 1 (drop 11 l)))).

Definition RTA_ALIGNTO : Z := 4.
Definition SizeofRtAttr : nat := 4.

Definition rtaAlignOf (attrlen : nat) : nat :=
  Z.to_nat (Z.land (Z.of_nat attrlen + RTA_ALIGNTO - 1) (Z.lnot (RTA_ALIGNTO - 1))).

(** The values that implement NetlinkRequestData. [Data] is [None] when nil. [DStruct] is any
    other struct of the package: its size in words and the bytes at its address. *)
#[warnings="-register-all"]
Inductive request_data : Type :=
| DIfInfo (m : IfInfomsg)
| DIfAddr (m : IfAddrmsg)
| DRtMsg (m : RtMsg)
| DNdmsg (m : Ndmsg)
| DStruct (words : nat) (b : list Z)
| DAttr (Type_ : Z) (Data : option (list Z)) (children : list request_data).

Definition NewRtAttr (attrType : Z) (data : option (list Z)) : request_data :=
  DAttr (uint_n 2 attrType) data [].

(** NewRtAttrChild and NewIfInfomsgChild: append to the children of an attribute. *)
Definition add_child (parent child : request_data) : request_data :=
  match parent with
  | DAttr t d cs => DAttr t d (cs ++ [child])
  | p => p
  end.

Definition bytes_of (d : option (list Z)) : list Z := default [] d.

Fixpoint data_Len (d : request_data) : nat :=
  match d with
  | DIfInfo _ => SizeofIfInfomsg
  | DIfAddr _ => SizeofIfAddrmsg
  | DRtMsg _ => SizeofRtMsg
  | DNdmsg _ => SizeofNdmsg
  | DStruct words _ => 4 * words
  | DAttr _ data [] => SizeofRtAttr + length (bytes_of data)
  | DAttr _ data children =>
      let l := fold_left (fun l child => l + rtaAlignOf (data_Len child)) children 0 in
      rtaAlignOf (l + SizeofRtAttr + length (bytes_of data))
  end.

(** The two loops of RtAttr.Serialize: the buffer and the position in it. *)
Definition put_child (st : list Z * nat) (childBuf : list Z) : list Z * nat :=
  let '(buf, next) := st in
  (copy_at buf next childBuf, next + rtaAlignOf (length childBuf)).

Fixpoint data_Serialize (d : request_data) : list Z :=
  match d with
  | DIfInfo m => IfInfomsg_Serialize m
  | DIfAddr m => IfAddrmsg_Serialize m
  | DRtMsg m => RtMsg_Serialize m
  | DNdmsg m => Ndmsg_Serialize m
  | DStruct words b => resize (4 * words) 0%Z b
  | DAttr ty data children =>
      let length_ := data_Len d in
      let buf := replicate (rtaAlignOf length_) 0%Z in
      let '(buf, next) := match data with
                          | Some b => (copy_at buf 4 b, 4 + rtaAlignOf (length b))
                          | None => (buf, 4)
                          end in
      let '(buf, _) := fold_left put_child (map data_Serialize children) (buf, next) in
      let l := uint_n 2 (Z.of_nat length_) in
      let buf := if (l =? 0)%Z then buf else copy_at buf 0 (put_uint 2 l) in
      copy_at buf 2 (put_uint 2 ty)
  end.

(** * Requests *)

Record NetlinkRequest : Type := mkRequest {
  hdr_Type : Z; hdr_Flags : Z; hdr_Seq : Z; hdr_Pid : Z; req_Data : list request_data }.

Definition SizeofNlMsghdr : nat := 16.
Definition NLM_F_REQUEST : Z := 0x1.
Definition NLM_F_MULTI : Z := 0x2.
Definition NLM_F_ACK : Z := 0x4.
Definition NLM_F_DUMP : Z := 0x300.
Definition NLM_F_EXCL : Z := 0x200.
Definition NLM_F_CREATE : Z := 0x400.
Definition NLMSG_ERROR : Z := 0x2.
Definition NLMSG_DONE : Z := 0x3.

(** [seq] is the value AddUint32 returned. *)
Definition NewNetlinkRequest (proto flags seq : Z) : NetlinkRequest :=
  mkRequest (uint_n 2 proto) (Z.lor NLM_F_REQUEST (uint_n 2 flags)) seq 0 [].

Definition AddData (req : NetlinkRequest) (data : request_data) : NetlinkRequest :=
  mkRequest (hdr_Type req) (hdr_Flags req) (hdr_Seq req) (hdr_Pid req) (req_Data req ++ [data]).

Definition header_bytes (len ty flags seq pid : Z) : list Z :=
  put_uint 4 len ++ put_uint 2 ty ++ put_uint 2 flags ++ put_uint 4 seq ++ put_uint 4 pid.

Definition NetlinkRequest_Serialize (req : NetlinkRequest) : list Z :=
  let dataBytes := map data_Serialize (req_Data req) in
  let length_ := fold_left (fun n d => n + length d) dataBytes SizeofNlMsghdr in
  header_bytes (uint_n 4 (Z.of_nat length_)) (hdr_Type req) (hdr_Flags req) (hdr_Seq req) (hdr_Pid req)
  ++ concat dataBytes.

(** * Attribute values *)

Definition str_bytes (s : string) : list Z :=
  map (fun a => Z.of_N (N_of_ascii a)) (list_ascii_of_string s).
Definition bytes_str (l : list Z) : string :=
  string_of_list_ascii (map (fun z => ascii_of_N (Z.to_N z)) l).

Definition ZeroTerminated (s : string) : list Z := str_bytes s ++ [0%Z].
Definition NonZeroTerminated (s : string) : list Z := str_bytes s.

Fixpoint index_zero (b : list Z) : option nat :=
  match b with
  | [] => None
  | z :: b' => if (z =? 0)%Z then Some 0 else S <$> index_zero b'
  end.

(** With no zero byte the index is -1 and the slice expression panics. *)
Definition BytesToString (b : list Z) : outcome string :=
  match index_zero b with
  | Some n => Returned (bytes_str (take n b))
  | None => slice_panic
  end.

Definition Uint8Attr (v : Z) : list Z := [v].
Definition Uint16Attr (v : Z) : list Z := put_uint 2 v.
Definition Uint32Attr (v : Z) : list Z := put_uint 4 v.

(** * Parsing *)

Definition EINVAL : Z := 22.
Definition ENODEV : Z := 19.

Record RouteAttr : Type := mkAttr { attr_Type : Z; attr_Value : slice }.

(** [Some] of an attribute with the aligned length, [None] for EINVAL. *)
Definition netlinkRouteAttrAndValue (b : slice) : outcome (option (Z * Z * slice * nat)) :=
  let a_Len := get_uint (take 2 (items b)) in
  let a_Type := get_uint (take 2 (drop 2 (items b))) in
  if ((a_Len <? Z.of_nat SizeofRtAttr) || (Z.of_nat (length (items b)) <? a_Len))%Z
  then Returned None
  else
    let? vbuf := sub_from b SizeofRtAttr in
    Returned (Some (a_Len, a_Type, vbuf, rtaAlignOf (Z.to_nat a_Len))).

(** The fuel is the number of bytes: every attribute takes at least four. *)
Fixpoint parse_attrs (fuel : nat) (b : slice) : outcome (option (list RouteAttr)) :=
  match fuel with
  | O => Returned (Some [])
  | S fuel' =>
      if length (items b) <? SizeofRtAttr then Returned (Some [])
      else
        let? r := netlinkRouteAttrAndValue b in
        match r with
        | None => Returned None
        | Some (a_Len, a_Type, vbuf, alen) =>
            let? v := sub vbuf 0 (Z.to_nat a_Len - SizeofRtAttr) in
            let? rest := sub_from b alen in
            let? attrs := parse_attrs fuel' rest in
            Returned (option_map (cons (mkAttr a_Type v)) attrs)
        end
  end.

Definition ParseRouteAttr (b : slice) : outcome (option (list RouteAttr)) :=
  parse_attrs (length (items b)) b.

(** syscall.ParseNetlinkMessage: header and data of each message; [None] is EINVAL.
    A message must fit with the padding after it. *)
Record NetlinkMessage : Type := mkMessage {
  m_Type : Z; m_Flags : Z; m_Seq : Z; m_Pid : Z; m_Data : slice }.

Fixpoint parse_messages (fuel : nat) (b : slice) : option (list NetlinkMessage) :=
  match fuel with
  | O => Some []
  | S fuel' =>
      let l := items b in
      if length l <? SizeofNlMsghdr then Some []
      else
        let len := Z.to_nat (get_uint (take 4 l)) in
        if (len <? SizeofNlMsghdr) || (length l <? rtaAlignOf len) then None
        else
          let body := drop SizeofNlMsghdr l in
          let m := mkMessage (get_uint (take 2 (drop 4 l))) (get_uint (take 2 (drop 6 l)))
                             (get_uint (take 4 (drop 8 l))) (get_uint (take 4 (drop 12 l)))
                             (mkSlice (take (len - SizeofNlMsghdr) body)
                                      (drop (len - SizeofNlMsghdr) body ++ spare b)) in
          ms ← parse_messages fuel' (mkSlice (drop (rtaAlignOf len) l) (spare b));
          Some (m :: ms)
  end.

Definition ParseNetlinkMessage (b : slice) : option (list NetlinkMessage) :=
  parse_messages (length (items b)) b.

End nl.

(** * Lemmas on integers and alignment *)

Lemma length_le_bytes n v : length (le_bytes n v) = n.
Proof. revert v. induction n as [|n IH]; intros v; simpl; [done|]. by rewrite IH. Qed.

Lemma le_val_le_bytes n v : le_val (le_bytes n v) = uint_n n v.
Proof.
  revert v. induction n as [|n IH]; intros v; unfold uint_n in *; cbn [le_bytes le_val].
  - by rewrite Z.mod_1_r.
  - rewrite IH. rewrite Nat2Z.inj_succ, Z.pow_succ_r by lia.
    rewrite Z.rem_mul_r; lia.
Qed.

Lemma le_bytes_uint_n n v : le_bytes n (uint_n n v) = le_bytes n v.
Proof.
  revert v. induction n as [|n IH]; intros v; unfold uint_n in *; cbn [le_bytes]; [done|].
  rewrite Nat2Z.inj_succ, Z.pow_succ_r by lia.
  rewrite Z.rem_mul_r by lia. f_equal.
  - rewrite Z.mul_comm, Z.mod_add by lia. apply Z.mod_mod. lia.
  - rewrite (Z.mul_comm 256), Z.div_add by lia.
    rewrite (Z.div_small (v mod 256)) by (apply Z.mod_pos_bound; lia). apply IH.
Qed.

Lemma uint_n_small n v : (0 <= v < 256 ^ Z.of_nat n)%Z -> uint_n n v = v.
Proof. apply Z.mod_small. Qed.

Lemma uint4_small v : (0 <= v < 2 ^ 32)%Z -> uint_n 4 v = v.
Proof. intros Hv. apply uint_n_small. change (256 ^ Z.of_nat 4)%Z with (2 ^ 32)%Z. lia. Qed.

Lemma uint_n_idem n v : uint_n n (uint_n n v) = uint_n n v.
Proof. unfold uint_n. apply Z.mod_mod. lia. Qed.

Lemma rtaAlignOf_eq n : rtaAlignOf n = 4 * ((n + 3) / 4).
Proof.
  unfold rtaAlignOf, RTA_ALIGNTO.
  replace (Z.of_nat n + 4 - 1)%Z with (Z.of_nat (n + 3)) by lia.
  change (Z.lnot (4 - 1)) with (Z.lnot (Z.ones 2)).
  rewrite <- Z.ldiff_land, Z.ldiff_ones_r by lia.
  rewrite Z.shiftl_mul_pow2, Z.shiftr_div_pow2 by lia.
  change (2 ^ 2)%Z with (Z.of_nat 4). rewrite <- Nat2Z.inj_div, <- Nat2Z.inj_mul, Nat2Z.id. lia.
Qed.

Lemma rtaAlignOf_bounds n : n <= rtaAlignOf n < n + 4.
Proof.
  rewrite rtaAlignOf_eq. pose proof (Nat.div_mod_eq (n + 3) 4).
  pose proof (Nat.mod_upper_bound (n + 3) 4). lia.
Qed.

Lemma rtaAlignOf_mul k : rtaAlignOf (4 * k) = 4 * k.
Proof.
  rewrite rtaAlignOf_eq. f_equal.
  rewrite Nat.add_comm, Nat.mul_comm, Nat.div_add by lia. done.
Qed.

Lemma rtaAlignOf_add_mul k n : rtaAlignOf (4 * k + n) = 4 * k + rtaAlignOf n.
Proof.
  rewrite !rtaAlignOf_eq. rewrite <- Nat.add_assoc, Nat.add_comm, (Nat.mul_comm 4 k), Nat.div_add by lia.
  lia.
Qed.

Lemma rtaAlignOf_is_mul n : exists k, rtaAlignOf n = 4 * k.
Proof. rewrite rtaAlignOf_eq. by eexists. Qed.

Lemma rtaAlignOf_idem n : rtaAlignOf (rtaAlignOf n) = rtaAlignOf n.
Proof. destruct (rtaAlignOf_is_mul n) as [k ->]. apply rtaAlignOf_mul. Qed.

(** * The layout of a request *)

Lemma request_data_nested_ind (P : request_data -> Prop) :
  (forall m, P (DIfInfo m)) -> (forall m, P (DIfAddr m)) ->
  (forall m, P (DRtMsg m)) -> (forall m, P (DNdmsg m)) -> (forall k b, P (DStruct k b)) ->
  (forall t d cs, Forall P cs -> P (DAttr t d cs)) ->
  forall d, P d.
Proof.
  intros HI HA HR HN HS HD. fix IH 1.
  intros [m|m|m|m|k b|t d cs]; [apply HI|apply HA|apply HR|apply HN|apply HS|].
  apply HD. induction cs as [|c cs IHcs]; constructor; [apply IH|apply IHcs].
Qed.

Lemma length_copy_at buf next src :
  next + length src <= length buf -> length (copy_at buf next src) = length buf.
Proof. intros H. unfold copy_at. rewrite !length_app, !length_take, length_drop. lia. Qed.

(** Writing in front of what is not yet written. *)
Lemma copy_at_app done_ src (rest : list Z) :
  length src <= length rest ->
  copy_at (done_ ++ rest) (length done_) src = done_ ++ src ++ drop (length src) rest.
Proof.
  intros H. unfold copy_at. rewrite take_app_length, length_app.
  rewrite take_ge by lia. f_equal. f_equal.
  by rewrite <- drop_drop, drop_app_length.
Qed.

Lemma drop_zeros n m : drop n (replicate m 0%Z) = replicate (m - n) 0%Z.
Proof. apply drop_replicate. Qed.

Section layout.
Context {E : Endian}.

Lemma length_put_uint n v : length (put_uint n v) = n.
Proof. unfold put_uint. destruct big_endian; rewrite ?length_rev; apply length_le_bytes. Qed.

Lemma get_put_uint n v : get_uint (put_uint n v) = uint_n n v.
Proof.
  unfold get_uint, put_uint. destruct big_endian; rewrite ?rev_involutive; apply le_val_le_bytes.
Qed.

Lemma put_uint_uint_n n v : put_uint n (uint_n n v) = put_uint n v.
Proof. unfold put_uint. by rewrite le_bytes_uint_n. Qed.

Lemma put_uint_zero n : put_uint n 0 = replicate n 0%Z.
Proof.
  assert (H : le_bytes n 0 = replicate n 0%Z) by (induction n; simpl; [done|by f_equal]).
  unfold put_uint. rewrite H. destruct big_endian; [|done].
  clear H. induction n as [|n IH]; [done|].
  rewrite replicate_S_end at 1. rewrite rev_app_distr. simpl. by rewrite IH.
Qed.

(** Bytes followed by zeros up to a multiple of four. *)
Definition padded (b : list Z) : list Z := b ++ replicate (rtaAlignOf (length b) - length b) 0%Z.

(** What an attribute should be on the wire: its length and type, its data padded, and its
    children padded, one after the other. *)
Fixpoint layout (d : request_data) : list Z :=
  match d with
  | DIfInfo m => IfInfomsg_Serialize m
  | DIfAddr m => IfAddrmsg_Serialize m
  | DRtMsg m => RtMsg_Serialize m
  | DNdmsg m => Ndmsg_Serialize m
  | DStruct words b => resize (4 * words) 0%Z b
  | DAttr ty data children =>
      put_uint 2 (Z.of_nat (data_Len d)) ++ put_uint 2 ty
      ++ padded (bytes_of data) ++ concat (map (fun c => padded (layout c)) children)
  end.

Lemma length_padded b : length (padded b) = rtaAlignOf (length b).
Proof.
  unfold padded. rewrite length_app, length_replicate.
  pose proof (rtaAlignOf_bounds (length b)). lia.
Qed.

(** The bytes of the children, in the order of the loop. *)
Definition children_len (cs : list request_data) : nat :=
  fold_left (fun l c => l + rtaAlignOf (data_Len c)) cs 0.

Lemma children_len_acc cs n :
  fold_left (fun l c => l + rtaAlignOf (data_Len c)) cs n = n + children_len cs.
Proof.
  unfold children_len. revert n. induction cs as [|c cs IH]; intros n; simpl; [lia|].
  rewrite IH, (IH (rtaAlignOf _)). lia.
Qed.

Lemma children_len_cons c cs : children_len (c :: cs) = rtaAlignOf (data_Len c) + children_len cs.
Proof. unfold children_len at 1. simpl. by rewrite children_len_acc. Qed.

Lemma children_len_mul cs : exists k, children_len cs = 4 * k.
Proof.
  induction cs as [|c cs [k IH]]; [by exists 0|].
  rewrite children_len_cons, IH. destruct (rtaAlignOf_is_mul (data_Len c)) as [j ->].
  exists (j + k). lia.
Qed.

(** The room an attribute takes: header, padded data and children. *)
Lemma data_Len_align t data cs :
  rtaAlignOf (data_Len (DAttr t data cs))
  = 4 + rtaAlignOf (length (bytes_of data)) + children_len cs.
Proof.
  destruct cs as [|c cs]; cbn [data_Len].
  - change (rtaAlignOf (4 * 1 + length (bytes_of data)) = 4 + rtaAlignOf (length (bytes_of data)) + 0).
    rewrite rtaAlignOf_add_mul. lia.
  - fold (children_len (c :: cs)). rewrite rtaAlignOf_idem.
    destruct (children_len_mul (c :: cs)) as [k ->]. unfold SizeofRtAttr.
    replace (4 * k + 4 + length (bytes_of data)) with (4 * (k + 1) + length (bytes_of data)) by lia.
    rewrite rtaAlignOf_add_mul. lia.
Qed.

Lemma data_Len_ge t data cs : 4 <= data_Len (DAttr t data cs).
Proof.
  destruct cs as [|c cs]; cbn [data_Len]; unfold SizeofRtAttr; [lia|].
  etransitivity; [|apply rtaAlignOf_bounds]. lia.
Qed.

Lemma length_concat_padded cs :
  Forall (fun c => rtaAlignOf (length (layout c)) = rtaAlignOf (data_Len c)) cs ->
  length (concat (map (fun c => padded (layout c)) cs)) = children_len cs.
Proof.
  induction 1 as [|c cs Hc _ IH]; [done|].
  rewrite children_len_cons. cbn [map concat]. by rewrite length_app, length_padded, IH, Hc.
Qed.

(** Every piece of a request takes its length, rounded up. *)
Lemma length_layout d : length (layout d) = rtaAlignOf (data_Len d).
Proof.
  induction d as [m|m|m|m|k b|t data cs IH] using request_data_nested_ind.
  - cbn [layout]. unfold IfInfomsg_Serialize. by rewrite !length_app, !length_put_uint.
  - cbn [layout]. unfold IfAddrmsg_Serialize. by rewrite !length_app, !length_put_uint.
  - cbn [layout]. unfold RtMsg_Serialize. by rewrite !length_app, !length_put_uint.
  - cbn [layout]. unfold Ndmsg_Serialize. by rewrite !length_app, !length_put_uint.
  - cbn [layout data_Len]. by rewrite length_resize, rtaAlignOf_mul.
  - rewrite data_Len_align. cbn [layout].
    rewrite !length_app, !length_put_uint, length_padded, length_concat_padded; [lia|].
    eapply Forall_impl; [exact IH|]. simpl. intros c ->. apply rtaAlignOf_idem.
Qed.

Lemma padded_layout d : padded (layout d) = layout d.
Proof.
  unfold padded. rewrite length_layout, rtaAlignOf_idem, Nat.sub_diag. apply app_nil_r.
Qed.

Lemma concat_padded_layout ds : concat (map (fun c => padded (layout c)) ds) = concat (map layout ds).
Proof. f_equal. apply map_ext. apply padded_layout. Qed.

(** Writing a piece into a buffer of zeros pads it. *)
Lemma copy_at_zeros done_ src m :
  rtaAlignOf (length src) <= m ->
  copy_at (done_ ++ replicate m 0%Z) (length done_) src
  = (done_ ++ padded src) ++ replicate (m - rtaAlignOf (length src)) 0%Z.
Proof.
  intros Hm. pose proof (rtaAlignOf_bounds (length src)).
  rewrite copy_at_app by (rewrite length_replicate; lia).
  rewrite drop_zeros. unfold padded. rewrite <- !app_assoc. do 2 f_equal.
  rewrite <- replicate_add. f_equal. lia.
Qed.

Lemma put_children_spec bufs done_ m :
  length (concat (map padded bufs)) <= m ->
  fold_left put_child bufs (done_ ++ replicate m 0%Z, length done_)
  = (done_ ++ concat (map padded bufs) ++ replicate (m - length (concat (map padded bufs))) 0%Z,
     length done_ + length (concat (map padded bufs))).
Proof.
  revert done_ m. induction bufs as [|b bufs IH]; intros done_ m; cbn [map concat fold_left put_child].
  - intros _. cbn [length app]. by rewrite Nat.sub_0_r, Nat.add_0_r.
  - rewrite length_app, length_padded. intros Hm.
    rewrite copy_at_zeros by lia.
    replace (length done_ + rtaAlignOf (length b)) with (length (done_ ++ padded b))
      by (by rewrite length_app, length_padded).
    rewrite IH by lia. rewrite <- !app_assoc, length_app, length_padded.
    f_equal; [|lia]. do 4 f_equal. lia.
Qed.

(** The header is written over the first four zeros. *)
Lemma put_header_spec rest length_ ty :
  (let l := uint_n 2 length_ in
   let buf := replicate 4 0%Z ++ rest in
   let buf := if (l =? 0)%Z then buf else copy_at buf 0 (put_uint 2 l) in
   copy_at buf 2 (put_uint 2 ty))
  = put_uint 2 length_ ++ put_uint 2 ty ++ rest.
Proof.
  cbv zeta.
  assert (Hb : (if (uint_n 2 length_ =? 0)%Z then replicate 4 0%Z ++ rest
                else copy_at (replicate 4 0%Z ++ rest) 0 (put_uint 2 (uint_n 2 length_)))
               = put_uint 2 length_ ++ replicate 2 0%Z ++ rest).
  { destruct (Z.eqb_spec (uint_n 2 length_) 0) as [E0|_].
    - rewrite <- (put_uint_uint_n 2 length_), E0, put_uint_zero. done.
    - rewrite put_uint_uint_n. rewrite (copy_at_app [] _ (replicate 4 0%Z ++ rest)).
      + rewrite length_put_uint. done.
      + rewrite length_put_uint. simpl. lia. }
  rewrite Hb.
  pose proof (copy_at_app (put_uint 2 length_) (put_uint 2 ty) (replicate 2 0%Z ++ rest)) as Hc.
  rewrite !length_put_uint in Hc. rewrite Hc by (simpl; lia). done.
Qed.

(** Data that is nil and data that is empty are written alike. *)
Lemma put_data_spec data m :
  rtaAlignOf (length (bytes_of data)) <= m ->
  match data with
  | Some b => (copy_at (replicate 4 0%Z ++ replicate m 0%Z) 4 b, 4 + rtaAlignOf (length b))
  | None => (replicate 4 0%Z ++ replicate m 0%Z, 4)
  end
  = ((replicate 4 0%Z ++ padded (bytes_of data))
       ++ replicate (m - rtaAlignOf (length (bytes_of data))) 0%Z,
     length (replicate 4 0%Z ++ padded (bytes_of data))).
Proof.
  intros Hm. rewrite length_app, length_padded. destruct data as [b|].
  - f_equal. by rewrite <- (copy_at_zeros (replicate 4 0%Z)).
  - change (rtaAlignOf (length (bytes_of None))) with 0. by rewrite Nat.sub_0_r.
Qed.

Lemma data_Serialize_layout d : data_Serialize d = layout d.
Proof.
  induction d as [m|m|m|m|k b|t data cs IH] using request_data_nested_ind; [done|done|done|done|done|].
  assert (Hcs : map data_Serialize cs = map layout cs).
  { clear t data. induction IH as [|c cs Hc _ IHcs]; [done|]. simpl. by rewrite Hc, IHcs. }
  assert (Hlen : length (concat (map padded (map layout cs))) = children_len cs).
  { rewrite map_map. apply length_concat_padded. apply Forall_true. intros c.
    rewrite length_layout. apply rtaAlignOf_idem. }
  cbn [data_Serialize layout]. rewrite Hcs, data_Len_align.
  rewrite <- Nat.add_assoc, (replicate_add 4).
  rewrite put_data_spec by lia. rewrite put_children_spec by (rewrite Hlen; lia).
  rewrite Hlen. rewrite <- !app_assoc, put_header_spec, map_map. do 4 f_equal.
  match goal with |- _ ++ replicate ?n _ = _ => replace n with 0 by lia end. apply app_nil_r.
Qed.

End layout.

(** * Reading back what was written *)

Section reading.
Context {E : Endian}.

(** One attribute in front of a buffer. *)
Lemma parse_attrs_step fuel n t (p pad rest sp : list Z) :
  4 <= n -> (Z.of_nat n < 65536)%Z -> length p = n - 4 -> length pad = rtaAlignOf n - n ->
  parse_attrs (S fuel) (mkSlice (put_uint 2 (Z.of_nat n) ++ put_uint 2 t ++ p ++ pad ++ rest) sp)
  = obind (parse_attrs fuel (mkSlice rest sp)) (fun attrs =>
      Returned (option_map (cons (mkAttr (uint_n 2 t) (mkSlice p (pad ++ rest ++ sp)))) attrs)).
Proof.
  intros Hn Hn' Hp Hpad. pose proof (rtaAlignOf_bounds n) as Ha.
  cbn [parse_attrs]. unfold netlinkRouteAttrAndValue, SizeofRtAttr. cbn [items spare].
  set (b := put_uint 2 (Z.of_nat n) ++ put_uint 2 t ++ p ++ pad ++ rest).
  assert (Hlen : length b = rtaAlignOf n + length rest).
  { subst b. rewrite !length_app, !length_put_uint. lia. }
  assert (HL : get_uint (take 2 b) = Z.of_nat n).
  { subst b. rewrite take_app_length' by (by rewrite length_put_uint).
    rewrite get_put_uint. apply uint_n_small. change (256 ^ Z.of_nat 2)%Z with 65536%Z. lia. }
  assert (HT : get_uint (take 2 (drop 2 b)) = uint_n 2 t).
  { subst b. rewrite drop_app_length' by (by rewrite length_put_uint).
    rewrite take_app_length' by (by rewrite length_put_uint). apply get_put_uint. }
  assert (HV : drop 4 b = p ++ pad ++ rest).
  { subst b. rewrite (app_assoc (put_uint 2 _)), drop_app_length'; [done|].
    by rewrite length_app, !length_put_uint. }
  rewrite HL, HT.
  destruct (Nat.ltb_spec (length b) 4); [lia|].
  destruct (Z.ltb_spec (Z.of_nat n) (Z.of_nat 4)); [lia|].
  destruct (Z.ltb_spec (Z.of_nat (length b)) (Z.of_nat n)); [lia|]. cbn [orb].
  unfold sub_from at 1. cbn [items spare].
  destruct (Nat.leb_spec 4 (length b)); [|lia]. cbn [obind].
  rewrite HV, Nat2Z.id. unfold sub. cbn [items spare].
  rewrite !length_app.
  destruct (Nat.leb_spec (n - 4) (length p + (length pad + length rest) + length sp)); [|lia].
  cbn [andb Nat.leb obind]. rewrite Nat.sub_0_r, drop_0, <- !app_assoc.
  rewrite take_app_length', drop_app_length' by done.
  unfold sub_from. cbn [items spare].
  destruct (Nat.leb_spec (rtaAlignOf n) (length b)); [|lia]. cbn [obind].
  do 3 f_equal. subst b. rewrite !(app_assoc _ _ rest), app_assoc.
  apply drop_app_length'. rewrite !length_app, !length_put_uint. lia.
Qed.

(** What a reader should see of an attribute. *)
Definition payload (d : request_data) : list Z :=
  match d with
  | DAttr _ data [] => bytes_of data
  | DAttr _ data cs => padded (bytes_of data) ++ concat (map layout cs)
  | _ => []
  end.
Definition view_of (d : request_data) : Z * list Z :=
  match d with
  | DAttr t _ _ => (uint_n 2 t, payload d)
  | _ => (0%Z, [])
  end.
Definition attr_view (a : RouteAttr) : Z * list Z := (attr_Type a, items (attr_Value a)).

(** An attribute whose length fits its field. *)
Definition small_attr (d : request_data) : bool :=
  match d with
  | DAttr _ _ _ => (Z.of_nat (data_Len d) <? 65536)%Z
  | _ => false
  end.

Lemma layout_attr t data cs :
  exists pad,
    layout (DAttr t data cs)
    = put_uint 2 (Z.of_nat (data_Len (DAttr t data cs))) ++ put_uint 2 t
      ++ payload (DAttr t data cs) ++ pad
    /\ length (payload (DAttr t data cs)) = data_Len (DAttr t data cs) - 4
    /\ length pad = rtaAlignOf (data_Len (DAttr t data cs)) - data_Len (DAttr t data cs).
Proof.
  pose proof (length_layout (DAttr t data cs)) as HL.
  destruct cs as [|c cs].
  - exists (replicate (rtaAlignOf (length (bytes_of data)) - length (bytes_of data)) 0%Z).
    cbn [layout payload map concat]. rewrite app_nil_r. split; [done|].
    rewrite length_replicate. rewrite data_Len_align. cbn [data_Len].
    unfold SizeofRtAttr. change (children_len []) with 0. lia.
  - exists []. cbn [layout payload]. rewrite concat_padded_layout, app_nil_r. split; [done|].
    assert (Hd : rtaAlignOf (data_Len (DAttr t data (c :: cs))) = data_Len (DAttr t data (c :: cs)))
      by (cbn [data_Len]; apply rtaAlignOf_idem).
    cbn [layout] in HL. rewrite concat_padded_layout in HL.
    rewrite !length_app, !length_put_uint in HL. rewrite length_app, Hd. cbn [length]. lia.
Qed.

Lemma parse_attrs_layout ds fuel sp :
  Forall small_attr ds -> length ds <= fuel ->
  exists attrs,
    parse_attrs fuel (mkSlice (concat (map layout ds)) sp) = Returned (Some attrs)
    /\ map attr_view attrs = map view_of ds.
Proof.
  revert fuel. induction ds as [|d ds IH]; intros fuel Hs Hf; cbn [map concat].
  - exists []. destruct fuel; done.
  - apply Forall_cons in Hs as [Hd Hs]. cbn [length] in Hf.
    destruct fuel as [|fuel]; [lia|].
    destruct d as [m|m|m|m|k b|t data cs]; [done|done|done|done|done|].
    destruct (layout_attr t data cs) as (pad & Hlay & Hp & Hpad).
    destruct (IH fuel Hs ltac:(lia)) as (attrs & Hparse & Hview).
    apply Is_true_true, Z.ltb_lt in Hd. pose proof (data_Len_ge t data cs).
    rewrite Hlay, <- !app_assoc, parse_attrs_step by (done || lia).
    rewrite Hparse. cbn [obind option_map]. eexists; split; [done|].
    cbn [map]. by rewrite Hview.
Qed.

Lemma ParseRouteAttr_layout ds sp :
  Forall small_attr ds ->
  exists attrs,
    ParseRouteAttr (mkSlice (concat (map layout ds)) sp) = Returned (Some attrs)
    /\ map attr_view attrs = map view_of ds.
Proof.
  intros Hs. apply parse_attrs_layout; [done|]. cbn [items].
  induction Hs as [|d ds Hd _ IH]; [done|]. cbn [map concat length].
  rewrite length_app, length_layout.
  destruct d as [m|m|m|m|k b|t data cs]; [done|done|done|done|done|].
  pose proof (data_Len_ge t data cs). pose proof (rtaAlignOf_bounds (data_Len (DAttr t data cs))). lia.
Qed.

(** ** Fixed-size messages *)

Lemma put_field n v (l : list Z) : take n (put_uint n v ++ l) = put_uint n v.
Proof. apply take_app_length'. by rewrite length_put_uint. Qed.

Lemma skip_field k n v (l : list Z) : n <= k -> drop k (put_uint n v ++ l) = drop (k - n) l.
Proof.
  intros Hk. rewrite drop_app, length_put_uint, drop_ge; [done|]. rewrite length_put_uint. lia.
Qed.

Lemma put_field_last n v : take n (put_uint n v) = put_uint n v.
Proof. rewrite <- (app_nil_r (put_uint n v)) at 1. apply put_field. Qed.

Lemma sub_prefix (l r sp : list Z) n :
  length l = n -> sub (mkSlice (l ++ r) sp) 0 n = Returned (mkSlice l (r ++ sp)).
Proof.
  intros <-. unfold sub. cbn [items spare Nat.leb andb]. rewrite !length_app.
  destruct (Nat.leb_spec (length l) (length l + length r + length sp)); [|lia].
  rewrite Nat.sub_0_r, drop_0, <- !app_assoc, take_app_length, drop_app_length. done.
Qed.

Lemma int32_uint v : (- 2 ^ 31 <= v < 2 ^ 31)%Z -> int32 (uint_n 4 v) = v.
Proof.
  intros Hv. unfold int32, uint_n. change (256 ^ Z.of_nat 4)%Z with (2 ^ 32)%Z.
  rewrite Z.mod_mod by lia. destruct (Z.ltb_spec v 0) as [Hneg|Hpos].
  - replace (v mod 2 ^ 32)%Z with (v + 2 ^ 32)%Z by (apply (Z.mod_unique _ _ (-1)); lia).
    destruct (Z.ltb_spec (v + 2 ^ 32) (2 ^ 31)); lia.
  - rewrite Z.mod_small by lia. destruct (Z.ltb_spec v (2 ^ 31)); lia.
Qed.

(** Reads the fields of a message written field by field. *)
Ltac read_fields :=
  repeat first [ progress cbn [Nat.sub app items obind] | rewrite drop_0 | rewrite skipn_cons
               | rewrite skip_field by lia
               | rewrite put_field | rewrite put_field_last | rewrite get_put_uint
               | rewrite int32_uint by lia ];
  rewrite ?uint_n_small by (cbn; lia).

(** The fields of an interface message, and of an address message, are in range. *)
Definition wf_IfInfomsg (m : IfInfomsg) : Prop :=
  (0 <= if_Family m < 256 /\ 0 <= if_Type m < 65536 /\ - 2 ^ 31 <= if_Index m < 2 ^ 31
   /\ 0 <= if_Flags m < 2 ^ 32 /\ 0 <= if_Change m < 2 ^ 32)%Z.
Definition wf_IfAddrmsg (m : IfAddrmsg) : Prop :=
  (0 <= ifa_Family m < 256 /\ 0 <= ifa_Prefixlen m < 256 /\ 0 <= ifa_Flags m < 256
   /\ 0 <= ifa_Scope m < 256 /\ 0 <= ifa_Index m < 2 ^ 32)%Z.

Lemma IfInfomsg_roundtrip m rest sp :
  wf_IfInfomsg m ->
  DeserializeIfInfomsg (mkSlice (IfInfomsg_Serialize m ++ rest) sp) = Returned m.
Proof.
  destruct m as [fam ty ix fl ch]. intros (H1 & H2 & H3 & H4 & H5). cbn in H1, H2, H3, H4, H5.
  unfold DeserializeIfInfomsg.
  rewrite sub_prefix by (unfold IfInfomsg_Serialize; by rewrite !length_app, !length_put_uint).
  unfold IfInfomsg_Serialize. cbn [if_Family if_Type if_Index if_Flags if_Change obind items].
  read_fields. done.
Qed.

Lemma IfAddrmsg_roundtrip m rest sp :
  wf_IfAddrmsg m ->
  DeserializeIfAddrmsg (mkSlice (IfAddrmsg_Serialize m ++ rest) sp) = Returned m.
Proof.
  destruct m as [fam pl fl sc ix]. intros (H1 & H2 & H3 & H4 & H5). cbn in H1, H2, H3, H4, H5.
  unfold DeserializeIfAddrmsg.
  rewrite sub_prefix by (unfold IfAddrmsg_Serialize; by rewrite !length_app, !length_put_uint).
  unfold IfAddrmsg_Serialize. cbn [ifa_Family ifa_Prefixlen ifa_Flags ifa_Scope ifa_Index obind items].
  read_fields. done.
Qed.

Definition wf_RtMsg (m : RtMsg) : Prop :=
  (0 <= rt_Family m < 256 /\ 0 <= rt_Dst_len m < 256 /\ 0 <= rt_Src_len m < 256
   /\ 0 <= rt_Tos m < 256 /\ 0 <= rt_Table m < 256 /\ 0 <= rt_Protocol m < 256
   /\ 0 <= rt_Scope m < 256 /\ 0 <= rt_Type m < 256 /\ 0 <= rt_Flags m < 2 ^ 32)%Z.
Definition wf_Ndmsg (m : Ndmsg) : Prop :=
  (0 <= nd_Family m < 256 /\ 0 <= nd_Index m < 2 ^ 32 /\ 0 <= nd_State m < 65536
   /\ 0 <= nd_Flags m < 256 /\ 0 <= nd_Type m < 256)%Z.

Lemma RtMsg_roundtrip m rest sp :
  wf_RtMsg m -> DeserializeRtMsg (mkSlice (RtMsg_Serialize m ++ rest) sp) = Returned m.
Proof.
  destruct m as [a b c d e f g h i]. unfold wf_RtMsg.
  cbn [rt_Family rt_Dst_len rt_Src_len rt_Tos rt_Table rt_Protocol rt_Scope rt_Type rt_Flags].
  intros Hm. destruct_and! Hm. unfold DeserializeRtMsg.
  rewrite sub_prefix by (unfold RtMsg_Serialize; by rewrite !length_app, !length_put_uint).
  unfold RtMsg_Serialize.
  cbn [rt_Family rt_Dst_len rt_Src_len rt_Tos rt_Table rt_Protocol rt_Scope rt_Type rt_Flags obind items].
  read_fields. done.
Qed.

Lemma Ndmsg_roundtrip m rest sp :
  wf_Ndmsg m -> deserializeNdmsg (mkSlice (Ndmsg_Serialize m ++ rest) sp) = Returned m.
Proof.
  destruct m as [a b c d e]. unfold wf_Ndmsg. cbn [nd_Family nd_Index nd_State nd_Flags nd_Type].
  intros Hm. destruct_and! Hm. unfold deserializeNdmsg.
  rewrite sub_prefix by (unfold Ndmsg_Serialize; by rewrite !length_app, !length_put_uint).
  unfold Ndmsg_Serialize. cbn [nd_Family nd_Index nd_State nd_Flags nd_Type obind items replicate].
  read_fields. done.
Qed.

(** ** Requests *)

Lemma fold_length (bs : list (list Z)) n :
  fold_left (fun n d => n + length d) bs n = n + length (concat bs).
Proof.
  revert n. induction bs as [|b bs IH]; intros n; simpl; [lia|]. rewrite IH, length_app. lia.
Qed.

(** The bytes a request carries after its header. *)
Definition request_body (req : NetlinkRequest) : list Z := concat (map layout (req_Data req)).

Lemma length_request_body_mul req : exists k, length (request_body req) = 4 * k.
Proof.
  unfold request_body. induction (req_Data req) as [|d ds [k IH]]; [by exists 0|].
  cbn [map concat]. rewrite length_app, IH, length_layout.
  destruct (rtaAlignOf_is_mul (data_Len d)) as [j ->]. exists (j + k). lia.
Qed.

Lemma NetlinkRequest_Serialize_eq req :
  NetlinkRequest_Serialize req
  = header_bytes (Z.of_nat (16 + length (request_body req))) (hdr_Type req) (hdr_Flags req)
                 (hdr_Seq req) (hdr_Pid req) ++ request_body req.
Proof.
  unfold NetlinkRequest_Serialize, request_body, SizeofNlMsghdr.
  rewrite (map_ext _ _ data_Serialize_layout), fold_length.
  unfold header_bytes. by rewrite put_uint_uint_n.
Qed.

(** A message in front of a buffer. *)
Lemma parse_messages_step fuel n ty fl sq pd (body pad rest sp : list Z) :
  length body = n -> length pad = rtaAlignOf n - n -> (Z.of_nat n < 2 ^ 31)%Z ->
  parse_messages (S fuel) (mkSlice (header_bytes (Z.of_nat (16 + n)) ty fl sq pd ++ body ++ pad ++ rest) sp)
  = ms ← parse_messages fuel (mkSlice rest sp);
    Some (mkMessage (uint_n 2 ty) (uint_n 2 fl) (uint_n 4 sq) (uint_n 4 pd)
                    (mkSlice body (pad ++ rest ++ sp)) :: ms).
Proof.
  intros Hb Hpad Hn. pose proof (rtaAlignOf_bounds n) as Ha.
  assert (H16 : rtaAlignOf (16 + n) = 16 + rtaAlignOf n) by apply (rtaAlignOf_add_mul 4).
  cbn [parse_messages]. unfold SizeofNlMsghdr. cbn [items spare].
  set (h := header_bytes (Z.of_nat (16 + n)) ty fl sq pd).
  assert (Hh : length h = 16) by (subst h; unfold header_bytes; by rewrite !length_app, !length_put_uint).
  assert (Hl : Z.to_nat (get_uint (take 4 (h ++ body ++ pad ++ rest))) = 16 + n).
  { subst h. unfold header_bytes. rewrite <- app_assoc. read_fields. lia. }
  rewrite Hl, !length_app, Hh.
  destruct (Nat.ltb_spec (16 + (length body + (length pad + length rest))) 16); [lia|].
  destruct (Nat.ltb_spec (16 + n) 16); [lia|].
  destruct (Nat.ltb_spec (16 + (length body + (length pad + length rest))) (rtaAlignOf (16 + n))); [lia|].
  cbn [orb]. rewrite H16.
  replace (drop 16 (h ++ body ++ pad ++ rest)) with (body ++ pad ++ rest)
    by (by rewrite drop_app_length').
  replace (drop (16 + rtaAlignOf n) (h ++ body ++ pad ++ rest)) with rest.
  2:{ rewrite !(app_assoc _ _ rest). symmetry. apply drop_app_length'.
      rewrite !length_app, Hh. lia. }
  replace (16 + n - 16) with n by lia.
  rewrite (take_app_length' body), (drop_app_length' body), <- app_assoc by lia.
  destruct (parse_messages fuel (mkSlice rest sp)); [|done]. cbn [mbind option_bind]. do 3 f_equal.
  all: subst h; unfold header_bytes; rewrite <- !app_assoc; read_fields; done.
Qed.

(** A serialized request is one message to its reader. *)
Lemma ParseNetlinkMessage_request req sp :
  (Z.of_nat (length (request_body req)) < 2 ^ 31)%Z ->
  ParseNetlinkMessage (mkSlice (NetlinkRequest_Serialize req) sp)
  = Some [mkMessage (uint_n 2 (hdr_Type req)) (uint_n 2 (hdr_Flags req)) (uint_n 4 (hdr_Seq req))
                    (uint_n 4 (hdr_Pid req)) (mkSlice (request_body req) sp)].
Proof.
  intros Hlen. unfold ParseNetlinkMessage. cbn [items].
  rewrite NetlinkRequest_Serialize_eq.
  set (h := header_bytes _ _ _ _ _).
  assert (Hf : exists f, length (h ++ request_body req) = S f).
  { rewrite length_app. subst h. unfold header_bytes. rewrite !length_app, !length_put_uint. by eexists. }
  destruct Hf as [f ->]. subst h.
  rewrite <- (app_nil_r (request_body req)) at 2.
  rewrite (parse_messages_step f _ _ _ _ _ (request_body req) [] []); [|done| |done].
  - by destruct f.
  - destruct (length_request_body_mul req) as [k ->]. rewrite rtaAlignOf_mul. simpl. lia.
Qed.

(** An attribute that ends the buffer without its padding. *)
Lemma parse_attrs_unpadded b sp :
  let n := Z.to_nat (get_uint (take 2 b)) in
  4 <= n -> n <= length b -> length b < rtaAlignOf n ->
  panics (ParseRouteAttr (mkSlice b sp)).
Proof.
  intros n H4 Hn Hb. unfold ParseRouteAttr. cbn [items].
  destruct (length b) as [|f] eqn:Hlen; [lia|].
  cbn [parse_attrs]. unfold netlinkRouteAttrAndValue, SizeofRtAttr. cbn [items spare]. rewrite Hlen.
  destruct (Nat.ltb_spec (S f) 4); [lia|].
  destruct (Z.ltb_spec (get_uint (take 2 b)) (Z.of_nat 4)); [lia|].
  destruct (Z.ltb_spec (Z.of_nat (S f)) (get_uint (take 2 b))); [lia|]. cbn [orb].
  unfold sub_from at 1. cbn [items spare]. rewrite Hlen.
  destruct (Nat.leb_spec 4 (S f)); [|lia]. cbn [obind].
  unfold sub. cbn [items spare]. rewrite length_app, length_drop, Hlen.
  destruct (Nat.leb_spec (Z.to_nat (get_uint (take 2 b)) - 4) (S f - 4 + length sp)); [|lia].
  cbn [Nat.leb andb obind]. unfold sub_from. cbn [items]. rewrite Hlen. fold n.
  destruct (Nat.leb_spec (rtaAlignOf n) (S f)); [lia|]. by eexists.
Qed.

End reading.

(** * What netlink messages are on the wire *)

(** The buffer RtAttr.Serialize fills, with its two loops, its positions and its
    special case for a length of zero, is the attribute's length and type, its data padded to
    a multiple of four bytes, and its children in order, each padded; the same holds for
    nested attributes of any depth and for both byte orders. *)
Theorem attr_Serialize_reference {E : Endian} (d : request_data) :
  data_Serialize d = layout d.
Proof. apply data_Serialize_layout. Qed.

(** C14: ParseRouteAttr reads back attributes written by Serialize: if every attribute's
    length fits in 16 bits, the parse succeeds and gives the types and the payloads in order
    (the data, or, for an attribute with children, the bytes its children were written as). *)
Theorem attrs_roundtrip {E : Endian} (ds : list request_data) (sp : list Z) :
  Forall small_attr ds ->
  exists attrs,
    ParseRouteAttr (mkSlice (concat (map data_Serialize ds)) sp) = Returned (Some attrs)
    /\ map attr_view attrs = map view_of ds.
Proof. rewrite (map_ext _ _ data_Serialize_layout). apply ParseRouteAttr_layout. Qed.

Lemma attrs_roundtrip_witness :
  exists attrs,
    @ParseRouteAttr false
      (mkSlice (concat (map (@data_Serialize false)
                            [NewRtAttr 3 (Some (ZeroTerminated "eth0"));
                             add_child (NewRtAttr 18 None) (NewRtAttr 1 (Some (NonZeroTerminated "veth")))])) [])
    = Returned (Some attrs)
    /\ map attr_view attrs = [(3%Z, [101; 116; 104; 48; 0]%Z); (18%Z, [8; 0; 1; 0; 118; 101; 116; 104]%Z)].
Proof.
  destruct (@attrs_roundtrip false
              [NewRtAttr 3 (Some (ZeroTerminated "eth0"));
               add_child (NewRtAttr 18 None) (NewRtAttr 1 (Some (NonZeroTerminated "veth")))] [])
    as (attrs & Hp & Hv).
  { repeat constructor. }
  exists attrs. split; [exact Hp|]. rewrite Hv. vm_compute. reflexivity.
Defined.

(** The bytes of a request are read by ParseNetlinkMessage as exactly one message, with
    the request's type, flags, sequence number and process id (at their widths), whose data
    are the serialized pieces of the request, in order, for requests of less than 2^31 bytes. *)
Theorem request_roundtrip {E : Endian} (req : NetlinkRequest) (sp : list Z) :
  (Z.of_nat (length (concat (map data_Serialize (req_Data req)))) < 2 ^ 31)%Z ->
  ParseNetlinkMessage (mkSlice (NetlinkRequest_Serialize req) sp)
  = Some [mkMessage (uint_n 2 (hdr_Type req)) (uint_n 2 (hdr_Flags req)) (uint_n 4 (hdr_Seq req))
                    (uint_n 4 (hdr_Pid req))
                    (mkSlice (concat (map data_Serialize (req_Data req))) sp)].
Proof. rewrite (map_ext _ _ data_Serialize_layout). apply ParseNetlinkMessage_request. Qed.

Lemma request_roundtrip_witness :
  @ParseNetlinkMessage true
    (mkSlice (@NetlinkRequest_Serialize true
                (AddData (NewNetlinkRequest 18 5 7) (NewRtAttr 3 (Some [97; 0]%Z)))) [])
  = Some [mkMessage 18 5 7 0 (mkSlice [0; 6; 0; 3; 97; 0; 0; 0]%Z [])].
Proof.
  rewrite (@request_roundtrip true
             (AddData (NewNetlinkRequest 18 5 7) (NewRtAttr 3 (Some [97; 0]%Z))) []).
  - vm_compute. reflexivity.
  - vm_compute. reflexivity.
Defined.

(** ParseRouteAttr crashes on a buffer that ends with an attribute whose padding is
    missing: the length of the attribute is within the buffer, so it is not refused with
    EINVAL, but its aligned length is not, and the next slice expression panics. *)
Theorem ParseRouteAttr_unpadded {E : Endian} (b sp : list Z) :
  4 <= Z.to_nat (get_uint (take 2 b)) ->
  Z.to_nat (get_uint (take 2 b)) <= length b ->
  length b < rtaAlignOf (Z.to_nat (get_uint (take 2 b))) ->
  panics (ParseRouteAttr (mkSlice b sp)).
Proof. apply parse_attrs_unpadded. Qed.

Lemma ParseRouteAttr_unpadded_witness :
  panics (@ParseRouteAttr false (mkSlice [5; 0; 1; 0; 7]%Z [])).
Proof. apply ParseRouteAttr_unpadded; vm_compute; lia. Defined.
