(* ===== verification/NlStruct.v ===== *)
(** The structs of vishvananda/netlink/nl that are sent and read by casting their memory
    (nl/tc_linux.go, nl/xfrm_linux.go, nl/xfrm_policy_linux.go, nl/xfrm_state_linux.go).

    A struct is described by its [shape], the fields in their order in memory with the
    padding the compiler puts between them. The interface [GoStruct] ties a record to a
    shape; [Serialize] and [Deserialize] are the two casts of the source, and their round
    trip is proved once for every struct. *)

From S2P Require Import Prelude NetIP Nl.

Local Open Scope go_scope.
Local Open Scope Z_scope.

(** * Shapes *)

(** Unsigned and signed integers of [n] bytes, an array of [n] bytes, [n] bytes of padding,
    and one part after the other. *)
Inductive shape : Type :=
| SU (n : nat)
| SI (n : nat)
| SBytes (n : nat)
| SPad (n : nat)
| SPair (s1 s2 : shape).

Declare Scope struct_scope.
Delimit Scope struct_scope with struct.
Notation "a +++ b" := (SPair a b) (at level 60, right associativity) : struct_scope.

Fixpoint sval (s : shape) : Type :=
  match s with
  | SU _ | SI _ => Z
  | SBytes _ => list Z
  | SPad _ => unit
  | SPair s1 s2 => sval s1 * sval s2
  end.

Fixpoint ssize (s : shape) : nat :=
  match s with
  | SU n | SI n | SBytes n | SPad n => n
  | SPair s1 s2 => ssize s1 + ssize s2
  end.

(** The two's complement reading of [n] bytes. *)
Definition sint (n : nat) (z : Z) : Z :=
  let u := uint_n n z in
  if u <? 2 ^ (8 * Z.of_nat n - 1) then u else u - 256 ^ Z.of_nat n.

Section shapes.
Context {E : Endian}.

Fixpoint sput (s : shape) : sval s -> list Z :=
  match s with
  | SU n | SI n => fun v => put_uint n v
  | SBytes n => fun b => resize n 0 b
  | SPad n => fun _ => replicate n 0
  | SPair s1 s2 => fun v => (sput s1 v.1 ++ sput s2 v.2)%list
  end.

(** The value at the start of the bytes. *)
Fixpoint sget (s : shape) (l : list Z) : sval s :=
  match s with
  | SU n => get_uint (take n l)
  | SI n => sint n (get_uint (take n l))
  | SBytes n => take n l
  | SPad _ => tt
  | SPair s1 s2 => (sget s1 l, sget s2 (drop (ssize s1) l))
  end.

End shapes.

(** The values of the Go types: integers in their range, arrays of their length. *)
Fixpoint sfits (s : shape) : sval s -> Prop :=
  match s with
  | SU n => fun v => 0 <= v < 256 ^ Z.of_nat n
  | SI n => fun v => - 2 ^ (8 * Z.of_nat n - 1) <= v < 2 ^ (8 * Z.of_nat n - 1)
  | SBytes n => fun b => length b = n
  | SPad _ => fun _ => True
  | SPair s1 s2 => fun v => sfits s1 v.1 /\ sfits s2 v.2
  end.

(** * The interface *)

Class GoStruct (A : Type) : Type := {
  the_shape : shape;
  to_fields : A -> sval the_shape;
  of_fields : sval the_shape -> A;
  of_to_fields a : of_fields (to_fields a) = a
}.

Arguments the_shape A {_}.

(** Solves [of_to_fields] of a record and of the records in it. *)
Ltac struct_law :=
  let x := fresh in intros x; destruct x; cbn;
  first [reflexivity | f_equal; match goal with |- _ = ?r => exact (of_to_fields r) end].

Definition Sizeof (A : Type) `{GoStruct A} : nat := ssize (the_shape A).

Section struct.
Context {E : Endian} {A : Type} `{GoStruct A}.

(** [( * ( *[SizeofA]byte)(unsafe.Pointer(x)))[:]] *)
Definition Serialize (a : A) : list Z := sput (the_shape A) (to_fields a).

(** [( *A)(unsafe.Pointer(&b[0:SizeofA][0]))]: the fields are read from the slice. *)
Definition Deserialize (b : slice) : outcome A :=
  let? s := sub b 0 (Sizeof A) in
  Returned (of_fields (sget (the_shape A) (items s))).

(** The struct as a part of a request. *)
Definition DataOf (a : A) : request_data := DStruct (Sizeof A / 4) (Serialize a).

Definition fits (a : A) : Prop := sfits (the_shape A) (to_fields a).

End struct.

(** * Round trip *)

Section roundtrip.
Context {E : Endian}.

Lemma length_sput s (v : sval s) : length (sput s v) = ssize s.
Proof.
  induction s as [n|n|n|n|s1 IH1 s2 IH2]; cbn.
  - apply length_put_uint.
  - apply length_put_uint.
  - apply length_resize.
  - apply length_replicate.
  - by rewrite length_app, IH1, IH2.
Qed.

Lemma sint_small n v :
  (0 < n)%nat -> - 2 ^ (8 * Z.of_nat n - 1) <= v < 2 ^ (8 * Z.of_nat n - 1) ->
  sint n (uint_n n v) = v.
Proof.
  intros Hn Hv. unfold sint. rewrite uint_n_idem. unfold uint_n.
  assert (256 ^ Z.of_nat n = 2 * 2 ^ (8 * Z.of_nat n - 1)) as Hp.
  { rewrite <- Z.pow_succ_r by lia. change 256 with (2 ^ 8). rewrite <- Z.pow_mul_r by lia.
    f_equal. lia. }
  rewrite Hp. destruct (Z.ltb_spec v 0) as [Hneg|Hpos].
  - replace (v mod _) with (v + 2 * 2 ^ (8 * Z.of_nat n - 1)) by (apply (Z.mod_unique _ _ (-1)); lia).
    destruct (Z.ltb_spec (v + 2 * 2 ^ (8 * Z.of_nat n - 1)) (2 ^ (8 * Z.of_nat n - 1))); lia.
  - rewrite Z.mod_small by lia. destruct (Z.ltb_spec v (2 ^ (8 * Z.of_nat n - 1))); lia.
Qed.

Lemma sget_sput s (v : sval s) rest : sfits s v -> sget s (sput s v ++ rest) = v.
Proof.
  revert rest. induction s as [n|n|n|n|s1 IH1 s2 IH2]; intros rest; cbn.
  - intros Hv. rewrite put_field, get_put_uint. by apply uint_n_small.
  - intros Hv. rewrite put_field, get_put_uint.
    destruct n as [|n]; [cbn in Hv; lia|]. apply sint_small; [lia|done].
  - intros Hb. rewrite resize_all_alt by done. by apply take_app_length'.
  - intros _. by destruct (v : unit).
  - destruct v as [v1 v2]. cbn. intros [H1 H2]. rewrite <- app_assoc, IH1 by done.
    rewrite drop_app_length' by (symmetry; apply length_sput). by rewrite IH2.
Qed.

Context {A : Type} `{GoStruct A}.

Lemma length_Serialize (a : A) : length (Serialize a) = Sizeof A.
Proof. apply length_sput. Qed.

(** A struct is read back from the bytes it was sent as, whatever follows them. *)
Lemma Deserialize_Serialize (a : A) rest sp :
  fits a -> Deserialize (mkSlice (Serialize a ++ rest) sp) = Returned a.
Proof.
  intros Ha. unfold Deserialize. rewrite sub_prefix by apply length_Serialize. cbn [obind items].
  rewrite <- (app_nil_r (Serialize a)). unfold Serialize. rewrite sget_sput by done.
  by rewrite of_to_fields.
Qed.

Lemma Deserialize_exact (a : A) (d : slice) :
  fits a -> items d = Serialize a -> Deserialize d = Returned a.
Proof.
  destruct d as [b sp]. cbn [items]. intros Ha ->. rewrite <- (app_nil_r (Serialize a)).
  by apply Deserialize_Serialize.
Qed.

(** Too few bytes are a panic. *)
Lemma Deserialize_short (b : slice) :
  (length (items b ++ spare b) < Sizeof A)%nat -> Deserialize (A := A) b = slice_panic.
Proof.
  intros Hb. unfold Deserialize, sub. cbn [Nat.leb andb].
  by destruct (Nat.leb_spec (Sizeof A) (length (items b ++ spare b))); [lia|].
Qed.

Lemma layout_DataOf (a : A) : (Sizeof A mod 4 = 0)%nat -> layout (DataOf a) = Serialize a.
Proof.
  intros Ha. unfold DataOf. cbn [layout].
  assert (4 * (Sizeof A / 4) = Sizeof A)%nat as ->
    by (pose proof (Nat.div_mod_eq (Sizeof A) 4); lia).
  rewrite <- (length_Serialize a). apply resize_all.
Qed.

Lemma layout_length_DataOf (a : A) : (length (layout (DataOf a)) <= Sizeof A)%nat.
Proof.
  unfold DataOf. cbn [layout]. rewrite length_resize.
  pose proof (Nat.div_mod_eq (Sizeof A) 4). lia.
Qed.

End roundtrip.
