(* ===== verification/NlTc.v ===== *)
(** vishvananda/netlink/nl, traffic control (nl/tc_linux.go): the structs of queueing
    disciplines, classes, filters and actions, and their numbers. Every struct is an
    instance of [GoStruct]; the selector of u32 filters carries keys after its header. *)

From S2P Require Import Prelude NetIP Nl NlStruct.

Local Open Scope go_scope.
Local Open Scope Z_scope.

(** * Numbers *)

Definition LINKLAYER_UNSPEC : Z := 0.
Definition LINKLAYER_ETHERNET : Z := 1.
Definition LINKLAYER_ATM : Z := 2.
Definition ATM_CELL_PAYLOAD : Z := 48.
Definition ATM_CELL_SIZE : Z := 53.
Definition TC_LINKLAYER_MASK : Z := 0x0F.
Definition TCA_POLICE_TBF : Z := 1.
Definition TCA_POLICE_RATE : Z := 2.
Definition TCA_POLICE_PEAKRATE : Z := 3.
Definition TCA_KIND : Z := 1.
Definition TCA_OPTIONS : Z := 2.
Definition TCA_ACT_TAB : Z := 1.
Definition TCA_TBF_PARMS : Z := 1.
Definition TCA_TBF_RATE64 : Z := 4.
Definition TCA_NETEM_CORR : Z := 1.
Definition TCA_NETEM_REORDER : Z := 3.
Definition TCA_NETEM_CORRUPT : Z := 4.
Definition TCA_HTB_PARMS : Z := 1.
Definition TCA_HTB_INIT : Z := 2.
Definition TCA_HTB_DIRECT_QLEN : Z := 5.
Definition TCA_U32_SEL : Z := 5.
Definition TCA_U32_ACT : Z := 7.
Definition TC_U32_TERMINAL : Z := 1.
Definition TCA_MIRRED_PARMS : Z := 2.
Definition TCA_EGRESS_REDIR : Z := 1.
Definition TC_ACT_STOLEN : Z := 4.
Definition TCA_FW_CLASSID : Z := 1.
Definition TCA_FW_POLICE : Z := 2.
Definition TCA_FW_INDEV : Z := 3.
Definition TCA_FW_MASK : Z := 5.

(** * Structs *)

Record TcMsg : Type := mkTcMsg {
  tcm_Family : Z; tcm_Ifindex : Z; tcm_Handle : Z; tcm_Parent : Z; tcm_Info : Z }.

#[export] Instance TcMsg_struct : GoStruct TcMsg := {|
  the_shape := (SU 1 +++ SPad 3 +++ SI 4 +++ SU 4 +++ SU 4 +++ SU 4)%struct;
  to_fields x := (tcm_Family x, (tt, (tcm_Ifindex x, (tcm_Handle x, (tcm_Parent x,
                 tcm_Info x)))));
  of_fields v := let '(f0, (_, (f2, (f3, (f4, f5))))) := v in mkTcMsg f0 f2 f3 f4 f5;
  of_to_fields := ltac:(struct_law) |}.

Definition TcMsg_Serialize `{Endian} : TcMsg -> list Z := Serialize.
Definition DeserializeTcMsg `{Endian} : slice -> outcome TcMsg := Deserialize.

Record TcActionMsg : Type := mkTcActionMsg {
  tcam_Family : Z }.

#[export] Instance TcActionMsg_struct : GoStruct TcActionMsg := {|
  the_shape := (SU 1 +++ SPad 3)%struct;
  to_fields x := (tcam_Family x, tt);
  of_fields v := let '(f0, _) := v in mkTcActionMsg f0;
  of_to_fields := ltac:(struct_law) |}.

Definition TcActionMsg_Serialize `{Endian} : TcActionMsg -> list Z := Serialize.
Definition DeserializeTcActionMsg `{Endian} : slice -> outcome TcActionMsg := Deserialize.

Record TcPrioMap : Type := mkTcPrioMap {
  pm_Bands : Z; pm_Priomap : list Z }.

#[export] Instance TcPrioMap_struct : GoStruct TcPrioMap := {|
  the_shape := (SI 4 +++ SBytes 16)%struct;
  to_fields x := (pm_Bands x, pm_Priomap x);
  of_fields v := let '(f0, f1) := v in mkTcPrioMap f0 f1;
  of_to_fields := ltac:(struct_law) |}.

Definition TcPrioMap_Serialize `{Endian} : TcPrioMap -> list Z := Serialize.
Definition DeserializeTcPrioMap `{Endian} : slice -> outcome TcPrioMap := Deserialize.

Record TcRateSpec : Type := mkTcRateSpec {
  rs_CellLog : Z; rs_Linklayer : Z; rs_Overhead : Z; rs_CellAlign : Z; rs_Mpu : Z; rs_Rate : Z }.

#[export] Instance TcRateSpec_struct : GoStruct TcRateSpec := {|
  the_shape := (SU 1 +++ SU 1 +++ SU 2 +++ SI 2 +++ SU 2 +++ SU 4)%struct;
  to_fields x := (rs_CellLog x, (rs_Linklayer x, (rs_Overhead x, (rs_CellAlign x, (rs_Mpu x,
                 rs_Rate x)))));
  of_fields v := let '(f0, (f1, (f2, (f3, (f4, f5))))) := v in mkTcRateSpec f0 f1 f2 f3 f4 f5;
  of_to_fields := ltac:(struct_law) |}.

Definition TcRateSpec_Serialize `{Endian} : TcRateSpec -> list Z := Serialize.
Definition DeserializeTcRateSpec `{Endian} : slice -> outcome TcRateSpec := Deserialize.

Record TcNetemQopt : Type := mkTcNetemQopt {
  nq_Latency : Z; nq_Limit : Z; nq_Loss : Z; nq_Gap : Z; nq_Duplicate : Z; nq_Jitter : Z }.

#[export] Instance TcNetemQopt_struct : GoStruct TcNetemQopt := {|
  the_shape := (SU 4 +++ SU 4 +++ SU 4 +++ SU 4 +++ SU 4 +++ SU 4)%struct;
  to_fields x := (nq_Latency x, (nq_Limit x, (nq_Loss x, (nq_Gap x, (nq_Duplicate x,
                 nq_Jitter x)))));
  of_fields v := let '(f0, (f1, (f2, (f3, (f4, f5))))) := v in mkTcNetemQopt f0 f1 f2 f3 f4 f5;
  of_to_fields := ltac:(struct_law) |}.

Definition TcNetemQopt_Serialize `{Endian} : TcNetemQopt -> list Z := Serialize.
Definition DeserializeTcNetemQopt `{Endian} : slice -> outcome TcNetemQopt := Deserialize.

Record TcNetemCorr : Type := mkTcNetemCorr {
  nc_DelayCorr : Z; nc_LossCorr : Z; nc_DupCorr : Z }.

#[export] Instance TcNetemCorr_struct : GoStruct TcNetemCorr := {|
  the_shape := (SU 4 +++ SU 4 +++ SU 4)%struct;
  to_fields x := (nc_DelayCorr x, (nc_LossCorr x, nc_DupCorr x));
  of_fields v := let '(f0, (f1, f2)) := v in mkTcNetemCorr f0 f1 f2;
  of_to_fields := ltac:(struct_law) |}.

Definition TcNetemCorr_Serialize `{Endian} : TcNetemCorr -> list Z := Serialize.
Definition DeserializeTcNetemCorr `{Endian} : slice -> outcome TcNetemCorr := Deserialize.

Record TcNetemReorder : Type := mkTcNetemReorder {
  nr_Probability : Z; nr_Correlation : Z }.

#[export] Instance TcNetemReorder_struct : GoStruct TcNetemReorder := {|
  the_shape := (SU 4 +++ SU 4)%struct;
  to_fields x := (nr_Probability x, nr_Correlation x);
  of_fields v := let '(f0, f1) := v in mkTcNetemReorder f0 f1;
  of_to_fields := ltac:(struct_law) |}.

Definition TcNetemReorder_Serialize `{Endian} : TcNetemReorder -> list Z := Serialize.
Definition DeserializeTcNetemReorder `{Endian} : slice -> outcome TcNetemReorder := Deserialize.

Record TcNetemCorrupt : Type := mkTcNetemCorrupt {
  nx_Probability : Z; nx_Correlation : Z }.

#[export] Instance TcNetemCorrupt_struct : GoStruct TcNetemCorrupt := {|
  the_shape := (SU 4 +++ SU 4)%struct;
  to_fields x := (nx_Probability x, nx_Correlation x);
  of_fields v := let '(f0, f1) := v in mkTcNetemCorrupt f0 f1;
  of_to_fields := ltac:(struct_law) |}.

Definition TcNetemCorrupt_Serialize `{Endian} : TcNetemCorrupt -> list Z := Serialize.
Definition DeserializeTcNetemCorrupt `{Endian} : slice -> outcome TcNetemCorrupt := Deserialize.

Record TcTbfQopt : Type := mkTcTbfQopt {
  tq_Rate : TcRateSpec; tq_Peakrate : TcRateSpec; tq_Limit : Z; tq_Buffer : Z; tq_Mtu : Z }.

#[export] Instance TcTbfQopt_struct : GoStruct TcTbfQopt := {|
  the_shape := (the_shape TcRateSpec +++ the_shape TcRateSpec +++ SU 4 +++ SU 4 +++ SU 4)%struct;
  to_fields x := (to_fields (tq_Rate x), (to_fields (tq_Peakrate x), (tq_Limit x, (tq_Buffer x,
                 tq_Mtu x))));
  of_fields v := let '(f0, (f1, (f2, (f3, f4)))) := v in mkTcTbfQopt (of_fields f0)
                 (of_fields f1) f2 f3 f4;
  of_to_fields := ltac:(struct_law) |}.

Definition TcTbfQopt_Serialize `{Endian} : TcTbfQopt -> list Z := Serialize.
Definition DeserializeTcTbfQopt `{Endian} : slice -> outcome TcTbfQopt := Deserialize.

Record TcHtbCopt : Type := mkTcHtbCopt {
  hc_Rate : TcRateSpec; hc_Ceil : TcRateSpec; hc_Buffer : Z; hc_Cbuffer : Z; hc_Quantum : Z;
  hc_Level : Z; hc_Prio : Z }.

#[export] Instance TcHtbCopt_struct : GoStruct TcHtbCopt := {|
  the_shape := (the_shape TcRateSpec +++ the_shape TcRateSpec +++ SU 4 +++ SU 4 +++ SU 4 +++
                SU 4 +++ SU 4)%struct;
  to_fields x := (to_fields (hc_Rate x), (to_fields (hc_Ceil x), (hc_Buffer x, (hc_Cbuffer x,
                 (hc_Quantum x, (hc_Level x, hc_Prio x))))));
  of_fields v := let '(f0, (f1, (f2, (f3, (f4, (f5, f6)))))) := v in mkTcHtbCopt (of_fields f0)
                 (of_fields f1) f2 f3 f4 f5 f6;
  of_to_fields := ltac:(struct_law) |}.

Definition TcHtbCopt_Serialize `{Endian} : TcHtbCopt -> list Z := Serialize.
Definition DeserializeTcHtbCopt `{Endian} : slice -> outcome TcHtbCopt := Deserialize.

Record TcHtbGlob : Type := mkTcHtbGlob {
  hg_Version : Z; hg_Rate2Quantum : Z; hg_Defcls : Z; hg_Debug : Z; hg_DirectPkts : Z }.

#[export] Instance TcHtbGlob_struct : GoStruct TcHtbGlob := {|
  the_shape := (SU 4 +++ SU 4 +++ SU 4 +++ SU 4 +++ SU 4)%struct;
  to_fields x := (hg_Version x, (hg_Rate2Quantum x, (hg_Defcls x, (hg_Debug x,
                 hg_DirectPkts x))));
  of_fields v := let '(f0, (f1, (f2, (f3, f4)))) := v in mkTcHtbGlob f0 f1 f2 f3 f4;
  of_to_fields := ltac:(struct_law) |}.

Definition TcHtbGlob_Serialize `{Endian} : TcHtbGlob -> list Z := Serialize.
Definition DeserializeTcHtbGlob `{Endian} : slice -> outcome TcHtbGlob := Deserialize.

Record TcU32Key : Type := mkTcU32Key {
  uk_Mask : Z; uk_Val : Z; uk_Off : Z; uk_OffMask : Z }.

#[export] Instance TcU32Key_struct : GoStruct TcU32Key := {|
  the_shape := (SU 4 +++ SU 4 +++ SI 4 +++ SI 4)%struct;
  to_fields x := (uk_Mask x, (uk_Val x, (uk_Off x, uk_OffMask x)));
  of_fields v := let '(f0, (f1, (f2, f3))) := v in mkTcU32Key f0 f1 f2 f3;
  of_to_fields := ltac:(struct_law) |}.

Definition TcU32Key_Serialize `{Endian} : TcU32Key -> list Z := Serialize.
Definition DeserializeTcU32Key `{Endian} : slice -> outcome TcU32Key := Deserialize.

Record TcMirred : Type := mkTcMirred {
  mir_Index : Z; mir_Capab : Z; mir_Action : Z; mir_Refcnt : Z; mir_Bindcnt : Z; mir_Eaction :
  Z; mir_Ifindex : Z }.

#[export] Instance TcMirred_struct : GoStruct TcMirred := {|
  the_shape := (SU 4 +++ SU 4 +++ SI 4 +++ SI 4 +++ SI 4 +++ SI 4 +++ SU 4)%struct;
  to_fields x := (mir_Index x, (mir_Capab x, (mir_Action x, (mir_Refcnt x, (mir_Bindcnt x,
                 (mir_Eaction x, mir_Ifindex x))))));
  of_fields v := let '(f0, (f1, (f2, (f3, (f4, (f5, f6)))))) := v in mkTcMirred f0 f1 f2 f3 f4
                 f5 f6;
  of_to_fields := ltac:(struct_law) |}.

Definition TcMirred_Serialize `{Endian} : TcMirred -> list Z := Serialize.
Definition DeserializeTcMirred `{Endian} : slice -> outcome TcMirred := Deserialize.

Record TcPolice : Type := mkTcPolice {
  pol_Index : Z; pol_Action : Z; pol_Limit : Z; pol_Burst : Z; pol_Mtu : Z; pol_Rate :
  TcRateSpec; pol_PeakRate : TcRateSpec; pol_Refcnt : Z; pol_Bindcnt : Z; pol_Capab : Z }.

#[export] Instance TcPolice_struct : GoStruct TcPolice := {|
  the_shape := (SU 4 +++ SI 4 +++ SU 4 +++ SU 4 +++ SU 4 +++ the_shape TcRateSpec +++
                the_shape TcRateSpec +++ SI 4 +++ SI 4 +++ SU 4)%struct;
  to_fields x := (pol_Index x, (pol_Action x, (pol_Limit x, (pol_Burst x, (pol_Mtu x,
                 (to_fields (pol_Rate x), (to_fields (pol_PeakRate x),
                 (pol_Refcnt x, (pol_Bindcnt x, pol_Capab x)))))))));
  of_fields v := let '(f0, (f1, (f2, (f3, (f4, (f5, (f6, (f7, (f8, f9))))))))) := v in
                 mkTcPolice f0 f1 f2 f3 f4 (of_fields f5) (of_fields f6) f7 f8
                 f9;
  of_to_fields := ltac:(struct_law) |}.

Definition TcPolice_Serialize `{Endian} : TcPolice -> list Z := Serialize.
Definition DeserializeTcPolice `{Endian} : slice -> outcome TcPolice := Deserialize.


(** * The selector of u32 *)

Record TcU32Sel : Type := mkTcU32Sel {
  us_Flags : Z; us_Offshift : Z; us_Nkeys : Z; us_Pad : Z; us_Offmask : Z; us_Off : Z;
  us_Offoff : Z; us_Hoff : Z; us_Hmask : Z; us_Keys : list TcU32Key }.

(** The part before the slice of keys. *)
Definition sel_shape : shape :=
  (SU 1 +++ SU 1 +++ SU 1 +++ SU 1 +++ SU 2 +++ SU 2 +++ SI 2 +++ SI 2 +++ SU 4)%struct.
Definition SizeofTcU32Sel : nat := 16.
Definition SizeofTcU32Key : nat := 16.

Definition sel_header (x : TcU32Sel) : sval sel_shape :=
  (us_Flags x, (us_Offshift x, (us_Nkeys x, (us_Pad x, (us_Offmask x, (us_Off x,
    (us_Offoff x, (us_Hoff x, us_Hmask x)))))))).

Definition with_keys (h : sval sel_shape) (keys : list TcU32Key) : TcU32Sel :=
  let '(a, (b, (c, (d, (e, (f, (g, (i, j)))))))) := h in mkTcU32Sel a b c d e f g i j keys.

Definition TcU32Sel_Len (x : TcU32Sel) : nat := SizeofTcU32Sel + Z.to_nat (us_Nkeys x) * SizeofTcU32Key.

Section selector.
Context {E : Endian}.

(** The loop over [x.Keys]: [buf[next:]] panics past the end of the buffer. *)
Fixpoint put_keys (keys : list TcU32Key) (buf : list Z) (next : nat) : outcome (list Z) :=
  match keys with
  | [] => Returned buf
  | key :: keys' =>
      if (next <=? length buf)%nat
      then put_keys keys' (copy_at buf next (TcU32Key_Serialize key)) (next + SizeofTcU32Key)
      else slice_panic
  end.

Definition TcU32Sel_Serialize (x : TcU32Sel) : outcome (list Z) :=
  let buf := copy_at (replicate (TcU32Sel_Len x) 0) 0 (sput sel_shape (sel_header x)) in
  put_keys (us_Keys x) buf SizeofTcU32Sel.

Fixpoint get_keys (n : nat) (b : slice) (next : nat) : outcome (list TcU32Key) :=
  match n with
  | O => Returned []
  | S n' =>
      let? rest := sub_from b next in
      let? key := DeserializeTcU32Key rest in
      let? keys := get_keys n' b (next + SizeofTcU32Key) in
      Returned (key :: keys)
  end.

(** The header is copied: bytes that are missing are zero. *)
Definition DeserializeTcU32Sel (b : slice) : outcome TcU32Sel :=
  let x := with_keys (sget sel_shape (resize SizeofTcU32Sel 0 (items b))) [] in
  let? keys := get_keys (Z.to_nat (us_Nkeys x)) b SizeofTcU32Sel in
  Returned (mkTcU32Sel (us_Flags x) (us_Offshift x) (us_Nkeys x) (us_Pad x) (us_Offmask x) (us_Off x)
                       (us_Offoff x) (us_Hoff x) (us_Hmask x) keys).

End selector.

(** * The selector is read back *)

Section selector_facts.
Context {E : Endian}.

(** The fields are of their types and the count is that of the keys. *)
Definition wf_sel (x : TcU32Sel) : Prop :=
  sfits sel_shape (sel_header x) /\ Z.of_nat (length (us_Keys x)) = us_Nkeys x /\ Forall fits (us_Keys x).

Lemma length_keys (keys : list TcU32Key) : length (concat (map Serialize keys)) = (16 * length keys)%nat.
Proof.
  induction keys as [|k keys IH]; [done|]. cbn [map concat length]. rewrite length_app, length_Serialize, IH.
  change (Sizeof TcU32Key) with 16%nat. lia.
Qed.

Lemma put_keys_spec keys front :
  put_keys keys (front ++ replicate (16 * length keys) 0) (length front)
  = Returned (front ++ concat (map Serialize keys))%list.
Proof.
  revert front. induction keys as [|k keys IH]; intros front; cbn [put_keys length].
  { by rewrite Nat.mul_0_r. }
  rewrite length_app. destruct (Nat.leb_spec (length front) (length front + length (replicate (16 * S (length keys)) 0)));
    [|lia].
  replace (16 * S (length keys))%nat with (length (TcU32Key_Serialize k) + 16 * length keys)%nat
    by (unfold TcU32Key_Serialize; rewrite length_Serialize; change (Sizeof TcU32Key) with 16%nat; lia).
  rewrite replicate_add, copy_at_app by (rewrite length_app, length_replicate; lia).
  rewrite drop_app_length' by by rewrite length_replicate.
  specialize (IH (front ++ TcU32Key_Serialize k)%list). rewrite length_app in IH.
  assert (length (TcU32Key_Serialize k) = SizeofTcU32Key) as Hl by exact (length_Serialize k).
  rewrite Hl in IH. rewrite app_assoc, IH. cbn [map concat]. by rewrite <- app_assoc.
Qed.

Lemma TcU32Sel_Serialize_eq x :
  Z.of_nat (length (us_Keys x)) = us_Nkeys x ->
  TcU32Sel_Serialize x = Returned (sput sel_shape (sel_header x) ++ concat (map Serialize (us_Keys x)))%list.
Proof.
  intros Hn. unfold TcU32Sel_Serialize, TcU32Sel_Len. rewrite <- Hn, Nat2Z.id.
  pose proof (length_sput sel_shape (sel_header x)) as Hl. change (ssize sel_shape) with SizeofTcU32Sel in Hl.
  rewrite replicate_add. change (replicate SizeofTcU32Sel 0 ++ ?r)%list with ([] ++ replicate SizeofTcU32Sel 0 ++ r)%list.
  change (copy_at (?a ++ ?b) 0) with (copy_at (a ++ b) (length (A := Z) [])).
  rewrite (copy_at_app []) by (rewrite length_app, length_replicate; lia).
  rewrite drop_app_length' by by rewrite length_replicate. cbn [app].
  pose proof (put_keys_spec (us_Keys x) (sput sel_shape (sel_header x))) as Hp.
  rewrite Hl, Nat.mul_comm in Hp. exact Hp.
Qed.

Lemma get_keys_spec keys front rest sp :
  Forall fits keys ->
  get_keys (length keys) (mkSlice (front ++ concat (map Serialize keys) ++ rest) sp) (length front) = Returned keys.
Proof.
  intros Hk. revert front. induction Hk as [|k keys Hk _ IH]; intros front; [done|].
  cbn [get_keys length map concat]. unfold sub_from. cbn [items spare]. rewrite length_app.
  destruct (Nat.leb_spec (length front) (length front + length ((Serialize k ++ concat (map Serialize keys)) ++ rest)));
    [|lia].
  rewrite drop_app_length. cbn [obind]. unfold DeserializeTcU32Key. rewrite <- app_assoc.
  rewrite Deserialize_Serialize by done. cbn [obind].
  specialize (IH (front ++ Serialize k)%list). rewrite length_app, length_Serialize, <- app_assoc in IH.
  change (Sizeof TcU32Key) with SizeofTcU32Key in IH. by rewrite IH.
Qed.

(** A selector with its keys is read back. *)
Lemma TcU32Sel_roundtrip x b (d : slice) :
  wf_sel x -> TcU32Sel_Serialize x = Returned b -> items d = b -> DeserializeTcU32Sel d = Returned x.
Proof.
  intros (Hf & Hn & Hk). rewrite TcU32Sel_Serialize_eq by done. destruct d as [it sp].
  set (out := (sput sel_shape (sel_header x) ++ concat (map Serialize (us_Keys x)))%list).
  intros Hb. cbn [items]. intros ->. injection Hb as <-. subst out. pose proof (length_sput sel_shape (sel_header x)) as Hl.
  change (ssize sel_shape) with SizeofTcU32Sel in Hl. unfold DeserializeTcU32Sel. cbv zeta. cbn [items].
  assert (sget sel_shape (resize SizeofTcU32Sel 0
            (sput sel_shape (sel_header x) ++ concat (map Serialize (us_Keys x)))) = sel_header x) as ->.
  { rewrite resize_app_le by (rewrite Hl; done). rewrite resize_all_alt by (symmetry; exact Hl).
    rewrite <- (app_nil_r (sput _ _)). by apply sget_sput. }
  pose proof (get_keys_spec (us_Keys x) (sput sel_shape (sel_header x)) [] sp Hk) as Hg.
  rewrite Hl, app_nil_r in Hg.
  assert (us_Nkeys (with_keys (sel_header x) []) = us_Nkeys x) as -> by by destruct x.
  rewrite <- Hn, Nat2Z.id, Hg. cbn [obind]. rewrite Hn. by destruct x.
Qed.

End selector_facts.
