(* ===== verification/TcRate.v ===== *)
(** vishvananda/netlink, times and rates of traffic control: the clock of the packet
    scheduler (qdisc_linux.go), percentages and handles (qdisc.go) and rate tables
    (filter_linux.go).

    Go's float32 and float64 are IEEE 754 numbers ([spec_float], rounded to nearest even).
    What an integer is made from a float that does not fit it is left to the compiler by the
    language: it is the instance [WildConversion]. The three variables of the clock are a state;
    the file /proc/net/psched is the same at every reading, [None] when it cannot be read. *)

From Stdlib Require Import SpecFloat.
From S2P Require Import Prelude NetIP UserDb Nl NlStruct NlTc.

Local Open Scope go_scope.
Local Open Scope Z_scope.

(** * Floating point *)

Definition float64 : Type := spec_float.
Definition float32 : Type := spec_float.

Class WildConversion : Type := wild_uint32 : spec_float -> Z.

(** The conversions of an integer. *)
Definition to_float64 (z : Z) : float64 := binary_normalize 53 1024 z 0 false.
Definition to_float32 (z : Z) : float32 := binary_normalize 24 128 z 0 false.

Definition fmul : float64 -> float64 -> float64 := SFmul 53 1024.
Definition fdiv : float64 -> float64 -> float64 := SFdiv 53 1024.
Definition fadd : float64 -> float64 -> float64 := SFadd 53 1024.
Definition fsub : float64 -> float64 -> float64 := SFsub 53 1024.

(** The integer part, [None] for infinities and NaN. *)
Definition trunc (f : spec_float) : option Z :=
  match f with
  | S754_zero _ => Some 0
  | S754_finite s m e =>
      let z := if 0 <=? e then Z.pos m * 2 ^ e else Z.pos m / 2 ^ (- e) in
      Some (if s then - z else z)
  | _ => None
  end.

(** [uint32(f)] *)
Definition to_uint32 `{WildConversion} (f : spec_float) : Z :=
  match trunc f with
  | Some z => if (0 <=? z) && (z <? 2 ^ 32) then z else uint_n 4 (wild_uint32 f)
  | None => uint_n 4 (wild_uint32 f)
  end.

(** * Handles *)

Definition HANDLE_NONE : Z := 0.
Definition HANDLE_INGRESS : Z := 0xFFFFFFF1.
Definition HANDLE_ROOT : Z := 0xFFFFFFFF.

Definition MakeHandle (major minor : Z) : Z := Z.lor (uint_n 4 (Z.shiftl major 16)) minor.

Definition MajorMinor (handle : Z) : Z * Z :=
  (uint_n 2 (Z.shiftr (Z.land handle 0xFFFF0000) 16), uint_n 2 (Z.land handle 0xFFFFF)).

(** [%x] of a number of at most [n] digits. *)
Fixpoint hex_go (n : nat) (z : Z) (acc : string) : string :=
  let d := z mod 16 in
  let c := ascii_of_N (Z.to_N (if d <? 10 then 48 + d else 87 + d)) in
  match n with
  | O => acc
  | S n' => if z <? 16 then String c acc else hex_go n' (z / 16) (String c acc)
  end.
Definition Hex (z : Z) : string := hex_go 16 z "".

Definition HandleStr (handle : Z) : string :=
  if handle =? HANDLE_NONE then "none"
  else if handle =? HANDLE_INGRESS then "ingress"
  else if handle =? HANDLE_ROOT then "root"
  else (Hex (MajorMinor handle).1 +:+ ":" +:+ Hex (MajorMinor handle).2)%string.

(** * Percentages *)

Definition MaxUint32 : Z := 2 ^ 32 - 1.

Definition Percentage2u32 `{WildConversion} (percentage : float32) : Z :=
  if SFeqb percentage (to_float32 100) then MaxUint32
  else to_uint32 (SFmul 24 128 (to_float32 MaxUint32) (SFdiv 24 128 percentage (to_float32 100))).

(** * The clock *)

Definition TIME_UNITS_PER_SEC : Z := 1000000.

Record clock : Type := mkClock { tickInUsec : float64; clockFactor : float64; hz : float64 }.

Definition zero64 : float64 := S754_zero false.
Definition start_clock : clock := mkClock zero64 zero64 zero64.

(** strconv.ParseUint with base 16 and 32 bits. *)
Definition hex_value (a : ascii) : option Z :=
  let n := Z.of_N (N_of_ascii a) in
  if (48 <=? n) && (n <=? 57) then Some (n - 48)
  else if (97 <=? n) && (n <=? 102) then Some (n - 87)
  else if (65 <=? n) && (n <=? 70) then Some (n - 55)
  else None.

Fixpoint parse_hex (s : string) (acc : Z) : option Z :=
  match s with
  | EmptyString => Some acc
  | String a s' =>
      d ← hex_value a;
      let v := 16 * acc + d in
      if v <? 2 ^ 32 then parse_hex s' v else None
  end.

Definition ParseUint_16_32 (s : string) : option Z :=
  if String.eqb s "" then None else parse_hex s 0.

Definition initClock (psched : option string) (c : clock) : clock :=
  match psched with
  | None => c
  | Some data =>
      match Split " "%char (TrimSpace data) with
      | p0 :: p1 :: p2 :: _ =>
          match ParseUint_16_32 p0, ParseUint_16_32 p1, ParseUint_16_32 p2 with
          | Some v0, Some v1, Some v2 =>
              let v0 := if v2 =? 1000000000 then v1 else v0 in
              let factor := fdiv (to_float64 v2) (to_float64 TIME_UNITS_PER_SEC) in
              mkClock (fmul (fdiv (to_float64 v0) (to_float64 v1)) factor) factor (to_float64 v0)
          | _, _, _ => c
          end
      | _ => c
      end
  end.

(** Computations that may read the clock. *)
Definition Ck (A : Type) : Type := clock -> A * clock.
Definition ckret {A} (a : A) : Ck A := fun c => (a, c).
Definition ckbind {A B} (m : Ck A) (f : A -> Ck B) : Ck B := fun c => let '(a, c') := m c in f a c'.

Declare Scope tc_scope.
Delimit Scope tc_scope with tc.
Notation "'let^' x := m 'in' k" := (ckbind m (fun x => k))
  (at level 10, x pattern, m at level 100, k at level 200) : tc_scope.
Local Open Scope tc_scope.

Section clock.
Context `{WildConversion} (psched : option string).

(** Each of the three variables is read from the file while it is zero. *)
Definition cached (var : clock -> float64) : Ck float64 := fun c =>
  let c' := if SFeqb (var c) zero64 then initClock psched c else c in
  (var c', c').

Definition TickInUsec : Ck float64 := cached tickInUsec.
Definition ClockFactor : Ck float64 := cached clockFactor.
Definition Hz : Ck float64 := cached hz.

Definition time2Tick (time : Z) : Ck Z :=
  let^ t := TickInUsec in ckret (to_uint32 (fmul (to_float64 time) t)).
Definition tick2Time (tick : Z) : Ck Z :=
  let^ t := TickInUsec in ckret (to_uint32 (fdiv (to_float64 tick) t)).
Definition time2Ktime (time : Z) : Ck Z :=
  let^ f := ClockFactor in ckret (to_uint32 (fmul (to_float64 time) f)).
Definition ktime2Time (ktime : Z) : Ck Z :=
  let^ f := ClockFactor in ckret (to_uint32 (fdiv (to_float64 ktime) f)).

Definition burst (rate buffer : Z) : Ck Z :=
  let^ t := tick2Time buffer in
  ckret (to_uint32 (fdiv (fmul (to_float64 rate) (to_float64 t)) (to_float64 TIME_UNITS_PER_SEC))).

(** Without fusing the product and the difference. *)
Definition latency (rate limit buffer : Z) : Ck float64 :=
  let^ t := tick2Time buffer in
  ckret (fsub (fmul (to_float64 TIME_UNITS_PER_SEC) (fdiv (to_float64 limit) (to_float64 rate)))
              (to_float64 t)).

Definition Xmittime (rate size : Z) : Ck float64 :=
  let^ t := TickInUsec in
  ckret (fmul (fmul t (to_float64 TIME_UNITS_PER_SEC)) (fdiv (to_float64 size) (to_float64 rate))).

(** * Rate tables *)

Definition uint64 (z : Z) : Z := z mod 2 ^ 64.

Definition AlignToAtm (size : Z) : Z :=
  let cells := size / ATM_CELL_PAYLOAD in
  let cells := if 0 <? size mod ATM_CELL_PAYLOAD then cells + 1 else cells in
  uint64 (cells * ATM_CELL_SIZE).

Definition AdjustSize (sz mpu linklayer : Z) : Z :=
  let sz := if sz <? mpu then mpu else sz in
  if linklayer =? LINKLAYER_ATM then AlignToAtm sz else sz.

(** The loop that looks for the size of a cell; the shift is at most 32. *)
Fixpoint find_cell_log (fuel : nat) (mtu cell_log : Z) : Z :=
  match fuel with
  | O => cell_log
  | S fuel' => if 255 <? Z.shiftr mtu cell_log then find_cell_log fuel' mtu (cell_log + 1) else cell_log
  end.

(** The entries of the table, in the order of the loop. *)
Fixpoint rate_table (n : nat) (i bps mpu linklayer cell_log : Z) : Ck (list Z) :=
  match n with
  | O => ckret []
  | S n' =>
      let sz := AdjustSize (uint64 (Z.shiftl (i + 1) (uint_n 4 cell_log))) mpu linklayer in
      let^ t := Xmittime bps (uint_n 4 sz) in
      let^ rest := rate_table n' (i + 1) bps mpu linklayer cell_log in
      ckret (to_uint32 t :: rest)
  end.

(** The rate with its fields set, the result, and the table the loop fills. The array is a
    parameter passed by value: the caller's is not the one that is filled. *)
Definition CalcRtable (rate : TcRateSpec) (cell_log mtu linklayer : Z) : Ck (TcRateSpec * Z * list Z) :=
  let mtu := if mtu =? 0 then 2047 else mtu in
  let cell_log := if cell_log <? 0 then find_cell_log 32 mtu 0 else cell_log in
  let^ rtab := rate_table 256 0 (rs_Rate rate) (rs_Mpu rate) linklayer cell_log in
  ckret (mkTcRateSpec (uint_n 1 cell_log) (uint_n 1 (Z.land linklayer TC_LINKLAYER_MASK))
                      (rs_Overhead rate) (-1) (rs_Mpu rate) (rs_Rate rate), cell_log, rtab).

End clock.

(** * Handles and byte order *)

(** A number shifted above another does not meet it. *)
Lemma lor_above a b n : 0 <= n -> 0 <= b < 2 ^ n -> Z.lor (a * 2 ^ n) b = a * 2 ^ n + b.
Proof.
  intros Hn Hb. pose proof (Z.add_lor_land (a * 2 ^ n) b) as H.
  assert (Z.land (a * 2 ^ n) b = 0); [|lia].
  apply Z.bits_inj'. intros i Hi. rewrite Z.land_spec, Z.bits_0, Z.mul_pow2_bits by lia.
  destruct (Z.ltb_spec i n).
  - by rewrite Z.testbit_neg_r by lia.
  - rewrite <- (Z.mod_small b (2 ^ n)) by done. rewrite Z.mod_pow2_bits_high by lia. apply andb_false_r.
Qed.

Lemma MakeHandle_eq major minor :
  0 <= major < 65536 -> 0 <= minor < 65536 -> MakeHandle major minor = 65536 * major + minor.
Proof.
  intros Hj Hn. unfold MakeHandle. rewrite uint_n_small
    by (rewrite Z.shiftl_mul_pow2 by lia; cbn; lia).
  rewrite Z.shiftl_mul_pow2, lor_above by lia. lia.
Qed.

(** A handle is taken apart into the numbers it was made of. *)
Lemma MajorMinor_MakeHandle major minor :
  0 <= major < 65536 -> 0 <= minor < 65536 -> MajorMinor (MakeHandle major minor) = (major, minor).
Proof.
  intros Hj Hn. rewrite MakeHandle_eq by done. unfold MajorMinor.
  change 0xFFFF0000 with (Z.shiftl (Z.ones 16) 16). change 0xFFFFF with (Z.ones 20).
  rewrite Z.land_ones by lia. unfold uint_n. change (256 ^ Z.of_nat 2) with (2 ^ 16).
  rewrite Z.shiftr_land, Z.shiftr_shiftl_l, Z.sub_diag, Z.shiftl_0_r, Z.land_ones by lia.
  rewrite Z.shiftr_div_pow2 by lia. f_equal; change (2 ^ 16) with 65536; change (2 ^ 20) with 1048576.
  - rewrite Z.mod_mod by lia. rewrite (Z.mul_comm 65536), Z.div_add_l, (Z.div_small minor) by lia.
    rewrite Z.add_0_r. by apply Z.mod_small.
  - Z.div_mod_to_equations. lia.
Qed.

Lemma Swap16_eq {E : Endian} v :
  0 <= v < 65536 -> Swap16 v = if big_endian then v else (v / 256 + 256 * (v mod 256)).
Proof.
  intros Hv. unfold Swap16. destruct big_endian; [done|].
  change 0xff00 with (Z.shiftl (Z.ones 8) 8). change 0xff with (Z.ones 8).
  rewrite Z.shiftr_land, Z.shiftr_shiftl_l, Z.sub_diag, Z.shiftl_0_r, !Z.land_ones by lia.
  rewrite Z.shiftr_div_pow2, Z.shiftl_mul_pow2 by lia. change (2 ^ 8) with 256.
  rewrite (Z.mod_small (v / 256)) by (split; [apply Z.div_pos|apply Z.div_lt_upper_bound]; lia).
  assert (0 <= v / 256 < 2 ^ 8) by (split; [apply Z.div_pos|apply Z.div_lt_upper_bound]; lia).
  rewrite Z.lor_comm. change 256 with (2 ^ 8) at 2. rewrite lor_above by lia. lia.
Qed.

Lemma Swap16_range {E : Endian} v : 0 <= v < 65536 -> 0 <= Swap16 v < 65536.
Proof. intros Hv. rewrite Swap16_eq by done. destruct big_endian; [done|]. Z.div_mod_to_equations. lia. Qed.

Lemma Swap16_involutive {E : Endian} v : 0 <= v < 65536 -> Swap16 (Swap16 v) = v.
Proof.
  intros Hv. rewrite (Swap16_eq (Swap16 v)) by by apply Swap16_range. rewrite Swap16_eq by done.
  destruct big_endian; [done|]. Z.div_mod_to_equations. lia.
Qed.

(** * The clock is read once *)

Section clock_facts.
Context (psched : option string).

(** The values of the clock that a program can meet. *)
Definition ready (c : clock) : Prop := c = start_clock \/ c = initClock psched start_clock.

(** What the file says does not depend on the clock. *)
Lemma initClock_cases :
  (forall c, initClock psched c = c) \/ (exists c0, forall c, initClock psched c = c0).
Proof.
  unfold initClock. destruct psched as [data|]; [|by left].
  destruct (Split " "%char (TrimSpace data)) as [|p0 [|p1 [|p2 ps]]]; try by left.
  destruct (ParseUint_16_32 p0), (ParseUint_16_32 p1), (ParseUint_16_32 p2); try by left.
  right. eexists. intros c. reflexivity.
Qed.

Lemma cached_ready (var : clock -> float64) c :
  var start_clock = zero64 -> ready c ->
  exists c', cached psched var c = (var (initClock psched start_clock), c') /\ ready c'.
Proof.
  intros Hz Hc. unfold cached, ready in *.
  assert (initClock psched c = initClock psched start_clock) as Hi.
  { destruct initClock_cases as [Hid|[c0 H0]]; [|by rewrite !H0]. rewrite !Hid in *. by destruct Hc. }
  destruct (SFeqb (var c) zero64) eqn:Hv.
  - rewrite Hi. eauto.
  - destruct Hc as [->| ->]; [by rewrite Hz in Hv|]. eauto.
Qed.

Context `{WildConversion}.

(** The two readings every computation starts from, whatever was computed before. *)
Lemma TickInUsec_ready c : ready c ->
  exists c', TickInUsec psched c = (tickInUsec (initClock psched start_clock), c') /\ ready c'.
Proof. by apply cached_ready. Qed.

Lemma Hz_ready c : ready c ->
  exists c', Hz psched c = (hz (initClock psched start_clock), c') /\ ready c'.
Proof. by apply cached_ready. Qed.

(** The value of a transmission time. *)
Definition xmit (rate size : Z) : float64 :=
  fmul (fmul (tickInUsec (initClock psched start_clock)) (to_float64 TIME_UNITS_PER_SEC))
       (fdiv (to_float64 size) (to_float64 rate)).

Lemma Xmittime_ready rate size c : ready c ->
  exists c', Xmittime psched rate size c = (xmit rate size, c') /\ ready c'.
Proof.
  intros Hc. destruct (TickInUsec_ready c Hc) as (c' & Ht & Hc').
  unfold Xmittime, ckbind. rewrite Ht. by exists c'.
Qed.

Lemma rate_table_ready n i bps mpu ll k c : ready c ->
  exists c', ready c' /\ rate_table psched n i bps mpu ll k c
    = (map (fun j => to_uint32 (xmit bps (uint_n 4
              (AdjustSize (uint64 (Z.shiftl (i + Z.of_nat j + 1) (uint_n 4 k))) mpu ll))))
           (seq 0 n), c').
Proof.
  revert i c. induction n as [|n IH]; intros i c Hc; [by exists c|]. cbn [rate_table].
  unfold ckbind. match goal with |- context [Xmittime _ ?r ?s c] =>
    destruct (Xmittime_ready r s c Hc) as (c1 & Hx & Hc1); rewrite Hx end.
  destruct (IH (i + 1) c1 Hc1) as (c2 & Hc2 & Hr). rewrite Hr. exists c2. split; [done|].
  unfold ckret. do 2 f_equal. cbn [seq map]. f_equal.
  - by rewrite Z.add_0_r.
  - rewrite <- seq_shift, map_map. apply map_ext. intros j.
    replace (i + 1 + Z.of_nat j + 1) with (i + Z.of_nat (S j) + 1) by lia. done.
Qed.

End clock_facts.

(** * Cells *)

Lemma find_cell_log_spec fuel mtu k :
  0 <= k -> 0 <= mtu < 256 * 2 ^ (k + Z.of_nat fuel) ->
  let r := find_cell_log fuel mtu k in
  k <= r <= k + Z.of_nat fuel /\ mtu < 256 * 2 ^ r /\ (forall j, k <= j < r -> 256 * 2 ^ j <= mtu).
Proof.
  cbv zeta. revert k. induction fuel as [|fuel IH]; intros k Hk Hm; cbn [find_cell_log].
  { rewrite Nat2Z.inj_0, Z.add_0_r in *. split_and!; lia. }
  rewrite Z.shiftr_div_pow2 by done.
  pose proof (Z.pow_pos_nonneg 2 k ltac:(lia) Hk) as Hp.
  destruct (Z.ltb_spec 255 (mtu / 2 ^ k)) as [Hlt|Hge].
  - assert (256 * 2 ^ k <= mtu) as Hle.
    { rewrite Z.mul_comm. transitivity (2 ^ k * (mtu / 2 ^ k)); [nia|]. apply Z.mul_div_le. lia. }
    destruct (IH (k + 1)) as (H1 & H2 & H3); [lia| |].
    { split; [lia|]. replace (k + 1 + Z.of_nat fuel) with (k + Z.of_nat (S fuel)) by lia. lia. }
    split_and!; try lia. intros j Hj. destruct (Z.eq_dec j k) as [->|]; [done|]. apply H3. lia.
  - assert (mtu < 256 * 2 ^ k); [|split_and!; lia].
    pose proof (Z.mul_succ_div_gt mtu (2 ^ k) ltac:(lia)). nia.
Qed.

(** ATM carries 48 bytes of every cell of 53: the size is that of the fewest cells that hold
    the packet. *)
Lemma AlignToAtm_spec size :
  0 <= size < 2 ^ 58 ->
  exists cells, AlignToAtm size = 53 * cells /\ 48 * (cells - 1) < size <= 48 * cells.
Proof.
  intros Hs. unfold AlignToAtm, ATM_CELL_PAYLOAD, ATM_CELL_SIZE, uint64.
  exists (if 0 <? size mod 48 then size / 48 + 1 else size / 48).
  pose proof (Z.div_mod size 48 ltac:(lia)) as Hd. pose proof (Z.mod_pos_bound size 48 ltac:(lia)).
  destruct (Z.ltb_spec 0 (size mod 48)); (split; [rewrite Z.mod_small; lia|lia]).
Qed.

(** The table CalcRtable computes for an MTU covers it: the shift is the least with which 256
    cells hold a packet of the MTU, it fits its field, every packet up to the MTU has an entry,
    and an entry is the time of the largest packet of its cell, on the scheduler's clock. *)
Theorem CalcRtable_covers `{WildConversion} psched rate mtu linklayer c :
  0 <= mtu < 2 ^ 32 -> ready psched c ->
  let m := if mtu =? 0 then 2047 else mtu in
  exists rate' k rtab c',
    CalcRtable psched rate (-1) mtu linklayer c = (rate', k, rtab, c') /\ ready psched c'
    /\ 0 <= k <= 24 /\ rs_CellLog rate' = k /\ rs_Rate rate' = rs_Rate rate
    /\ (forall j, 0 <= j < k -> 256 * 2 ^ j <= m)
    /\ forall size, 0 < size <= m -> exists i, (i < 256)%nat /\ Z.of_nat i = Z.shiftr size k
         /\ size <= (Z.of_nat i + 1) * 2 ^ k
         /\ rtab !! i = Some (to_uint32 (xmit psched (rs_Rate rate) (uint_n 4
              (AdjustSize ((Z.of_nat i + 1) * 2 ^ k) (rs_Mpu rate) linklayer)))).
Proof.
  intros Hm Hc m. unfold CalcRtable. fold m. cbn [Z.ltb Z.compare].
  assert (Hm' : 0 < m < 2 ^ 32) by (subst m; destruct (Z.eqb_spec mtu 0); lia).
  destruct (find_cell_log_spec 32 m 0) as (H1 & H2 & H3); [lia|cbn; lia|].
  set (k := find_cell_log 32 m 0) in *. clearbody k.
  assert (k <= 24) as Hk.
  { destruct (Z_le_gt_dec k 24) as [|Hgt]; [done|]. pose proof (H3 24 ltac:(lia)). lia. }
  unfold ckbind.
  destruct (rate_table_ready psched 256 0 (rs_Rate rate) (rs_Mpu rate) linklayer k c Hc)
    as (c' & Hc' & Ht). rewrite Ht. eexists _, k, _, c'. split; [reflexivity|].
  cbn [rs_CellLog rs_Rate]. split; [done|]. split; [lia|]. split; [by apply uint_n_small; cbn; lia|].
  split; [done|]. split; [intros j Hj; apply H3; lia|]. intros size Hs.
  pose proof (Z.pow_pos_nonneg 2 k ltac:(lia) ltac:(lia)) as Hp.
  assert (size / 2 ^ k < 256) as Hd by (apply Z.div_lt_upper_bound; lia).
  assert (0 <= size / 2 ^ k) as Hd0 by (apply Z.div_pos; lia).
  exists (Z.to_nat (size / 2 ^ k)). rewrite Z2Nat.id by done. rewrite Z.shiftr_div_pow2 by lia.
  split; [lia|]. split; [done|]. split.
  { pose proof (Z.mul_succ_div_gt size (2 ^ k) ltac:(lia)). lia. }
  rewrite list_lookup_fmap, lookup_seq_lt by lia. cbn [fmap option_fmap option_map].
  rewrite Nat.add_0_l, Z.add_0_l, Z2Nat.id, (uint4_small k), Z.shiftl_mul_pow2 by lia.
  unfold uint64. rewrite Z.mod_small; [done|]. pose proof (Z.pow_le_mono_r 2 k 24). nia.
Qed.

(** * 32 bits in network order *)

Lemma land_byte i k : 0 <= k -> Z.land i (Z.shiftl (Z.ones 8) k) = (i / 2 ^ k) mod 256 * 2 ^ k.
Proof.
  intros Hk. rewrite <- (Z.shiftr_div_pow2 i k Hk), <- Z.shiftl_mul_pow2 by done.
  change 256 with (2 ^ 8). rewrite <- Z.land_ones by lia. apply Z.bits_inj'. intros n Hn.
  rewrite Z.land_spec, !Z.shiftl_spec by done. rewrite Z.land_spec.
  destruct (Z.ltb_spec n k).
  - rewrite !(Z.testbit_neg_r _ (n - k)) by lia. by rewrite !andb_false_r.
  - rewrite Z.shiftr_spec by lia. do 2 f_equal. lia.
Qed.

Lemma Swap32_eq {E : Endian} v :
  0 <= v < 2 ^ 32 ->
  Swap32 v = if big_endian then v
             else v mod 256 * 2 ^ 24 + ((v / 256) mod 256 * 2 ^ 16
                  + ((v / 2 ^ 16) mod 256 * 2 ^ 8 + v / 2 ^ 24)).
Proof.
  intros Hv. unfold Swap32. destruct big_endian; [done|].
  change 0xff000000 with (Z.shiftl (Z.ones 8) 24). change 0xff0000 with (Z.shiftl (Z.ones 8) 16).
  change 0xff00 with (Z.shiftl (Z.ones 8) 8). change 0xff with (Z.shiftl (Z.ones 8) 0).
  rewrite !land_byte by lia. rewrite Z.pow_0_r, Z.mul_1_r, Z.div_1_r.
  assert (0 <= v / 2 ^ 24 < 256) by (split; [apply Z.div_pos|apply Z.div_lt_upper_bound]; lia).
  rewrite (Z.mod_small (v / 2 ^ 24)) by done. rewrite !Z.shiftr_div_pow2, !Z.shiftl_mul_pow2 by lia.
  rewrite Z.div_mul by lia. set (b1 := (v / 2 ^ 16) mod 256). set (b2 := (v / 2 ^ 8) mod 256).
  assert (0 <= b1 < 256) by (apply Z.mod_pos_bound; lia).
  assert (0 <= b2 < 256) by (apply Z.mod_pos_bound; lia).
  replace (b1 * 2 ^ 16 / 2 ^ 8) with (b1 * 2 ^ 8) by
    (change (2 ^ 16) with (2 ^ 8 * 2 ^ 8); rewrite Z.mul_assoc, Z.div_mul by lia; lia).
  replace (b2 * 2 ^ 8 * 2 ^ 8) with (b2 * 2 ^ 16) by lia.
  rewrite (Z.lor_comm (v / 2 ^ 24)), lor_above by lia.
  rewrite (Z.lor_comm (b1 * 2 ^ 8 + _)), lor_above by lia.
  rewrite (Z.lor_comm (b2 * 2 ^ 16 + _)), lor_above by lia. done.
Qed.

(** By its bytes. *)
Lemma Swap32_bytes {E : Endian} b0 b1 b2 b3 :
  0 <= b0 < 256 -> 0 <= b1 < 256 -> 0 <= b2 < 256 -> 0 <= b3 < 256 ->
  Swap32 (b0 + 256 * (b1 + 256 * (b2 + 256 * b3)))
  = if big_endian then b0 + 256 * (b1 + 256 * (b2 + 256 * b3)) else b3 + 256 * (b2 + 256 * (b1 + 256 * b0)).
Proof.
  intros H0 H1 H2 H3. rewrite Swap32_eq by lia. destruct big_endian; [done|].
  assert (forall b x, 0 <= b < 256 -> (b + 256 * x) mod 256 = b /\ (b + 256 * x) / 256 = x) as Hd.
  { intros b x Hb. rewrite Z.mul_comm, Z.mod_add, Z.div_add, Z.mod_small, Z.div_small by lia. lia. }
  change (2 ^ 24) with (256 * 256 * 256). change (2 ^ 16) with (256 * 256). change (2 ^ 8) with 256.
  rewrite <- !Z.div_div by lia.
  rewrite !(proj2 (Hd b0 _ H0)), !(proj2 (Hd b1 _ H1)), !(proj2 (Hd b2 _ H2)).
  rewrite (proj1 (Hd b0 _ H0)), (proj1 (Hd b1 _ H1)), (proj1 (Hd b2 _ H2)). lia.
Qed.

Lemma uint32_bytes v : 0 <= v < 2 ^ 32 ->
  exists b0 b1 b2 b3, v = b0 + 256 * (b1 + 256 * (b2 + 256 * b3))
  /\ 0 <= b0 < 256 /\ 0 <= b1 < 256 /\ 0 <= b2 < 256 /\ 0 <= b3 < 256.
Proof.
  intros Hv. exists (v mod 256), (v / 256 mod 256), (v / 256 / 256 mod 256), (v / 256 / 256 / 256).
  pose proof (Z.div_mod v 256 ltac:(lia)). pose proof (Z.div_mod (v / 256) 256 ltac:(lia)).
  pose proof (Z.div_mod (v / 256 / 256) 256 ltac:(lia)).
  split; [lia|]. split_and!; try apply Z.mod_pos_bound; try lia.
  - repeat apply Z.div_pos; lia.
  - repeat apply Z.div_lt_upper_bound; lia.
Qed.

Lemma Swap32_range {E : Endian} v : 0 <= v < 2 ^ 32 -> 0 <= Swap32 v < 2 ^ 32.
Proof.
  intros (b0 & b1 & b2 & b3 & -> & H0 & H1 & H2 & H3)%uint32_bytes. rewrite Swap32_bytes by done.
  destruct big_endian; lia.
Qed.

Lemma Swap32_involutive {E : Endian} v : 0 <= v < 2 ^ 32 -> Swap32 (Swap32 v) = v.
Proof.
  intros (b0 & b1 & b2 & b3 & -> & H0 & H1 & H2 & H3)%uint32_bytes. rewrite Swap32_bytes by done.
  destruct big_endian eqn:He; rewrite Swap32_bytes by done; by rewrite He.
Qed.
