(* ===== verification/NlSock.v ===== *)
(** vishvananda/netlink/nl, sockets (nl_linux.go): the system calls of a netlink
    exchange, NewNetlinkRequest, getNetlinkSocket, Subscribe, Send, Receive, GetPid and
    Execute.

    The code runs in a state: the kernel, which may be any state machine that answers
    system calls ([Kernel]); the counter nextSeqNr; the flag lookupByDump of
    link_linux.go; and a log of the calls made. Execute receives until a message ends
    the exchange. The model gives that loop a number of rounds; when they are used up
    the run is [Waiting], which is not a result. *)

From S2P Require Import Prelude NetIP Nl.

Local Open Scope nat_scope.

(** * Errors and system calls *)

(** An errno, or an error with a text. *)
Inductive nl_error : Type :=
| Errno (n : Z)
| Text (e : error).

#[export] Instance nl_error_eq_dec : EqDecision nl_error.
Proof. solve_decision. Defined.

Inductive ioctl_arg : Type :=
| ArgBytes (b : list Z)
| ArgInt (n : Z).

Inductive sysc : Type :=
| Socket (protocol : Z)
| Bind (fd : Z) (groups : Z)
| Close (fd : Z)
| Sendto (fd : Z) (b : list Z)
| Recvfrom (fd : Z)
| Getsockname (fd : Z)
| OpenFile (path : string)
| Ioctl (fd request : Z) (arg : ioctl_arg).

(** Getsockname answers with the process id of a netlink address, or with an address of
    another family. *)
Definition sres (c : sysc) : Type :=
  match c with
  | Socket _ => Z + Z
  | Bind _ _ | Sendto _ _ => option Z
  | Close _ => unit
  | Recvfrom _ => Z + list Z
  | Getsockname _ => Z + option Z
  | OpenFile _ => error + Z
  | Ioctl _ _ _ => Z
  end%type.

Class Kernel (W : Type) : Type := {
  syscall : forall c : sysc, W -> sres c * W;
  Getpagesize : nat
}.

Record call : Type := mkCall { call_sys : sysc; call_res : sres call_sys }.

(** * Computations *)

Record NS (W : Type) : Type := mkNS {
  kern : W;
  nextSeqNr : Z;
  lookupByDump : bool;
  calls : list call
}.
Arguments mkNS {W} _ _ _ _.
Arguments kern {W} _.
Arguments nextSeqNr {W} _.
Arguments lookupByDump {W} _.
Arguments calls {W} _.

Inductive ends (A : Type) : Type :=
| Ended (o : outcome A)
| Waiting.
Arguments Ended {A} o.
Arguments Waiting {A}.

Declare Scope nl_scope.
Delimit Scope nl_scope with nl.

Section monad.
Context {W : Type}.

Definition M (A : Type) : Type := NS W -> ends A * NS W.

Definition mret {A} (a : A) : M A := fun s => (Ended (Returned a), s).
Definition mlift {A} (o : outcome A) : M A := fun s => (Ended o, s).
Definition mbind_ {A B} (m : M A) (f : A -> M B) : M B := fun s =>
  match m s with
  | (Ended (Returned a), s') => f a s'
  | (Ended (Halted h), s') => (Ended (Halted h), s')
  | (Waiting, s') => (Waiting, s')
  end.

(** [defer fin] in front of [body]: it runs when the body returns and when it panics. *)
Definition deferring {A} (fin : M unit) (body : M A) : M A := fun s =>
  match body s with
  | (Ended o, s') => (Ended o, (fin s').2)
  | (Waiting, s') => (Waiting, s')
  end.

Definition sys {K : Kernel W} (c : sysc) : M (sres c) := fun s =>
  let '(r, w) := syscall c (kern s) in
  (Ended (Returned r), mkNS w (nextSeqNr s) (lookupByDump s) (calls s ++ [mkCall c r])).

End monad.
Arguments M W A : clear implicits.

Notation "'let*' x := m 'in' k" := (mbind_ m (fun x => k))
  (at level 10, x pattern, m at level 100, k at level 200) : nl_scope.
Local Open Scope nl_scope.

(** * Sockets *)

Section sockets.
Context {E : Endian} {W : Type} {K : Kernel W}.

Definition close_fd (fd : Z) : M W unit := let* _ := sys (Close fd) in mret tt.

Definition getNetlinkSocket (protocol : Z) : M W (nl_error + Z) :=
  let* r := sys (Socket protocol) in
  match r with
  | inl e => mret (inl (Errno e))
  | inr fd =>
      let* b := sys (Bind fd 0) in
      match b with
      | Some e => let* _ := close_fd fd in mret (inl (Errno e))
      | None => mret (inr fd)
      end
  end.

(** [1 << (g - 1)] on 32 bits: nothing when g is 0, since the shift count wraps. *)
Definition group_bits (groups : list Z) : Z :=
  fold_left (fun acc g => Z.lor acc (if (g =? 0)%Z then 0 else uint_n 4 (Z.shiftl 1 (g - 1))))
            groups 0%Z.

Definition Subscribe (protocol : Z) (groups : list Z) : M W (nl_error + Z) :=
  let* r := sys (Socket protocol) in
  match r with
  | inl e => mret (inl (Errno e))
  | inr fd =>
      let* b := sys (Bind fd (group_bits groups)) in
      match b with
      | Some e => let* _ := close_fd fd in mret (inl (Errno e))
      | None => mret (inr fd)
      end
  end.

Definition Send (fd : Z) (request : NetlinkRequest) : M W (option nl_error) :=
  let* r := sys (Sendto fd (NetlinkRequest_Serialize request)) in
  mret (Errno <$> r).

(** The buffer is a page; what was not received stays zero in its capacity. *)
Definition page (b : list Z) : slice :=
  let got := take Getpagesize b in
  mkSlice got (replicate (Getpagesize - length got) 0%Z).

Definition Receive (fd : Z) : M W (nl_error + list NetlinkMessage) :=
  let* r := sys (Recvfrom fd) in
  match r with
  | inl e => mret (inl (Errno e))
  | inr b =>
      if length (items (page b)) <? SizeofNlMsghdr
      then mret (inl (Text (errors_New "Got short response from netlink")))
      else match ParseNetlinkMessage (page b) with
           | Some msgs => mret (inr msgs)
           | None => mret (inl (Errno EINVAL))
           end
  end.

Definition GetPid (fd : Z) : M W (nl_error + Z) :=
  let* r := sys (Getsockname fd) in
  match r with
  | inl e => mret (inl (Errno e))
  | inr (Some pid) => mret (inr pid)
  | inr None => mret (inl (Text (errors_New "Wrong socket type")))
  end.

(** NewNetlinkRequest with the counter it advances. *)
Definition new_request (proto flags : Z) : M W NetlinkRequest := fun s =>
  let seq := uint_n 4 (nextSeqNr s + 1) in
  (Ended (Returned (NewNetlinkRequest proto flags seq)), mkNS (kern s) seq (lookupByDump s) (calls s)).

(** The messages of one Receive (an errno is an unsigned machine word): the exchange is over, with data or an error, or it goes
    on with the data so far. *)
Inductive verdict : Type :=
| Over (r : nl_error + list slice)
| More (res : list slice).

Fixpoint scan (seq pid resType : Z) (msgs : list NetlinkMessage) (res : list slice)
    : outcome verdict :=
  match msgs with
  | [] => Returned (More res)
  | m :: msgs' =>
      if negb (m_Seq m =? seq)%Z then
        Returned (Over (inl (Text (Errorf "Wrong Seq nr %d, expected 1" [pretty (m_Seq m)]))))
      else if negb (m_Pid m =? pid)%Z then
        Returned (Over (inl (Text (Errorf "Wrong pid %d, expected %d" [pretty (m_Pid m); pretty pid]))))
      else if (m_Type m =? NLMSG_DONE)%Z then Returned (Over (inr res))
      else if (m_Type m =? NLMSG_ERROR)%Z then
        obind (read_uint (m_Data m) 4) (fun u =>
          let error := int32 u in
          if (error =? 0)%Z then Returned (Over (inr res))
          else Returned (Over (inl (Errno (uint_n 8 (int32 (- error)))))))
      else if negb (resType =? 0)%Z && negb (m_Type m =? resType)%Z then
        scan seq pid resType msgs' res
      else
        let res := res ++ [m_Data m] in
        if (Z.land (m_Flags m) NLM_F_MULTI =? 0)%Z then Returned (Over (inr res))
        else scan seq pid resType msgs' res
  end.

Fixpoint receive_loop (rounds : nat) (fd seq pid resType : Z) (res : list slice)
    : M W (nl_error + list slice) :=
  match rounds with
  | O => fun s => (Waiting, s)
  | S rounds' =>
      let* r := Receive fd in
      match r with
      | inl e => mret (inl e)
      | inr msgs =>
          let* v := mlift (scan seq pid resType msgs res) in
          match v with
          | Over r => mret r
          | More res => receive_loop rounds' fd seq pid resType res
          end
      end
  end.

Definition Execute (rounds : nat) (req : NetlinkRequest) (sockType resType : Z)
    : M W (nl_error + list slice) :=
  let* s := getNetlinkSocket sockType in
  match s with
  | inl err => mret (inl err)
  | inr fd =>
      deferring (close_fd fd)
        (let* e := Send fd req in
         match e with
         | Some err => mret (inl err)
         | None =>
             let* p := GetPid fd in
             match p with
             | inl err => mret (inl err)
             | inr pid => receive_loop rounds fd (hdr_Seq req) pid resType []
             end
         end)
  end.

End sockets.

(** The error of an exchange whose data are not used. *)
Definition err_of {A} (r : nl_error + A) : option nl_error :=
  match r with
  | inl e => Some e
  | inr _ => None
  end.

(** * Frames: relations between the states before and after a computation that ends *)

Section frames.
Context {W : Type} (R : NS W -> NS W -> Prop) `{!PreOrder R}.

Definition after {A} (m : M W A) : Prop :=
  forall s, match m s with (Ended _, s') => R s s' | (Waiting, _) => True end.

Lemma after_ret {A} (a : A) : after (mret a).
Proof. intros s. simpl. reflexivity. Qed.

Lemma after_lift {A} (o : outcome A) : after (mlift o).
Proof. intros s. simpl. reflexivity. Qed.

Lemma after_bind {A B} (m : M W A) (f : A -> M W B) :
  after m -> (forall a, after (f a)) -> after (mbind_ m f).
Proof.
  intros Hm Hf s. unfold mbind_. specialize (Hm s).
  destruct (m s) as [[[a|h]|] s1]; [|done|done].
  specialize (Hf a s1). destruct (f a s1) as [[o|] s2]; [|done]. by etransitivity.
Qed.

Lemma after_waiting {A} : after (fun s => (@Waiting A, s)).
Proof. intros s. done. Qed.

End frames.

Create HintDb nl discriminated.
#[export] Hint Extern 0 (after _ (mret _)) => apply after_ret; exact _ : nl.
#[export] Hint Extern 0 (after _ (mlift _)) => apply after_lift; exact _ : nl.
#[export] Hint Resolve after_waiting : nl.

(** Follows the structure of a computation; the leaves are hints. *)
Ltac after_tac :=
  repeat first
    [ progress eauto 2 with nl
    | apply after_bind; [ exact _ | | intros ? ]
    | match goal with |- after _ (match ?x with _ => _ end) => destruct x end
    | match goal with |- after _ (let '(_, _) := ?x in _) => destruct x end ].

(** * Descriptors *)

Fixpoint remove_one (fd : Z) (l : list Z) : list Z :=
  match l with
  | [] => []
  | x :: l' => if (x =? fd)%Z then l' else x :: remove_one fd l'
  end.

(** The descriptors that are open after a call. *)
Definition open_step (l : list Z) (c : call) : list Z :=
  match call_sys c as c' return sres c' -> list Z with
  | Socket _ => fun r => match r with inr fd => fd :: l | inl _ => l end
  | OpenFile _ => fun r => match r with inr fd => fd :: l | inl _ => l end
  | Close fd => fun _ => remove_one fd l
  | _ => fun _ => l
  end (call_res c).
Definition open_fds (l : list Z) (t : list call) : list Z := fold_left open_step t l.

(** The calls between two states leave the open descriptors as they were; or leave one
    more. *)
Definition no_leak {W} (s s' : NS W) : Prop :=
  exists t, calls s' = calls s ++ t /\ forall l, open_fds l t = l.
Definition opens {W} (fd : Z) (s s' : NS W) : Prop :=
  exists t, calls s' = calls s ++ t /\ forall l, open_fds l t = fd :: l.

#[export] Instance no_leak_preorder {W} : PreOrder (@no_leak W).
Proof.
  split.
  - intros s. exists []. by rewrite app_nil_r.
  - intros s1 s2 s3 (t1 & H1 & F1) (t2 & H2 & F2). exists (t1 ++ t2).
    rewrite H2, H1, app_assoc. split; [done|]. intros l. unfold open_fds in *.
    by rewrite fold_left_app, F1, F2.
Qed.

Lemma opens_step {W} fd (s1 s2 s3 : NS W) : opens fd s1 s2 -> no_leak s2 s3 -> opens fd s1 s3.
Proof.
  intros (t1 & H1 & F1) (t2 & H2 & F2). exists (t1 ++ t2). rewrite H2, H1, app_assoc.
  split; [done|]. intros l. unfold open_fds in *. by rewrite fold_left_app, F1, F2.
Qed.

Section descriptors.
Context {E : Endian} {W : Type} {K : Kernel W}.

(** Calls that neither open nor close a descriptor. *)
Definition neutral (c : sysc) : bool :=
  match c with
  | Socket _ | OpenFile _ | Close _ => false
  | _ => true
  end.

Lemma sys_neutral c : neutral c -> after no_leak (sys (W := W) c).
Proof.
  intros Hc s. unfold sys. destruct (syscall c (kern s)) as [r w].
  exists [mkCall c r]. split; [done|]. intros l. by destruct c.
Qed.

Lemma new_request_no_leak p f : after no_leak (new_request (W := W) p f).
Proof. intros s. exists []. simpl. by rewrite app_nil_r. Qed.

Lemma close_fd_opens fd (s s1 : NS W) : opens fd s s1 -> no_leak s (close_fd fd s1).2.
Proof.
  intros (t & H & F). unfold close_fd, mbind_, sys.
  destruct (syscall (Close fd) (kern s1)) as [r w]. simpl.
  exists (t ++ [mkCall (Close fd) r]). rewrite H, app_assoc. split; [done|].
  intros l. unfold open_fds in *. rewrite fold_left_app, F. simpl. unfold open_step. simpl.
  by rewrite Z.eqb_refl.
Qed.

(** A descriptor that is closed by a deferred call. *)
Lemma deferring_no_leak {A} fd (body : M W A) (s s1 : NS W) :
  opens fd s s1 -> after no_leak body ->
  match deferring (close_fd fd) body s1 with (Ended _, s') => no_leak s s' | (Waiting, _) => True end.
Proof.
  intros Ho Hb. unfold deferring. specialize (Hb s1). destruct (body s1) as [[o|] s2]; [|done].
  apply close_fd_opens. by eapply opens_step.
Qed.

(** A call that opens a descriptor when it succeeds. *)
Lemma sys_socket p (s : NS W) :
  match sys (Socket p) s with
  | (Ended (Returned (inl _)), s') => no_leak s s'
  | (Ended (Returned (inr fd)), s') => opens fd s s'
  | _ => False
  end.
Proof.
  unfold sys. destruct (syscall (Socket p) (kern s)) as [[e|fd] w];
    (eexists [_]; split; [done|]; intros l; done).
Qed.

Lemma sys_openfile p (s : NS W) :
  match sys (OpenFile p) s with
  | (Ended (Returned (inl _)), s') => no_leak s s'
  | (Ended (Returned (inr fd)), s') => opens fd s s'
  | _ => False
  end.
Proof.
  unfold sys. destruct (syscall (OpenFile p) (kern s)) as [[e|fd] w];
    (eexists [_]; split; [done|]; intros l; done).
Qed.

Lemma getNetlinkSocket_opens p (s : NS W) :
  match getNetlinkSocket p s with
  | (Ended (Returned (inl _)), s') => no_leak s s'
  | (Ended (Returned (inr fd)), s') => opens fd s s'
  | _ => False
  end.
Proof.
  unfold getNetlinkSocket. unfold mbind_ at 1. pose proof (sys_socket p s) as H.
  destruct (sys (Socket p) s) as [[[[e|fd]|h]|] s1]; try done.
  unfold mbind_ at 1. pose proof (sys_neutral (Bind fd 0) I s1) as Hb.
  destruct (sys (Bind fd 0) s1) as [[[[e|]|h]|] s2] eqn:Eb; simpl;
    [ | by eapply opens_step | | ].
  - pose proof (close_fd_opens fd s s2 (opens_step _ _ _ _ H Hb)) as Hc.
    unfold close_fd, mbind_ in *. by destruct (sys (Close fd) s2) as [[[u|h]|] s3] eqn:Ec;
      unfold sys in Ec; destruct (syscall (Close fd) (kern s2)); simplify_eq.
  - unfold sys in Eb. destruct (syscall (Bind fd 0) (kern s1)). simplify_eq.
  - unfold sys in Eb. destruct (syscall (Bind fd 0) (kern s1)). simplify_eq.
Qed.

Lemma Send_no_leak fd req : after no_leak (Send (W := W) fd req).
Proof. unfold Send. after_tac. by apply sys_neutral. Qed.

Lemma Receive_no_leak fd : after no_leak (Receive (W := W) fd).
Proof. unfold Receive. after_tac. by apply sys_neutral. Qed.

Lemma GetPid_no_leak fd : after no_leak (GetPid (W := W) fd).
Proof. unfold GetPid. after_tac. by apply sys_neutral. Qed.

Hint Resolve Send_no_leak Receive_no_leak GetPid_no_leak : nl.

Lemma receive_loop_no_leak rounds fd seq pid ty res :
  after no_leak (receive_loop (W := W) rounds fd seq pid ty res).
Proof. revert res. induction rounds; intros res; simpl; after_tac. Qed.

Hint Resolve receive_loop_no_leak : nl.

Lemma Execute_no_leak rounds req st ty : after no_leak (Execute (W := W) rounds req st ty).
Proof.
  intros s. unfold Execute. unfold mbind_ at 1. pose proof (getNetlinkSocket_opens st s) as H.
  destruct (getNetlinkSocket st s) as [[[[e|fd]|h]|] s1]; try done.
  apply deferring_no_leak; [done|]. after_tac.
Qed.

End descriptors.

#[export] Hint Resolve new_request_no_leak Execute_no_leak : nl.

(** An exchange does not touch the variables of the package. *)
Definition same_vars {W} (s s' : NS W) : Prop :=
  nextSeqNr s' = nextSeqNr s /\ lookupByDump s' = lookupByDump s.

#[export] Instance same_vars_preorder {W} : PreOrder (@same_vars W).
Proof. split; [by split|]. intros s1 s2 s3 [H1 H2] [H3 H4]. split; congruence. Qed.

Section variables.
Context {E : Endian} {W : Type} {K : Kernel W}.

Lemma sys_same_vars c : after same_vars (sys (W := W) c).
Proof. intros s. unfold sys. by destruct (syscall c (kern s)). Qed.
Hint Resolve sys_same_vars : nl.

Lemma deferring_same_vars {A} fd (body : M W A) :
  after same_vars body -> after same_vars (deferring (close_fd fd) body).
Proof.
  intros Hb s. unfold deferring. specialize (Hb s). destruct (body s) as [[o|] s1]; [|done].
  etransitivity; [exact Hb|]. unfold close_fd, mbind_, sys. by destruct (syscall (Close fd) (kern s1)).
Qed.

Lemma receive_loop_same_vars rounds fd seq pid ty res :
  after same_vars (receive_loop (W := W) rounds fd seq pid ty res).
Proof. revert res. induction rounds; intros res; simpl; unfold Receive; after_tac. Qed.
Hint Resolve receive_loop_same_vars : nl.

Lemma Execute_same_vars rounds req st ty : after same_vars (Execute (W := W) rounds req st ty).
Proof.
  unfold Execute, getNetlinkSocket, Send, GetPid, close_fd. after_tac.
  apply deferring_same_vars. after_tac.
Qed.

End variables.


(** * The data of an exchange *)

Section exchange.
Context {E : Endian} {W : Type} {K : Kernel W}.

(** [d] is the data of a message of the type asked for that answers request [seq] of the
    socket with id [pid]. *)
Definition answers (seq pid resType : Z) (d : slice) (m : NetlinkMessage) : Prop :=
  m_Data m = d /\ m_Seq m = seq /\ m_Pid m = pid /\ (resType = 0%Z \/ m_Type m = resType).

Definition received (fd : Z) (t : list call) (m : NetlinkMessage) : Prop :=
  exists b msgs, mkCall (Recvfrom fd) (inr b) ∈ t /\ ParseNetlinkMessage (page b) = Some msgs /\ m ∈ msgs.

Lemma scan_data seq pid ty msgs res v :
  scan seq pid ty msgs res = Returned v ->
  match v with
  | Over (inr res') | More res' =>
      forall d, d ∈ res' -> d ∈ res \/ exists m, m ∈ msgs /\ answers seq pid ty d m
  | Over (inl _) => True
  end.
Proof.
  revert res. induction msgs as [|m msgs IH]; intros res; simpl.
  - intros [= <-]. by left.
  - destruct (Z.eqb_spec (m_Seq m) seq) as [Hs|]; simpl; [|by intros [= <-]].
    destruct (Z.eqb_spec (m_Pid m) pid) as [Hp|]; simpl; [|by intros [= <-]].
    destruct (m_Type m =? NLMSG_DONE)%Z; [intros [= <-]; by left|].
    destruct (m_Type m =? NLMSG_ERROR)%Z.
    { destruct (read_uint (m_Data m) 4); simpl; [|done].
      destruct (int32 a =? 0)%Z; intros [= <-]; [by left|done]. }
    assert (Hrec : forall res0, (forall d, d ∈ res0 -> d ∈ res \/ exists m', m' ∈ m :: msgs /\ answers seq pid ty d m') ->
              scan seq pid ty msgs res0 = Returned v ->
              match v with
              | Over (inr res') | More res' =>
                  forall d, d ∈ res' -> d ∈ res \/ exists m', m' ∈ m :: msgs /\ answers seq pid ty d m'
              | Over (inl _) => True
              end).
    { intros res0 H0 Hv%IH. destruct v as [[e|res']|res']; [done| |];
        (intros d [Hd|(m' & Hm & Ha)]%Hv; [by apply H0|right; exists m'; split; [by right|done]]). }
    destruct (negb (ty =? 0)%Z && negb (m_Type m =? ty)%Z) eqn:Ety; [apply Hrec; by left|].
    assert (Hown : forall d, d ∈ res ++ [m_Data m] ->
              d ∈ res \/ exists m', m' ∈ m :: msgs /\ answers seq pid ty d m').
    { intros d [Hd| ->%list_elem_of_singleton]%elem_of_app; [by left|]. right. exists m.
      split; [by left|]. repeat split; try done.
      destruct (Z.eqb_spec ty 0); [by left|]. destruct (Z.eqb_spec (m_Type m) ty); [by right|done]. }
    destruct (Z.land (m_Flags m) NLM_F_MULTI =? 0)%Z; [by intros [= <-]|by apply Hrec].
Qed.

Lemma sys_eq c (s : NS W) o s' :
  sys c s = (o, s') -> exists r, o = Ended (Returned r) /\ calls s' = calls s ++ [mkCall c r].
Proof. unfold sys. destruct (syscall c (kern s)) as [r w]. intros [= <- <-]. by eexists. Qed.

Lemma Receive_eq fd (s : NS W) o s' :
  Receive fd s = (o, s') ->
  exists r b, o = Ended (Returned r) /\ calls s' = calls s ++ [mkCall (Recvfrom fd) b]
    /\ match r with
       | inr msgs => exists b', b = inr b' /\ ParseNetlinkMessage (page b') = Some msgs
       | inl _ => True
       end.
Proof.
  unfold Receive, mbind_. destruct (sys (Recvfrom fd) s) as [o1 s1] eqn:Es.
  apply sys_eq in Es as (r & -> & Hc). destruct r as [e|b]; simpl.
  - intros [= <- <-]. by exists (inl (Errno e)), (inl e).
  - destruct (_ <? _); [intros [= <- <-]; by eexists (inl _), _|].
    destruct (ParseNetlinkMessage (page b)) eqn:Ep; intros [= <- <-];
      [eexists (inr _), _|by eexists (inl _), _]. eauto.
Qed.

Lemma receive_loop_data rounds fd seq pid ty res (s : NS W) res' s' :
  receive_loop rounds fd seq pid ty res s = (Ended (Returned (inr res')), s') ->
  exists t, calls s' = calls s ++ t
    /\ forall d, d ∈ res' -> d ∈ res \/ exists m, received fd t m /\ answers seq pid ty d m.
Proof.
  revert res s. induction rounds as [|n IH]; intros res s; cbn [receive_loop]; [done|].
  unfold mbind_ at 1. destruct (Receive fd s) as [o1 s1] eqn:Er.
  apply Receive_eq in Er as (r & b & -> & Hc & Hr). destruct r as [e|msgs]; [done|].
  destruct Hr as (b' & -> & Hp). unfold mbind_ at 1, mlift at 1.
  destruct (scan seq pid ty msgs res) as [v|h] eqn:Es; [|done]. apply scan_data in Es.
  assert (Hnew : forall t d, (exists m, m ∈ msgs /\ answers seq pid ty d m) ->
                 exists m, received fd ([mkCall (Recvfrom fd) (inr b')] ++ t) m /\ answers seq pid ty d m).
  { intros t d (m & Hm & Ha). exists m. split; [|done]. exists b', msgs. split; [by left|done]. }
  destruct v as [[e|res1]|res1]; [done|intros [= -> <-]|].
  - eexists. split; [exact Hc|]. intros d [Hd|Hd]%Es; [by left|]. right. by apply (Hnew []).
  - intros (t & Ht & Hd)%IH. exists ([mkCall (Recvfrom fd) (inr b')] ++ t). split.
    { by rewrite Ht, Hc, <- app_assoc. }
    intros d [H1|(m & (b1 & ms & Hb1 & Hrest) & Ha)]%Hd.
    + apply Es in H1 as [H1|H1]; [by left|]. right. by apply Hnew.
    + right. exists m. split; [|done]. exists b1, ms. split; [by right|done].
Qed.

(** More rounds do not change an exchange that ended. *)
Lemma receive_loop_mono n n' fd seq pid ty res (s : NS W) o s' :
  n <= n' -> receive_loop n fd seq pid ty res s = (Ended o, s') ->
  receive_loop n' fd seq pid ty res s = (Ended o, s').
Proof.
  intros Hle. revert n' Hle res s. induction n as [|n IH]; intros n' Hle res s; [done|].
  destruct n' as [|n']; [lia|]. cbn [receive_loop]. unfold mbind_ at 1 3.
  destruct (Receive fd s) as [[[[e|msgs]|h]|] s1]; try done.
  unfold mbind_, mlift. destruct (scan seq pid ty msgs res) as [[r|res1]|h]; try done.
  apply IH. lia.
Qed.


Lemma close_fd_calls fd (s : NS W) : exists t, calls (close_fd fd s).2 = calls s ++ t.
Proof. unfold close_fd, mbind_, sys. destruct (syscall (Close fd) (kern s)). by eexists. Qed.

Lemma Execute_data rounds req st ty (s : NS W) res s' :
  Execute rounds req st ty s = (Ended (Returned (inr res)), s') ->
  exists fd pid t, calls s' = calls s ++ t
    /\ mkCall (Sendto fd (NetlinkRequest_Serialize req)) None ∈ t
    /\ mkCall (Getsockname fd) (inr (Some pid)) ∈ t
    /\ forall d, d ∈ res -> exists m, received fd t m /\ answers (hdr_Seq req) pid ty d m.
Proof.
  unfold Execute. unfold mbind_ at 1. pose proof (getNetlinkSocket_opens st s) as Ho.
  destruct (getNetlinkSocket st s) as [[[[e|fd]|h]|] s1]; try done.
  destruct Ho as (t0 & H0 & _). unfold deferring, Send, GetPid, mbind_ at 1 2.
  destruct (sys (Sendto fd _) s1) as [o2 s2] eqn:E2. apply sys_eq in E2 as (r2 & -> & H2).
  destruct r2 as [e|]; cbn [fmap option_fmap option_map mret]; [done|].
  unfold mbind_ at 1 2. destruct (sys (Getsockname fd) s2) as [o3 s3] eqn:E3.
  apply sys_eq in E3 as (r3 & -> & H3). destruct r3 as [e|[pid|]]; cbn [mret]; [done| |done].
  destruct (receive_loop rounds fd (hdr_Seq req) pid ty [] s3) as [[[[e|res1]|h]|] s4] eqn:E4;
    try done.
  intros [= -> <-]. apply receive_loop_data in E4 as (t4 & H4 & Hd).
  destruct (close_fd_calls fd s4) as [t5 H5].
  eexists fd, pid, (t0 ++ [_] ++ [_] ++ t4 ++ t5). rewrite H5, H4, H3, H2, H0, <- !app_assoc.
  split; [done|]. split; [apply elem_of_app; right; by left|].
  split; [apply elem_of_app; right; right; by left|].
  intros d [Hnil|(m & (b & ms & Hb & Hrest) & Ha)]%Hd; [by apply not_elem_of_nil in Hnil|].
  exists m. split; [|done]. exists b, ms. split; [|done].
  apply elem_of_app. right. right. right. apply elem_of_app. by left.
Qed.

Lemma Execute_mono n n' req st ty (s : NS W) o s' :
  n <= n' -> Execute n req st ty s = (Ended o, s') -> Execute n' req st ty s = (Ended o, s').
Proof.
  intros Hle. unfold Execute. unfold mbind_ at 1 4.
  destruct (getNetlinkSocket st s) as [[[[e|fd]|h]|] s1]; try done.
  unfold deferring, mbind_. destruct (Send fd req s1) as [[[[e|]|h]|] s2]; try done.
  destruct (GetPid fd s2) as [[[[e|pid]|h]|] s3]; try done.
  destruct (receive_loop n fd (hdr_Seq req) pid ty [] s3) as [[o4|] s4] eqn:E4; [|done].
  by rewrite (receive_loop_mono _ _ _ _ _ _ _ _ _ _ Hle E4).
Qed.

End exchange.

(** * Dumps *)

(** A message of the answer to request [seq] of socket [pid] that is not the last one. *)
Definition part (seq pid : Z) (m : NetlinkMessage) : bool :=
  (m_Seq m =? seq)%Z && (m_Pid m =? pid)%Z && negb (m_Type m =? NLMSG_DONE)%Z
  && negb (m_Type m =? NLMSG_ERROR)%Z && negb (Z.land (m_Flags m) NLM_F_MULTI =? 0)%Z.

(** The message that ends it. *)
Definition last_part (seq pid : Z) (m : NetlinkMessage) : bool :=
  (m_Seq m =? seq)%Z && (m_Pid m =? pid)%Z && (m_Type m =? NLMSG_DONE)%Z.

Definition wanted (resType : Z) (m : NetlinkMessage) : bool :=
  (resType =? 0)%Z || (m_Type m =? resType)%Z.

Definition data_of (resType : Z) (msgs : list NetlinkMessage) : list slice :=
  map m_Data (List.filter (wanted resType) msgs).

Section dump.
Context {E : Endian} {W : Type} {K : Kernel W}.

(** The packets that successive receives on [fd] bring. *)
Inductive receives (fd : Z) : NS W -> list (list NetlinkMessage) -> NS W -> Prop :=
| receives_nil s : receives fd s [] s
| receives_cons s msgs s1 ps s2 :
    Receive fd s = (Ended (Returned (inr msgs)), s1) ->
    receives fd s1 ps s2 -> receives fd s (msgs :: ps) s2.

Lemma scan_front seq pid ty front rest res :
  forallb (part seq pid) front = true ->
  scan seq pid ty (front ++ rest) res = scan seq pid ty rest (res ++ data_of ty front).
Proof.
  unfold data_of. revert res. induction front as [|m front IH]; intros res; simpl; [by rewrite app_nil_r|].
  intros [Hm Hf]%andb_true_iff. unfold part in Hm. rewrite !andb_true_iff, !negb_true_iff in Hm.
  destruct Hm as [[[[-> ->] ->] ->] ->]. destruct (wanted ty m) eqn:Hw; unfold wanted in Hw.
  - rewrite <- negb_orb, Hw. simpl. by rewrite IH, <- app_assoc.
  - rewrite <- negb_orb, Hw. simpl. by apply IH.
Qed.

Lemma scan_last seq pid ty front m rest res :
  forallb (part seq pid) front = true -> last_part seq pid m = true ->
  scan seq pid ty (front ++ m :: rest) res = Returned (Over (inr (res ++ data_of ty front))).
Proof.
  intros Hf. unfold last_part. rewrite !andb_true_iff. intros [[H1 H2] H3].
  rewrite scan_front by done. simpl. by rewrite H1, H2, H3.
Qed.

Lemma data_of_app ty l l' : data_of ty (l ++ l') = data_of ty l ++ data_of ty l'.
Proof. unfold data_of. by rewrite List.filter_app, map_app. Qed.

Lemma receive_loop_dump fd seq pid ty ps front m rest (s s1 s2 : NS W) res :
  receives fd s ps s1 -> Receive fd s1 = (Ended (Returned (inr (front ++ m :: rest))), s2) ->
  forallb (part seq pid) (concat ps ++ front) = true -> last_part seq pid m = true ->
  receive_loop (S (length ps)) fd seq pid ty res s
    = (Ended (Returned (inr (res ++ data_of ty (concat ps ++ front)))), s2).
Proof.
  intros Hr. revert res. induction Hr as [s|s msgs s' ps s1 Hm Hr IH]; intros res Hl.
  - simpl. intros Hf Hm. unfold mbind_. rewrite Hl. unfold mlift.
    by rewrite scan_last by done.
  - simpl concat. rewrite <- app_assoc, forallb_app, andb_true_iff. intros [Hp Hf] Hm'.
    change (receive_loop (S (length (msgs :: ps))) fd seq pid ty res) with
      (let* r := Receive fd in
       match r with
       | inl e => mret (inl e)
       | inr msgs =>
           let* v := mlift (scan seq pid ty msgs res) in
           match v with
           | Over r => mret r
           | More res => receive_loop (S (length ps)) fd seq pid ty res
           end
       end).
    unfold mbind_. rewrite Hm. unfold mlift.
    rewrite <- (app_nil_r msgs) at 1. rewrite scan_front by done. simpl.
    rewrite data_of_app, app_assoc. by apply IH.
Qed.

(** A socket that is open and bound, on which the request went out and whose id is known. *)
Definition asked (req : NetlinkRequest) (sockType fd pid : Z) (s s' : NS W) : Prop :=
  exists s1 s2, getNetlinkSocket sockType s = (Ended (Returned (inr fd)), s1)
    /\ Send fd req s1 = (Ended (Returned None), s2)
    /\ GetPid fd s2 = (Ended (Returned (inr pid)), s').

Lemma Execute_asked rounds req st ty fd pid (s s' : NS W) o s2 :
  asked req st fd pid s s' ->
  receive_loop rounds fd (hdr_Seq req) pid ty [] s' = (Ended o, s2) ->
  Execute rounds req st ty s = (Ended o, (close_fd fd s2).2).
Proof.
  intros (s1 & s1' & H1 & H2 & H3) H4. unfold Execute. unfold mbind_ at 1. rewrite H1.
  unfold deferring, mbind_. by rewrite H2, H3, H4.
Qed.

End dump.

(** * What an exchange promises *)

(** When Execute reports success, it sent the request once its socket was bound, asked the
    kernel for the socket's id, and every piece of data it returns was received on that socket
    in a message that carries the request's sequence number and that id, and the type asked
    for: data meant for another request are never returned. *)
Theorem Execute_own_messages {E : Endian} {W} {K : Kernel W} rounds req st ty (s : NS W) res s' :
  Execute rounds req st ty s = (Ended (Returned (inr res)), s') ->
  exists fd pid t, calls s' = calls s ++ t
    /\ mkCall (Sendto fd (NetlinkRequest_Serialize req)) None ∈ t
    /\ mkCall (Getsockname fd) (inr (Some pid)) ∈ t
    /\ forall d, d ∈ res -> exists m, received fd t m /\ answers (hdr_Seq req) pid ty d m.
Proof. apply Execute_data. Qed.

(** A kernel that answers every receive with the next of a list of buffers, and grants
    everything else: descriptor 3, process id 77. *)
#[export] Instance scripted : Kernel (list (list Z)) := {
  syscall c w :=
    match c return sres c * list (list Z) with
    | Socket _ => (inr 3%Z, w)
    | Bind _ _ => (None, w)
    | Close _ => (tt, w)
    | Sendto _ _ => (None, w)
    | Recvfrom _ => match w with b :: w' => (inr b, w') | [] => (inl 11%Z, []) end
    | Getsockname _ => (inr (Some 77%Z), w)
    | OpenFile _ => (inr 5%Z, w)
    | Ioctl _ _ _ => (0%Z, w)
    end;
  Getpagesize := 128
}.

(** A message as the kernel writes it: type, flags, sequence number and data. *)
Definition reply {E : Endian} (ty flags seq : Z) (data : list Z) : list Z :=
  header_bytes (Z.of_nat (16 + length data)) ty flags seq 77 ++ data.

Definition fresh (script : list (list Z)) : NS (list (list Z)) := mkNS script 0 false [].

Lemma Execute_own_messages_witness :
  exists fd pid t,
    calls (@Execute false _ scripted 2 (NewNetlinkRequest 18 4 1) 0 0
             (fresh [@reply false 16 2 1 [9; 9; 9; 9]%Z; @reply false 3 2 1 []])).2 = t
    /\ mkCall (Sendto fd (@NetlinkRequest_Serialize false (NewNetlinkRequest 18 4 1))) None ∈ t
    /\ mkCall (Getsockname fd) (inr (Some pid)) ∈ t.
Proof.
  destruct (@Execute_own_messages false _ scripted 2 (NewNetlinkRequest 18 4 1) 0 0
              (fresh [@reply false 16 2 1 [9; 9; 9; 9]%Z; @reply false 3 2 1 []])
              [mkSlice [9; 9; 9; 9]%Z (replicate 108 0%Z)] _ ltac:(vm_compute; reflexivity))
    as (fd & pid & t & Ht & Hs & Hg & _).
  exists fd, pid, t. split; [|by split]. exact Ht.
Defined.

(** C12: An exchange ends with all of its data: when the packets that arrive hold parts of the
    answer to the request and then the message that ends it, Execute returns, given at least
    one receive per packet, the data of every part of the type asked for, in the order of
    arrival and across packets, reads nothing after the packet with the end, and closes its
    socket. *)
Theorem Execute_dump {E : Endian} {W} {K : Kernel W} rounds req st ty fd pid ps front m rest
    (s s1 s2 s3 : NS W) :
  asked req st fd pid s s1 ->
  receives fd s1 ps s2 -> Receive fd s2 = (Ended (Returned (inr (front ++ m :: rest))), s3) ->
  forallb (part (hdr_Seq req) pid) (concat ps ++ front) = true ->
  last_part (hdr_Seq req) pid m = true ->
  length ps < rounds ->
  Execute rounds req st ty s
    = (Ended (Returned (inr (data_of ty (concat ps ++ front)))), (close_fd fd s3).2).
Proof.
  intros Ha Hr Hl Hf Hm Hn. apply Execute_mono with (S (length ps)); [done|].
  eapply Execute_asked; [done|]. by apply (receive_loop_dump _ _ _ _ _ _ _ _ _ _ _ [] Hr Hl).
Qed.

(** Two packets, with a message of another type in between. *)
Definition dump_packets : list (list Z) :=
  [(@reply false 16 2 1 [9; 9; 9; 9] ++ @reply false 20 2 1 [8; 8; 8; 8])%Z;
   (@reply false 16 2 1 [7; 7; 7; 7] ++ @reply false 3 2 1 [0; 0; 0; 0])%Z].

Lemma Execute_dump_witness :
  map items <$> match (@Execute false _ scripted 9 (NewNetlinkRequest 18 4 1) 0 16
                         (fresh dump_packets)).1 with
                | Ended (Returned (inr res)) => Some res
                | _ => None
                end = Some [[9; 9; 9; 9]; [7; 7; 7; 7]]%Z.
Proof.
  set (s0 := fresh dump_packets).
  erewrite (@Execute_dump false _ scripted 9 (NewNetlinkRequest 18 4 1) 0 16 3 77
              [[_; _]] [_] _ [] s0); cycle 1.
  - eexists _, _. split; [reflexivity|]. split; reflexivity.
  - econstructor; [vm_compute; reflexivity|constructor].
  - vm_compute. reflexivity.
  - reflexivity.
  - reflexivity.
  - simpl. lia.
  - reflexivity.
Defined.
