(* ===== verification/Netlink.v ===== *)
(** vishvananda/netlink, links (link.go, link_linux.go, link_tuntap_linux.go,
    nl/link_linux.go, protinfo.go): the kinds of links, adding, changing, deleting and
    finding them, and the reading of the kernel's description of a link.

    A Go link is a pointer whose index the functions may fill in, so an operation
    returns the link as it leaves it. [rounds] bounds the number of receives of an
    exchange. The type int has 64 bits. *)

From S2P Require Import Prelude NetIP Nl NlSock.

Local Open Scope go_scope.
Local Open Scope nl_scope.
Local Open Scope Z_scope.

(** * Constants *)

Definition NETLINK_ROUTE : Z := 0.
Definition AF_UNSPEC : Z := 0.
Definition AF_BRIDGE : Z := 7.
Definition RTM_NEWLINK : Z := 16.
Definition RTM_DELLINK : Z := 17.
Definition RTM_GETLINK : Z := 18.
Definition RTM_SETLINK : Z := 19.
Definition IFF_UP : Z := 1.
Definition IFF_BROADCAST : Z := 2.
Definition IFF_LOOPBACK : Z := 8.
Definition IFF_POINTOPOINT : Z := 0x10.
Definition IFF_MULTICAST : Z := 0x1000.
Definition IFLA_ADDRESS : Z := 1.
Definition IFLA_IFNAME : Z := 3.
Definition IFLA_MTU : Z := 4.
Definition IFLA_LINK : Z := 5.
Definition IFLA_MASTER : Z := 10.
Definition IFLA_PROTINFO : Z := 12.
Definition IFLA_TXQLEN : Z := 13.
Definition IFLA_LINKINFO : Z := 18.
Definition IFLA_NET_NS_PID : Z := 19.
Definition IFLA_NET_NS_FD : Z := 28.
Definition NLA_F_NESTED : Z := 0x8000.
Definition RTNLGRP_LINK : Z := 1.

Definition IFLA_INFO_KIND : Z := 1.
Definition IFLA_INFO_DATA : Z := 2.
Definition IFLA_VLAN_ID : Z := 1.
Definition VETH_INFO_PEER : Z := 1.
Definition IFLA_IPVLAN_MODE : Z := 1.
Definition IFLA_MACVLAN_MODE : Z := 1.

Definition IFLA_VXLAN_ID : Z := 1.
Definition IFLA_VXLAN_GROUP : Z := 2.
Definition IFLA_VXLAN_LINK : Z := 3.
Definition IFLA_VXLAN_LOCAL : Z := 4.
Definition IFLA_VXLAN_TTL : Z := 5.
Definition IFLA_VXLAN_TOS : Z := 6.
Definition IFLA_VXLAN_LEARNING : Z := 7.
Definition IFLA_VXLAN_AGEING : Z := 8.
Definition IFLA_VXLAN_LIMIT : Z := 9.
Definition IFLA_VXLAN_PORT_RANGE : Z := 10.
Definition IFLA_VXLAN_PROXY : Z := 11.
Definition IFLA_VXLAN_RSC : Z := 12.
Definition IFLA_VXLAN_L2MISS : Z := 13.
Definition IFLA_VXLAN_L3MISS : Z := 14.
Definition IFLA_VXLAN_PORT : Z := 15.
Definition IFLA_VXLAN_GROUP6 : Z := 16.
Definition IFLA_VXLAN_LOCAL6 : Z := 17.
Definition IFLA_VXLAN_GBP : Z := 23.

Definition IFLA_BRPORT_MODE : Z := 4.
Definition IFLA_BRPORT_GUARD : Z := 5.
Definition IFLA_BRPORT_PROTECT : Z := 6.
Definition IFLA_BRPORT_FAST_LEAVE : Z := 7.
Definition IFLA_BRPORT_LEARNING : Z := 8.
Definition IFLA_BRPORT_UNICAST_FLOOD : Z := 9.

(** * Links *)

Inductive namespace : Type :=
| NsNil
| NsPid (pid : Z)
| NsFd (fd : Z).

Record LinkAttrs : Type := mkAttrs {
  Index : Z;
  MTU : Z;
  TxQLen : Z;
  Name : string;
  HardwareAddr : list Z;
  Flags : Z;
  ParentIndex : Z;
  MasterIndex : Z;
  Namespace : namespace
}.

(** The zero value of the struct, and NewLinkAttrs. *)
Definition zero_attrs : LinkAttrs := mkAttrs 0 0 0 "" [] 0 0 0 NsNil.
Definition NewLinkAttrs : LinkAttrs := mkAttrs 0 0 (-1) "" [] 0 0 0 NsNil.

Definition set_Index (i : Z) (a : LinkAttrs) : LinkAttrs :=
  mkAttrs i (MTU a) (TxQLen a) (Name a) (HardwareAddr a) (Flags a) (ParentIndex a) (MasterIndex a)
          (Namespace a).

(** A nil net.IP is [None]. *)
Record vxlan_data : Type := mkVxlan {
  VxlanId : Z; VtepDevIndex : Z; SrcAddr : option (list Z); Group : option (list Z);
  TTL : Z; TOS : Z; Learning : bool; Proxy : bool; RSC : bool; L2miss : bool; L3miss : bool;
  NoAge : bool; GBP : bool; Age : Z; Limit : Z; Port : Z; PortLow : Z; PortHigh : Z }.

Definition zero_vxlan : vxlan_data :=
  mkVxlan 0 0 None None 0 0 false false false false false false false 0 0 0 0 0.

Inductive Link : Type :=
| Device (a : LinkAttrs)
| Dummy (a : LinkAttrs)
| Ifb (a : LinkAttrs)
| Bridge (a : LinkAttrs)
| Vlan (a : LinkAttrs) (VlanId : Z)
| Macvlan (a : LinkAttrs) (Mode : Z)
| Macvtap (a : LinkAttrs) (Mode : Z)
| Tuntap (a : LinkAttrs) (Mode : Z)
| Veth (a : LinkAttrs) (PeerName : string)
| GenericLink (a : LinkAttrs) (LinkType : string)
| Vxlan (a : LinkAttrs) (v : vxlan_data)
| IPVlan (a : LinkAttrs) (Mode : Z).

Definition Attrs (l : Link) : LinkAttrs :=
  match l with
  | Device a | Dummy a | Ifb a | Bridge a | Vlan a _ | Macvlan a _ | Macvtap a _ | Tuntap a _
  | Veth a _ | GenericLink a _ | Vxlan a _ | IPVlan a _ => a
  end.

(** [*link.Attrs() = a] *)
Definition set_Attrs (a : LinkAttrs) (l : Link) : Link :=
  match l with
  | Device _ => Device a
  | Dummy _ => Dummy a
  | Ifb _ => Ifb a
  | Bridge _ => Bridge a
  | Vlan _ i => Vlan a i
  | Macvlan _ m => Macvlan a m
  | Macvtap _ m => Macvtap a m
  | Tuntap _ m => Tuntap a m
  | Veth _ p => Veth a p
  | GenericLink _ t => GenericLink a t
  | Vxlan _ v => Vxlan a v
  | IPVlan _ m => IPVlan a m
  end.

Definition link_Type (l : Link) : string :=
  match l with
  | Device _ => "device"
  | Dummy _ => "dummy"
  | Ifb _ => "ifb"
  | Bridge _ => "bridge"
  | Vlan _ _ => "vlan"
  | Macvlan _ _ => "macvlan"
  | Macvtap _ _ => "macvtap"
  | Tuntap _ _ => "tuntap"
  | Veth _ _ => "veth"
  | GenericLink _ t => t
  | Vxlan _ _ => "vxlan"
  | IPVlan _ _ => "ipvlan"
  end.

(** The modes of link.go are the positions in macvlanModes. *)
Definition MACVLAN_MODE_DEFAULT : Z := 0.
Definition macvlanModes : list Z := [0; 1; 2; 4; 8; 16].

(** * Attributes of new links *)

Definition boolAttr (val : bool) : list Z := Uint8Attr (if val then 1 else 0).
Definition boolToByte (x : bool) : list Z := if x then [1] else [0].
Definition byteToBool (x : Z) : bool := negb (x =? 0).

Section attributes.
Context {E : Endian}.

(** The data of the address attribute of an IPv4 or an IPv6 address; no attribute when the
    address has neither form. *)
Definition To16 (ip : list Z) : option (list Z) :=
  if (length ip =? 4)%nat then Some (replicate 10 0 ++ [0xff; 0xff] ++ ip)%list
  else if (length ip =? 16)%nat then Some ip
  else None.

Definition ip_attr (t4 t6 : Z) (ip : list Z) : list request_data :=
  match To4 ip with
  | Some b => [NewRtAttr t4 (Some b)]
  | None => match To16 ip with
            | Some b => [NewRtAttr t6 (Some b)]
            | None => []
            end
  end.

Definition when (b : bool) (d : request_data) : list request_data := if b then [d] else [].

(** binary.Write of the struct of two ports, in network order. *)
Definition port_range (lo hi : Z) : list Z := (rev (le_bytes 2 lo) ++ rev (le_bytes 2 hi))%list.

(** The children of IFLA_INFO_DATA that addVxlanAttrs appends, in order. *)
Definition vxlan_attrs (v : vxlan_data) : list request_data :=
  ([NewRtAttr IFLA_VXLAN_ID (Some (Uint32Attr (VxlanId v)))]
   ++ when (negb (VtepDevIndex v =? 0)) (NewRtAttr IFLA_VXLAN_LINK (Some (Uint32Attr (VtepDevIndex v))))
   ++ match SrcAddr v with Some ip => ip_attr IFLA_VXLAN_LOCAL IFLA_VXLAN_LOCAL6 ip | None => [] end
   ++ match Group v with Some ip => ip_attr IFLA_VXLAN_GROUP IFLA_VXLAN_GROUP6 ip | None => [] end
   ++ [NewRtAttr IFLA_VXLAN_TTL (Some (Uint8Attr (uint_n 1 (TTL v))));
       NewRtAttr IFLA_VXLAN_TOS (Some (Uint8Attr (uint_n 1 (TOS v))));
       NewRtAttr IFLA_VXLAN_LEARNING (Some (boolAttr (Learning v)));
       NewRtAttr IFLA_VXLAN_PROXY (Some (boolAttr (Proxy v)));
       NewRtAttr IFLA_VXLAN_RSC (Some (boolAttr (RSC v)));
       NewRtAttr IFLA_VXLAN_L2MISS (Some (boolAttr (L2miss v)));
       NewRtAttr IFLA_VXLAN_L3MISS (Some (boolAttr (L3miss v)))]
   ++ when (GBP v) (NewRtAttr IFLA_VXLAN_GBP (Some (boolAttr (GBP v))))
   ++ (if NoAge v then [NewRtAttr IFLA_VXLAN_AGEING (Some (Uint32Attr 0))]
       else when (0 <? Age v) (NewRtAttr IFLA_VXLAN_AGEING (Some (Uint32Attr (Age v)))))
   ++ when (0 <? Limit v) (NewRtAttr IFLA_VXLAN_LIMIT (Some (Uint32Attr (Limit v))))
   ++ when (0 <? Port v) (NewRtAttr IFLA_VXLAN_PORT (Some (Uint16Attr (Port v))))
   ++ when ((0 <? PortLow v) || (0 <? PortHigh v))
           (NewRtAttr IFLA_VXLAN_PORT_RANGE (Some (port_range (PortLow v) (PortHigh v)))))%list.

Definition attr_with (ty : Z) (children : list request_data) : request_data :=
  fold_left add_child children (NewRtAttr ty None).

Definition addVxlanAttrs (v : vxlan_data) (linkInfo : request_data) : request_data :=
  add_child linkInfo (attr_with IFLA_INFO_DATA (vxlan_attrs v)).

(** The children of the peer of a veth link. *)
Definition veth_peer (base : LinkAttrs) (PeerName : string) : request_data :=
  attr_with VETH_INFO_PEER
    ([DIfInfo (NewIfInfomsg AF_UNSPEC);
      NewRtAttr IFLA_IFNAME (Some (ZeroTerminated PeerName))]
     ++ when (0 <=? TxQLen base) (NewRtAttr IFLA_TXQLEN (Some (Uint32Attr (TxQLen base))))
     ++ when (0 <? MTU base) (NewRtAttr IFLA_MTU (Some (Uint32Attr (MTU base)))))%list.

(** IFLA_LINKINFO of a new link: the chain of type tests of LinkAdd. *)
Definition link_info (link : Link) : outcome request_data :=
  let base := Attrs link in
  let linkInfo := add_child (NewRtAttr IFLA_LINKINFO None)
                            (NewRtAttr IFLA_INFO_KIND (Some (NonZeroTerminated (link_Type link)))) in
  let with_data children := add_child linkInfo (attr_with IFLA_INFO_DATA children) in
  match link with
  | Vlan _ id => Returned (with_data [NewRtAttr IFLA_VLAN_ID (Some (put_uint 2 id))])
  | Veth _ peer => Returned (with_data [veth_peer base peer])
  | Vxlan _ v => Returned (addVxlanAttrs v linkInfo)
  | IPVlan _ mode => Returned (with_data [NewRtAttr IFLA_IPVLAN_MODE (Some (Uint16Attr mode))])
  | Macvlan _ mode =>
      if mode =? MACVLAN_MODE_DEFAULT then Returned linkInfo
      else
        let? m := index macvlanModes (Z.to_nat mode) in
        Returned (with_data [NewRtAttr IFLA_MACVLAN_MODE (Some (Uint32Attr m))])
  | _ => Returned linkInfo
  end.

(** * Reading links *)

(** copied from pkg/net_linux.go, as the source says *)
Definition linkFlags (rawFlags : Z) : Z :=
  let bit raw flag := if Z.land rawFlags raw =? 0 then 0 else flag in
  Z.lor (Z.lor (Z.lor (Z.lor (bit IFF_UP 1) (bit IFF_BROADCAST 2)) (bit IFF_LOOPBACK 4))
               (bit IFF_POINTOPOINT 8)) (bit IFF_MULTICAST 16).

Definition assertion_panic {A} : outcome A := Halted (GoPanic "interface conversion").

(** A loop over attributes that updates a value. *)
Fixpoint over_attrs {A} (step : A -> Z -> slice -> outcome A) (data : list RouteAttr) (a : A)
    : outcome A :=
  match data with
  | [] => Returned a
  | d :: data' =>
      let? a' := step a (attr_Type d) (attr_Value d) in
      over_attrs step data' a'
  end.

Definition parseVlanData (link : option Link) (data : list RouteAttr) : outcome Link :=
  match link with
  | Some (Vlan a id) =>
      let? id' := over_attrs (fun id t v => if t =? IFLA_VLAN_ID then read_uint v 2 else Returned id)
                             data id in
      Returned (Vlan a id')
  | _ => assertion_panic
  end.

(** [datum.Value[0]] as a byte, and [int8(datum.Value[0]) != 0] *)
Definition first_byte (v : slice) : outcome Z := index (items v) 0.
Definition first_bool (v : slice) : outcome bool :=
  let? b := first_byte v in Returned (negb (b =? 0)).
Definition some_bytes (v : slice) (n : nat) : outcome (option (list Z)) :=
  let? s := sub v 0 n in Returned (Some (items s)).

(** binary.Read of the struct of two ports: fails on fewer than four bytes. *)
Definition read_port_range (b : list Z) : option (Z * Z) :=
  if (length b <? 4)%nat then None
  else Some (le_val (rev (take 2 b)), le_val (rev (take 2 (drop 2 b)))).

Definition vxlan_step (v : vxlan_data) (t : Z) (d : slice) : outcome vxlan_data :=
  let 'mkVxlan id dev src grp ttl tos lrn prx rsc l2 l3 noage gbp age lim port lo hi := v in
  if t =? IFLA_VXLAN_ID then
    let? x := read_uint d 4 in Returned (mkVxlan x dev src grp ttl tos lrn prx rsc l2 l3 noage gbp age lim port lo hi)
  else if t =? IFLA_VXLAN_LINK then
    let? x := read_uint d 4 in Returned (mkVxlan id x src grp ttl tos lrn prx rsc l2 l3 noage gbp age lim port lo hi)
  else if t =? IFLA_VXLAN_LOCAL then
    let? x := some_bytes d 4 in Returned (mkVxlan id dev x grp ttl tos lrn prx rsc l2 l3 noage gbp age lim port lo hi)
  else if t =? IFLA_VXLAN_LOCAL6 then
    let? x := some_bytes d 16 in Returned (mkVxlan id dev x grp ttl tos lrn prx rsc l2 l3 noage gbp age lim port lo hi)
  else if t =? IFLA_VXLAN_GROUP then
    let? x := some_bytes d 4 in Returned (mkVxlan id dev src x ttl tos lrn prx rsc l2 l3 noage gbp age lim port lo hi)
  else if t =? IFLA_VXLAN_GROUP6 then
    let? x := some_bytes d 16 in Returned (mkVxlan id dev src x ttl tos lrn prx rsc l2 l3 noage gbp age lim port lo hi)
  else if t =? IFLA_VXLAN_TTL then
    let? x := first_byte d in Returned (mkVxlan id dev src grp x tos lrn prx rsc l2 l3 noage gbp age lim port lo hi)
  else if t =? IFLA_VXLAN_TOS then
    let? x := first_byte d in Returned (mkVxlan id dev src grp ttl x lrn prx rsc l2 l3 noage gbp age lim port lo hi)
  else if t =? IFLA_VXLAN_LEARNING then
    let? x := first_bool d in Returned (mkVxlan id dev src grp ttl tos x prx rsc l2 l3 noage gbp age lim port lo hi)
  else if t =? IFLA_VXLAN_PROXY then
    let? x := first_bool d in Returned (mkVxlan id dev src grp ttl tos lrn x rsc l2 l3 noage gbp age lim port lo hi)
  else if t =? IFLA_VXLAN_RSC then
    let? x := first_bool d in Returned (mkVxlan id dev src grp ttl tos lrn prx x l2 l3 noage gbp age lim port lo hi)
  else if t =? IFLA_VXLAN_L2MISS then
    let? x := first_bool d in Returned (mkVxlan id dev src grp ttl tos lrn prx rsc x l3 noage gbp age lim port lo hi)
  else if t =? IFLA_VXLAN_L3MISS then
    let? x := first_bool d in Returned (mkVxlan id dev src grp ttl tos lrn prx rsc l2 x noage gbp age lim port lo hi)
  else if t =? IFLA_VXLAN_GBP then
    let? x := first_bool d in Returned (mkVxlan id dev src grp ttl tos lrn prx rsc l2 l3 noage x age lim port lo hi)
  else if t =? IFLA_VXLAN_AGEING then
    let? x := read_uint d 4 in Returned (mkVxlan id dev src grp ttl tos lrn prx rsc l2 l3 (x =? 0) gbp x lim port lo hi)
  else if t =? IFLA_VXLAN_LIMIT then
    let? x := read_uint d 4 in Returned (mkVxlan id dev src grp ttl tos lrn prx rsc l2 l3 noage gbp age x port lo hi)
  else if t =? IFLA_VXLAN_PORT then
    let? x := read_uint d 2 in Returned (mkVxlan id dev src grp ttl tos lrn prx rsc l2 l3 noage gbp age lim x lo hi)
  else if t =? IFLA_VXLAN_PORT_RANGE then
    let? s := sub d 0 4 in
    match read_port_range (items s) with
    | Some _ => Returned v
    | None => Returned (mkVxlan id dev src grp ttl tos lrn prx rsc l2 l3 noage gbp age lim port 0 0)
    end
  else Returned v.

Definition parseVxlanData (link : option Link) (data : list RouteAttr) : outcome Link :=
  match link with
  | Some (Vxlan a v) => let? v' := over_attrs vxlan_step data v in Returned (Vxlan a v')
  | _ => assertion_panic
  end.

(** The first attribute of a type. *)
Fixpoint first_attr (t : Z) (data : list RouteAttr) : option slice :=
  match data with
  | [] => None
  | d :: data' => if attr_Type d =? t then Some (attr_Value d) else first_attr t data'
  end.

Definition parseIPVlanData (link : option Link) (data : list RouteAttr) : outcome Link :=
  match link with
  | Some (IPVlan a mode) =>
      match first_attr IFLA_IPVLAN_MODE data with
      | Some v => let? m := read_uint v 4 in Returned (IPVlan a (uint_n 2 m))
      | None => Returned (IPVlan a mode)
      end
  | _ => assertion_panic
  end.

(** The mode that stands for a value of the kernel; other values leave the mode. *)
Definition macvlan_mode (raw mode : Z) : Z :=
  if raw =? 1 then 1 else if raw =? 2 then 2 else if raw =? 4 then 3
  else if raw =? 8 then 4 else if raw =? 16 then 5 else mode.

Definition read_macvlan (mode : Z) (data : list RouteAttr) : outcome Z :=
  match first_attr IFLA_MACVLAN_MODE data with
  | Some v => let? raw := read_uint v 4 in Returned (macvlan_mode raw mode)
  | None => Returned mode
  end.

Definition parseMacvlanData (link : option Link) (data : list RouteAttr) : outcome Link :=
  match link with
  | Some (Macvlan a mode) => let? m := read_macvlan mode data in Returned (Macvlan a m)
  | _ => assertion_panic
  end.

Definition parseMacvtapData (link : option Link) (data : list RouteAttr) : outcome Link :=
  match link with
  | Some (Macvtap a mode) => let? m := read_macvlan mode data in Returned (Macvtap a m)
  | _ => assertion_panic
  end.

(** The link of a kind, with everything else zero. *)
Definition link_of_kind (linkType : string) : Link :=
  let isK k := String.eqb linkType k in
  if isK "dummy" then Dummy zero_attrs
  else if isK "ifb" then Ifb zero_attrs
  else if isK "bridge" then Bridge zero_attrs
  else if isK "vlan" then Vlan zero_attrs 0
  else if isK "veth" then Veth zero_attrs ""
  else if isK "vxlan" then Vxlan zero_attrs zero_vxlan
  else if isK "ipvlan" then IPVlan zero_attrs 0
  else if isK "macvlan" then Macvlan zero_attrs 0
  else if isK "macvtap" then Macvtap zero_attrs 0
  else GenericLink zero_attrs linkType.

Definition parse_link_data (link : option Link) (linkType : string) (data : list RouteAttr)
    : outcome (option Link) :=
  let isK k := String.eqb linkType k in
  let some (o : outcome Link) := omap_out Some o in
  if isK "vlan" then some (parseVlanData link data)
  else if isK "vxlan" then some (parseVxlanData link data)
  else if isK "ipvlan" then some (parseIPVlanData link data)
  else if isK "macvlan" then some (parseMacvlanData link data)
  else if isK "macvtap" then some (parseMacvtapData link data)
  else Returned link.

(** The loop over the attributes in IFLA_LINKINFO: the link so far and its kind. [None] is
    EINVAL, here and below. *)
Fixpoint deser_info (infos : list RouteAttr) (link : option Link) (linkType : string)
    : outcome (option (option Link * string)) :=
  match infos with
  | [] => Returned (Some (link, linkType))
  | info :: infos' =>
      if attr_Type info =? IFLA_INFO_KIND then
        let? k := drop_last (attr_Value info) in
        let linkType := bytes_str k in
        deser_info infos' (Some (link_of_kind linkType)) linkType
      else if attr_Type info =? IFLA_INFO_DATA then
        let? r := ParseRouteAttr (attr_Value info) in
        match r with
        | None => Returned None
        | Some data =>
            let? link' := parse_link_data link linkType data in
            deser_info infos' link' linkType
        end
      else deser_info infos' link linkType
  end.

(** A change of the shared attributes by one attribute of the message. *)
Definition deser_base (base : LinkAttrs) (t : Z) (v : slice) : outcome LinkAttrs :=
  let 'mkAttrs ix mtu q name hw fl par mas ns := base in
  if t =? IFLA_ADDRESS then
    Returned (if existsb (fun b => negb (b =? 0)) (items v)
              then mkAttrs ix mtu q name (items v) fl par mas ns else base)
  else if t =? IFLA_IFNAME then
    let? b := drop_last v in Returned (mkAttrs ix mtu q (bytes_str b) hw fl par mas ns)
  else if t =? IFLA_MTU then
    let? x := read_uint v 4 in Returned (mkAttrs ix x q name hw fl par mas ns)
  else if t =? IFLA_LINK then
    let? x := read_uint v 4 in Returned (mkAttrs ix mtu q name hw fl x mas ns)
  else if t =? IFLA_MASTER then
    let? x := read_uint v 4 in Returned (mkAttrs ix mtu q name hw fl par x ns)
  else if t =? IFLA_TXQLEN then
    let? x := read_uint v 4 in Returned (mkAttrs ix mtu x name hw fl par mas ns)
  else Returned base.

Fixpoint deser_attrs (attrs : list RouteAttr) (base : LinkAttrs) (link : option Link)
    (linkType : string) : outcome (option (LinkAttrs * option Link)) :=
  match attrs with
  | [] => Returned (Some (base, link))
  | attr :: attrs' =>
      if attr_Type attr =? IFLA_LINKINFO then
        let? r := ParseRouteAttr (attr_Value attr) in
        match r with
        | None => Returned None
        | Some infos =>
            let? r := deser_info infos link linkType in
            match r with
            | None => Returned None
            | Some (link', linkType') => deser_attrs attrs' base link' linkType'
            end
        end
      else
        let? base' := deser_base base (attr_Type attr) (attr_Value attr) in
        deser_attrs attrs' base' link linkType
  end.

Definition linkDeserialize (m : slice) : outcome (option Link) :=
  let? msg := DeserializeIfInfomsg m in
  let? body := sub_from m SizeofIfInfomsg in
  let? r := ParseRouteAttr body in
  match r with
  | None => Returned None
  | Some attrs =>
      let base := mkAttrs (if_Index msg) 0 0 "" [] (linkFlags (if_Flags msg)) 0 0 NsNil in
      let? r := deser_attrs attrs base None "" in
      match r with
      | None => Returned None
      | Some (base', link) => Returned (Some (set_Attrs base' (default (Device zero_attrs) link)))
      end
  end.

Fixpoint deser_links (msgs : list slice) : outcome (option (list Link)) :=
  match msgs with
  | [] => Returned (Some [])
  | m :: msgs' =>
      let? r := linkDeserialize m in
      match r with
      | None => Returned None
      | Some link =>
          let? rest := deser_links msgs' in
          Returned (option_map (cons link) rest)
      end
  end.

End attributes.

(** * Operations *)

Section operations.
Context {E : Endian} {W : Type} {K : Kernel W} (rounds : nat).

Definition set_lookupByDump : M W unit := fun s =>
  (Ended (Returned tt), mkNS (kern s) (nextSeqNr s) true (calls s)).
Definition get_lookupByDump : M W bool := fun s => (Ended (Returned (lookupByDump s)), s).

Definition execGetLink (req : NetlinkRequest) : M W (nl_error + Link) :=
  let* r := Execute rounds req NETLINK_ROUTE 0 in
  match r with
  | inl err => if decide (err = Errno ENODEV) then mret (inl (Text (errors_New "Link not found")))
               else mret (inl err)
  | inr [] => mret (inl (Text (errors_New "Link not found")))
  | inr [m] =>
      let* l := mlift (linkDeserialize m) in
      match l with
      | Some link => mret (inr link)
      | None => mret (inl (Errno EINVAL))
      end
  | inr _ => mret (inl (Text (errors_New "More than one link found")))
  end.

Definition LinkList : M W (nl_error + list Link) :=
  let* req := new_request RTM_GETLINK NLM_F_DUMP in
  let req := AddData req (DIfInfo (NewIfInfomsg AF_UNSPEC)) in
  let* r := Execute rounds req NETLINK_ROUTE RTM_NEWLINK in
  match r with
  | inl err => mret (inl err)
  | inr msgs =>
      let* l := mlift (deser_links msgs) in
      match l with
      | Some links => mret (inr links)
      | None => mret (inl (Errno EINVAL))
      end
  end.

Definition linkByNameDump (name : string) : M W (nl_error + Link) :=
  let* r := LinkList in
  match r with
  | inl err => mret (inl err)
  | inr links =>
      match list_find (fun l => Name (Attrs l) = name) links with
      | Some (_, link) => mret (inr link)
      | None => mret (inl (Text (Errorf "Link %s not found" [name])))
      end
  end.

Definition LinkByName (name : string) : M W (nl_error + Link) :=
  let* dump := get_lookupByDump in
  if (dump : bool) then linkByNameDump name
  else
    let* req := new_request RTM_GETLINK NLM_F_ACK in
    let req := AddData req (DIfInfo (NewIfInfomsg AF_UNSPEC)) in
    let req := AddData req (NewRtAttr IFLA_IFNAME (Some (ZeroTerminated name))) in
    let* r := execGetLink req in
    match r with
    | inl err =>
        if decide (err = Errno EINVAL) then
          let* _ := set_lookupByDump in linkByNameDump name
        else mret (inl err)
    | inr link => mret (inr link)
    end.

(** The message of a request about one link. *)
Definition link_msg (family flags change index : Z) : request_data :=
  DIfInfo (mkIfInfo (uint_n 1 family) 0 (int32 index) flags change).

Definition LinkByIndex (index : Z) : M W (nl_error + Link) :=
  let* req := new_request RTM_GETLINK NLM_F_ACK in
  execGetLink (AddData req (link_msg AF_UNSPEC 0 0 index)).

Definition ensureIndex (base : LinkAttrs) : M W LinkAttrs :=
  if Index base =? 0 then
    let* r := LinkByName (Name base) in
    match r with
    | inr newlink => mret (set_Index (Index (Attrs newlink)) base)
    | inl _ => mret base
    end
  else mret base.

(** A request about a link, given by its message and one attribute: the shape shared by the
    setters. The link is looked up first, and its sequence number is taken after that. *)
Definition change_link (link : Link) (proto family flags change : Z) (attr : option request_data)
    : M W (Link * option nl_error) :=
  let* base := ensureIndex (Attrs link) in
  let* req := new_request proto NLM_F_ACK in
  let req := AddData req (link_msg family flags change (Index base)) in
  let req := match attr with Some d => AddData req d | None => req end in
  let* r := Execute rounds req NETLINK_ROUTE 0 in
  mret (set_Attrs base link, err_of r).

Definition LinkSetUp (link : Link) : M W (Link * option nl_error) :=
  change_link link RTM_NEWLINK AF_UNSPEC IFF_UP IFF_UP None.

(** [0 & ^IFF_UP] is 0. *)
Definition LinkSetDown (link : Link) : M W (Link * option nl_error) :=
  change_link link RTM_NEWLINK AF_UNSPEC (Z.land 0 (Z.lnot IFF_UP)) IFF_UP None.

Definition LinkSetMTU (link : Link) (mtu : Z) : M W (Link * option nl_error) :=
  change_link link RTM_SETLINK AF_UNSPEC 0 0 (Some (NewRtAttr IFLA_MTU (Some (put_uint 4 mtu)))).

(** The name is not terminated by a zero byte. *)
Definition LinkSetName (link : Link) (name : string) : M W (Link * option nl_error) :=
  change_link link RTM_SETLINK AF_UNSPEC 0 0 (Some (NewRtAttr IFLA_IFNAME (Some (str_bytes name)))).

Definition LinkSetHardwareAddr (link : Link) (hwaddr : list Z) : M W (Link * option nl_error) :=
  change_link link RTM_SETLINK AF_UNSPEC 0 0 (Some (NewRtAttr IFLA_ADDRESS (Some hwaddr))).

Definition LinkSetMasterByIndex (link : Link) (masterIndex : Z) : M W (Link * option nl_error) :=
  change_link link RTM_SETLINK AF_UNSPEC 0 0
    (Some (NewRtAttr IFLA_MASTER (Some (put_uint 4 masterIndex)))).

(** The master is a bridge, given by its attributes, or nil; it is returned too. *)
Definition LinkSetMaster (link : Link) (master : option LinkAttrs)
    : M W (Link * option LinkAttrs * option nl_error) :=
  match master with
  | Some masterBase =>
      let* masterBase := ensureIndex masterBase in
      let* r := LinkSetMasterByIndex link (Index masterBase) in
      mret (r.1, Some masterBase, r.2)
  | None =>
      let* r := LinkSetMasterByIndex link 0 in
      mret (r.1, None, r.2)
  end.

Definition LinkSetNsPid (link : Link) (nspid : Z) : M W (Link * option nl_error) :=
  change_link link RTM_SETLINK AF_UNSPEC 0 0
    (Some (NewRtAttr IFLA_NET_NS_PID (Some (put_uint 4 nspid)))).

Definition LinkSetNsFd (link : Link) (fd : Z) : M W (Link * option nl_error) :=
  change_link link RTM_SETLINK AF_UNSPEC 0 0
    (Some (NewRtAttr IFLA_NET_NS_FD (Some (put_uint 4 fd)))).

Definition setProtinfoAttr (link : Link) (mode : bool) (attr : Z) : M W (Link * option nl_error) :=
  change_link link RTM_SETLINK AF_BRIDGE 0 0
    (Some (add_child (NewRtAttr (Z.lor IFLA_PROTINFO NLA_F_NESTED) None)
                     (NewRtAttr attr (Some (boolToByte mode))))).

Definition LinkSetHairpin (link : Link) (mode : bool) := setProtinfoAttr link mode IFLA_BRPORT_MODE.
Definition LinkSetGuard (link : Link) (mode : bool) := setProtinfoAttr link mode IFLA_BRPORT_GUARD.
Definition LinkSetFastLeave (link : Link) (mode : bool) := setProtinfoAttr link mode IFLA_BRPORT_FAST_LEAVE.
Definition LinkSetLearning (link : Link) (mode : bool) := setProtinfoAttr link mode IFLA_BRPORT_LEARNING.
Definition LinkSetRootBlock (link : Link) (mode : bool) := setProtinfoAttr link mode IFLA_BRPORT_PROTECT.
Definition LinkSetFlood (link : Link) (mode : bool) := setProtinfoAttr link mode IFLA_BRPORT_UNICAST_FLOOD.

Definition LinkDel (link : Link) : M W (Link * option nl_error) :=
  change_link link RTM_DELLINK AF_UNSPEC 0 0 None.

(** ** LinkAdd *)

(** The attributes of the request up to IFLA_LINKINFO. *)
Definition base_attrs (base : LinkAttrs) : list request_data :=
  (when (negb (ParentIndex base =? 0)) (NewRtAttr IFLA_LINK (Some (put_uint 4 (ParentIndex base))))
   ++ [NewRtAttr IFLA_IFNAME (Some (ZeroTerminated (Name base)))]
   ++ when (0 <? MTU base) (NewRtAttr IFLA_MTU (Some (Uint32Attr (MTU base))))
   ++ when (0 <=? TxQLen base) (NewRtAttr IFLA_TXQLEN (Some (Uint32Attr (TxQLen base))))
   ++ match Namespace base with
      | NsNil => []
      | NsPid p => [NewRtAttr IFLA_NET_NS_PID (Some (Uint32Attr p))]
      | NsFd f => [NewRtAttr IFLA_NET_NS_FD (Some (Uint32Attr f))]
      end)%list.

(** After the link exists: its index, and its master when it has one. *)
Definition finish_add (link : Link) : M W (Link * option nl_error) :=
  let* base := ensureIndex (Attrs link) in
  let link := set_Attrs base link in
  if MasterIndex base =? 0 then mret (link, None)
  else LinkSetMasterByIndex link (MasterIndex base).

Definition IFF_TUN : Z := 1.
Definition IFF_TAP : Z := 2.
Definition IFF_ONE_QUEUE : Z := 0x2000.
Definition IFF_TUN_EXCL : Z := 0x8000.
Definition TUNSETIFF : Z := 0x400454ca.
Definition TUNSETPERSIST : Z := 0x400454cb.

(** The struct ifReq: 16 bytes of name, of which 15 are written, the flags, and padding up
    to 40 bytes. *)
Definition ifReq (name : string) (flags : Z) : list Z :=
  (copy_at (replicate 16 0) 0 (take 15 (str_bytes name)) ++ put_uint 2 flags ++ replicate 22 0)%list.

Definition tuntap_add (link : Link) (mode : Z) : M W (Link * option nl_error) :=
  if (mode <? IFF_TUN) || (IFF_TAP <? mode) then
    mret (link, Some (Text (Errorf "Tuntap.Mode %v unknown!" [pretty mode])))
  else
    let* r := sys (OpenFile "/dev/net/tun") in
    match r with
    | inl err => mret (link, Some (Text err))
    | inr fd =>
        deferring (close_fd fd)
          (let flags := Z.lor (Z.lor IFF_ONE_QUEUE IFF_TUN_EXCL) mode in
           let* errno := sys (Ioctl fd TUNSETIFF (ArgBytes (ifReq (Name (Attrs link)) flags))) in
           if negb (errno =? 0) then
             mret (link, Some (Text (Errorf "Tuntap IOCTL TUNSETIFF failed, errno %v" [pretty errno])))
           else
             let* errno := sys (Ioctl fd TUNSETPERSIST (ArgInt 1)) in
             if negb (errno =? 0) then
               mret (link, Some (Text (Errorf "Tuntap IOCTL TUNSETPERSIST failed, errno %v" [pretty errno])))
             else finish_add link)
    end.

(** The request of LinkAdd. *)
Definition add_request (link : Link) (info : request_data) (req : NetlinkRequest) : NetlinkRequest :=
  fold_left AddData ([DIfInfo (NewIfInfomsg AF_UNSPEC)] ++ base_attrs (Attrs link) ++ [info])%list req.

Definition netlink_add (link : Link) : M W (Link * option nl_error) :=
  let base := Attrs link in
  let* req := new_request RTM_NEWLINK (Z.lor (Z.lor NLM_F_CREATE NLM_F_EXCL) NLM_F_ACK) in
  if (ParentIndex base =? 0) && String.eqb (link_Type link) "ipvlan" then
    mret (link, Some (Text (errors_New "Can't create ipvlan link without ParentIndex")))
  else
    let* info := mlift (link_info link) in
    let* r := Execute rounds (add_request link info req) NETLINK_ROUTE 0 in
    match r with
    | inl err => mret (link, Some err)
    | inr _ => finish_add link
    end.

Definition LinkAdd (link : Link) : M W (Link * option nl_error) :=
  if String.eqb (Name (Attrs link)) "" then
    mret (link, Some (Text (errors_New "LinkAttrs.Name cannot be empty!")))
  else match link with
       | Tuntap _ mode => tuntap_add link mode
       | _ => netlink_add link
       end.

(** ** Subscriptions *)

(** The goroutine of LinkSubscribe: the updates it sends, for a number of receives; [true]
    when it has ended and closed the channel. *)
Fixpoint updates_of (msgs : list NetlinkMessage) : outcome (list (IfInfomsg * Link) * bool) :=
  match msgs with
  | [] => Returned ([], false)
  | m :: msgs' =>
      let? ifmsg := DeserializeIfInfomsg (m_Data m) in
      let? r := linkDeserialize (m_Data m) in
      match r with
      | None => Returned ([], true)
      | Some link =>
          let? rest := updates_of msgs' in
          Returned ((ifmsg, link) :: rest.1, rest.2)
      end
  end.

Fixpoint subscription (n : nat) (fd : Z) : M W (list (IfInfomsg * Link) * bool) :=
  match n with
  | O => mret ([], false)
  | S n' =>
      let* r := Receive fd in
      match r with
      | inl _ => mret ([], true)
      | inr msgs =>
          let* u := mlift (updates_of msgs) in
          if (u.2 : bool) then mret u
          else let* rest := subscription n' fd in mret ((u.1 ++ rest.1)%list, rest.2)
      end
  end.

(** Its socket is subscribed to the group of links. *)
Definition LinkSubscribe : M W (nl_error + Z) := Subscribe NETLINK_ROUTE [RTNLGRP_LINK].

End operations.

(** * Descriptors and the lookup flag *)

Section frames.
Context {E : Endian} {W : Type} {K : Kernel W} (rounds : nat) (R : NS W -> NS W -> Prop) `{!PreOrder R}.

(** What the operations need of a relation that they keep. *)
Class Kept : Prop := {
  kept_execute : forall req ty, after R (Execute rounds req NETLINK_ROUTE ty);
  kept_request : forall p f, after R (new_request p f);
  kept_dump : after R set_lookupByDump;
  kept_open : forall (A : Type) path (fail : error -> M W A) (body : Z -> M W A),
    (forall e, after R (fail e)) -> (forall fd, after R (body fd)) ->
    after R (let* r := sys (OpenFile path) in
             match r with inl e => fail e | inr fd => deferring (close_fd fd) (body fd) end);
  kept_ioctl : forall fd rq arg, after R (sys (Ioctl fd rq arg))
}.
Context {HK : Kept}.

Hint Resolve kept_execute kept_request kept_dump kept_ioctl : nl.

Lemma after_get_lookupByDump : after R get_lookupByDump.
Proof. intros s. simpl. reflexivity. Qed.
Hint Resolve after_get_lookupByDump : nl.

Lemma after_LinkList : after R (LinkList rounds).
Proof. unfold LinkList. after_tac. Qed.
Hint Resolve after_LinkList : nl.

Lemma after_linkByNameDump name : after R (linkByNameDump rounds name).
Proof. unfold linkByNameDump. after_tac. Qed.
Hint Resolve after_linkByNameDump : nl.

Lemma after_execGetLink req : after R (execGetLink rounds req).
Proof. unfold execGetLink. after_tac. Qed.
Hint Resolve after_execGetLink : nl.

Lemma after_LinkByName name : after R (LinkByName rounds name).
Proof. unfold LinkByName. after_tac. Qed.
Hint Resolve after_LinkByName : nl.

Lemma after_ensureIndex base : after R (ensureIndex rounds base).
Proof. unfold ensureIndex. after_tac. Qed.
Hint Resolve after_ensureIndex : nl.

Lemma after_change_link link p fam fl ch d : after R (change_link rounds link p fam fl ch d).
Proof. unfold change_link. after_tac. Qed.
Hint Resolve after_change_link : nl.

Lemma after_finish_add link : after R (finish_add rounds link).
Proof. unfold finish_add, LinkSetMasterByIndex. after_tac. Qed.
Hint Resolve after_finish_add : nl.

Lemma after_LinkAdd link : after R (LinkAdd rounds link).
Proof.
  assert (Hn : after R (netlink_add rounds link)) by (unfold netlink_add; after_tac).
  unfold LinkAdd. destruct (String.eqb (Name (Attrs link)) ""); [after_tac|].
  destruct link; try exact Hn. unfold tuntap_add.
  destruct ((Mode <? IFF_TUN) || (IFF_TAP <? Mode)); [after_tac|].
  apply (kept_open _ _ (fun e => mret (Tuntap a Mode, Some (Text e))) (fun fd => _)); intros; after_tac.
Qed.

End frames.

#[export] Instance no_leak_kept {E : Endian} {W} {K : Kernel W} rounds : Kept rounds (@no_leak W).
Proof.
  split; eauto with nl.
  - intros s. exists []. simpl. by rewrite app_nil_r.
  - intros A path fail body Hf Hb s. unfold mbind_. pose proof (sys_openfile path s) as H.
    destruct (sys (OpenFile path) s) as [[[[e|fd]|h]|] s1]; [|by apply deferring_no_leak|done|done].
    specialize (Hf e s1). destruct (fail e s1) as [[o|] s2]; [|done]. by etransitivity.
  - intros fd rq arg. by apply sys_neutral.
Qed.

(** Once the kernel refused a lookup by name, the list of all links is used for ever. *)
Definition dump_stays {W} (s s' : NS W) : Prop := lookupByDump s = true -> lookupByDump s' = true.

#[export] Instance dump_stays_preorder {W} : PreOrder (@dump_stays W).
Proof. split; [by intros s H|]. intros s1 s2 s3 H1 H2 H. auto. Qed.

Lemma after_impl {W A} (R R' : NS W -> NS W -> Prop) (m : M W A) :
  (forall s s', R s s' -> R' s s') -> after R m -> after R' m.
Proof. intros Hi Hm s. specialize (Hm s). destruct (m s) as [[o|] s']; auto. Qed.

Lemma same_vars_dump_stays {W} (s s' : NS W) : same_vars s s' -> dump_stays s s'.
Proof. intros [_ H]. unfold dump_stays. by rewrite H. Qed.

#[export] Instance dump_stays_kept {E : Endian} {W} {K : Kernel W} rounds : Kept rounds (@dump_stays W).
Proof.
  split.
  - intros. eapply after_impl; [apply same_vars_dump_stays|apply Execute_same_vars].
  - by intros p f s H.
  - by intros s H.
  - intros A path fail body Hf Hb. apply after_bind; [exact _| |].
    { eapply after_impl; [apply same_vars_dump_stays|apply sys_same_vars]. }
    intros [e|fd]; [apply Hf|]. intros s. unfold deferring. specialize (Hb fd s).
    destruct (body fd s) as [[o|] s1]; [|done]. etransitivity; [exact Hb|].
    intros H. unfold close_fd, mbind_, sys. by destruct (syscall (Close fd) (kern s1)).
  - intros. eapply after_impl; [apply same_vars_dump_stays|apply sys_same_vars].
Qed.

(** ** The operations of the package on links *)

Inductive link_op : Type :=
| OpAdd (l : Link)
| OpDel (l : Link)
| OpSetUp (l : Link)
| OpSetDown (l : Link)
| OpSetMTU (l : Link) (mtu : Z)
| OpSetName (l : Link) (name : string)
| OpSetHardwareAddr (l : Link) (hw : list Z)
| OpSetMaster (l : Link) (master : option LinkAttrs)
| OpSetNsPid (l : Link) (pid : Z)
| OpSetNsFd (l : Link) (fd : Z)
| OpSetProtinfo (l : Link) (mode : bool) (attr : Z)
| OpByName (name : string)
| OpByIndex (i : Z)
| OpList.

Section all_operations.
Context {E : Endian} {W : Type} {K : Kernel W} (rounds : nat).

Definition ignore {A} (m : M W A) : M W unit := let* _ := m in mret tt.

Definition perform (o : link_op) : M W unit :=
  match o with
  | OpAdd l => ignore (LinkAdd rounds l)
  | OpDel l => ignore (LinkDel rounds l)
  | OpSetUp l => ignore (LinkSetUp rounds l)
  | OpSetDown l => ignore (LinkSetDown rounds l)
  | OpSetMTU l mtu => ignore (LinkSetMTU rounds l mtu)
  | OpSetName l name => ignore (LinkSetName rounds l name)
  | OpSetHardwareAddr l hw => ignore (LinkSetHardwareAddr rounds l hw)
  | OpSetMaster l master => ignore (LinkSetMaster rounds l master)
  | OpSetNsPid l pid => ignore (LinkSetNsPid rounds l pid)
  | OpSetNsFd l fd => ignore (LinkSetNsFd rounds l fd)
  | OpSetProtinfo l mode attr => ignore (setProtinfoAttr rounds l mode attr)
  | OpByName name => ignore (LinkByName rounds name)
  | OpByIndex i => ignore (LinkByIndex rounds i)
  | OpList => ignore (LinkList rounds)
  end.

Fixpoint perform_all (ops : list link_op) : M W unit :=
  match ops with
  | [] => mret tt
  | o :: ops' => let* _ := perform o in perform_all ops'
  end.

Context (R : NS W -> NS W -> Prop) `{!PreOrder R} {HK : Kept rounds R}.

Hint Resolve after_LinkAdd after_change_link after_LinkByName after_LinkList after_execGetLink
  after_ensureIndex kept_request : nl.

Lemma after_perform o : after R (perform o).
Proof.
  destruct o; unfold perform, ignore, LinkDel, LinkSetUp, LinkSetDown, LinkSetMTU, LinkSetName,
    LinkSetHardwareAddr, LinkSetMaster, LinkSetMasterByIndex, LinkSetNsPid, LinkSetNsFd,
    setProtinfoAttr, LinkByIndex; after_tac.
Qed.

Lemma after_perform_all ops : after R (perform_all ops).
Proof.
  induction ops as [|o ops IH]; simpl; [after_tac|].
  apply after_bind; [exact _|apply after_perform|intros _; exact IH].
Qed.

End all_operations.

(** C13: Whatever sequence of link operations a program performs (adding, deleting, changing,
    listing and finding links, tuntap devices included), however the kernel answers and
    whether the sequence returns or panics, every socket and file it opened is closed again:
    the descriptors open afterwards are those that were open before. *)
Theorem netlink_no_leak {E : Endian} {W} {K : Kernel W} rounds ops (s : NS W) o s' :
  perform_all rounds ops s = (Ended o, s') ->
  exists t, calls s' = calls s ++ t /\ forall l, open_fds l t = l.
Proof.
  intros H. pose proof (after_perform_all rounds no_leak ops s) as Ha. by rewrite H in Ha.
Qed.

Lemma netlink_no_leak_witness :
  exists t,
    calls (perform_all (E := false) 1 [OpSetUp (Veth zero_attrs "p"); OpAdd (Tuntap (set_Index 4 NewLinkAttrs) 1)]
             (fresh [@reply false 2 0 1 [237; 255; 255; 255]; @reply false 2 0 2 [0; 0; 0; 0]])).2 = t
    /\ forall l, open_fds l t = l.
Proof.
  destruct (@netlink_no_leak false _ scripted 1
              [OpSetUp (Veth zero_attrs "p"); OpAdd (Tuntap (set_Index 4 NewLinkAttrs) 1)]
              (fresh [@reply false 2 0 1 [237; 255; 255; 255]; @reply false 2 0 2 [0; 0; 0; 0]])
              (Returned tt) _ ltac:(vm_compute; reflexivity)) as (t & Ht & Hl).
  exists t. split; [exact Ht|exact Hl].
Defined.

Lemma linkByNameDump_name {E : Endian} {W} {K : Kernel W} rounds name (s : NS W) link s' :
  linkByNameDump rounds name s = (Ended (Returned (inr link)), s') -> Name (Attrs link) = name.
Proof.
  unfold linkByNameDump, mbind_. destruct (LinkList rounds s) as [[[[e|ls]|h]|] s1]; try done.
  destruct (list_find _ ls) as [[i l]|] eqn:Ef; [|done]. intros [= -> _].
  by apply list_find_Some in Ef as (_ & ? & _).
Qed.

(** Once the kernel has refused a lookup by name with EINVAL, the package lists all links
    for ever: after any further sequence of operations, a link that LinkByName returns was
    chosen by comparing names, so it has the name asked for. *)
Theorem LinkByName_after_fallback {E : Endian} {W} {K : Kernel W} rounds ops name (s : NS W) o s1 link s' :
  lookupByDump s = true ->
  perform_all rounds ops s = (Ended o, s1) ->
  LinkByName rounds name s1 = (Ended (Returned (inr link)), s') ->
  Name (Attrs link) = name.
Proof.
  intros Hd H. pose proof (after_perform_all rounds dump_stays ops s) as Ha. rewrite H in Ha.
  unfold LinkByName, mbind_ at 1, get_lookupByDump. rewrite (Ha Hd). apply linkByNameDump_name.
Qed.

(** A dump of two links, "a" with index 5 and "b" with index 6. *)
Definition dump_script (seq : Z) : list (list Z) :=
  let body i (n : Z) := (@IfInfomsg_Serialize false (mkIfInfo 0 1 i 0 0)
                          ++ @data_Serialize false (NewRtAttr IFLA_IFNAME (Some [n; 0])))%list in
  [(@reply false 16 2 seq (body 5 97))%list; (@reply false 16 2 seq (body 6 98))%list;
   @reply false 3 2 seq []].

Lemma LinkByName_after_fallback_witness :
  Name (Attrs (Device (mkAttrs 6 0 0 "b" [] 0 0 0 NsNil))) = "b".
Proof.
  apply (@LinkByName_after_fallback false _ scripted 3 [] "b"
           (mkNS (dump_script 1) 0 true []) (Returned tt) (mkNS (dump_script 1) 0 true [])
           (Device (mkAttrs 6 0 0 "b" [] 0 0 0 NsNil))
           (LinkByName (E := false) 3 "b" (mkNS (dump_script 1) 0 true [])).2);
    vm_compute; reflexivity.
Defined.
