(* ===== verification/NetlinkVeth.v ===== *)
(** Veth pairs and vxlan links on the wire: what a reader of the request of LinkAdd
    finds in it, and what parseVxlanData reads of the attributes addVxlanAttrs wrote.

    The reader is the kernel's side of the exchange: it takes the bytes apart with the
    message and attribute format of Nl and looks up attributes by type. *)

From S2P Require Import Prelude NetIP Driver Nl NlSock Netlink.

Local Open Scope go_scope.
Local Open Scope nl_scope.
Local Open Scope Z_scope.

(** * Reading nested attributes *)

Section reader.
Context {E : Endian}.

Definition parsed (b : list Z) : option (list RouteAttr) :=
  match ParseRouteAttr (mkSlice b []) with
  | Returned r => r
  | Halted _ => None
  end.

Definition attr_bytes (t : Z) (attrs : list RouteAttr) : option (list Z) :=
  items <$> first_attr t attrs.

(** One end of a pair: its name, and its queue length and MTU when they are given. *)
Record veth_end : Type := mkEnd { end_name : string; end_txqlen : option Z; end_mtu : option Z }.

Definition read_end (attrs : list RouteAttr) : option veth_end :=
  n ← attr_bytes IFLA_IFNAME attrs;
  Some (mkEnd (bytes_str (take (length n - 1) n))
              (get_uint <$> attr_bytes IFLA_TXQLEN attrs) (get_uint <$> attr_bytes IFLA_MTU attrs)).

(** The two ends asked for by a message: the attributes after the interface message, and
    those of the peer, which is IFLA_LINKINFO / IFLA_INFO_DATA / VETH_INFO_PEER. *)
Definition read_veth (b : list Z) : option (veth_end * veth_end) :=
  ms ← ParseNetlinkMessage (mkSlice b []);
  match ms with
  | [m] =>
      attrs ← parsed (drop 16 (items (m_Data m)));
      here ← read_end attrs;
      info ← attr_bytes IFLA_LINKINFO attrs; infos ← parsed info;
      kind ← attr_bytes IFLA_INFO_KIND infos;
      data ← attr_bytes IFLA_INFO_DATA infos; datas ← parsed data;
      peer ← attr_bytes VETH_INFO_PEER datas; peers ← parsed (drop 16 peer);
      there ← read_end peers;
      if decide (kind = str_bytes "veth") then Some (here, there) else None
  | _ => None
  end.

(** Looking an attribute up among what was written. *)
Fixpoint lookup_view (t : Z) (vs : list (Z * list Z)) : option (list Z) :=
  match vs with
  | [] => None
  | (t', b) :: vs' => if t' =? t then Some b else lookup_view t vs'
  end.

Lemma attr_bytes_view t attrs : attr_bytes t attrs = lookup_view t (map attr_view attrs).
Proof.
  unfold attr_bytes. induction attrs as [|a attrs IH]; [done|]. simpl.
  by destruct (attr_Type a =? t).
Qed.

Lemma parsed_layout ds :
  Forall small_attr ds ->
  exists attrs, parsed (concat (map layout ds)) = Some attrs
    /\ forall t, attr_bytes t attrs = lookup_view t (map view_of ds).
Proof.
  intros H. destruct (ParseRouteAttr_layout ds [] H) as (attrs & Hp & Hv).
  exists attrs. unfold parsed. rewrite Hp. split; [done|]. intros t. by rewrite attr_bytes_view, Hv.
Qed.

(** Sizes. *)
Lemma data_Len_bound t data cs :
  (data_Len (DAttr t data cs) <= 8 + length (bytes_of data) + children_len cs)%nat.
Proof.
  pose proof (data_Len_align t data cs). pose proof (rtaAlignOf_bounds (data_Len (DAttr t data cs))).
  pose proof (rtaAlignOf_bounds (length (bytes_of data))). lia.
Qed.

Lemma attr_with_eq ty cs : attr_with ty cs = DAttr (uint_n 2 ty) None cs.
Proof.
  unfold attr_with, NewRtAttr.
  assert (H : forall cs0, fold_left add_child cs (DAttr (uint_n 2 ty) None cs0)
                          = DAttr (uint_n 2 ty) None (cs0 ++ cs)%list).
  { induction cs as [|c cs IH]; intros cs0; simpl; [by rewrite app_nil_r|].
    by rewrite IH, <- app_assoc. }
  apply H.
Qed.

Lemma length_str_bytes s : length (str_bytes s) = String.length s.
Proof.
  unfold str_bytes. rewrite length_map. induction s as [|a s IH]; simpl; [done|]. by rewrite IH.
Qed.

Lemma bytes_str_bytes s : bytes_str (str_bytes s) = s.
Proof.
  unfold bytes_str, str_bytes. rewrite map_map.
  rewrite (map_ext _ (fun a => a)).
  - rewrite map_id. apply string_of_list_ascii_of_string.
  - intros a. by rewrite N2Z.id, ascii_N_embedding.
Qed.

Lemma ZeroTerminated_name s :
  bytes_str (take (length (ZeroTerminated s) - 1) (ZeroTerminated s)) = s.
Proof.
  unfold ZeroTerminated. rewrite length_app. simpl.
  rewrite Nat.add_sub, take_app_length. apply bytes_str_bytes.
Qed.

End reader.

(** * The request of a veth pair *)

Section veth.
Context {E : Endian}.

Lemma fold_AddData ds req :
  fold_left AddData ds req
  = mkRequest (hdr_Type req) (hdr_Flags req) (hdr_Seq req) (hdr_Pid req) (req_Data req ++ ds)%list.
Proof.
  revert req. induction ds as [|d ds IH]; intros req; simpl.
  - rewrite app_nil_r. by destruct req.
  - rewrite IH. simpl. by rewrite <- app_assoc.
Qed.

(** What an end should be: the name, and the values of the attributes that are given. *)
Definition veth_spec (base : LinkAttrs) (name : string) : veth_end :=
  mkEnd name (if 0 <=? TxQLen base then Some (TxQLen base) else None)
             (if 0 <? MTU base then Some (MTU base) else None).

(** The names fit in the kernel's (15 bytes and a zero), the numbers in 32 bits. *)
Definition veth_fits (base : LinkAttrs) (peer : string) : Prop :=
  (String.length (Name base) <= 15)%nat /\ (String.length peer <= 15)%nat
  /\ TxQLen base < 2 ^ 32 /\ MTU base < 2 ^ 32.

Lemma read_end_spec attrs base name :
  TxQLen base < 2 ^ 32 -> MTU base < 2 ^ 32 ->
  attr_bytes IFLA_IFNAME attrs = Some (ZeroTerminated name) ->
  attr_bytes IFLA_TXQLEN attrs = (if 0 <=? TxQLen base then Some (put_uint 4 (TxQLen base)) else None) ->
  attr_bytes IFLA_MTU attrs = (if 0 <? MTU base then Some (put_uint 4 (MTU base)) else None) ->
  read_end attrs = Some (veth_spec base name).
Proof.
  intros Hq Hm Hn HQ HM. unfold read_end. rewrite Hn, HQ, HM. cbn [mbind option_bind].
  rewrite ZeroTerminated_name. unfold veth_spec. do 2 f_equal.
  - destruct (Z.leb_spec 0 (TxQLen base)); [|done]. cbn. f_equal.
    rewrite get_put_uint. apply uint4_small. lia.
  - destruct (Z.ltb_spec 0 (MTU base)); [|done]. cbn. f_equal.
    rewrite get_put_uint. apply uint4_small. lia.
Qed.

(** Every attribute in the request is small. *)
Lemma small_leaf t data : (length data <= 16)%nat -> small_attr (NewRtAttr t (Some data)).
Proof.
  intros H. unfold small_attr, NewRtAttr. apply Is_true_true, Z.ltb_lt. cbn [data_Len bytes_of default].
  unfold SizeofRtAttr, id. lia.
Qed.

Lemma small_when b d : small_attr d -> Forall small_attr (when b d).
Proof. destruct b; repeat constructor; done. Qed.

Lemma small_ZeroTerminated t s :
  (String.length s <= 15)%nat -> small_attr (NewRtAttr t (Some (ZeroTerminated s))).
Proof. intros H. apply small_leaf. unfold ZeroTerminated. rewrite length_app, length_str_bytes. simpl. lia. Qed.

Lemma small_uint t n v : (n <= 4)%nat -> small_attr (NewRtAttr t (Some (put_uint n v))).
Proof. intros H. apply small_leaf. rewrite length_put_uint. lia. Qed.

Lemma base_attrs_small base :
  (String.length (Name base) <= 15)%nat -> Forall small_attr (base_attrs base).
Proof.
  intros Hn. unfold base_attrs. repeat apply Forall_app_2.
  - apply small_when, small_uint. lia.
  - constructor; [by apply small_ZeroTerminated|done].
  - apply small_when, small_uint. lia.
  - apply small_when, small_uint. lia.
  - destruct (Namespace base); repeat constructor; apply small_uint; lia.
Qed.

(** The attributes of the peer, after its interface message. *)
Definition peer_attrs (base : LinkAttrs) (peer : string) : list request_data :=
  ([NewRtAttr IFLA_IFNAME (Some (ZeroTerminated peer))]
   ++ when (0 <=? TxQLen base) (NewRtAttr IFLA_TXQLEN (Some (Uint32Attr (TxQLen base))))
   ++ when (0 <? MTU base) (NewRtAttr IFLA_MTU (Some (Uint32Attr (MTU base)))))%list.

Lemma peer_attrs_small base peer :
  (String.length peer <= 15)%nat -> Forall small_attr (peer_attrs base peer).
Proof.
  intros Hn. unfold peer_attrs. repeat apply Forall_app_2.
  - constructor; [by apply small_ZeroTerminated|done].
  - apply small_when, small_uint. lia.
  - apply small_when, small_uint. lia.
Qed.

Lemma veth_peer_eq base peer :
  veth_peer base peer
  = DAttr VETH_INFO_PEER None (DIfInfo (NewIfInfomsg AF_UNSPEC) :: peer_attrs base peer).
Proof. unfold veth_peer. by rewrite attr_with_eq. Qed.

Definition veth_data (base : LinkAttrs) (peer : string) : request_data :=
  DAttr IFLA_INFO_DATA None [veth_peer base peer].
Definition veth_kind : request_data := NewRtAttr IFLA_INFO_KIND (Some (NonZeroTerminated "veth")).
Definition veth_info (base : LinkAttrs) (peer : string) : request_data :=
  DAttr IFLA_LINKINFO None [veth_kind; veth_data base peer].

Lemma link_info_veth base peer : link_info (Veth base peer) = Returned (veth_info base peer).
Proof. unfold link_info. by rewrite attr_with_eq. Qed.

Lemma rtaAlignOf_le n m : (n <= m)%nat -> (rtaAlignOf n <= m + 3)%nat.
Proof. pose proof (rtaAlignOf_bounds n). lia. Qed.

Lemma children_len_nil : children_len [] = 0%nat.
Proof. done. Qed.

Lemma data_Len_leaf t data : data_Len (NewRtAttr t (Some data)) = (4 + length data)%nat.
Proof. done. Qed.

(** The peer takes at most 16 bytes of message and three attributes. *)
Lemma veth_peer_Len base peer :
  (String.length peer <= 15)%nat -> (data_Len (veth_peer base peer) <= 80)%nat.
Proof.
  intros H. rewrite veth_peer_eq. etransitivity; [apply data_Len_bound|].
  rewrite children_len_cons. unfold peer_attrs, when.
  destruct (0 <=? TxQLen base), (0 <? MTU base); cbn [app];
    rewrite !children_len_cons, !data_Len_leaf, children_len_nil; unfold Uint32Attr, ZeroTerminated;
    rewrite ?length_app, ?length_put_uint, length_str_bytes; cbn [length];
    pose proof (rtaAlignOf_bounds (4 + (String.length peer + 1))); cbn [bytes_of default length data_Len];
    change (rtaAlignOf SizeofIfInfomsg) with 16%nat; change (rtaAlignOf (4 + 4)) with 8%nat; lia.
Qed.

Lemma veth_data_Len base peer :
  (String.length peer <= 15)%nat -> (data_Len (veth_data base peer) <= 100)%nat.
Proof.
  intros H. unfold veth_data. etransitivity; [apply data_Len_bound|].
  rewrite children_len_cons, children_len_nil. cbn [bytes_of default length].
  pose proof (rtaAlignOf_le _ _ (veth_peer_Len base peer H)). lia.
Qed.

Lemma veth_info_Len base peer :
  (String.length peer <= 15)%nat -> (data_Len (veth_info base peer) <= 130)%nat.
Proof.
  intros H. unfold veth_info. etransitivity; [apply data_Len_bound|].
  rewrite !children_len_cons, children_len_nil. cbn [bytes_of default length].
  pose proof (rtaAlignOf_le _ _ (veth_data_Len base peer H)).
  change (rtaAlignOf (data_Len veth_kind)) with 8%nat. lia.
Qed.

Lemma small_of_Len t data cs n :
  (data_Len (DAttr t data cs) <= n)%nat -> Z.of_nat n < 65536 -> small_attr (DAttr t data cs).
Proof. intros. unfold small_attr. apply Is_true_true, Z.ltb_lt. lia. Qed.

(** What the reader finds under a nested attribute. *)
Lemma payload_children t c cs : payload (DAttr t None (c :: cs)) = concat (map layout (c :: cs)).
Proof. unfold payload. done. Qed.

Lemma read_veth_peer base peer :
  veth_fits base peer ->
  exists infos datas peers,
    parsed (payload (veth_info base peer)) = Some infos
    /\ attr_bytes IFLA_INFO_KIND infos = Some (str_bytes "veth")
    /\ attr_bytes IFLA_INFO_DATA infos = Some (payload (veth_data base peer))
    /\ parsed (payload (veth_data base peer)) = Some datas
    /\ attr_bytes VETH_INFO_PEER datas = Some (payload (veth_peer base peer))
    /\ parsed (drop 16 (payload (veth_peer base peer))) = Some peers
    /\ read_end peers = Some (veth_spec base peer).
Proof.
  intros (Hn & Hp & Hq & Hm).
  destruct (parsed_layout [veth_kind; veth_data base peer]) as (infos & H1 & L1).
  { constructor; [apply small_leaf; simpl; lia|]. constructor; [|done].
    eapply small_of_Len; [by apply veth_data_Len|lia]. }
  destruct (parsed_layout [veth_peer base peer]) as (datas & H2 & L2).
  { constructor; [|done]. pose proof (veth_peer_Len base peer Hp) as HL. rewrite veth_peer_eq in *.
    eapply small_of_Len; [done|lia]. }
  destruct (parsed_layout (peer_attrs base peer) (peer_attrs_small base peer Hp)) as (peers & H3 & L3).
  exists infos, datas, peers. rewrite L1, L2. split; [done|]. split; [done|]. split; [done|].
  split; [done|]. split; [by rewrite veth_peer_eq|]. split.
  - rewrite veth_peer_eq, payload_children. cbn [map concat]. rewrite drop_app_length'; [done|].
    by rewrite length_layout.
  - apply (read_end_spec _ base); [done|done| | |]; rewrite L3; unfold peer_attrs, when;
      destruct (0 <=? TxQLen base), (0 <? MTU base); done.
Qed.

Lemma length_base_attrs base :
  (String.length (Name base) <= 15)%nat -> (length (concat (map layout (base_attrs base))) <= 60)%nat.
Proof.
  intros Hn. unfold base_attrs, when, Uint32Attr.
  assert (Ha : forall t v, length (layout (NewRtAttr t (Some (put_uint 4 v)))) = 8%nat).
  { intros t v. rewrite length_layout, data_Len_leaf, length_put_uint. done. }
  assert (Hz : (length (layout (NewRtAttr IFLA_IFNAME (Some (ZeroTerminated (Name base))))) <= 24)%nat).
  { rewrite length_layout, data_Len_leaf. unfold ZeroTerminated. rewrite length_app, length_str_bytes.
    apply (Nat.le_trans _ (20 + 3)); [apply rtaAlignOf_le; simpl; lia|lia]. }
  destruct (negb (ParentIndex base =? 0)), (0 <? MTU base), (0 <=? TxQLen base), (Namespace base);
    cbn [app map concat]; rewrite ?length_app, ?Ha; cbn [length]; lia.
Qed.

Lemma read_veth_request base peer req :
  veth_fits base peer -> req_Data req = [] ->
  read_veth (NetlinkRequest_Serialize (add_request (Veth base peer) (veth_info base peer) req))
  = Some (veth_spec base (Name base), veth_spec base peer).
Proof.
  intros Hf Hreq. pose proof Hf as (Hn & Hp & Hq & Hm). unfold read_veth, add_request.
  rewrite fold_AddData, Hreq. cbn [app Attrs].
  set (ds := (base_attrs base ++ [veth_info base peer])%list).
  assert (Hsmall : Forall small_attr ds).
  { apply Forall_app_2; [by apply base_attrs_small|]. constructor; [|done].
    eapply small_of_Len; [by apply veth_info_Len|lia]. }
  assert (Hinfo : (length (layout (veth_info base peer)) <= 133)%nat).
  { rewrite length_layout. apply (rtaAlignOf_le _ 130). by apply veth_info_Len. }
  rewrite ParseNetlinkMessage_request.
  2:{ unfold request_body. cbn [req_Data map concat]. subst ds.
      rewrite map_app, concat_app, !length_app. cbn [map concat]. rewrite app_nil_r.
      pose proof (length_base_attrs base Hn).
      rewrite (length_layout (DIfInfo _)). change (rtaAlignOf (data_Len (DIfInfo (NewIfInfomsg AF_UNSPEC)))) with 16%nat.
      lia. }
  cbn [mbind option_bind m_Data items]. unfold request_body. cbn [req_Data map concat].
  rewrite drop_app_length' by (by rewrite length_layout).
  destruct (parsed_layout ds Hsmall) as (attrs & Hparse & Hlook). rewrite Hparse.
  destruct (read_veth_peer base peer Hf) as (infos & datas & peers & P1 & P2 & P3 & P4 & P5 & P6 & P7).
  cbn [mbind option_bind].
  rewrite (read_end_spec attrs base (Name base)); [|done|done| | |].
  2-4: rewrite Hlook; subst ds; unfold base_attrs, when, Uint32Attr;
       destruct (negb (ParentIndex base =? 0)), (0 <? MTU base), (0 <=? TxQLen base), (Namespace base); done.
  assert (HI : attr_bytes IFLA_LINKINFO attrs = Some (payload (veth_info base peer))).
  { rewrite Hlook. subst ds. unfold base_attrs, when.
    destruct (negb (ParentIndex base =? 0)), (0 <? MTU base), (0 <=? TxQLen base), (Namespace base); done. }
  cbn [mbind option_bind]. rewrite HI. cbn [mbind option_bind]. rewrite P1. cbn [mbind option_bind].
  rewrite P2, P3. cbn [mbind option_bind]. rewrite P4. cbn [mbind option_bind]. rewrite P5.
  cbn [mbind option_bind]. rewrite P6. cbn [mbind option_bind]. rewrite P7. cbn [mbind option_bind].
  by rewrite decide_True by done.
Qed.

End veth.

Section add.
Context {E : Endian} {W : Type} {K : Kernel W}.

Lemma after_calls {A} (m : M W A) s o s' :
  after no_leak m -> m s = (Ended o, s') -> exists t, calls s' = calls s ++ t.
Proof. intros Ha Hm. specialize (Ha s). rewrite Hm in Ha. destruct Ha as (t & Ht & _). eauto. Qed.

Lemma LinkAdd_veth_sent rounds base peer (s : NS W) l' s' :
  veth_fits base peer ->
  LinkAdd rounds (Veth base peer) s = (Ended (Returned (l', None)), s') ->
  exists fd b t, calls s' = calls s ++ t /\ mkCall (Sendto fd b) None ∈ t
    /\ read_veth b = Some (veth_spec base (Name base), veth_spec base peer).
Proof.
  intros Hf. unfold LinkAdd. cbn [Attrs].
  destruct (String.eqb (Name base) ""); [by intros [= _]|].
  unfold netlink_add. cbn [Attrs link_Type]. change ("veth" =? "ipvlan")%string with false.
  rewrite andb_false_r, link_info_veth. unfold mbind_ at 1. unfold new_request at 1.
  set (s1 := mkNS _ _ _ _). unfold mbind_ at 1, mlift at 1. unfold mbind_ at 1.
  set (req := add_request _ _ _).
  destruct (Execute rounds req NETLINK_ROUTE 0 s1) as [[[[e|res]|h]|] s2] eqn:Ex; try done.
  intros Hfin. apply Execute_data in Ex as (fd & pid & t & Ht & Hsend & _).
  eapply after_calls in Hfin as [t' Ht']; [|apply after_finish_add; exact _].
  eexists fd, _, (t ++ t')%list. split; [by rewrite Ht', Ht, <- app_assoc|].
  split; [apply elem_of_app; left; exact Hsend|]. by apply read_veth_request.
Qed.

End add.

(** The link the plugin makes for a container (driver.go, vethPair): a literal LinkAttrs with
    only the name, so that every other field is zero. *)
Definition plugin_veth (v : World.Veth) : Link :=
  Veth (mkAttrs 0 0 0 (World.veth_name v) [] 0 0 0 NsNil) (World.PeerName v).

Lemma vethPair_fits id suffix :
  truncateID id = Returned suffix ->
  veth_fits (mkAttrs 0 0 0 (World.veth_name (vethPair suffix)) [] 0 0 0 NsNil)
            (World.PeerName (vethPair suffix)).
Proof.
  intros Ht. unfold truncateID, slice_to in Ht.
  destruct (Nat.leb_spec 5 (String.length id)); [|done]. injection Ht as <-.
  unfold veth_fits, vethPair. cbn [Name TxQLen MTU World.veth_name World.PeerName].
  rewrite !length_string_app, length_substring_0 by done. cbn. lia.
Qed.

(** C10: When netlink's LinkAdd reports that the veth pair of an endpoint was added, the
    request it sent is read, by a receiver that takes the netlink format apart, as a pair of
    links with exactly the two names the driver computed from the endpoint's identifier; and
    because the driver builds the link without NewLinkAttrs, the request also sets the
    transmit queue length of both ends to zero instead of leaving it to the kernel. *)
Theorem veth_pair_wire {E : Endian} {W} {K : Kernel W} rounds id suffix (s : NS W) l' s' :
  truncateID id = Returned suffix ->
  LinkAdd rounds (plugin_veth (vethPair suffix)) s = (Ended (Returned (l', None)), s') ->
  exists fd b t, calls s' = calls s ++ t /\ mkCall (Sendto fd b) None ∈ t
    /\ read_veth b = Some (mkEnd ("ovs-veth0-" +:+ suffix) (Some 0) None,
                           mkEnd ("ethc" +:+ suffix) (Some 0) None).
Proof. intros Ht%vethPair_fits. by apply LinkAdd_veth_sent. Qed.

(** The kernel acknowledges the request and answers the lookup with link 9. *)
Definition veth_script : list (list Z) :=
  [@reply false 2 0 1 [0; 0; 0; 0];
   @reply false 16 0 2 (@IfInfomsg_Serialize false (mkIfInfo 0 1 9 0 0))].

Lemma veth_pair_wire_witness :
  exists fd b t,
    calls (LinkAdd (E := false) 1 (plugin_veth (vethPair "abcde")) (fresh veth_script)).2 = t
    /\ mkCall (Sendto fd b) None ∈ t
    /\ @read_veth false b = Some (mkEnd "ovs-veth0-abcde" (Some 0) None,
                                  mkEnd "ethcabcde" (Some 0) None).
Proof.
  destruct (@veth_pair_wire false _ scripted 1 "abcdefgh" "abcde" (fresh veth_script)
              (Veth (mkAttrs 9 0 0 "ovs-veth0-abcde" [] 0 0 0 NsNil) "ethcabcde") _
              ltac:(vm_compute; reflexivity) ltac:(vm_compute; reflexivity)) as (fd & b & t & Ht & Hs & Hr).
  exists fd, b, t. split; [exact Ht|]. split; [exact Hs|exact Hr].
Defined.

(** * Vxlan attributes, written and read *)

Section vxlan.
Context {E : Endian}.

Lemma sub_exact (d : slice) n : length (items d) = n -> exists sp, sub d 0 n = Returned (mkSlice (items d) sp).
Proof.
  intros H. destruct d as [b sp]. cbn [items] in *. eexists.
  rewrite <- (app_nil_r b) at 1. by rewrite sub_prefix.
Qed.

Lemma read_uint_exact (d : slice) n v :
  items d = put_uint n v -> read_uint d n = Returned (uint_n n v).
Proof.
  intros H. destruct (sub_exact d n) as [sp Hs]; [by rewrite H, length_put_uint|].
  unfold read_uint. rewrite Hs. cbn [obind items]. by rewrite H, get_put_uint.
Qed.

Lemma some_bytes_exact (d : slice) n b :
  items d = b -> length b = n -> some_bytes d n = Returned (Some b).
Proof.
  intros <- H. destruct (sub_exact d n H) as [sp Hs]. unfold some_bytes. by rewrite Hs.
Qed.

Lemma first_byte_exact (d : slice) z : items d = [z] -> first_byte d = Returned z.
Proof. intros H. unfold first_byte. by rewrite H. Qed.

Lemma first_bool_exact (d : slice) b : items d = boolAttr b -> first_bool d = Returned b.
Proof. intros H. unfold first_bool, first_byte. rewrite H. by destruct b. Qed.

(** Reading the attributes [ds] one after the other with [step] turns [v] into [v']. *)
Definition reads {A} (step : A -> Z -> slice -> outcome A) (ds : list request_data) (v v' : A) : Prop :=
  forall attrs, map attr_view attrs = map view_of ds -> over_attrs step attrs v = Returned v'.

Lemma over_attrs_app {A} (step : A -> Z -> slice -> outcome A) l1 l2 a :
  over_attrs step (l1 ++ l2) a = obind (over_attrs step l1 a) (over_attrs step l2).
Proof.
  revert a. induction l1 as [|d l1 IH]; intros a; simpl; [done|].
  destruct (step a (attr_Type d) (attr_Value d)); simpl; [apply IH|done].
Qed.

Section reads.
Context {A : Type} (step : A -> Z -> slice -> outcome A).

Lemma reads_nil v : reads step [] v v.
Proof. by intros [|]. Qed.

Lemma reads_app ds1 ds2 v v1 v2 :
  reads step ds1 v v1 -> reads step ds2 v1 v2 -> reads step (ds1 ++ ds2) v v2.
Proof.
  intros H1 H2 attrs. rewrite map_app. intros (l1 & l2 & -> & Ha1 & Ha2)%map_eq_app.
  rewrite over_attrs_app, (H1 l1 Ha1). by apply H2.
Qed.

Lemma reads_leaf t data v v' :
  (forall d, items d = data -> step v (uint_n 2 (uint_n 2 t)) d = Returned v') ->
  reads step [NewRtAttr t (Some data)] v v'.
Proof.
  intros H [|[ty d] [|]]; [done| |done]. cbn [map attr_view view_of NewRtAttr attr_Type attr_Value].
  intros [= -> Hd]. cbn [over_attrs attr_Type attr_Value]. by rewrite (H d Hd).
Qed.

Lemma reads_cons d ds v v1 v2 : reads step [d] v v1 -> reads step ds v1 v2 -> reads step (d :: ds) v v2.
Proof. apply (reads_app [d]). Qed.

Lemma reads_when (b : bool) d v v' :
  (b = true -> reads step [d] v v') -> (b = false -> v = v') -> reads step (when b d) v v'.
Proof. destruct b; simpl; intros H1 H2; [by apply H1|rewrite H2 by done; apply reads_nil]. Qed.

End reads.

(** Evaluates the choice of vxlan_step by the type of the attribute. *)
Ltac vxlan_field :=
  apply reads_leaf; intros d Hd; unfold vxlan_step;
  repeat match goal with
  | |- context [?a =? ?b] => let r := eval vm_compute in (a =? b) in
      lazymatch r with true => change (a =? b) with true | false => change (a =? b) with false end
  end; cbv iota;
  first [ rewrite (read_uint_exact _ _ _ Hd) | rewrite (first_bool_exact _ _ Hd)
        | rewrite (first_byte_exact _ _ Hd) | rewrite (some_bytes_exact _ _ _ Hd) by done ];
  cbn [obind].

(** An address in the form the reader gives it back: four bytes, or sixteen that are not an
    embedded IPv4 address. *)
Definition vxlan_addr (a : option (list Z)) : Prop :=
  match a with
  | None => True
  | Some ip => (To4 ip = Some ip /\ length ip = 4%nat) \/ (To4 ip = None /\ length ip = 16%nat)
  end.

Definition wf_vxlan (v : vxlan_data) : Prop :=
  0 <= VxlanId v < 2 ^ 32 /\ 0 <= VtepDevIndex v < 2 ^ 32 /\ vxlan_addr (SrcAddr v) /\ vxlan_addr (Group v)
  /\ 0 <= TTL v < 256 /\ 0 <= TOS v < 256
  /\ (if NoAge v then Age v = 0 else 0 <= Age v < 2 ^ 32)
  /\ 0 <= Limit v < 2 ^ 32 /\ 0 <= Port v < 65536.

(** The link read back has no port range. *)
Definition without_ports (v : vxlan_data) : vxlan_data :=
  let 'mkVxlan id dev src grp ttl tos lrn prx rsc l2 l3 noage gbp age lim port _ _ := v in
  mkVxlan id dev src grp ttl tos lrn prx rsc l2 l3 noage gbp age lim port 0 0.

Lemma uint1_small v : 0 <= v < 256 -> uint_n 1 v = v.
Proof. intros H. apply uint_n_small. change (256 ^ Z.of_nat 1) with 256. lia. Qed.
Lemma uint2_small v : 0 <= v < 65536 -> uint_n 2 v = v.
Proof. intros H. apply uint_n_small. change (256 ^ Z.of_nat 2) with 65536. lia. Qed.

Lemma reads_addr t4 t6 (a : option (list Z)) v (set : option (list Z) -> vxlan_data) :
  vxlan_addr a -> set None = v ->
  (forall ip d, items d = ip -> length ip = 4%nat ->
     vxlan_step v (uint_n 2 (uint_n 2 t4)) d = Returned (set (Some ip))) ->
  (forall ip d, items d = ip -> length ip = 16%nat ->
     vxlan_step v (uint_n 2 (uint_n 2 t6)) d = Returned (set (Some ip))) ->
  reads vxlan_step (match a with Some ip => ip_attr t4 t6 ip | None => [] end) v (set a).
Proof.
  intros Ha Hn H4 H6. destruct a as [ip|]; [|rewrite Hn; apply reads_nil].
  unfold ip_attr. destruct Ha as [[-> Hl]|[-> Hl]].
  - apply reads_leaf. intros d Hd. by apply H4.
  - unfold To16. rewrite Hl. cbn [Nat.eqb]. apply reads_leaf. intros d Hd. by apply H6.
Qed.

Ltac vxlan_addr_field :=
  let ip := fresh in let d := fresh in let Hd := fresh in let Hl := fresh in
  intros ip d Hd Hl; unfold vxlan_step;
  repeat match goal with
  | |- context [?a =? ?b] => let r := eval vm_compute in (a =? b) in
      lazymatch r with true => change (a =? b) with true | false => change (a =? b) with false end
  end; cbv iota; rewrite (some_bytes_exact _ _ _ Hd Hl); done.

Lemma reads_vxlan v : wf_vxlan v -> reads vxlan_step (vxlan_attrs v) zero_vxlan (without_ports v).
Proof.
  destruct v as [id dev src grp ttl tos lrn prx rsc l2 l3 noage gbp age lim port lo hi].
  intros (H1 & H2 & H3 & H4 & H5 & H6 & H7 & H8 & H9).
  cbn [VxlanId VtepDevIndex SrcAddr Group TTL TOS NoAge Age Limit Port] in *.
  unfold vxlan_attrs, without_ports, zero_vxlan.
  cbn [VxlanId VtepDevIndex SrcAddr Group TTL TOS Learning Proxy RSC L2miss L3miss NoAge GBP Age
       Limit Port PortLow PortHigh].
  eapply reads_app; [vxlan_field; rewrite uint4_small by done; done|].
  eapply (reads_app _ _ _ _ (mkVxlan id dev None None 0 0 false false false false false false false 0 0 0 0 0)).
  { apply reads_when; intros Hb; [vxlan_field; rewrite uint4_small by done; done|].
    apply negb_false_iff, Z.eqb_eq in Hb. by subst. }
  eapply reads_app.
  { apply (reads_addr _ _ _ _ (fun a => mkVxlan id dev a None 0 0 false false false false false false false 0 0 0 0 0));
      [done|done|vxlan_addr_field|vxlan_addr_field]. }
  eapply reads_app.
  { apply (reads_addr _ _ _ _ (fun a => mkVxlan id dev src a 0 0 false false false false false false false 0 0 0 0 0));
      [done|done|vxlan_addr_field|vxlan_addr_field]. }
  eapply reads_app.
  { eapply reads_cons; [vxlan_field; rewrite uint1_small by done; done|].
    eapply reads_cons; [vxlan_field; rewrite uint1_small by done; done|].
    do 4 (eapply reads_cons; [vxlan_field; done|]). vxlan_field. done. }
  eapply (reads_app _ _ _ _ (mkVxlan id dev src grp ttl tos lrn prx rsc l2 l3 false gbp 0 0 0 0 0)).
  { apply reads_when; intros Hb; [vxlan_field; done|by subst]. }
  eapply (reads_app _ _ _ _ (mkVxlan id dev src grp ttl tos lrn prx rsc l2 l3 noage gbp age 0 0 0 0)).
  { destruct noage; [subst; vxlan_field; done|]. apply reads_when; intros Hb.
    - apply Z.ltb_lt in Hb. vxlan_field. rewrite uint4_small by done. do 2 f_equal.
      by apply Z.eqb_neq; lia.
    - apply Z.ltb_ge in Hb. f_equal. lia. }
  eapply (reads_app _ _ _ _ (mkVxlan id dev src grp ttl tos lrn prx rsc l2 l3 noage gbp age lim 0 0 0)).
  { apply reads_when; intros Hb; [vxlan_field; rewrite uint4_small by done; done|].
    apply Z.ltb_ge in Hb. f_equal. lia. }
  eapply (reads_app _ _ _ _ (mkVxlan id dev src grp ttl tos lrn prx rsc l2 l3 noage gbp age lim port 0 0)).
  { apply reads_when; intros Hb; [vxlan_field; rewrite uint2_small by done; done|].
    apply Z.ltb_ge in Hb. f_equal. lia. }
  apply reads_when; intros Hb; [|done]. apply reads_leaf. intros d Hd.
  destruct (sub_exact d 4) as [sp Hs]; [by rewrite Hd|].
  unfold vxlan_step. change (sub d 0 4) with (sub d 0 4). cbn. rewrite Hs. cbn. by rewrite Hd.
Qed.

End vxlan.

Section vxlan_wire.
Context {E : Endian}.

(** An attribute with at most 16 bytes of data. *)
Definition tiny_attr (d : request_data) : bool :=
  match d with
  | DAttr _ _ _ => (data_Len d <=? 20)%nat
  | _ => false
  end.

Lemma tiny_leaf t data : (length data <= 16)%nat -> tiny_attr (NewRtAttr t (Some data)).
Proof. intros H. unfold tiny_attr, NewRtAttr. apply Is_true_true, Nat.leb_le. cbn. unfold id. lia. Qed.

Lemma tiny_when b d : tiny_attr d -> Forall tiny_attr (when b d).
Proof. destruct b; repeat constructor; done. Qed.

Lemma tiny_uint t n v : (n <= 4)%nat -> tiny_attr (NewRtAttr t (Some (put_uint n v))).
Proof. intros H. apply tiny_leaf. rewrite length_put_uint. lia. Qed.

Lemma tiny_small d : tiny_attr d -> small_attr d.
Proof.
  destruct d; try done. unfold tiny_attr, small_attr.
  rewrite !Is_true_true, Nat.leb_le, Z.ltb_lt. lia.
Qed.

Lemma tiny_children_len ds : Forall tiny_attr ds -> (children_len ds <= 23 * length ds)%nat.
Proof.
  induction 1 as [|d ds Hd _ IH]; [done|]. rewrite children_len_cons. cbn [length].
  destruct d; try done. apply Is_true_true, Nat.leb_le in Hd.
  apply rtaAlignOf_le in Hd. lia.
Qed.

Lemma ip_attr_tiny t4 t6 ip : Forall tiny_attr (ip_attr t4 t6 ip).
Proof.
  unfold ip_attr, To4, To16.
  repeat case_match; repeat constructor; simplify_eq; apply tiny_leaf;
    rewrite ?length_app, ?length_drop, ?length_replicate;
    repeat match goal with H : (_ =? _)%nat = true |- _ => apply Nat.eqb_eq in H end; simpl; try lia.
  all: rewrite ?Is_true_true in *; rewrite ?andb_true_iff, ?Nat.eqb_eq in *; intuition lia.
Qed.

Lemma vxlan_attrs_tiny v : Forall tiny_attr (vxlan_attrs v).
Proof.
  unfold vxlan_attrs. repeat apply Forall_app_2.
  - constructor; [apply tiny_uint; lia|done].
  - apply tiny_when, tiny_uint. lia.
  - destruct (SrcAddr v); [apply ip_attr_tiny|done].
  - destruct (Group v); [apply ip_attr_tiny|done].
  - repeat (constructor; [apply tiny_leaf; simpl; lia|]). done.
  - apply tiny_when, tiny_leaf. simpl. lia.
  - destruct (NoAge v); [constructor; [|done]|apply tiny_when]; apply tiny_uint; lia.
  - apply tiny_when, tiny_uint. lia.
  - apply tiny_when, tiny_uint. lia.
  - apply tiny_when, tiny_leaf. unfold port_range.
    rewrite length_app, !length_rev, !length_le_bytes. lia.
Qed.

Lemma vxlan_attrs_small v : Forall small_attr (vxlan_attrs v).
Proof. eapply Forall_impl; [apply vxlan_attrs_tiny|apply tiny_small]. Qed.

Lemma length_when b d : (length (when b d) <= 1)%nat.
Proof. destruct b; simpl; lia. Qed.

Lemma length_ip_attr t4 t6 ip : (length (ip_attr t4 t6 ip) <= 1)%nat.
Proof. unfold ip_attr. repeat case_match; simpl; lia. Qed.

Lemma length_vxlan_attrs v : (length (vxlan_attrs v) <= 16)%nat.
Proof.
  assert (Ha : forall t4 t6 a, (length (match a with Some ip => ip_attr t4 t6 ip | None => [] end) <= 1)%nat)
    by (intros t4 t6 [ip|]; [apply length_ip_attr|simpl; lia]).
  unfold vxlan_attrs. rewrite !length_app.
  repeat match goal with
  | |- context [length (when ?b ?d)] =>
      let H := fresh in pose proof (length_when b d) as H; revert H; generalize (length (when b d)); intros ? ?
  end.
  pose proof (Ha IFLA_VXLAN_LOCAL IFLA_VXLAN_LOCAL6 (SrcAddr v)).
  pose proof (Ha IFLA_VXLAN_GROUP IFLA_VXLAN_GROUP6 (Group v)).
  destruct (NoAge v); cbn [length]; [lia|].
  match goal with |- context [length (when ?b ?d)] => pose proof (length_when b d) end. lia.
Qed.

End vxlan_wire.

(** The attributes addVxlanAttrs writes for a vxlan link are read back by parseVxlanData
    with every field restored (identifier, device, addresses, TTL, TOS, the five switches, the
    group policy, ageing, limit and port), except the range of source ports, which the reader
    assigns only when decoding it fails: a range that was set is always lost. *)
Theorem vxlan_roundtrip {E : Endian} (a : LinkAttrs) (v : vxlan_data) (sp : list Z) :
  wf_vxlan v ->
  exists attrs,
    ParseRouteAttr (mkSlice (concat (map data_Serialize (vxlan_attrs v))) sp) = Returned (Some attrs)
    /\ parseVxlanData (Some (Vxlan a zero_vxlan)) attrs = Returned (Vxlan a (without_ports v)).
Proof.
  intros Hv. rewrite (map_ext _ _ data_Serialize_layout).
  destruct (ParseRouteAttr_layout _ sp (vxlan_attrs_small v)) as (attrs & Hp & Hview).
  exists attrs. split; [exact Hp|]. unfold parseVxlanData. by rewrite (reads_vxlan v Hv attrs Hview).
Qed.

Lemma vxlan_roundtrip_witness :
  let v := mkVxlan 42 3 (Some [10; 0; 0; 1]) None 64 0 true false false true true false false 300 0 4789 32768 61000 in
  PortLow v = 32768 /\ PortLow (without_ports v) = 0 /\
  exists attrs,
    @ParseRouteAttr true (mkSlice (concat (map (@data_Serialize true) (@vxlan_attrs true v))) []) = Returned (Some attrs)
    /\ @parseVxlanData true (Some (Vxlan NewLinkAttrs zero_vxlan)) attrs = Returned (Vxlan NewLinkAttrs (without_ports v)).
Proof.
  intros v. split; [reflexivity|]. split; [reflexivity|].
  apply (@vxlan_roundtrip true NewLinkAttrs v []).
  unfold wf_vxlan, vxlan_addr, v. cbn. intuition (try lia).
Defined.
