(* ===== verification/NetlinkRead.v ===== *)
(** Reading links back: linkDeserialize on the message with which the kernel describes
    a link, for every kind of link. *)

From S2P Require Import Prelude NetIP Nl NlSock Netlink NetlinkVeth.

Local Open Scope go_scope.
Local Open Scope nl_scope.
Local Open Scope Z_scope.

(** * The kernel's description of a link

    [description] is a device of the specification and models no code of the repository: it
    writes a link the way the kernel lays out an RTM_NEWLINK message, in one fixed order of the
    attributes. What it leaves out (the data of macvlan and ipvlan, statistics, and so on) is
    outside the theorems about it. *)

Section describe.
Context {E : Endian}.

(** Strings are written with a zero byte, numbers with 32 bits, and addresses and indexes
    only when there are any. *)
Definition base_description (a : LinkAttrs) : list request_data :=
  ([NewRtAttr IFLA_IFNAME (Some (ZeroTerminated (Name a)));
    NewRtAttr IFLA_TXQLEN (Some (put_uint 4 (TxQLen a)));
    NewRtAttr IFLA_MTU (Some (put_uint 4 (MTU a)))]
   ++ when (negb (ParentIndex a =? 0)) (NewRtAttr IFLA_LINK (Some (put_uint 4 (ParentIndex a))))
   ++ when (negb (MasterIndex a =? 0)) (NewRtAttr IFLA_MASTER (Some (put_uint 4 (MasterIndex a))))
   ++ when (existsb (fun b => negb (b =? 0)) (HardwareAddr a))
           (NewRtAttr IFLA_ADDRESS (Some (HardwareAddr a))))%list.

(** The kind, and what belongs to the kind. *)
Definition kind_description (l : Link) : list request_data :=
  let info data := [DAttr IFLA_LINKINFO None
                      (NewRtAttr IFLA_INFO_KIND (Some (ZeroTerminated (link_Type l))) :: data)] in
  match l with
  | Device _ | Tuntap _ _ => []
  | Vxlan _ v => info [DAttr IFLA_INFO_DATA None (vxlan_attrs v)]
  | Vlan _ id => info [DAttr IFLA_INFO_DATA None [NewRtAttr IFLA_VLAN_ID (Some (put_uint 2 id))]]
  | _ => info []
  end.

Definition description (flags : Z) (l : Link) : list Z :=
  (IfInfomsg_Serialize (mkIfInfo 0 1 (Index (Attrs l)) flags 0)
   ++ concat (map layout (base_description (Attrs l) ++ kind_description l)))%list.

(** * Reading attribute by attribute *)

(** Reading the attributes [ds], before any others, turns the first state into the second. *)
Definition dreads (ds : list request_data) (st st' : LinkAttrs * option Link * string) : Prop :=
  forall attrs rest, map attr_view attrs = map view_of ds ->
    deser_attrs (attrs ++ rest) st.1.1 st.1.2 st.2 = deser_attrs rest st'.1.1 st'.1.2 st'.2.

Lemma dreads_nil st : dreads [] st st.
Proof. by intros [|]. Qed.

Lemma dreads_app ds1 ds2 st st1 st2 :
  dreads ds1 st st1 -> dreads ds2 st1 st2 -> dreads (ds1 ++ ds2) st st2.
Proof.
  intros H1 H2 attrs rest. rewrite map_app. intros (l1 & l2 & -> & Ha1 & Ha2)%map_eq_app.
  rewrite <- app_assoc, (H1 l1 _ Ha1). by apply H2.
Qed.

Lemma dreads_cons d ds st st1 st2 : dreads [d] st st1 -> dreads ds st1 st2 -> dreads (d :: ds) st st2.
Proof. apply (dreads_app [d]). Qed.

(** An attribute of the shared part. *)
Lemma dreads_base t data a link ty a' :
  uint_n 2 t <> IFLA_LINKINFO ->
  (forall d, items d = data -> deser_base a (uint_n 2 (uint_n 2 t)) d = Returned a') ->
  dreads [NewRtAttr t (Some data)] (a, link, ty) (a', link, ty).
Proof.
  intros Ht H [|[ty' d] [|]] rest; [done| |done].
  cbn [map attr_view view_of NewRtAttr attr_Type attr_Value]. intros [= -> Hd].
  cbn [app deser_attrs attr_Type attr_Value fst snd].
  rewrite uint_n_idem in *. apply Z.eqb_neq in Ht. rewrite Ht.
  specialize (H d Hd). by rewrite H.
Qed.

Lemma dreads_when (b : bool) d st st' :
  (b = true -> dreads [d] st st') -> (b = false -> st = st') -> dreads (when b d) st st'.
Proof. destruct b; simpl; intros H1 H2; [by apply H1|rewrite H2 by done; apply dreads_nil]. Qed.

Ltac base_field :=
  apply dreads_base; [done|]; intros d Hd; unfold deser_base; rewrite ?uint_n_idem;
  repeat match goal with
  | |- context [uint_n 2 ?t =? ?b] => let r := eval vm_compute in (uint_n 2 t =? b) in
      lazymatch r with
      | true => change (uint_n 2 t =? b) with true
      | false => change (uint_n 2 t =? b) with false
      end
  end; cbv iota;
  first [ rewrite (read_uint_exact _ _ _ Hd), uint4_small by done; done | idtac ].

(** The fields of a description are in range; the namespace of a link is not described. *)
Definition wf_attrs (a : LinkAttrs) : Prop :=
  - 2 ^ 31 <= Index a < 2 ^ 31 /\ 0 <= TxQLen a < 2 ^ 32 /\ 0 <= MTU a < 2 ^ 32
  /\ 0 <= ParentIndex a < 2 ^ 32 /\ 0 <= MasterIndex a < 2 ^ 32
  /\ (HardwareAddr a = [] \/ existsb (fun b => negb (b =? 0)) (HardwareAddr a) = true)
  /\ (length (HardwareAddr a) <= 16)%nat /\ (String.length (Name a) <= 15)%nat
  /\ Namespace a = NsNil.

Lemma drop_last_ZeroTerminated (d : slice) s :
  items d = ZeroTerminated s -> omap_out bytes_str (drop_last d) = Returned s.
Proof.
  intros H. unfold drop_last. rewrite H.
  assert (Hl : length (ZeroTerminated s) = S (String.length s))
    by (unfold ZeroTerminated; rewrite length_app, length_str_bytes; simpl; lia).
  rewrite Hl. cbn [Nat.eqb omap_out obind]. f_equal. rewrite <- Hl. apply ZeroTerminated_name.
Qed.

Lemma dreads_base_description a ix fl :
  wf_attrs a ->
  dreads (base_description a) (mkAttrs ix 0 0 "" [] fl 0 0 NsNil, None, "")
         (mkAttrs ix (MTU a) (TxQLen a) (Name a) (HardwareAddr a) fl (ParentIndex a) (MasterIndex a) NsNil,
          None, "").
Proof.
  intros (H1 & H2 & H3 & H4 & H5 & H6 & H7 & H8 & H9). unfold base_description.
  eapply dreads_app; [eapply dreads_cons; [|eapply dreads_cons]|].
  - instantiate (1 := (mkAttrs ix 0 0 (Name a) [] fl 0 0 NsNil, None, "")). base_field.
    pose proof (drop_last_ZeroTerminated _ _ Hd) as Hn. unfold omap_out in Hn.
    destruct (drop_last d); simplify_eq/=. by rewrite Hn.
  - instantiate (1 := (mkAttrs ix 0 (TxQLen a) (Name a) [] fl 0 0 NsNil, None, "")). base_field.
  - instantiate (1 := (mkAttrs ix (MTU a) (TxQLen a) (Name a) [] fl 0 0 NsNil, None, "")). base_field.
  - apply (dreads_app _ _ _ (mkAttrs ix (MTU a) (TxQLen a) (Name a) [] fl (ParentIndex a) 0 NsNil, None, "")).
    { apply dreads_when; intros Hb; [base_field|].
      apply negb_false_iff, Z.eqb_eq in Hb. by rewrite Hb. }
    apply (dreads_app _ _ _ (mkAttrs ix (MTU a) (TxQLen a) (Name a) [] fl (ParentIndex a) (MasterIndex a) NsNil, None, "")).
    { apply dreads_when; intros Hb; [base_field|].
      apply negb_false_iff, Z.eqb_eq in Hb. by rewrite Hb. }
    apply dreads_when; intros Hb.
    + base_field. by rewrite Hd, Hb.
    + destruct H6 as [->|H6]; [done|congruence].
Qed.

(** ** The kind *)

(** A link a description of which says everything about it. *)
Definition readable (l : Link) : Prop :=
  match l with
  | Tuntap _ _ => False
  | Macvlan _ m | Macvtap _ m | IPVlan _ m => m = 0
  | Veth _ peer => peer = ""
  | GenericLink _ t => link_of_kind t = GenericLink zero_attrs t /\ (String.length t <= 15)%nat
  | Vlan _ id => 0 <= id < 65536
  | Vxlan _ v => wf_vxlan v
  | _ => True
  end.

(** What is read of a link: all of it but the port range of a vxlan link. *)
Definition as_read (l : Link) : Link :=
  match l with
  | Vxlan a v => Vxlan a (without_ports v)
  | _ => l
  end.

(** Reading the children of IFLA_LINKINFO gives a link and its kind. *)
Definition info_reads (cs : list request_data) (link : option Link) (k : string) : Prop :=
  forall infos, map attr_view infos = map view_of cs ->
    deser_info infos None "" = Returned (Some (link, k)).

(** A nested attribute is read from its payload, whatever follows it in the buffer. *)
Lemma nested_layout (d : slice) t c cs :
  Forall small_attr (c :: cs) -> items d = payload (DAttr t None (c :: cs)) ->
  exists attrs, ParseRouteAttr d = Returned (Some attrs) /\ map attr_view attrs = map view_of (c :: cs).
Proof.
  intros Hs Hd. destruct d as [b sp]. cbn [items] in Hd. rewrite payload_children in Hd. subst b.
  by apply ParseRouteAttr_layout.
Qed.

Lemma dreads_info c cs a link k :
  Forall small_attr (c :: cs) -> info_reads (c :: cs) link k ->
  dreads [DAttr IFLA_LINKINFO None (c :: cs)] (a, None, "") (a, link, k).
Proof.
  intros Hs Hi [|[ty d] [|]] rest; [done| |done].
  cbn [map attr_view view_of attr_Type attr_Value]. intros [= -> Hd].
  cbn [app deser_attrs attr_Type attr_Value fst snd].
  change (uint_n 2 IFLA_LINKINFO =? IFLA_LINKINFO) with true. cbv iota.
  destruct (nested_layout d IFLA_LINKINFO c cs Hs Hd) as (infos & -> & Hv). cbn [obind].
  by rewrite (Hi infos Hv).
Qed.

Lemma deser_kind (d : slice) k rest link ty :
  items d = ZeroTerminated k ->
  deser_info (mkAttr IFLA_INFO_KIND d :: rest) link ty
  = deser_info rest (Some (link_of_kind k)) k.
Proof.
  intros Hd. cbn [deser_info attr_Type attr_Value]. change (IFLA_INFO_KIND =? IFLA_INFO_KIND) with true.
  cbv iota. pose proof (drop_last_ZeroTerminated d k Hd) as H. unfold omap_out in H.
  destruct (drop_last d) as [b|]; cbn [obind] in *; [|done]. injection H as ->. done.
Qed.

Lemma info_reads_kind k :
  info_reads [NewRtAttr IFLA_INFO_KIND (Some (ZeroTerminated k))] (Some (link_of_kind k)) k.
Proof.
  intros [|[ty d] [|]]; [done| |done]. cbn [map attr_view view_of NewRtAttr attr_Type attr_Value].
  intros [= -> Hd]. change (uint_n 2 (uint_n 2 IFLA_INFO_KIND)) with IFLA_INFO_KIND.
  by rewrite (deser_kind d k).
Qed.

Lemma info_reads_data k c cs link :
  Forall small_attr (c :: cs) ->
  (forall data, map attr_view data = map view_of (c :: cs) ->
     parse_link_data (Some (link_of_kind k)) k data = Returned (Some link)) ->
  info_reads [NewRtAttr IFLA_INFO_KIND (Some (ZeroTerminated k)); DAttr IFLA_INFO_DATA None (c :: cs)]
             (Some link) k.
Proof.
  intros Hs Hp [|[ty d] [|[ty' d'] [|]]]; [done|done| |done].
  cbn [map attr_view view_of NewRtAttr attr_Type attr_Value]. intros [= -> Hd -> Hd'].
  change (uint_n 2 (uint_n 2 IFLA_INFO_KIND)) with IFLA_INFO_KIND. rewrite (deser_kind d k) by done.
  cbn [deser_info attr_Type attr_Value].
  change (uint_n 2 IFLA_INFO_DATA =? IFLA_INFO_KIND) with false.
  change (uint_n 2 IFLA_INFO_DATA =? IFLA_INFO_DATA) with true. cbv iota.
  destruct (nested_layout d' IFLA_INFO_DATA c cs Hs Hd') as (data & -> & Hv). cbn [obind].
  by rewrite (Hp data Hv).
Qed.

Lemma parse_vlan_data data id :
  0 <= id < 65536 -> map attr_view data = [(IFLA_VLAN_ID, put_uint 2 id)] ->
  parse_link_data (Some (link_of_kind "vlan")) "vlan" data = Returned (Some (Vlan zero_attrs id)).
Proof.
  intros Hid. destruct data as [|[ty d] [|]]; [done| |done]. intros [= -> Hd]. cbn in Hd.
  unfold parse_link_data, parseVlanData. cbn [String.eqb Ascii.eqb Bool.eqb link_of_kind].
  cbn [over_attrs attr_Type attr_Value]. change (IFLA_VLAN_ID =? IFLA_VLAN_ID) with true. cbv iota.
  rewrite (read_uint_exact _ _ _ Hd), uint2_small by done. done.
Qed.

Lemma parse_vxlan_data data v :
  wf_vxlan v -> map attr_view data = map view_of (vxlan_attrs v) ->
  parse_link_data (Some (link_of_kind "vxlan")) "vxlan" data
  = Returned (Some (Vxlan zero_attrs (without_ports v))).
Proof.
  intros Hv Hd. unfold parse_link_data, parseVxlanData. cbn.
  rewrite (reads_vxlan v Hv data Hd). done.
Qed.

(** The vxlan attributes are not empty and take less than 200 bytes. *)
Lemma vxlan_attrs_cons v : exists c cs, vxlan_attrs v = c :: cs.
Proof. unfold vxlan_attrs. by do 2 eexists. Qed.

Lemma small_kind k : (String.length k <= 15)%nat ->
  small_attr (NewRtAttr IFLA_INFO_KIND (Some (ZeroTerminated k))).
Proof. apply small_ZeroTerminated. Qed.

Lemma kind_Len k : (String.length k <= 15)%nat ->
  (rtaAlignOf (data_Len (NewRtAttr IFLA_INFO_KIND (Some (ZeroTerminated k)))) <= 23)%nat.
Proof.
  intros H. apply (rtaAlignOf_le _ 20). rewrite data_Len_leaf. unfold ZeroTerminated.
  rewrite length_app, length_str_bytes. simpl. lia.
Qed.

(** Nested attributes of a description are small, when the data are a few tiny ones. *)
Lemma info_small k ds :
  (String.length k <= 15)%nat -> Forall tiny_attr ds -> (length ds <= 16)%nat ->
  small_attr (DAttr IFLA_INFO_DATA None ds)
  /\ small_attr (DAttr IFLA_LINKINFO None
       [NewRtAttr IFLA_INFO_KIND (Some (ZeroTerminated k)); DAttr IFLA_INFO_DATA None ds])
  /\ small_attr (DAttr IFLA_LINKINFO None [NewRtAttr IFLA_INFO_KIND (Some (ZeroTerminated k))]).
Proof.
  intros Hk Ht Hl. pose proof (tiny_children_len ds Ht) as Hc. pose proof (kind_Len k Hk) as HK.
  assert (Hd : (data_Len (DAttr IFLA_INFO_DATA None ds) <= 400)%nat).
  { etransitivity; [apply data_Len_bound|]. cbn [bytes_of default length]. lia. }
  split; [eapply small_of_Len; [exact Hd|lia]|].
  split; eapply (small_of_Len _ _ _ 500); try lia; (etransitivity; [apply data_Len_bound|]);
    rewrite !children_len_cons, children_len_nil; cbn [bytes_of default length].
  - pose proof (rtaAlignOf_le _ _ Hd). lia.
  - lia.
Qed.

Lemma data_small ds : Forall tiny_attr ds -> (length ds <= 16)%nat -> small_attr (DAttr IFLA_INFO_DATA None ds).
Proof. intros Ht Hl. by destruct (info_small "" ds ltac:(simpl; lia) Ht Hl). Qed.

Lemma linkinfo_small k ds :
  (String.length k <= 15)%nat -> Forall tiny_attr ds -> (length ds <= 16)%nat ->
  small_attr (DAttr IFLA_LINKINFO None
    [NewRtAttr IFLA_INFO_KIND (Some (ZeroTerminated k)); DAttr IFLA_INFO_DATA None ds]).
Proof. intros Hk Ht Hl. by destruct (info_small k ds Hk Ht Hl) as (_ & H & _). Qed.

Lemma kind_description_small l : readable l -> Forall small_attr (kind_description l).
Proof.
  intros Hr.
  assert (Hsimple : forall k, (String.length k <= 15)%nat ->
            Forall small_attr [DAttr IFLA_LINKINFO None [NewRtAttr IFLA_INFO_KIND (Some (ZeroTerminated k))]]).
  { intros k Hk. constructor; [|done].
    apply (info_small k []); [done|constructor|simpl; lia]. }
  destruct l; cbn [kind_description link_Type]; try done; try (apply Hsimple; cbn; lia).
  - constructor; [|done]. apply linkinfo_small; [cbn; lia| |cbn; lia].
    constructor; [apply tiny_uint; lia|done].
  - apply Hsimple. apply Hr.
  - constructor; [|done]. apply linkinfo_small; [cbn; lia|apply vxlan_attrs_tiny|apply length_vxlan_attrs].
Qed.

Lemma base_description_small a : wf_attrs a -> Forall small_attr (base_description a).
Proof.
  intros (H1 & H2 & H3 & H4 & H5 & H6 & H7 & H8 & H9). unfold base_description. repeat apply Forall_app_2.
  - constructor; [by apply small_ZeroTerminated|]. constructor; [apply small_uint; lia|].
    constructor; [apply small_uint; lia|done].
  - apply small_when, small_uint. lia.
  - apply small_when, small_uint. lia.
  - apply small_when, small_leaf. lia.
Qed.

(** Reading the kind gives the link, up to its shared attributes. *)
Lemma dreads_kind_description l a :
  readable l ->
  exists link k, dreads (kind_description l) (a, None, "") (a, link, k)
    /\ forall a', set_Attrs a' (default (Device zero_attrs) link) = set_Attrs a' (as_read l).
Proof.
  intros Hr.
  assert (Hsimple : forall k, (String.length k <= 15)%nat ->
    exists link k', dreads [DAttr IFLA_LINKINFO None [NewRtAttr IFLA_INFO_KIND (Some (ZeroTerminated k))]]
                           (a, None, "") (a, link, k') /\ link = Some (link_of_kind k)).
  { intros k Hk. exists (Some (link_of_kind k)), k. split; [|done]. apply dreads_info.
    - constructor; [by apply small_kind|done].
    - apply info_reads_kind. }
  assert (Hknown : forall k, (String.length k <= 15)%nat ->
    (forall a', set_Attrs a' (link_of_kind k) = set_Attrs a' (as_read l)) ->
    exists link k', dreads [DAttr IFLA_LINKINFO None [NewRtAttr IFLA_INFO_KIND (Some (ZeroTerminated k))]]
                           (a, None, "") (a, link, k')
      /\ forall a', set_Attrs a' (default (Device zero_attrs) link) = set_Attrs a' (as_read l)).
  { intros k Hk Hset. destruct (Hsimple k Hk) as (link & k' & Hd & ->). eauto. }
  destruct l; cbn [kind_description link_Type readable] in *;
    try (apply Hknown; [cbn; lia|intros a'; cbn; by subst]).
  - exists None, "". split; [apply dreads_nil|done].
  - exists (Some (Vlan zero_attrs VlanId)), "vlan". split; [|done]. apply dreads_info.
    + constructor; [apply small_kind; cbn; lia|]. constructor; [|done].
      apply data_small; [constructor; [apply tiny_uint; lia|done]|simpl; lia].
    + apply info_reads_data; [constructor; [apply small_uint; lia|done]|].
      intros data Hd. by apply parse_vlan_data.
  - done.
  - apply Hknown; [apply Hr|]. intros a'. by rewrite (proj1 Hr).
  - destruct (vxlan_attrs_cons v) as (c & cs & Hv).
    exists (Some (Vxlan zero_attrs (without_ports v))), "vxlan". split; [|done]. apply dreads_info.
    + constructor; [apply small_kind; cbn; lia|]. constructor; [|done].
      apply data_small; [apply vxlan_attrs_tiny|apply length_vxlan_attrs].
    + rewrite Hv. apply info_reads_data; [rewrite <- Hv; apply vxlan_attrs_small|].
      intros data Hd. apply parse_vxlan_data; [done|]. by rewrite Hv.
Qed.

Definition with_flags (f : Z) (a : LinkAttrs) : LinkAttrs :=
  mkAttrs (Index a) (MTU a) (TxQLen a) (Name a) (HardwareAddr a) f (ParentIndex a) (MasterIndex a)
          (Namespace a).

Lemma linkDeserialize_description flags l sp :
  wf_attrs (Attrs l) -> readable l -> 0 <= flags < 2 ^ 32 ->
  linkDeserialize (mkSlice (description flags l) sp)
  = Returned (Some (set_Attrs (with_flags (linkFlags flags) (Attrs l)) (as_read l))).
Proof.
  intros Ha Hr Hf. unfold linkDeserialize, description.
  set (ds := (base_description (Attrs l) ++ kind_description l)%list).
  pose proof Ha as (H1 & _).
  rewrite IfInfomsg_roundtrip by (unfold wf_IfInfomsg; cbn [if_Family if_Type if_Index if_Flags if_Change]; lia).
  cbn [obind]. unfold sub_from. cbn [items spare].
  assert (Hlen : forall m, length (IfInfomsg_Serialize m) = SizeofIfInfomsg)
    by (intros m; apply (length_layout (DIfInfo m))).
  rewrite length_app, Hlen.
  destruct (Nat.leb_spec SizeofIfInfomsg (SizeofIfInfomsg + length (concat (map layout ds)))); [|lia].
  rewrite drop_app_length' by (by rewrite Hlen). cbn [obind].
  destruct (ParseRouteAttr_layout ds sp) as (attrs & -> & Hv).
  { apply Forall_app_2; [by apply base_description_small|by apply kind_description_small]. }
  cbn [obind if_Index if_Flags].
  destruct (dreads_kind_description l
              (mkAttrs (Index (Attrs l)) (MTU (Attrs l)) (TxQLen (Attrs l)) (Name (Attrs l))
                 (HardwareAddr (Attrs l)) (linkFlags flags) (ParentIndex (Attrs l))
                 (MasterIndex (Attrs l)) NsNil) Hr) as (link & k & Hk & Hset).
  pose proof (dreads_app _ _ _ _ _ (dreads_base_description _ _ _ Ha) Hk attrs [] Hv) as Hd.
  cbn [fst snd] in Hd. rewrite app_nil_r in Hd. rewrite Hd. cbn [deser_attrs obind]. rewrite Hset.
  destruct Ha as (_ & _ & _ & _ & _ & _ & _ & _ & Hns). unfold with_flags. by rewrite Hns.
Qed.

End describe.

(** C36: Reading a link: linkDeserialize turns the kernel's description of a link back into the link: its kind
    (unknown kinds included), index, name, MTU, queue length, parent, master and hardware
    address, the flags translated bit by bit, and the data of vlan and vxlan links; of a vxlan
    link it loses the port range. *)
Theorem link_description_read {E : Endian} flags (l : Link) (sp : list Z) :
  wf_attrs (Attrs l) -> readable l -> 0 <= flags < 2 ^ 32 ->
  linkDeserialize (mkSlice (description flags l) sp)
  = Returned (Some (set_Attrs (with_flags (linkFlags flags) (Attrs l)) (as_read l))).
Proof. apply linkDeserialize_description. Qed.

Lemma link_description_read_witness :
  @linkDeserialize false
    (mkSlice (@description false 0x1003 (Vlan (mkAttrs 7 1500 1000 "eth0.5" [2; 0; 0; 0; 0; 1] 0 2 0 NsNil) 5)) [])
  = Returned (Some (Vlan (mkAttrs 7 1500 1000 "eth0.5" [2; 0; 0; 0; 0; 1] 19 2 0 NsNil) 5)).
Proof.
  apply (@link_description_read false 0x1003
           (Vlan (mkAttrs 7 1500 1000 "eth0.5" [2; 0; 0; 0; 0; 1] 0 2 0 NsNil) 5) []).
  - unfold wf_attrs. cbn. intuition lia.
  - cbn. lia.
  - lia.
Defined.
