(* ===== verification/NetlinkAddr.v ===== *)
(** vishvananda/netlink, addresses and bridge ports (addr.go, addr_linux.go, netlink.go,
    protinfo.go, protinfo_linux.go): adding, deleting and listing the addresses of a
    link, and reading the flags of a port. *)

From S2P Require Import Prelude NetIP Nl NlSock Netlink NetlinkVeth NetlinkRead.

Local Open Scope go_scope.
Local Open Scope nl_scope.
Local Open Scope Z_scope.

(** * Masks (package net) *)

(** The number of leading ones of a byte, and whether only zeros follow. *)
Fixpoint ones_of (n : nat) (v : Z) : Z * bool :=
  match n with
  | O => (0, true)
  | S n' =>
      if Z.testbit v (Z.of_nat n') then let '(k, ok) := ones_of n' v in (k + 1, ok)
      else (0, Z.land v (Z.ones (Z.of_nat n')) =? 0)
  end.

(** simpleMaskLength: [None] is -1. *)
Fixpoint simpleMaskLength (mask : list Z) : option Z :=
  match mask with
  | [] => Some 0
  | v :: mask' =>
      if v =? 255 then Z.add 8 <$> simpleMaskLength mask'
      else let '(k, ok) := ones_of 8 v in
           if ok && forallb (Z.eqb 0) mask' then Some k else None
  end.

Definition Size (mask : list Z) : Z * Z :=
  match simpleMaskLength mask with
  | Some ones => (ones, Z.of_nat (length mask) * 8)
  | None => (0, 0)
  end.

(** The byte of a mask that has [n] ones left to write. *)
Definition mask_byte (n : Z) : Z := if 8 <=? n then 255 else if 0 <? n then Z.lxor 255 (Z.shiftr 255 n) else 0.

(** net.CIDRMask: nil is the empty mask. *)
Definition CIDRMask (ones bits : Z) : list Z :=
  if negb ((bits =? 32) || (bits =? 128)) then []
  else if (ones <? 0) || (bits <? ones) then []
  else map (fun i => mask_byte (ones - 8 * Z.of_nat i)) (seq 0 (Z.to_nat (bits / 8))).

(** * Addresses *)

Record IPNet : Type := mkIPNet { IP : list Z; Mask : list Z }.
Record Addr : Type := mkAddr { addr_IPNet : option IPNet; Label : string }.

(** ParseIPNet: the address as sixteen bytes, the mask as four or sixteen. *)
Definition ParseIPNet (s : string) : option IPNet :=
  '(ip, n) ← ParseCIDR s;
  ip16 ← To16 ip;
  Some (mkIPNet ip16 (CIDRMask n (8 * Z.of_nat (length ip)))).

Definition NewIPNet (ip : list Z) : IPNet := mkIPNet ip (CIDRMask 32 32).

Definition ParseAddr (s : string) : option Addr :=
  let '(s, label) := match Split " "%char s with
                     | p0 :: p1 :: _ => (p0, p1)
                     | _ => (s, EmptyString)
                     end in
  m ← ParseIPNet s;
  Some (mkAddr (Some m) label).

(** net.IP.Equal: the same bytes, or an IPv4 address in its two forms. *)
Definition IP_Equal (a b : list Z) : bool :=
  let mapped (x y : list Z) := match To16 y with
                               | Some y16 => bool_decide (x = y16)
                               | None => false
                               end in
  if (length a =? length b)%nat then bool_decide (a = b)
  else if (length a =? 4)%nat && (length b =? 16)%nat then mapped b a
  else if (length a =? 16)%nat && (length b =? 4)%nat then mapped a b
  else false.

Definition nil_panic {A} : outcome A := Halted (GoPanic "nil pointer dereference").

Definition Addr_Equal (a x : Addr) : outcome bool :=
  match addr_IPNet a, addr_IPNet x with
  | Some na, Some nx => Returned (IP_Equal (IP na) (IP nx) && ((Size (Mask na)).1 =? (Size (Mask nx)).1))
  | _, _ => nil_panic
  end.

Definition RTM_NEWADDR : Z := 20.
Definition RTM_DELADDR : Z := 21.
Definition RTM_GETADDR : Z := 22.
Definition IFA_ADDRESS : Z := 1.
Definition IFA_LOCAL : Z := 2.
Definition IFA_LABEL : Z := 3.

Section addresses.
Context {E : Endian} {W : Type} {K : Kernel W} (rounds : nat).

(** The data addrHandle adds to its request. *)
Definition addr_data (index : Z) (net : IPNet) (label : string) : list request_data :=
  let family := GetIPFamily (IP net) in
  let msg := mkIfAddr (uint_n 1 family) (uint_n 1 (Size (Mask net)).1) 0 0 (uint_n 4 index) in
  let addrData := if family =? FAMILY_V4 then To4 (IP net) else To16 (IP net) in
  ([DIfAddr msg; NewRtAttr IFA_LOCAL addrData; NewRtAttr IFA_ADDRESS addrData]
   ++ when (negb (String.eqb label "")) (NewRtAttr IFA_LABEL (Some (ZeroTerminated label))))%list.

Definition addrHandle (link : Link) (addr : Addr) (req : NetlinkRequest) : M W (Link * option nl_error) :=
  let base := Attrs link in
  if negb (String.eqb (Label addr) "") && negb (String.prefix (Name base) (Label addr)) then
    mret (link, Some (Text (errors_New "label must begin with interface name")))
  else
    let* base := ensureIndex rounds base in
    let* net := mlift (match addr_IPNet addr with Some n => Returned n | None => nil_panic end) in
    let req := fold_left AddData (addr_data (Index base) net (Label addr)) req in
    let* r := Execute rounds req NETLINK_ROUTE 0 in
    mret (set_Attrs base link, err_of r).

(** The sequence number is taken before the link is looked up. *)
Definition AddrAdd (link : Link) (addr : Addr) : M W (Link * option nl_error) :=
  let* req := new_request RTM_NEWADDR (Z.lor (Z.lor NLM_F_CREATE NLM_F_EXCL) NLM_F_ACK) in
  addrHandle link addr req.

Definition AddrDel (link : Link) (addr : Addr) : M W (Link * option nl_error) :=
  let* req := new_request RTM_DELADDR NLM_F_ACK in
  addrHandle link addr req.

(** The loop over the attributes of one message: local, dst, and the label. *)
Definition addr_step (prefixlen : Z) (st : option IPNet * option IPNet * string) (t : Z) (v : slice)
    : outcome (option IPNet * option IPNet * string) :=
  let '(local, dst, label) := st in
  let net := mkIPNet (items v) (CIDRMask prefixlen (8 * Z.of_nat (length (items v)))) in
  if t =? IFA_ADDRESS then Returned (local, Some net, label)
  else if t =? IFA_LOCAL then Returned (Some net, dst, label)
  else if t =? IFA_LABEL then
    let? b := drop_last v in Returned (local, dst, bytes_str b)
  else Returned st.

(** [Some None]: a message of another interface; [None] is EINVAL. *)
Definition addr_of_msg (index : option Z) (m : slice) : outcome (option (option Addr)) :=
  let? msg := DeserializeIfAddrmsg m in
  if match index with Some i => negb (ifa_Index msg =? uint_n 4 i) | None => false end
  then Returned (Some None)
  else
    let? body := sub_from m SizeofIfAddrmsg in
    let? r := ParseRouteAttr body in
    match r with
    | None => Returned None
    | Some attrs =>
        let? st := over_attrs (addr_step (ifa_Prefixlen msg)) attrs (None, None, EmptyString) in
        let '(local, dst, label) := st in
        Returned (Some (Some (mkAddr (match local with Some _ => local | None => dst end) label)))
    end.

Fixpoint addrs_of_msgs (index : option Z) (msgs : list slice) : outcome (option (list Addr)) :=
  match msgs with
  | [] => Returned (Some [])
  | m :: msgs' =>
      let? r := addr_of_msg index m in
      match r with
      | None => Returned None
      | Some oa =>
          let? rest := addrs_of_msgs index msgs' in
          Returned (option_map (app (option_list oa)) rest)
      end
  end.

(** The link may be nil; its index is looked up after the exchange. *)
Definition AddrList (link : option Link) (family : Z) : M W (option Link * (nl_error + list Addr)) :=
  let* req := new_request RTM_GETADDR NLM_F_DUMP in
  let* r := Execute rounds (AddData req (DIfInfo (NewIfInfomsg family))) NETLINK_ROUTE RTM_NEWADDR in
  match r with
  | inl err => mret (link, inl err)
  | inr msgs =>
      let finish (link : option Link) (index : option Z) : M W (option Link * (nl_error + list Addr)) :=
        let* r := mlift (addrs_of_msgs index msgs) in
        mret (link, match r with Some addrs => inr addrs | None => inl (Errno EINVAL) end) in
      match link with
      | Some l =>
          let* base := ensureIndex rounds (Attrs l) in
          finish (Some (set_Attrs base l)) (Some (Index base))
      | None => finish None None
      end
  end.

(** * Flags of bridge ports *)

Record Protinfo : Type := mkProtinfo {
  Hairpin : bool; Guard : bool; FastLeave : bool; RootBlock : bool; PLearning : bool; Flood : bool }.

Definition zero_protinfo : Protinfo := mkProtinfo false false false false false false.

Definition Protinfo_String (p : Protinfo) : string :=
  let flag (b : bool) s := if b then [s] else [] in
  Join " "%char (flag (Hairpin p) "Hairpin" ++ flag (Guard p) "Guard" ++ flag (FastLeave p) "FastLeave"
                 ++ flag (RootBlock p) "RootBlock" ++ flag (PLearning p) "Learning"
                 ++ flag (Flood p) "Flood")%list.

Definition protinfo_step (p : Protinfo) (t : Z) (v : slice) : outcome Protinfo :=
  let 'mkProtinfo h g f r l u := p in
  let byte := let? b := first_byte v in Returned (byteToBool b) in
  if t =? IFLA_BRPORT_MODE then let? b := byte in Returned (mkProtinfo b g f r l u)
  else if t =? IFLA_BRPORT_GUARD then let? b := byte in Returned (mkProtinfo h b f r l u)
  else if t =? IFLA_BRPORT_FAST_LEAVE then let? b := byte in Returned (mkProtinfo h g b r l u)
  else if t =? IFLA_BRPORT_PROTECT then let? b := byte in Returned (mkProtinfo h g f b l u)
  else if t =? IFLA_BRPORT_LEARNING then let? b := byte in Returned (mkProtinfo h g f r b u)
  else if t =? IFLA_BRPORT_UNICAST_FLOOD then let? b := byte in Returned (mkProtinfo h g f r l b)
  else Returned p.

(** The first message of the link that has the attribute; [None] in the inner sum is a parse
    error, [inr None] that no message has it. *)
Fixpoint find_protinfo (index : Z) (msgs : list slice) : outcome (nl_error + option Protinfo) :=
  match msgs with
  | [] => Returned (inr None)
  | m :: msgs' =>
      let? ans := DeserializeIfInfomsg m in
      if negb (if_Index ans =? index) then find_protinfo index msgs'
      else
        let? body := sub_from m SizeofIfInfomsg in
        let? r := ParseRouteAttr body in
        match r with
        | None => Returned (inl (Errno EINVAL))
        | Some attrs =>
            match first_attr (Z.lor IFLA_PROTINFO NLA_F_NESTED) attrs with
            | None => find_protinfo index msgs'
            | Some v =>
                let? r := ParseRouteAttr v in
                match r with
                | None => Returned (inl (Errno EINVAL))
                | Some infos =>
                    let? p := over_attrs protinfo_step infos zero_protinfo in
                    Returned (inr (Some p))
                end
            end
        end
  end.

Definition LinkGetProtinfo (link : Link) : M W (Link * Protinfo * option nl_error) :=
  let* base := ensureIndex rounds (Attrs link) in
  let link := set_Attrs base link in
  let* req := new_request RTM_GETLINK NLM_F_DUMP in
  let* r := Execute rounds (AddData req (DIfInfo (NewIfInfomsg AF_BRIDGE))) NETLINK_ROUTE 0 in
  match r with
  | inl err => mret (link, zero_protinfo, Some err)
  | inr msgs =>
      let* p := mlift (find_protinfo (Index base) msgs) in
      match p with
      | inl err => mret (link, zero_protinfo, Some err)
      | inr (Some pi) => mret (link, pi, None)
      | inr None => mret (link, zero_protinfo,
                          Some (Text (Errorf "Device with index %d not found" [pretty (Index base)])))
      end
  end.

End addresses.

(** * Masks *)

Lemma Size_CIDRMask_all :
  forallb (fun n => bool_decide (Size (CIDRMask (Z.of_nat n) 32) = (Z.of_nat n, 32))) (seq 0 33)
  && forallb (fun n => bool_decide (Size (CIDRMask (Z.of_nat n) 128) = (Z.of_nat n, 128))) (seq 0 129)
  = true.
Proof. vm_compute. reflexivity. Qed.

Lemma Size_CIDRMask n bits :
  bits = 32 \/ bits = 128 -> 0 <= n <= bits -> Size (CIDRMask n bits) = (n, bits).
Proof.
  intros Hb Hn. pose proof Size_CIDRMask_all as H. apply andb_true_iff in H as [H4 H6].
  rewrite forallb_forall in H4, H6. replace n with (Z.of_nat (Z.to_nat n)) by lia.
  destruct Hb as [->| ->].
  - specialize (H4 (Z.to_nat n) ltac:(apply in_seq; lia)). by apply bool_decide_eq_true in H4.
  - specialize (H6 (Z.to_nat n) ltac:(apply in_seq; lia)). by apply bool_decide_eq_true in H6.
Qed.

(** * Addresses, written and read *)

(** An address in the form AddrList gives: four bytes, or sixteen that are not an embedded
    IPv4 address, with a mask of the same length made of leading ones. *)
Definition wf_net (net : IPNet) : Prop :=
  exists n, Mask net = CIDRMask n (8 * Z.of_nat (length (IP net))) /\ 0 <= n <= 8 * Z.of_nat (length (IP net))
    /\ (length (IP net) = 4%nat \/ (length (IP net) = 16%nat /\ To4 (IP net) = None)).

Section roundtrip.
Context {E : Endian}.

Lemma uint_n_range n v : 0 <= uint_n n v < 256 ^ Z.of_nat n.
Proof. unfold uint_n. apply Z.mod_pos_bound. lia. Qed.

(** The data of the two address attributes are the address. *)
Lemma addr_bytes net :
  wf_net net ->
  (if GetIPFamily (IP net) =? FAMILY_V4 then To4 (IP net) else To16 (IP net)) = Some (IP net).
Proof.
  intros (n & _ & _ & [Hl|[Hl H4]]); unfold GetIPFamily, To16, To4 in *; rewrite Hl in *; cbn in *; [done|].
  by rewrite H4.
Qed.

Definition addr_attrs (net : IPNet) (label : string) : list request_data :=
  ([NewRtAttr IFA_LOCAL (Some (IP net)); NewRtAttr IFA_ADDRESS (Some (IP net))]
   ++ when (negb (String.eqb label "")) (NewRtAttr IFA_LABEL (Some (ZeroTerminated label))))%list.

Lemma addr_data_eq index net label :
  wf_net net ->
  exists fam, 0 <= fam < 256 /\
  addr_data index net label
  = DIfAddr (mkIfAddr fam (uint_n 1 (Size (Mask net)).1) 0 0 (uint_n 4 index)) :: addr_attrs net label.
Proof.
  intros Hn. exists (uint_n 1 (GetIPFamily (IP net))). split; [apply (uint_n_range 1)|].
  unfold addr_data. by rewrite addr_bytes.
Qed.

Lemma addr_attrs_small net label :
  wf_net net -> (String.length label <= 15)%nat -> Forall small_attr (addr_attrs net label).
Proof.
  intros (n & _ & _ & Hl) Hlab. unfold addr_attrs. apply Forall_app_2.
  - constructor; [apply small_leaf; lia|]. constructor; [apply small_leaf; lia|done].
  - by apply small_when, small_ZeroTerminated.
Qed.

Lemma read_addr_attrs attrs net label n :
  Mask net = CIDRMask n (8 * Z.of_nat (length (IP net))) ->
  map attr_view attrs = map view_of (addr_attrs net label) ->
  over_attrs (addr_step n) attrs (None, None, EmptyString) = Returned (Some net, Some net, label).
Proof.
  intros Hm. destruct net as [ip mask]. cbn [IP Mask] in *. subst mask.
  unfold addr_attrs, when. cbn [IP].
  destruct (String.eqb_spec label "") as [->|Hne]; cbn [negb app map].
  - destruct attrs as [|[t1 d1] [|[t2 d2] [|]]]; try done. intros [= -> H1 -> H2]. cbn in H1, H2.
    cbn [over_attrs attr_Type attr_Value]. unfold addr_step. rewrite H1, H2. done.
  - destruct attrs as [|[t1 d1] [|[t2 d2] [|[t3 d3] [|]]]]; try done.
    intros [= -> H1 -> H2 -> H3]. cbn in H1, H2, H3.
    cbn [over_attrs attr_Type attr_Value]. unfold addr_step. rewrite H1, H2.
    pose proof (drop_last_ZeroTerminated d3 label H3) as Hd. unfold omap_out in Hd.
    cbn. destruct (drop_last d3); simplify_eq/=. done.
Qed.

Lemma addr_of_msg_data index i net label sp :
  wf_net net -> (String.length label <= 15)%nat ->
  match i with Some j => uint_n 4 j = uint_n 4 index | None => True end ->
  addr_of_msg i (mkSlice (concat (map layout (addr_data index net label))) sp)
  = Returned (Some (Some (mkAddr (Some net) label))).
Proof.
  intros Hw Hlab Hi. pose proof Hw as (n & Hm & Hn & Hl).
  assert (Hbits : 8 * Z.of_nat (length (IP net)) = 32 \/ 8 * Z.of_nat (length (IP net)) = 128) by lia.
  assert (Hs : uint_n 1 (Size (Mask net)).1 = n).
  { rewrite Hm, Size_CIDRMask by done. apply uint1_small. cbn [fst]. lia. }
  destruct (addr_data_eq index net label Hw) as (fam & Hfam & ->). rewrite Hs.
  unfold addr_of_msg. cbn [map concat layout].
  rewrite IfAddrmsg_roundtrip.
  2:{ unfold wf_IfAddrmsg. cbn [ifa_Family ifa_Prefixlen ifa_Flags ifa_Scope ifa_Index].
      pose proof (uint_n_range 4 index) as Hix. change (256 ^ Z.of_nat 4) with (2 ^ 32) in Hix. lia. }
  cbn [obind ifa_Index ifa_Prefixlen].
  replace (match i with Some j => negb (uint_n 4 index =? uint_n 4 j) | None => false end) with false
    by (destruct i; [by rewrite Hi, Z.eqb_refl|done]).
  assert (Hlen : forall m, length (IfAddrmsg_Serialize m) = SizeofIfAddrmsg)
    by (intros m; apply (length_layout (DIfAddr m))).
  unfold sub_from. cbn [items spare]. rewrite length_app, Hlen.
  destruct (Nat.leb_spec SizeofIfAddrmsg (SizeofIfAddrmsg + length (concat (map layout (addr_attrs net label))))); [|lia].
  rewrite drop_app_length' by (by rewrite Hlen). cbn [obind].
  destruct (ParseRouteAttr_layout _ sp (addr_attrs_small net label Hw Hlab)) as (attrs & -> & Hv).
  cbn [obind]. by rewrite (read_addr_attrs attrs net label n Hm Hv).
Qed.

(** The request is short. *)
Lemma addr_request_length index net label :
  wf_net net -> (String.length label <= 15)%nat ->
  (length (concat (map layout (addr_data index net label))) <= 80)%nat.
Proof.
  intros Hw Hlab. pose proof Hw as (n & _ & _ & Hl).
  destruct (addr_data_eq index net label Hw) as (fam & _ & ->).
  assert (Hip : forall t, (length (layout (NewRtAttr t (Some (IP net)))) <= 23)%nat).
  { intros t. rewrite length_layout, data_Len_leaf. apply (rtaAlignOf_le _ 20). lia. }
  assert (Hz : (length (layout (NewRtAttr IFA_LABEL (Some (ZeroTerminated label)))) <= 23)%nat).
  { rewrite length_layout, data_Len_leaf. apply (rtaAlignOf_le _ 20). unfold ZeroTerminated.
    rewrite length_app, length_str_bytes. simpl. lia. }
  pose proof (Hip IFA_LOCAL). pose proof (Hip IFA_ADDRESS).
  unfold addr_attrs, when. destruct (negb (String.eqb label "")); cbn [app map concat];
    rewrite !length_app; (rewrite (length_layout (DIfAddr _)); change (rtaAlignOf (data_Len (DIfAddr _))) with 8%nat);
    cbn [length]; lia.
Qed.

End roundtrip.

(** * Adding an address *)

Section add.
Context {E : Endian} {W : Type} {K : Kernel W}.

Lemma AddrAdd_sent rounds link net label (s : NS W) l' s' :
  wf_net net -> (String.length label <= 15)%nat ->
  AddrAdd rounds link (mkAddr (Some net) label) s = (Ended (Returned (l', None)), s') ->
  exists fd b t m, calls s' = calls s ++ t /\ mkCall (Sendto fd b) None ∈ t
    /\ ParseNetlinkMessage (mkSlice b []) = Some [m] /\ m_Type m = RTM_NEWADDR
    /\ addr_of_msg (Some (Index (Attrs l'))) (m_Data m) = Returned (Some (Some (mkAddr (Some net) label))).
Proof.
  intros Hw Hlab. unfold AddrAdd. unfold mbind_ at 1. unfold new_request at 1.
  set (req := NewNetlinkRequest _ _ _). set (s1 := mkNS _ _ _ _). unfold addrHandle. cbn [Label addr_IPNet].
  destruct (_ && _); [done|]. unfold mbind_ at 1.
  destruct (ensureIndex rounds (Attrs link) s1) as [[[base|h]|] s2] eqn:Ee; try done.
  unfold mbind_ at 1, mlift at 1. unfold mbind_ at 1.
  destruct (Execute rounds _ NETLINK_ROUTE 0 s2) as [[[[e|res]|h]|] s3] eqn:Ex; [done| |done|done].
  intros [= <- <-]. apply Execute_data in Ex as (fd & pid & t & Ht & Hs & _).
  eapply after_calls in Ee as [t2 Ht2]; [|apply after_ensureIndex; exact _].
  eexists fd, _, (t2 ++ t)%list, _. split; [by rewrite Ht, Ht2, <- app_assoc|].
  split; [apply elem_of_app; right; exact Hs|].
  assert (HA : Index (Attrs (set_Attrs base link)) = Index base) by (by destruct link). rewrite HA.
  rewrite fold_AddData. cbn [hdr_Type hdr_Flags hdr_Seq hdr_Pid req_Data req NewNetlinkRequest app].
  split; [apply ParseNetlinkMessage_request|].
  { unfold request_body. cbn [req_Data]. pose proof (addr_request_length (Index base) net label Hw Hlab). lia. }
  split; [done|]. cbn [m_Data]. unfold request_body. cbn [req_Data]. by apply addr_of_msg_data.
Qed.

End add.

(** When AddrAdd reports success, the message it sent is an RTM_NEWADDR that AddrList's
    reader takes apart into the same address, mask and label, for the index the link has at
    the end: what was asked for is what is on the wire, for IPv4 and IPv6 and every prefix
    length. *)
Theorem AddrAdd_wire {E : Endian} {W} {K : Kernel W} rounds link net label (s : NS W) l' s' :
  wf_net net -> (String.length label <= 15)%nat ->
  AddrAdd rounds link (mkAddr (Some net) label) s = (Ended (Returned (l', None)), s') ->
  exists fd b t m, calls s' = calls s ++ t /\ mkCall (Sendto fd b) None ∈ t
    /\ ParseNetlinkMessage (mkSlice b []) = Some [m] /\ m_Type m = RTM_NEWADDR
    /\ addr_of_msg (Some (Index (Attrs l'))) (m_Data m) = Returned (Some (Some (mkAddr (Some net) label))).
Proof. apply AddrAdd_sent. Qed.

Definition sample_net : IPNet := mkIPNet [10; 1; 2; 3] [255; 255; 240; 0].

Lemma AddrAdd_wire_witness :
  exists fd b t m,
    calls (AddrAdd (E := true) 1 (Dummy (set_Index 4 NewLinkAttrs)) (mkAddr (Some sample_net) "")
             (fresh [@reply true 2 0 1 [0; 0; 0; 0]])).2 = t
    /\ mkCall (Sendto fd b) None ∈ t
    /\ @ParseNetlinkMessage true (mkSlice b []) = Some [m]
    /\ @addr_of_msg true (Some 4) (m_Data m) = Returned (Some (Some (mkAddr (Some sample_net) ""))).
Proof.
  destruct (@AddrAdd_wire true _ scripted 1 (Dummy (set_Index 4 NewLinkAttrs)) sample_net ""
              (fresh [@reply true 2 0 1 [0; 0; 0; 0]]) (Dummy (set_Index 4 NewLinkAttrs)) _
              ltac:(exists 20; split; [vm_compute; reflexivity|split; [cbn; lia|left; reflexivity]])
              ltac:(cbn; lia) ltac:(vm_compute; reflexivity))
    as (fd & b & t & m & Ht & Hs & Hp & _ & Ha).
  exists fd, b, t, m. split; [exact Ht|]. split; [exact Hs|]. split; [exact Hp|exact Ha].
Defined.
