(* ===== verification/NetlinkRoute.v ===== *)
(** vishvananda/netlink, routes and neighbours (route.go, route_linux.go, neigh.go,
    neigh_linux.go): adding, deleting, listing, looking up and watching them.

    An address that may be nil is an [option]. The bytes of padding of a neighbour
    message are zero. *)

From S2P Require Import Prelude NetIP Nl NlSock Netlink NetlinkVeth NetlinkRead NetlinkAddr.

Local Open Scope go_scope.
Local Open Scope nl_scope.
Local Open Scope Z_scope.

(** * Routes *)

Definition RTM_NEWROUTE : Z := 24.
Definition RTM_DELROUTE : Z := 25.
Definition RTM_GETROUTE : Z := 26.
Definition RTM_F_CLONED : Z := 0x200.
Definition RTA_DST : Z := 1.
Definition RTA_OIF : Z := 4.
Definition RTA_GATEWAY : Z := 5.
Definition RTA_PREFSRC : Z := 7.
Definition RTNLGRP_IPV4_ROUTE : Z := 7.
Definition RTNLGRP_IPV6_ROUTE : Z := 11.

Definition SCOPE_UNIVERSE : Z := 0.
Definition SCOPE_SITE : Z := 200.
Definition SCOPE_LINK : Z := 253.
Definition SCOPE_HOST : Z := 254.
Definition SCOPE_NOWHERE : Z := 255.
Definition FLAG_ONLINK : Z := 4.
Definition FLAG_PERVASIVE : Z := 2.

(** The net.IPNet of a destination, whose address may be nil. *)
Record DstNet : Type := mkDst { dst_IP : option (list Z); dst_Mask : list Z }.

Record Route : Type := mkRoute {
  LinkIndex : Z;
  Scope : Z;
  Dst : option DstNet;
  Src : option (list Z);
  Gw : option (list Z);
  Flags : Z
}.

Definition set_Flags (f : Z) (r : Route) : Route :=
  mkRoute (LinkIndex r) (Scope r) (Dst r) (Src r) (Gw r) f.
Definition SetFlag (r : Route) (flag : Z) : Route := set_Flags (Z.lor (Flags r) flag) r.
Definition ClearFlag (r : Route) (flag : Z) : Route := set_Flags (Z.ldiff (Flags r) flag) r.

Definition testFlags : list (Z * string) := [(FLAG_ONLINK, "onlink"); (FLAG_PERVASIVE, "pervasive")].

Definition ListFlags (r : Route) : list string :=
  (List.filter (fun tf => negb (Z.land (Flags r) tf.1 =? 0)) testFlags).*2.

Section routes.
Context {E : Endian} {W : Type} {K : Kernel W} (rounds : nat).

(** The bytes of an address in its family. *)
Definition family_bytes (family : Z) (ip : list Z) : option (list Z) :=
  if family =? FAMILY_V4 then To4 ip else To16 ip.

(** One optional address of routeHandle: the family so far is [None] for -1; an address of
    another family is refused. *)
Definition add_address (attr : Z) (err : string) (ip : option (list Z))
    (st : option Z * list request_data) : nl_error + (option Z * list request_data) :=
  match ip with
  | None => inr st
  | Some ip =>
      let family := GetIPFamily ip in
      if match st.1 with Some f => negb (f =? family) | None => false end
      then inl (Text (errors_New err))
      else inr (Some family, st.2 ++ [NewRtAttr attr (family_bytes family ip)])%list
  end.

(** The message and the attributes of routeHandle, or its refusal. *)
Definition route_data (route : Route) (msg : RtMsg) : nl_error + list request_data :=
  let dst := match Dst route with Some d => dst_IP d | None => None end in
  match dst, Src route, Gw route with
  | None, None, None => inl (Text (errors_New "one of Dst.IP, Src, or Gw must not be nil"))
  | _, _, _ =>
      let dst_len := match Dst route, dst with
                     | Some d, Some _ => uint_n 1 (Size (dst_Mask d)).1
                     | _, _ => rt_Dst_len msg
                     end in
      match add_address RTA_DST EmptyString dst (None, []) with
      | inl e => inl e
      | inr st =>
      match add_address RTA_PREFSRC "source and destination ip are not the same IP family"
                        (Src route) st with
      | inl e => inl e
      | inr st =>
      match add_address RTA_GATEWAY "gateway, source, and destination ip are not the same IP family"
                        (Gw route) st with
      | inl e => inl e
      | inr (family, attrs) =>
          let msg := mkRtMsg (uint_n 1 (default (-1) family)) dst_len (rt_Src_len msg) (rt_Tos msg)
                             (rt_Table msg) (rt_Protocol msg) (uint_n 1 (Scope route)) (rt_Type msg)
                             (uint_n 4 (Flags route)) in
          inr (DRtMsg msg :: attrs ++ [NewRtAttr RTA_OIF (Some (Uint32Attr (LinkIndex route)))])%list
      end end end
  end.

Definition routeHandle (route : Route) (req : NetlinkRequest) (msg : RtMsg) : M W (option nl_error) :=
  match route_data route msg with
  | inl e => mret (Some e)
  | inr data =>
      let* r := Execute rounds (fold_left AddData data req) NETLINK_ROUTE 0 in
      mret (err_of r)
  end.

Definition RouteAdd (route : Route) : M W (option nl_error) :=
  let* req := new_request RTM_NEWROUTE (Z.lor (Z.lor NLM_F_CREATE NLM_F_EXCL) NLM_F_ACK) in
  routeHandle route req NewRtMsg.

Definition RouteDel (route : Route) : M W (option nl_error) :=
  let* req := new_request RTM_DELROUTE NLM_F_ACK in
  routeHandle route req NewRtDelMsg.

(** The loop over the attributes of a route. *)
Definition route_step (dst_len : Z) (r : Route) (t : Z) (v : slice) : outcome Route :=
  let ip := Some (items v) in
  if t =? RTA_GATEWAY then Returned (mkRoute (LinkIndex r) (Scope r) (Dst r) (Src r) ip (Flags r))
  else if t =? RTA_PREFSRC then Returned (mkRoute (LinkIndex r) (Scope r) (Dst r) ip (Gw r) (Flags r))
  else if t =? RTA_DST then
    let net := mkDst ip (CIDRMask dst_len (8 * Z.of_nat (length (items v)))) in
    Returned (mkRoute (LinkIndex r) (Scope r) (Some net) (Src r) (Gw r) (Flags r))
  else if t =? RTA_OIF then
    let? i := read_uint v 4 in
    Returned (mkRoute i (Scope r) (Dst r) (Src r) (Gw r) (Flags r))
  else Returned r.

(** [None] is EINVAL. *)
Definition deserializeRoute (m : slice) : outcome (option Route) :=
  let? msg := DeserializeRtMsg m in
  let? body := sub_from m SizeofRtMsg in
  let? r := ParseRouteAttr body in
  match r with
  | None => Returned None
  | Some attrs =>
      let? route := over_attrs (route_step (rt_Dst_len msg)) attrs
                      (mkRoute 0 (rt_Scope msg) None None None (rt_Flags msg)) in
      Returned (Some route)
  end.

(** The loop of RouteList over the messages; [index] is that of the link, if there is one. *)
Fixpoint routes_of_msgs (index : option Z) (msgs : list slice) : outcome (option (list Route)) :=
  match msgs with
  | [] => Returned (Some [])
  | m :: msgs' =>
      let? msg := DeserializeRtMsg m in
      if negb (Z.land (rt_Flags msg) RTM_F_CLONED =? 0) then routes_of_msgs index msgs'
      else if negb (rt_Table msg =? RT_TABLE_MAIN) then routes_of_msgs index msgs'
      else
        let? r := deserializeRoute m in
        match r with
        | None => Returned None
        | Some route =>
            if match index with Some i => negb (LinkIndex route =? i) | None => false end
            then routes_of_msgs index msgs'
            else let? rest := routes_of_msgs index msgs' in Returned (option_map (cons route) rest)
        end
  end.

Definition RouteList (link : option Link) (family : Z) : M W (option Link * (nl_error + list Route)) :=
  let* req := new_request RTM_GETROUTE NLM_F_DUMP in
  let* r := Execute rounds (AddData req (DIfInfo (NewIfInfomsg family))) NETLINK_ROUTE RTM_NEWROUTE in
  match r with
  | inl err => mret (link, inl err)
  | inr msgs =>
      let finish (link : option Link) (index : option Z) : M W (option Link * (nl_error + list Route)) :=
        let* r := mlift (routes_of_msgs index msgs) in
        mret (link, match r with Some routes => inr routes | None => inl (Errno EINVAL) end) in
      match link with
      | Some l =>
          let* base := ensureIndex rounds (Attrs l) in
          finish (Some (set_Attrs base l)) (Some (Index base))
      | None => finish None None
      end
  end.

Fixpoint all_routes (msgs : list slice) : outcome (option (list Route)) :=
  match msgs with
  | [] => Returned (Some [])
  | m :: msgs' =>
      let? r := deserializeRoute m in
      match r with
      | None => Returned None
      | Some route => let? rest := all_routes msgs' in Returned (option_map (cons route) rest)
      end
  end.

Definition RouteGet (destination : list Z) : M W (nl_error + list Route) :=
  let* req := new_request RTM_GETROUTE NLM_F_REQUEST in
  let family := GetIPFamily destination in
  let bitlen := if family =? FAMILY_V4 then 32 else 128 in
  let req := AddData req (DRtMsg (mkRtMsg (uint_n 1 family) bitlen 0 0 0 0 0 0 0)) in
  let req := AddData req (NewRtAttr RTA_DST (family_bytes family destination)) in
  let* r := Execute rounds req NETLINK_ROUTE RTM_NEWROUTE in
  match r with
  | inl err => mret (inl err)
  | inr msgs =>
      let* r := mlift (all_routes msgs) in
      mret (match r with Some routes => inr routes | None => inl (Errno EINVAL) end)
  end.

Definition RouteSubscribe : M W (nl_error + Z) :=
  Subscribe NETLINK_ROUTE [RTNLGRP_IPV4_ROUTE; RTNLGRP_IPV6_ROUTE].

(** The goroutine of RouteSubscribe: the updates it sends (type and route), for a number of
    receives; [true] when it has ended and closed the channel. *)
Fixpoint route_updates (msgs : list NetlinkMessage) : outcome (list (Z * Route) * bool) :=
  match msgs with
  | [] => Returned ([], false)
  | m :: msgs' =>
      let? r := deserializeRoute (m_Data m) in
      match r with
      | None => Returned ([], true)
      | Some route =>
          let? rest := route_updates msgs' in
          Returned ((m_Type m, route) :: rest.1, rest.2)
      end
  end.

Fixpoint route_subscription (n : nat) (fd : Z) : M W (list (Z * Route) * bool) :=
  match n with
  | O => mret ([], false)
  | S n' =>
      let* r := Receive fd in
      match r with
      | inl _ => mret ([], true)
      | inr msgs =>
          let* u := mlift (route_updates msgs) in
          if (u.2 : bool) then mret u
          else let* rest := route_subscription n' fd in mret ((u.1 ++ rest.1)%list, rest.2)
      end
  end.

(** * Neighbours *)

Definition RTM_NEWNEIGH : Z := 28.
Definition RTM_DELNEIGH : Z := 29.
Definition RTM_GETNEIGH : Z := 30.
Definition NLM_F_REPLACE : Z := 0x100.
Definition NLM_F_APPEND : Z := 0x800.
Definition NDA_DST : Z := 1.
Definition NDA_LLADDR : Z := 2.
Definition NUD_PERMANENT : Z := 0x80.

Record Neigh : Type := mkNeigh {
  n_LinkIndex : Z;
  n_Family : Z;
  n_State : Z;
  n_Type : Z;
  n_Flags : Z;
  n_IP : list Z;
  n_HardwareAddr : list Z
}.

Definition Neigh_String (n : Neigh) : string :=
  (IP_String (n_IP n) +:+ " " +:+ HardwareAddr_String (n_HardwareAddr n))%string.

Definition neigh_data (n : Neigh) : list request_data :=
  let family := if 0 <? n_Family n then n_Family n else GetIPFamily (n_IP n) in
  let ipData := match To4 (n_IP n) with Some ip => Some ip | None => To16 (n_IP n) end in
  [DNdmsg (mkNdmsg (uint_n 1 family) (uint_n 4 (n_LinkIndex n)) (uint_n 2 (n_State n))
                   (uint_n 1 (n_Flags n)) (uint_n 1 (n_Type n)));
   NewRtAttr NDA_DST ipData;
   NewRtAttr NDA_LLADDR (Some (n_HardwareAddr n))].

Definition neighHandle (n : Neigh) (req : NetlinkRequest) : M W (option nl_error) :=
  let* r := Execute rounds (fold_left AddData (neigh_data n) req) NETLINK_ROUTE 0 in
  mret (err_of r).

Definition neighAdd (n : Neigh) (mode : Z) : M W (option nl_error) :=
  let* req := new_request RTM_NEWNEIGH (Z.lor mode NLM_F_ACK) in
  neighHandle n req.

Definition NeighAdd (n : Neigh) : M W (option nl_error) := neighAdd n (Z.lor NLM_F_CREATE NLM_F_EXCL).
Definition NeighSet (n : Neigh) : M W (option nl_error) := neighAdd n (Z.lor NLM_F_CREATE NLM_F_REPLACE).
Definition NeighAppend (n : Neigh) : M W (option nl_error) := neighAdd n (Z.lor NLM_F_CREATE NLM_F_APPEND).

Definition NeighDel (n : Neigh) : M W (option nl_error) :=
  let* req := new_request RTM_DELNEIGH NLM_F_ACK in
  neighHandle n req.

Definition neigh_step (n : Neigh) (t : Z) (v : slice) : outcome Neigh :=
  if t =? NDA_DST then
    Returned (mkNeigh (n_LinkIndex n) (n_Family n) (n_State n) (n_Type n) (n_Flags n)
                      (items v) (n_HardwareAddr n))
  else if t =? NDA_LLADDR then
    Returned (mkNeigh (n_LinkIndex n) (n_Family n) (n_State n) (n_Type n) (n_Flags n)
                      (n_IP n) (items v))
  else Returned n.

Definition NeighDeserialize (m : slice) : outcome (option Neigh) :=
  let? msg := deserializeNdmsg m in
  let neigh := mkNeigh (nd_Index msg) (nd_Family msg) (nd_State msg) (nd_Type msg) (nd_Flags msg) [] [] in
  let? body := sub_from m SizeofNdmsg in
  let? r := ParseRouteAttr body in
  match r with
  | None => Returned None
  | Some attrs => let? n := over_attrs neigh_step attrs neigh in Returned (Some n)
  end.

(** A message that cannot be read is skipped. *)
Fixpoint neighs_of_msgs (linkIndex : Z) (msgs : list slice) : outcome (list Neigh) :=
  match msgs with
  | [] => Returned []
  | m :: msgs' =>
      let? ndm := deserializeNdmsg m in
      if negb (linkIndex =? 0) && negb (nd_Index ndm =? linkIndex) then neighs_of_msgs linkIndex msgs'
      else
        let? r := NeighDeserialize m in
        let? rest := neighs_of_msgs linkIndex msgs' in
        Returned (option_list r ++ rest)%list
  end.

Definition NeighList (linkIndex family : Z) : M W (nl_error + list Neigh) :=
  let* req := new_request RTM_GETNEIGH NLM_F_DUMP in
  let req := AddData req (DNdmsg (mkNdmsg (uint_n 1 family) (uint_n 4 linkIndex) 0 0 0)) in
  let* r := Execute rounds req NETLINK_ROUTE RTM_NEWNEIGH in
  match r with
  | inl err => mret (inl err)
  | inr msgs => let* ns := mlift (neighs_of_msgs linkIndex msgs) in mret (inr ns)
  end.

End routes.

(** * Routes and neighbours on the wire *)

Section sent.
Context {E : Endian} {W : Type} {K : Kernel W}.

(** An exchange that succeeded sent its request, which a receiver reads as one message. *)
Lemma Execute_sent rounds proto flags seq ds st ty (s : NS W) res s' :
  Execute rounds (fold_left AddData ds (NewNetlinkRequest proto flags seq)) st ty s
    = (Ended (Returned (inr res)), s') ->
  (length (concat (map layout ds)) <= 4000)%nat ->
  exists fd b t m, calls s' = (calls s ++ t)%list /\ mkCall (Sendto fd b) None ∈ t
    /\ ParseNetlinkMessage (mkSlice b []) = Some [m] /\ m_Type m = uint_n 2 (uint_n 2 proto)
    /\ m_Data m = mkSlice (concat (map layout ds)) [].
Proof.
  intros Hx Hlen. apply Execute_data in Hx as (fd & pid & t & Ht & Hs & _).
  eexists fd, _, t, _. split; [exact Ht|]. split; [exact Hs|]. rewrite fold_AddData.
  split; [apply ParseNetlinkMessage_request|by split].
  unfold request_body. cbn [req_Data NewNetlinkRequest app]. lia.
Qed.

End sent.

(** A fixed-size message and its attributes, taken apart again. *)
Lemma sub_from_body {E : Endian} (hdr body sp : list Z) n :
  length hdr = n -> sub_from (mkSlice (hdr ++ body) sp) n = Returned (mkSlice body sp).
Proof.
  intros <-. unfold sub_from. cbn [items spare]. rewrite length_app.
  destruct (Nat.leb_spec (length hdr) (length hdr + length body)); [|lia].
  by rewrite drop_app_length.
Qed.

(** An address as it comes back: four bytes, or sixteen that are not an IPv4 address. *)
Definition wf_ip (family : Z) (ip : list Z) : Prop :=
  (family = FAMILY_V4 /\ length ip = 4%nat)
  \/ (family = FAMILY_V6 /\ length ip = 16%nat /\ To4 ip = None).

Lemma wf_ip_bytes f ip : wf_ip f ip -> GetIPFamily ip = f /\ family_bytes f ip = Some ip.
Proof.
  unfold GetIPFamily, family_bytes, To16. intros [(-> & Hl)|(-> & Hl & H4)].
  - unfold To4. by rewrite Hl.
  - by rewrite H4, Hl.
Qed.

Lemma wf_ip_length f ip : wf_ip f ip -> (length ip <= 16)%nat.
Proof. intros [(_ & ->)|(_ & -> & _)]; lia. Qed.

Definition opt_attr (t : Z) (ip : option (list Z)) : list request_data :=
  match ip with
  | Some ip => [NewRtAttr t (Some ip)]
  | None => []
  end.

Definition wf_opt_ip (f : Z) (ip : option (list Z)) : Prop :=
  match ip with
  | Some ip => wf_ip f ip
  | None => True
  end.

Definition route_dst (r : Route) : option (list Z) :=
  match Dst r with
  | Some d => dst_IP d
  | None => None
  end.

(** A destination is an address with a mask of leading ones. *)
Definition wf_dst (f : Z) (d : option DstNet) : Prop :=
  match d with
  | None => True
  | Some d => exists ip n, d = mkDst (Some ip) (CIDRMask n (8 * Z.of_nat (length ip)))
                /\ wf_ip f ip /\ 0 <= n <= 8 * Z.of_nat (length ip)
  end.

(** A route whose addresses are of one family and whose numbers fit their fields. *)
Definition wf_route (f : Z) (r : Route) : Prop :=
  wf_dst f (Dst r) /\ wf_opt_ip f (Src r) /\ wf_opt_ip f (Gw r)
  /\ (route_dst r <> None \/ Src r <> None \/ Gw r <> None)
  /\ 0 <= LinkIndex r < 2 ^ 32 /\ 0 <= Scope r < 256 /\ 0 <= Flags r < 2 ^ 32.

Section route_wire.
Context {E : Endian}.

Lemma add_address_ok f attr err ip fam :
  wf_opt_ip f ip -> (fam = None \/ fam = Some f) ->
  exists fam', (forall ds, add_address attr err ip (fam, ds) = inr (fam', ds ++ opt_attr attr ip)%list)
    /\ (fam' = None \/ fam' = Some f) /\ (fam <> None \/ ip <> None -> fam' = Some f).
Proof.
  destruct ip as [ip|]; intros Hip Hf; cbn.
  - destruct (wf_ip_bytes f ip Hip) as [-> ->]. exists (Some f).
    destruct Hf as [-> | ->]; cbn; rewrite ?Z.eqb_refl; cbn; auto.
  - exists fam. split; [intros ds; by rewrite app_nil_r|]. split; [done|].
    intros [?|?]; [|done]. by destruct Hf as [-> | ->].
Qed.

Definition route_attrs (r : Route) : list request_data :=
  (opt_attr RTA_DST (route_dst r) ++ opt_attr RTA_PREFSRC (Src r) ++ opt_attr RTA_GATEWAY (Gw r)
   ++ [NewRtAttr RTA_OIF (Some (Uint32Attr (LinkIndex r)))])%list.

Definition mask_len (r : Route) : Z :=
  match Dst r with
  | Some d => (Size (dst_Mask d)).1
  | None => 0
  end.

Lemma route_data_ok f r msg :
  wf_route f r -> rt_Dst_len msg = 0 ->
  route_data r msg
  = inr (DRtMsg (mkRtMsg (uint_n 1 f) (uint_n 1 (mask_len r)) (rt_Src_len msg) (rt_Tos msg) (rt_Table msg)
                         (rt_Protocol msg) (uint_n 1 (Scope r)) (rt_Type msg) (uint_n 4 (Flags r)))
         :: route_attrs r).
Proof.
  intros (Hd & Hs & Hg & Hone & _) Hl. unfold route_data. fold (route_dst r).
  assert (Hdst : wf_opt_ip f (route_dst r)).
  { unfold route_dst. destruct (Dst r) as [d|]; [|done]. by destruct Hd as (ip & n & -> & ? & _). }
  assert (Hlen : match Dst r, route_dst r with
                 | Some d, Some _ => uint_n 1 (Size (dst_Mask d)).1
                 | _, _ => rt_Dst_len msg end = uint_n 1 (mask_len r)).
  { unfold route_dst, mask_len. rewrite Hl. destruct (Dst r) as [d|]; [|done].
    by destruct Hd as (ip & n & -> & _). }
  rewrite Hlen.
  destruct (add_address_ok f RTA_DST EmptyString (route_dst r) None Hdst (or_introl eq_refl))
    as (f1 & H1 & Hf1 & Hn1).
  destruct (add_address_ok f RTA_PREFSRC "source and destination ip are not the same IP family"
              (Src r) f1 Hs Hf1) as (f2 & H2 & Hf2 & Hn2).
  destruct (add_address_ok f RTA_GATEWAY "gateway, source, and destination ip are not the same IP family"
              (Gw r) f2 Hg Hf2) as (f3 & H3 & Hf3 & Hn3).
  rewrite H1, H2, H3. assert (f3 = Some f) as ->.
  { apply Hn3. destruct Hone as [H|[H|H]]; [left|left|by right].
    - rewrite Hn2; [done|]. left. rewrite Hn1; [done|by right].
    - by rewrite Hn2; [|right]. }
  cbn [default]. unfold route_attrs. rewrite <- !app_assoc. cbn [app].
  destruct (route_dst r), (Src r), (Gw r); try done. by destruct Hone as [?|[?|?]].
Qed.

Lemma small_opt_attr f t ip : wf_opt_ip f ip -> Forall small_attr (opt_attr t ip).
Proof.
  destruct ip as [ip|]; [|by constructor]. intros Hip. constructor; [|constructor].
  apply small_leaf. by eapply wf_ip_length.
Qed.

Lemma wf_route_dst f r : wf_route f r -> wf_opt_ip f (route_dst r).
Proof.
  intros (Hd & _). unfold route_dst. destruct (Dst r) as [d|]; [|done].
  by destruct Hd as (ip & n & -> & ? & _).
Qed.

Lemma route_attrs_small f r : wf_route f r -> Forall small_attr (route_attrs r).
Proof.
  intros Hw. pose proof (wf_route_dst f r Hw). destruct Hw as (_ & Hs & Hg & _).
  unfold route_attrs. repeat apply Forall_app_2; try by eapply small_opt_attr.
  constructor; [|constructor]. apply small_leaf. unfold Uint32Attr. rewrite length_put_uint. lia.
Qed.

Lemma reads_opt_attr t (ip : option (list Z)) step (r r' : Route) :
  match ip with
  | None => r = r'
  | Some b => forall d, items d = b -> step r (uint_n 2 (uint_n 2 t)) d = Returned r'
  end ->
  reads step (opt_attr t ip) r r'.
Proof.
  destruct ip as [b|]; cbn; [apply reads_leaf|intros ->; apply reads_nil].
Qed.

Lemma reads_route f r :
  wf_route f r ->
  reads (route_step (mask_len r)) (route_attrs r)
        (mkRoute 0 (Scope r) None None None (Flags r)) r.
Proof.
  destruct r as [ix sc dst src gw fl]. intros (Hd & _ & _ & _ & Hi & _). unfold route_attrs.
  cbn [Dst Src Gw LinkIndex Scope Flags route_dst] in *.
  eapply (reads_app _ _ _ _ (mkRoute 0 sc dst None None fl)).
  { apply reads_opt_attr. unfold route_dst. cbn [Dst]. destruct dst as [d|]; [|done].
    destruct Hd as (ip & n & -> & Hip & Hn). cbn [dst_IP]. intros d Hv. unfold route_step.
    rewrite !uint2_small by done. cbn [Z.eqb]. rewrite Hv. unfold mask_len. cbn [Dst dst_Mask].
    rewrite Size_CIDRMask; [done| |done].
    destruct Hip as [(_ & ->)|(_ & -> & _)]; [by left|by right]. }
  eapply (reads_app _ _ _ _ (mkRoute 0 sc dst src None fl)).
  { apply reads_opt_attr. destruct src as [ip|]; [|done]. intros d Hv. unfold route_step.
    rewrite !uint2_small by done. cbn. by rewrite Hv. }
  eapply (reads_app _ _ _ _ (mkRoute 0 sc dst src gw fl)).
  { apply reads_opt_attr. destruct gw as [ip|]; [|done]. intros d Hv. unfold route_step.
    rewrite !uint2_small by done. cbn. by rewrite Hv. }
  apply reads_leaf. intros d Hv. unfold route_step. rewrite !uint2_small by done. cbn.
  rewrite (read_uint_exact d 4 ix Hv), uint4_small by done. done.
Qed.

Lemma wf_route_msg f l sc fl msg :
  wf_RtMsg msg ->
  wf_RtMsg (mkRtMsg (uint_n 1 f) (uint_n 1 l) (rt_Src_len msg) (rt_Tos msg) (rt_Table msg)
                    (rt_Protocol msg) (uint_n 1 sc) (rt_Type msg) (uint_n 4 fl)).
Proof.
  intros Hm. pose proof (uint_n_range 1 f). pose proof (uint_n_range 1 l).
  pose proof (uint_n_range 1 sc). pose proof (uint_n_range 4 fl).
  change (256 ^ Z.of_nat 1) with 256 in *. change (256 ^ Z.of_nat 4) with (2 ^ 32) in *.
  unfold wf_RtMsg in *. cbn [rt_Family rt_Dst_len rt_Src_len rt_Tos rt_Table rt_Protocol rt_Scope rt_Type rt_Flags].
  lia.
Qed.

Lemma wf_NewRtMsg : wf_RtMsg NewRtMsg.
Proof. unfold wf_RtMsg. split_and!; by vm_compute. Qed.

(** What routeHandle writes, deserializeRoute reads. *)
Lemma deserializeRoute_data f r msg data sp :
  wf_route f r -> wf_RtMsg msg -> rt_Dst_len msg = 0 -> route_data r msg = inr data ->
  deserializeRoute (mkSlice (concat (map layout data)) sp) = Returned (Some r).
Proof.
  intros Hw Hm Hl. rewrite (route_data_ok f r msg Hw Hl). intros [= <-].
  cbn [map concat layout]. unfold deserializeRoute.
  assert (Hmask : 0 <= mask_len r < 256).
  { destruct Hw as (Hd & _). unfold mask_len. destruct (Dst r) as [d|]; [|lia].
    destruct Hd as (ip & n & -> & Hip & Hn). cbn [dst_Mask]. pose proof (wf_ip_length _ _ Hip).
    rewrite Size_CIDRMask; [cbn; lia| |done]. destruct Hip as [(_ & ->)|(_ & -> & _)]; [by left|by right]. }
  pose proof Hw as (_ & _ & _ & _ & Hi & Hs & Hf).
  rewrite RtMsg_roundtrip by by apply wf_route_msg.
  cbn [obind]. rewrite sub_from_body by (apply (length_layout (DRtMsg _))). cbn [obind].
  destruct (ParseRouteAttr_layout _ sp (route_attrs_small f r Hw)) as (attrs & -> & Hv).
  cbn [obind rt_Scope rt_Flags rt_Dst_len]. rewrite !uint1_small, uint4_small by done.
  by rewrite (reads_route f r Hw attrs Hv).
Qed.

Lemma opt_attr_length f t ip : wf_opt_ip f ip -> (length (concat (map layout (opt_attr t ip))) <= 23)%nat.
Proof.
  destruct ip as [ip|]; intros Hip; cbn [opt_attr map concat]; [|cbn; lia].
  rewrite app_nil_r, length_layout, data_Len_leaf. apply (rtaAlignOf_le _ 20).
  pose proof (wf_ip_length f ip Hip). lia.
Qed.

Lemma route_data_length f r msg data :
  wf_route f r -> rt_Dst_len msg = 0 -> route_data r msg = inr data ->
  (length (concat (map layout data)) <= 2000)%nat.
Proof.
  intros Hw Hl. rewrite (route_data_ok f r msg Hw Hl). intros [= <-].
  pose proof (wf_route_dst f r Hw) as Hdst. destruct Hw as (_ & Hs & Hg & _).
  cbn [map concat]. unfold route_attrs. rewrite !map_app, !concat_app, !length_app.
  rewrite (length_layout (DRtMsg _)). change (rtaAlignOf (data_Len (DRtMsg _))) with 12%nat.
  pose proof (opt_attr_length f RTA_DST _ Hdst). pose proof (opt_attr_length f RTA_PREFSRC _ Hs).
  pose proof (opt_attr_length f RTA_GATEWAY _ Hg).
  cbn [map concat]. rewrite app_nil_r, length_layout, data_Len_leaf.
  unfold Uint32Attr. rewrite length_put_uint. change (rtaAlignOf (4 + 4)) with 8%nat. lia.
Qed.

End route_wire.

Section neigh_wire.
Context {E : Endian}.

(** A neighbour whose family is given and whose numbers fit their fields. *)
Definition wf_neigh (n : Neigh) : Prop :=
  0 < n_Family n < 256 /\ (exists f, wf_ip f (n_IP n)) /\ (length (n_HardwareAddr n) <= 16)%nat
  /\ 0 <= n_LinkIndex n < 2 ^ 32 /\ 0 <= n_State n < 65536 /\ 0 <= n_Type n < 256 /\ 0 <= n_Flags n < 256.

Lemma neigh_data_ok n :
  wf_neigh n ->
  neigh_data n = [DNdmsg (mkNdmsg (n_Family n) (n_LinkIndex n) (n_State n) (n_Flags n) (n_Type n));
                  NewRtAttr NDA_DST (Some (n_IP n)); NewRtAttr NDA_LLADDR (Some (n_HardwareAddr n))].
Proof.
  intros (Hf & [f Hip] & _ & Hi & Hs & Ht & Hfl). unfold neigh_data.
  destruct (Z.ltb_spec 0 (n_Family n)); [|lia].
  rewrite !uint1_small, uint2_small, uint4_small by lia.
  assert (match To4 (n_IP n) with Some ip => Some ip | None => To16 (n_IP n) end = Some (n_IP n)) as ->; [|done].
  destruct Hip as [(_ & Hl)|(_ & Hl & H4)]; [unfold To4; by rewrite Hl|]. rewrite H4. unfold To16. by rewrite Hl.
Qed.

Lemma neigh_attrs_small n :
  wf_neigh n ->
  Forall small_attr [NewRtAttr NDA_DST (Some (n_IP n)); NewRtAttr NDA_LLADDR (Some (n_HardwareAddr n))].
Proof.
  intros (_ & [f Hip] & Hh & _). apply wf_ip_length in Hip. repeat constructor; by apply small_leaf.
Qed.

Lemma reads_neigh n :
  reads neigh_step [NewRtAttr NDA_DST (Some (n_IP n)); NewRtAttr NDA_LLADDR (Some (n_HardwareAddr n))]
        (mkNeigh (n_LinkIndex n) (n_Family n) (n_State n) (n_Type n) (n_Flags n) [] []) n.
Proof.
  destruct n as [ix fam st ty fl ip hw]. eapply reads_cons; apply reads_leaf; intros d Hd;
    unfold neigh_step; rewrite !uint2_small by done; cbn; by rewrite Hd.
Qed.

Lemma NeighDeserialize_data n sp :
  wf_neigh n -> NeighDeserialize (mkSlice (concat (map layout (neigh_data n))) sp) = Returned (Some n).
Proof.
  intros Hw. rewrite (neigh_data_ok n Hw). cbn [map concat layout]. unfold NeighDeserialize.
  rewrite Ndmsg_roundtrip by (unfold wf_Ndmsg; destruct Hw as (? & _ & _ & ?); cbn; lia).
  cbn [obind]. rewrite sub_from_body by (apply (length_layout (DNdmsg _))). cbn [obind].
  destruct (ParseRouteAttr_layout _ sp (neigh_attrs_small n Hw)) as (attrs & Hp & Hv).
  cbn [map concat] in Hp. rewrite Hp. cbn [obind nd_Index nd_Family nd_State nd_Type nd_Flags].
  by rewrite (reads_neigh n attrs Hv).
Qed.

Lemma neigh_data_length n : wf_neigh n -> (length (concat (map layout (neigh_data n))) <= 2000)%nat.
Proof.
  intros Hw. rewrite (neigh_data_ok n Hw). destruct Hw as (_ & [f Hip] & Hh & _).
  apply wf_ip_length in Hip. cbn [map concat]. rewrite app_nil_r, !length_app, !length_layout.
  change (rtaAlignOf (data_Len (DNdmsg _))) with 12%nat. rewrite !data_Len_leaf.
  pose proof (rtaAlignOf_le (4 + length (n_IP n)) 20 ltac:(lia)).
  pose proof (rtaAlignOf_le (4 + length (n_HardwareAddr n)) 20 ltac:(lia)). lia.
Qed.

End neigh_wire.

Section operations_wire.
Context {E : Endian} {W : Type} {K : Kernel W}.

Lemma RouteAdd_sent rounds f r (s : NS W) s' :
  wf_route f r ->
  RouteAdd rounds r s = (Ended (Returned None), s') ->
  exists fd b t m, calls s' = (calls s ++ t)%list /\ mkCall (Sendto fd b) None ∈ t
    /\ ParseNetlinkMessage (mkSlice b []) = Some [m] /\ m_Type m = RTM_NEWROUTE
    /\ deserializeRoute (m_Data m) = Returned (Some r)
    /\ exists msg, DeserializeRtMsg (m_Data m) = Returned msg /\ rt_Table msg = RT_TABLE_MAIN
         /\ rt_Flags msg = Flags r.
Proof.
  intros Hw. unfold RouteAdd, mbind_ at 1, new_request at 1, routeHandle.
  destruct (route_data r NewRtMsg) as [e|data] eqn:Hd; [done|]. unfold mbind_ at 1.
  destruct (Execute rounds _ NETLINK_ROUTE 0 _) as [[[[e|res]|h]|] s3] eqn:Ex; [done| |done|done].
  intros [= <-]. apply Execute_sent in Ex as (fd & b & t & m & Ht & Hs & Hp & Hty & Hm);
    [|pose proof (route_data_length f r NewRtMsg data Hw eq_refl Hd); lia].
  exists fd, b, t, m. split; [exact Ht|]. split; [exact Hs|]. split; [exact Hp|].
  split; [by rewrite Hty, !uint2_small|]. rewrite Hm. split; [by apply (deserializeRoute_data f r NewRtMsg); [|apply wf_NewRtMsg| |]|].
  rewrite (route_data_ok f r NewRtMsg Hw eq_refl) in Hd. simplify_eq. cbn [map concat layout].
  eexists. split; [apply RtMsg_roundtrip|by split; [|cbn; apply uint4_small; destruct Hw as (_ & _ & _ & _ & _ & _ & ?)]].
  apply wf_route_msg, wf_NewRtMsg.
Qed.

Lemma route_data_family r msg data ip ip' :
  route_data r msg = inr data ->
  ip ∈ option_list (route_dst r) ++ option_list (Src r) ++ option_list (Gw r) ->
  ip' ∈ option_list (route_dst r) ++ option_list (Src r) ++ option_list (Gw r) ->
  GetIPFamily ip = GetIPFamily ip'.
Proof.
  unfold route_data. fold (route_dst r).
  destruct (route_dst r) as [d|], (Src r) as [src|], (Gw r) as [g|]; cbn; try done.
  all: repeat match goal with
       | |- context [negb (?a =? ?b)] => destruct (Z.eqb_spec a b) as [?Hf|]; cbn; try done
       end.
  all: rewrite ?elem_of_cons, ?elem_of_nil; intros _ H1 H2; destruct_or?; subst; congruence.
Qed.

End operations_wire.

(** * What is on the wire *)

(** When RouteAdd reports success, the message it sent is an RTM_NEWROUTE for the main
    table that RouteList's reader takes apart into the same route: destination with its mask,
    source, gateway, link, scope and flags, for IPv4 and IPv6; so a kernel that echoes it makes
    RouteList list it for its link. *)
Theorem RouteAdd_wire {E : Endian} {W} {K : Kernel W} rounds f r (s : NS W) s' :
  wf_route f r -> Z.land (Flags r) RTM_F_CLONED = 0 ->
  RouteAdd rounds r s = (Ended (Returned None), s') ->
  exists fd b t m, calls s' = (calls s ++ t)%list /\ mkCall (Sendto fd b) None ∈ t
    /\ ParseNetlinkMessage (mkSlice b []) = Some [m] /\ m_Type m = RTM_NEWROUTE
    /\ routes_of_msgs (Some (LinkIndex r)) [m_Data m] = Returned (Some [r]).
Proof.
  intros Hw Hc H. destruct (RouteAdd_sent rounds f r s s' Hw H)
    as (fd & b & t & m & Ht & Hs & Hp & Hty & Hd & msg & Hmsg & Htab & Hfl).
  exists fd, b, t, m. do 4 (split; [done|]). cbn [routes_of_msgs]. rewrite Hmsg. cbn [obind].
  rewrite Hfl, Hc, Htab. cbn. rewrite Hd. cbn. by rewrite Z.eqb_refl.
Qed.

Definition sample_route : Route :=
  mkRoute 4 SCOPE_UNIVERSE (Some (mkDst (Some [10; 2; 0; 0]) [255; 255; 0; 0])) None
          (Some [10; 1; 0; 1]) FLAG_ONLINK.

Lemma sample_route_wf : wf_route FAMILY_V4 sample_route.
Proof.
  unfold wf_route, sample_route. cbn. split_and!; try lia; try done.
  - exists [10; 2; 0; 0], 16. split; [vm_compute; reflexivity|]. split; [by left|cbn; lia].
  - by left.
  - by left.
Qed.

Lemma RouteAdd_wire_witness :
  exists b m, mkCall (Sendto 3 b) None ∈ calls (RouteAdd (E := false) 1 sample_route
                 (fresh [@reply false 2 0 1 [0; 0; 0; 0]])).2
    /\ @ParseNetlinkMessage false (mkSlice b []) = Some [m]
    /\ @routes_of_msgs false (Some 4) [m_Data m] = Returned (Some [sample_route]).
Proof.
  destruct (@RouteAdd_wire false _ scripted 1 FAMILY_V4 sample_route
              (fresh [@reply false 2 0 1 [0; 0; 0; 0]]) _
              sample_route_wf ltac:(reflexivity) ltac:(vm_compute; reflexivity))
    as (fd & b & t & m & Ht & Hs & Hp & _ & Ha).
  exists b, m. split; [|split; [exact Hp|exact Ha]].
  assert (Hfd : fd = 3).
  { cbn in Ht. subst t. vm_compute in Hs.
    repeat (apply elem_of_cons in Hs as [Hs|Hs]; [first [discriminate Hs | by injection Hs]|]).
    by apply not_elem_of_nil in Hs. }
  subst fd. cbn in Ht. subst t. exact Hs.
Defined.

(** RouteAdd and RouteDel never mix address families: when two of the addresses of a route
    are of different families, or it has none, the request is refused before any system call. *)
Theorem RouteAdd_refuses {E : Endian} {W} {K : Kernel W} rounds r (s : NS W) ip ip' :
  ip ∈ option_list (route_dst r) ++ option_list (Src r) ++ option_list (Gw r) ->
  ip' ∈ option_list (route_dst r) ++ option_list (Src r) ++ option_list (Gw r) ->
  GetIPFamily ip <> GetIPFamily ip' ->
  exists e s', RouteAdd rounds r s = (Ended (Returned (Some e)), s') /\ calls s' = calls s.
Proof.
  intros H1 H2 Hne. unfold RouteAdd, mbind_ at 1, new_request at 1, routeHandle.
  destruct (route_data r NewRtMsg) as [e|data] eqn:Hd; [by eexists _, _|].
  by destruct Hne; eapply route_data_family.
Qed.

(** When NeighAdd, NeighSet or NeighAppend report success, the message they sent is an
    RTM_NEWNEIGH that NeighList's reader takes apart into the same neighbour, for IPv4, IPv6
    and bridge entries. *)
Theorem neighAdd_wire {E : Endian} {W} {K : Kernel W} rounds n mode (s : NS W) s' :
  wf_neigh n ->
  neighAdd rounds n mode s = (Ended (Returned None), s') ->
  exists fd b t m, calls s' = (calls s ++ t)%list /\ mkCall (Sendto fd b) None ∈ t
    /\ ParseNetlinkMessage (mkSlice b []) = Some [m] /\ m_Type m = RTM_NEWNEIGH
    /\ neighs_of_msgs (n_LinkIndex n) [m_Data m] = Returned [n].
Proof.
  intros Hw. unfold neighAdd, mbind_ at 1, new_request at 1, neighHandle, mbind_ at 1.
  destruct (Execute rounds _ NETLINK_ROUTE 0 _) as [[[[e|res]|h]|] s3] eqn:Ex; [done| |done|done].
  intros [= <-]. apply Execute_sent in Ex as (fd & b & t & m & Ht & Hs & Hp & Hty & Hm);
    [|pose proof (neigh_data_length n Hw); lia].
  exists fd, b, t, m. split; [exact Ht|]. split; [exact Hs|]. split; [exact Hp|].
  split; [by rewrite Hty, !uint2_small|]. rewrite Hm. cbn [neighs_of_msgs].
  rewrite NeighDeserialize_data by done. rewrite (neigh_data_ok n Hw). cbn [map concat layout].
  rewrite Ndmsg_roundtrip by (unfold wf_Ndmsg; destruct Hw as (? & _ & _ & ?); cbn; lia).
  cbn. by rewrite Z.eqb_refl, andb_false_r.
Qed.

Definition sample_neigh : Neigh := mkNeigh 4 2 NUD_PERMANENT 0 0 [10; 1; 0; 9] [2; 66; 10; 1; 0; 9].

Lemma neighAdd_wire_witness :
  exists b m, mkCall (Sendto 3 b) None ∈ calls (NeighAdd (E := true) 1 sample_neigh
                 (fresh [@reply true 2 0 1 [0; 0; 0; 0]])).2
    /\ @ParseNetlinkMessage true (mkSlice b []) = Some [m]
    /\ @neighs_of_msgs true 4 [m_Data m] = Returned [sample_neigh].
Proof.
  destruct (@neighAdd_wire true _ scripted 1 sample_neigh (Z.lor NLM_F_CREATE NLM_F_EXCL)
              (fresh [@reply true 2 0 1 [0; 0; 0; 0]]) _
              ltac:(unfold wf_neigh, sample_neigh, NUD_PERMANENT; cbn; split_and!; first [lia | exists FAMILY_V4; by left])
              ltac:(vm_compute; reflexivity))
    as (fd & b & t & m & Ht & Hs & Hp & _ & Ha).
  exists b, m. split; [|split; [exact Hp|exact Ha]].
  assert (Hfd : fd = 3).
  { cbn in Ht. subst t. vm_compute in Hs.
    repeat (apply elem_of_cons in Hs as [Hs|Hs]; [first [discriminate Hs | by injection Hs]|]).
    by apply not_elem_of_nil in Hs. }
  subst fd. cbn in Ht. subst t. exact Hs.
Defined.
