(* ===== verification/NetlinkTc.v ===== *)
(** vishvananda/netlink, queueing disciplines and classes (qdisc.go, qdisc_linux.go,
    class.go, class_linux.go): making them, adding, changing, deleting and listing them.

    A Qdisc or a Class is an inductive type with a constructor for each struct that implements
    the interface; the variable of the interface type that the listing loops fill is an
    [option], nil when no attribute has named a kind yet. *)

From Stdlib Require Import SpecFloat.
From S2P Require Import Prelude NetIP Nl NlStruct NlTc TcRate NlSock Netlink NetlinkVeth NetlinkRead NetlinkAddr.
From S2P Require Import NetlinkRoute.

Local Open Scope go_scope.
Local Open Scope nl_scope.
Local Open Scope tc_scope.
Local Open Scope Z_scope.

(** * Queueing disciplines *)

Record QdiscAttrs : Type := mkQdiscAttrs {
  q_LinkIndex : Z; q_Handle : Z; q_Parent : Z; q_Refcnt : Z }.

Record HtbOptions : Type := mkHtbOptions {
  Version : Z; Rate2Quantum : Z; Defcls : Z; Debug : Z; DirectPkts : Z }.

Record NetemOptions : Type := mkNetemOptions {
  Latency : Z; DelayCorr : Z; Limit : Z; Loss : Z; LossCorr : Z; Gap : Z; Duplicate : Z;
  DuplicateCorr : Z; Jitter : Z; ReorderProb : Z; ReorderCorr : Z; CorruptProb : Z; CorruptCorr : Z }.

Inductive Qdisc : Type :=
| PfifoFast (a : QdiscAttrs) (Bands : Z) (PriorityMap : list Z)
| Prio (a : QdiscAttrs) (Bands : Z) (PriorityMap : list Z)
| Htb (a : QdiscAttrs) (o : HtbOptions)
| Netem (a : QdiscAttrs) (o : NetemOptions)
| Tbf (a : QdiscAttrs) (Rate Limit Buffer : Z)
| Ingress (a : QdiscAttrs)
| GenericQdisc (a : QdiscAttrs) (QdiscType : string).

Definition qdisc_Attrs (q : Qdisc) : QdiscAttrs :=
  match q with
  | PfifoFast a _ _ | Prio a _ _ | Htb a _ | Netem a _ | Tbf a _ _ _ | Ingress a | GenericQdisc a _ => a
  end.

Definition set_qdisc_Attrs (a : QdiscAttrs) (q : Qdisc) : Qdisc :=
  match q with
  | PfifoFast _ b m => PfifoFast a b m
  | Prio _ b m => Prio a b m
  | Htb _ o => Htb a o
  | Netem _ o => Netem a o
  | Tbf _ r l b => Tbf a r l b
  | Ingress _ => Ingress a
  | GenericQdisc _ t => GenericQdisc a t
  end.

Definition qdisc_Type (q : Qdisc) : string :=
  match q with
  | PfifoFast _ _ _ => "pfifo_fast"
  | Prio _ _ _ => "prio"
  | Htb _ _ => "htb"
  | Netem _ _ => "netem"
  | Tbf _ _ _ _ => "tbf"
  | Ingress _ => "ingress"
  | GenericQdisc _ t => t
  end.

Definition NewPrio (attrs : QdiscAttrs) : Qdisc :=
  Prio attrs 3 [1; 2; 2; 2; 1; 2; 0; 0; 1; 1; 1; 1; 1; 1; 1; 1].

Definition NewHtb (attrs : QdiscAttrs) : Qdisc := Htb attrs (mkHtbOptions 3 10 0 0 0).

(** The percentages are float32. *)
Record NetemQdiscAttrs : Type := mkNetemAttrs {
  na_Latency : Z; na_DelayCorr : float32; na_Limit : Z; na_Loss : float32; na_LossCorr : float32;
  na_Gap : Z; na_Duplicate : float32; na_DuplicateCorr : float32; na_Jitter : Z;
  na_ReorderProb : float32; na_ReorderCorr : float32; na_CorruptProb : float32;
  na_CorruptCorr : float32 }.

Section make.
Context `{WildConversion} (psched : option string).

Definition NewNetem (attrs : QdiscAttrs) (n : NetemQdiscAttrs) : Ck Qdisc :=
  let loss := Percentage2u32 (na_Loss n) in
  let duplicate := Percentage2u32 (na_Duplicate n) in
  let delay_corr := if (0 <? na_Latency n) && (0 <? na_Jitter n)
                    then Percentage2u32 (na_DelayCorr n) else 0 in
  let loss_corr := if 0 <? loss then Percentage2u32 (na_LossCorr n) else 0 in
  let duplicate_corr := if 0 <? duplicate then Percentage2u32 (na_DuplicateCorr n) else 0 in
  let^ latency := time2Tick psched (na_Latency n) in
  let limit := if na_Limit n =? 0 then 1000 else na_Limit n in
  let^ jitter := if 0 <? latency then time2Tick psched (na_Jitter n) else ckret (na_Jitter n) in
  let reorder_prob := Percentage2u32 (na_ReorderProb n) in
  let gap := if (0 <? reorder_prob) && (na_Gap n =? 0) then 1 else na_Gap n in
  ckret (Netem attrs (mkNetemOptions latency delay_corr limit loss loss_corr gap duplicate
    duplicate_corr jitter reorder_prob (Percentage2u32 (na_ReorderCorr n))
    (Percentage2u32 (na_CorruptProb n)) (Percentage2u32 (na_CorruptCorr n)))).

End make.

Definition RTM_NEWQDISC : Z := 36.
Definition RTM_DELQDISC : Z := 37.
Definition RTM_GETQDISC : Z := 38.

(** A step of a loop over attributes that may end it with an error: [None] is EINVAL. *)
Definition sticky {St} (step : St -> Z -> slice -> outcome (option St))
    (st : option St) (t : Z) (v : slice) : outcome (option St) :=
  match st with
  | Some s => step s t v
  | None => Returned None
  end.

Section qdiscs.
Context {E : Endian} {W : Type} {K : Kernel W} (rounds : nat).

Definition zero_rate : TcRateSpec := mkTcRateSpec 0 0 0 0 0 0.
Definition set_Rate (r : Z) (s : TcRateSpec) : TcRateSpec :=
  mkTcRateSpec (rs_CellLog s) (rs_Linklayer s) (rs_Overhead s) (rs_CellAlign s) (rs_Mpu s) r.

(** The options of netem: the struct, then attributes for what is not zero. *)
Definition netem_options (o : NetemOptions) : request_data :=
  let opt := mkTcNetemQopt (Latency o) (Limit o) (Loss o) (Gap o) (Duplicate o) (Jitter o) in
  let options := NewRtAttr TCA_OPTIONS (Some (TcNetemQopt_Serialize opt)) in
  let options :=
    if (0 <? DelayCorr o) || (0 <? LossCorr o) || (0 <? DuplicateCorr o)
    then add_child options (NewRtAttr TCA_NETEM_CORR
           (Some (TcNetemCorr_Serialize (mkTcNetemCorr (DelayCorr o) (LossCorr o) (DuplicateCorr o)))))
    else options in
  let options :=
    if 0 <? CorruptProb o
    then add_child options (NewRtAttr TCA_NETEM_CORRUPT
           (Some (TcNetemCorrupt_Serialize (mkTcNetemCorrupt (CorruptProb o) (CorruptCorr o)))))
    else options in
  if 0 <? ReorderProb o
  then add_child options (NewRtAttr TCA_NETEM_REORDER
         (Some (TcNetemReorder_Serialize (mkTcNetemReorder (ReorderProb o) (ReorderCorr o)))))
  else options.

(** The attributes of qdiscPayload, or its refusal. *)
Definition qdiscPayload (qdisc : Qdisc) : nl_error + list request_data :=
  let kind := NewRtAttr TCA_KIND (Some (ZeroTerminated (qdisc_Type qdisc))) in
  let options := NewRtAttr TCA_OPTIONS None in
  match qdisc with
  | Prio _ bands priomap =>
      inr [kind; NewRtAttr TCA_OPTIONS (Some (TcPrioMap_Serialize (mkTcPrioMap bands priomap)))]
  | Tbf _ rate limit buffer =>
      let opt := mkTcTbfQopt (set_Rate (uint_n 4 rate) zero_rate) zero_rate limit buffer 0 in
      inr [kind; add_child options (NewRtAttr TCA_TBF_PARMS (Some (TcTbfQopt_Serialize opt)))]
  | Htb _ o =>
      let opt := mkTcHtbGlob (Version o) (Rate2Quantum o) (Defcls o) (Debug o) (DirectPkts o) in
      inr [kind; add_child options (NewRtAttr TCA_HTB_INIT (Some (TcHtbGlob_Serialize opt)))]
  | Netem _ o => inr [kind; netem_options o]
  | Ingress a =>
      if q_Parent a =? HANDLE_INGRESS then inr [kind; options]
      else inl (Text (errors_New "Ingress filters must set Parent to HANDLE_INGRESS"))
  | PfifoFast _ _ _ | GenericQdisc _ _ => inr [kind; options]
  end.

Definition tc_msg (index handle parent info : Z) : request_data :=
  DataOf (mkTcMsg FAMILY_ALL (int32 index) handle parent info).

Definition qdiscModify (cmd flags : Z) (qdisc : Qdisc) : M W (option nl_error) :=
  let* req := new_request cmd (Z.lor flags NLM_F_ACK) in
  let base := qdisc_Attrs qdisc in
  let msg := tc_msg (q_LinkIndex base) (q_Handle base) (q_Parent base) 0 in
  match if cmd =? RTM_DELQDISC then inr [] else qdiscPayload qdisc with
  | inl err => mret (Some err)
  | inr data =>
      let* r := Execute rounds (fold_left AddData (msg :: data) req) NETLINK_ROUTE 0 in
      mret (err_of r)
  end.

Definition QdiscDel (qdisc : Qdisc) : M W (option nl_error) := qdiscModify RTM_DELQDISC 0 qdisc.
Definition QdiscChange (qdisc : Qdisc) : M W (option nl_error) := qdiscModify RTM_NEWQDISC 0 qdisc.
Definition QdiscReplace (qdisc : Qdisc) : M W (option nl_error) :=
  qdiscModify RTM_NEWQDISC (Z.lor NLM_F_CREATE NLM_F_REPLACE) qdisc.
Definition QdiscAdd (qdisc : Qdisc) : M W (option nl_error) :=
  qdiscModify RTM_NEWQDISC (Z.lor NLM_F_CREATE NLM_F_EXCL) qdisc.

(** ** Listing *)

Definition zero_qattrs : QdiscAttrs := mkQdiscAttrs 0 0 0 0.
Definition zero_netem : NetemOptions := mkNetemOptions 0 0 0 0 0 0 0 0 0 0 0 0 0.

Definition qdisc_of_kind (k : string) : Qdisc :=
  if String.eqb k "pfifo_fast" then PfifoFast zero_qattrs 0 (replicate 16 0)
  else if String.eqb k "prio" then Prio zero_qattrs 0 (replicate 16 0)
  else if String.eqb k "tbf" then Tbf zero_qattrs 0 0 0
  else if String.eqb k "ingress" then Ingress zero_qattrs
  else if String.eqb k "htb" then Htb zero_qattrs (mkHtbOptions 0 0 0 0 0)
  else if String.eqb k "netem" then Netem zero_qattrs zero_netem
  else GenericQdisc zero_qattrs k.

Definition htb_step (o : HtbOptions) (t : Z) (v : slice) : outcome HtbOptions :=
  if t =? TCA_HTB_INIT then
    let? opt := DeserializeTcHtbGlob v in
    Returned (mkHtbOptions (hg_Version opt) (hg_Rate2Quantum opt) (hg_Defcls opt) (hg_Debug opt)
                           (hg_DirectPkts opt))
  else Returned o.

(** TCA_TBF_RATE64 reads eight bytes of a slice of four. *)
Definition tbf_step (o : Z * Z * Z) (t : Z) (v : slice) : outcome (Z * Z * Z) :=
  if t =? TCA_TBF_PARMS then
    let? opt := DeserializeTcTbfQopt v in
    Returned (rs_Rate (tq_Rate opt), tq_Limit opt, tq_Buffer opt)
  else if t =? TCA_TBF_RATE64 then
    let? four := sub v 0 4 in
    Halted (GoPanic "index out of range")
  else Returned o.

Definition netem_step (o : NetemOptions) (t : Z) (v : slice) : outcome NetemOptions :=
  let mk dc lc dup cp cc rp rc :=
    mkNetemOptions (Latency o) dc (Limit o) (Loss o) lc (Gap o) (Duplicate o) dup (Jitter o) rp rc cp cc in
  if t =? TCA_NETEM_CORR then
    let? c := DeserializeTcNetemCorr v in
    Returned (mk (nc_DelayCorr c) (nc_LossCorr c) (nc_DupCorr c) (CorruptProb o) (CorruptCorr o)
                 (ReorderProb o) (ReorderCorr o))
  else if t =? TCA_NETEM_CORRUPT then
    let? c := DeserializeTcNetemCorrupt v in
    Returned (mk (DelayCorr o) (LossCorr o) (DuplicateCorr o) (nx_Probability c) (nx_Correlation c)
                 (ReorderProb o) (ReorderCorr o))
  else if t =? TCA_NETEM_REORDER then
    let? c := DeserializeTcNetemReorder v in
    Returned (mk (DelayCorr o) (LossCorr o) (DuplicateCorr o) (CorruptProb o) (CorruptCorr o)
                 (nr_Probability c) (nr_Correlation c))
  else Returned o.

(** Attributes under an attribute, read with a step; [None] is EINVAL. *)
Definition nested {A} (step : A -> Z -> slice -> outcome A) (v : slice) (a : A) : outcome (option A) :=
  let? r := ParseRouteAttr v in
  match r with
  | None => Returned None
  | Some data => let? a' := over_attrs step data a in Returned (Some a')
  end.

Definition parseNetemData (o : NetemOptions) (value : slice) : outcome (option NetemOptions) :=
  let? opt := DeserializeTcNetemQopt value in
  let o := mkNetemOptions (nq_Latency opt) (DelayCorr o) (nq_Limit opt) (nq_Loss opt) (LossCorr o)
             (nq_Gap opt) (nq_Duplicate opt) (DuplicateCorr o) (nq_Jitter opt) (ReorderProb o)
             (ReorderCorr o) (CorruptProb o) (CorruptCorr o) in
  let? rest := sub_from value (Sizeof TcNetemQopt) in
  nested netem_step rest o.

(** TCA_OPTIONS: what it holds depends on the kind, by which the qdisc was made. *)
Definition qdisc_options (q : option Qdisc) (v : slice) : outcome (option (option Qdisc)) :=
  match q with
  | Some (PfifoFast a _ _) =>
      let? m := DeserializeTcPrioMap v in
      Returned (Some (Some (PfifoFast a (uint_n 1 (pm_Bands m)) (pm_Priomap m))))
  | Some (Prio a _ _) =>
      let? m := DeserializeTcPrioMap v in
      Returned (Some (Some (Prio a (uint_n 1 (pm_Bands m)) (pm_Priomap m))))
  | Some (Tbf a r l b) =>
      let? o := nested tbf_step v (r, l, b) in
      Returned (option_map (fun o => Some (Tbf a o.1.1 o.1.2 o.2)) o)
  | Some (Htb a o) =>
      let? o := nested htb_step v o in
      Returned (option_map (fun o => Some (Htb a o)) o)
  | Some (Netem a o) =>
      let? o := parseNetemData o v in
      Returned (option_map (fun o => Some (Netem a o)) o)
  | _ => Returned (Some q)
  end.

Definition qdisc_step (q : option Qdisc) (t : Z) (v : slice) : outcome (option (option Qdisc)) :=
  if t =? TCA_KIND then
    let? k := drop_last v in
    Returned (Some (Some (qdisc_of_kind (bytes_str k))))
  else if t =? TCA_OPTIONS then qdisc_options q v
  else Returned (Some q).

(** One message of QdiscList: [Some None] when it is of another link. *)
Definition read_qdisc (index : option Z) (m : slice) : outcome (option (option Qdisc)) :=
  let? msg := DeserializeTcMsg m in
  let? body := sub_from m (Sizeof TcMsg) in
  let? r := ParseRouteAttr body in
  match r with
  | None => Returned None
  | Some attrs =>
      if match index with Some i => negb (tcm_Ifindex msg =? i) | None => false end
      then Returned (Some None)
      else
        let base := mkQdiscAttrs (tcm_Ifindex msg) (tcm_Handle msg) (tcm_Parent msg) (tcm_Info msg) in
        let? q := over_attrs (sticky qdisc_step) attrs (Some None) in
        match q with
        | None => Returned None
        | Some None => Halted (GoPanic "nil pointer dereference")
        | Some (Some q) => Returned (Some (Some (set_qdisc_Attrs base q)))
        end
  end.

(** The loop of the three lists over the messages. *)
Fixpoint read_all {A} (read : slice -> outcome (option (option A))) (msgs : list slice)
    : outcome (option (list A)) :=
  match msgs with
  | [] => Returned (Some [])
  | m :: msgs' =>
      let? r := read m in
      match r with
      | None => Returned None
      | Some a =>
          let? rest := read_all read msgs' in
          Returned (option_map (fun l => option_list a ++ l)%list rest)
      end
  end.

(** What the lists return of a request and its messages. *)
Definition list_of {A} (read : slice -> outcome (option (option A))) (req : NetlinkRequest) (resType : Z)
    : M W (nl_error + list A) :=
  let* r := Execute rounds req NETLINK_ROUTE resType in
  match r with
  | inl err => mret (inl err)
  | inr msgs =>
      let* r := mlift (read_all read msgs) in
      mret (match r with Some l => inr l | None => inl (Errno EINVAL) end)
  end.

Definition QdiscList (link : option Link) : M W (option Link * (nl_error + list Qdisc)) :=
  let* req := new_request RTM_GETQDISC NLM_F_DUMP in
  match link with
  | Some l =>
      let* base := ensureIndex rounds (Attrs l) in
      let index := int32 (Index base) in
      let* r := list_of (read_qdisc (Some index)) (AddData req (tc_msg index 0 0 0)) RTM_NEWQDISC in
      mret (Some (set_Attrs base l), r)
  | None =>
      let* r := list_of (read_qdisc None) (AddData req (tc_msg 0 0 0 0)) RTM_NEWQDISC in
      mret (None, r)
  end.

(** * Classes *)

Record ClassAttrs : Type := mkClassAttrs {
  c_LinkIndex : Z; c_Handle : Z; c_Parent : Z; c_Leaf : Z }.

(** The fields of HtbClass beside its attributes; those of HtbClassAttrs are the same. *)
Record HtbClassAttrs : Type := mkHtbClassAttrs {
  hca_Rate : Z; hca_Ceil : Z; hca_Buffer : Z; hca_Cbuffer : Z; hca_Quantum : Z; hca_Level : Z; hca_Prio : Z }.

Inductive Class_ : Type :=
| HtbClass (a : ClassAttrs) (o : HtbClassAttrs)
| GenericClass (a : ClassAttrs) (ClassType : string).

Definition class_Attrs (c : Class_) : ClassAttrs :=
  match c with HtbClass a _ | GenericClass a _ => a end.

Definition set_class_Attrs (a : ClassAttrs) (c : Class_) : Class_ :=
  match c with
  | HtbClass _ o => HtbClass a o
  | GenericClass _ t => GenericClass a t
  end.

Definition class_Type (c : Class_) : string :=
  match c with HtbClass _ _ => "htb" | GenericClass _ t => t end.

(** The size of a bucket of NewHtbClass: the default is a packet and what a tick lets through. *)
Definition htb_buffer `{WildConversion} (psched : option string) (rate buffer : Z) : Ck Z :=
  let^ buffer := if buffer =? 0
                 then let^ h := Hz psched in
                      ckret (to_uint32 (fadd (fdiv (to_float64 rate) h) (to_float64 1600)))
                 else ckret buffer in
  let^ t := Xmittime psched rate buffer in
  ckret (to_uint32 t).

Definition NewHtbClass `{WildConversion} (psched : option string) (attrs : ClassAttrs)
    (cattrs : HtbClassAttrs) : Ck Class_ :=
  let rate := hca_Rate cattrs / 8 in
  let ceil := hca_Ceil cattrs / 8 in
  let ceil := if ceil =? 0 then rate else ceil in
  let^ buffer := htb_buffer psched rate (hca_Buffer cattrs) in
  let^ cbuffer := htb_buffer psched ceil (hca_Cbuffer cattrs) in
  ckret (HtbClass attrs (mkHtbClassAttrs rate ceil buffer cbuffer 10 0 0)).

Definition RTM_NEWTCLASS : Z := 40.
Definition RTM_DELTCLASS : Z := 41.
Definition RTM_GETTCLASS : Z := 42.

Definition classPayload (class : Class_) : list request_data :=
  let kind := NewRtAttr TCA_KIND (Some (ZeroTerminated (class_Type class))) in
  let options := NewRtAttr TCA_OPTIONS None in
  match class with
  | HtbClass _ o =>
      let opt := mkTcHtbCopt (set_Rate (uint_n 4 (hca_Rate o)) zero_rate)
                   (set_Rate (uint_n 4 (hca_Ceil o)) zero_rate)
                   (hca_Buffer o) (hca_Cbuffer o) (hca_Quantum o) (hca_Level o) (hca_Prio o) in
      [kind; add_child options (NewRtAttr TCA_HTB_PARMS (Some (TcHtbCopt_Serialize opt)))]
  | GenericClass _ _ => [kind; options]
  end.

Definition classModify (cmd flags : Z) (class : Class_) : M W (option nl_error) :=
  let* req := new_request cmd (Z.lor flags NLM_F_ACK) in
  let base := class_Attrs class in
  let msg := tc_msg (c_LinkIndex base) (c_Handle base) (c_Parent base) 0 in
  let data := if cmd =? RTM_DELTCLASS then [] else classPayload class in
  let* r := Execute rounds (fold_left AddData (msg :: data) req) NETLINK_ROUTE 0 in
  mret (err_of r).

Definition ClassDel (class : Class_) : M W (option nl_error) := classModify RTM_DELTCLASS 0 class.
Definition ClassChange (class : Class_) : M W (option nl_error) := classModify RTM_NEWTCLASS 0 class.
Definition ClassReplace (class : Class_) : M W (option nl_error) :=
  classModify RTM_NEWTCLASS NLM_F_CREATE class.
Definition ClassAdd (class : Class_) : M W (option nl_error) :=
  classModify RTM_NEWTCLASS (Z.lor NLM_F_CREATE NLM_F_EXCL) class.

Definition htb_class_step (o : HtbClassAttrs) (t : Z) (v : slice) : outcome HtbClassAttrs :=
  if t =? TCA_HTB_PARMS then
    let? opt := DeserializeTcHtbCopt v in
    Returned (mkHtbClassAttrs (rs_Rate (hc_Rate opt)) (rs_Rate (hc_Ceil opt)) (hc_Buffer opt)
                (hc_Cbuffer opt) (hc_Quantum opt) (hc_Level opt) (hc_Prio opt))
  else Returned o.

Definition zero_cattrs : ClassAttrs := mkClassAttrs 0 0 0 0.
Definition zero_htb_class : HtbClassAttrs := mkHtbClassAttrs 0 0 0 0 0 0 0.

Definition class_of_kind (k : string) : Class_ :=
  if String.eqb k "htb" then HtbClass zero_cattrs zero_htb_class else GenericClass zero_cattrs k.

Definition class_step (c : option Class_) (t : Z) (v : slice) : outcome (option (option Class_)) :=
  if t =? TCA_KIND then
    let? k := drop_last v in
    Returned (Some (Some (class_of_kind (bytes_str k))))
  else if t =? TCA_OPTIONS then
    match c with
    | Some (HtbClass a o) =>
        let? o := nested htb_class_step v o in
        Returned (option_map (fun o => Some (HtbClass a o)) o)
    | _ => Returned (Some c)
    end
  else Returned (Some c).

Definition read_class (m : slice) : outcome (option (option Class_)) :=
  let? msg := DeserializeTcMsg m in
  let? body := sub_from m (Sizeof TcMsg) in
  let? r := ParseRouteAttr body in
  match r with
  | None => Returned None
  | Some attrs =>
      let base := mkClassAttrs (tcm_Ifindex msg) (tcm_Handle msg) (tcm_Parent msg) 0 in
      let? c := over_attrs (sticky class_step) attrs (Some None) in
      match c with
      | None => Returned None
      | Some None => Halted (GoPanic "nil pointer dereference")
      | Some (Some c) => Returned (Some (Some (set_class_Attrs base c)))
      end
  end.

(** A dump of classes or filters: the request, and the index of the link if there is one. *)
Definition tc_list {A} (cmd resType : Z) (read : slice -> outcome (option (option A)))
    (link : option Link) (parent : Z) : M W (option Link * (nl_error + list A)) :=
  let* req := new_request cmd NLM_F_DUMP in
  match link with
  | Some l =>
      let* base := ensureIndex rounds (Attrs l) in
      let* r := list_of read (AddData req (tc_msg (Index base) 0 parent 0)) resType in
      mret (Some (set_Attrs base l), r)
  | None =>
      let* r := list_of read (AddData req (tc_msg 0 0 parent 0)) resType in
      mret (None, r)
  end.

Definition ClassList : option Link -> Z -> M W (option Link * (nl_error + list Class_)) :=
  tc_list RTM_GETTCLASS RTM_NEWTCLASS read_class.

End qdiscs.

(** * What is sent can be read *)

(** One attribute, with data or with children. *)
Lemma reads_attr {E : Endian} {A} (step : A -> Z -> slice -> outcome A) t data cs v v' :
  (forall d, items d = payload (DAttr t data cs) -> step v (uint_n 2 t) d = Returned v') ->
  reads step [DAttr t data cs] v v'.
Proof.
  intros H [|[ty d] [|]]; [done| |done]. cbn [map attr_view view_of attr_Type attr_Value].
  intros [= -> Hd]. cbn [over_attrs attr_Type attr_Value]. by rewrite (H d Hd).
Qed.

Definition u32 (z : Z) : Prop := 0 <= z < 2 ^ 32.

(** Chooses the branch of a step by the type of the attribute. *)
Ltac tc_branch :=
  rewrite ?uint_n_idem;
  repeat match goal with
  | |- context [uint_n 2 ?t =? ?b] => let r := eval vm_compute in (uint_n 2 t =? b) in
      change (uint_n 2 t =? b) with r
  end; cbv iota.

(** The fields of a struct are of their types. *)
Ltac fields_fit := unfold fits; cbn; unfold u32 in *; destruct_and?; split_and!; try done; lia.

Section wire.
Context {E : Endian}.

Lemma nested_reads {A} (step : A -> Z -> slice -> outcome A) t c cs a a' (d : slice) :
  Forall small_attr (c :: cs) -> reads step (c :: cs) a a' ->
  items d = payload (DAttr t None (c :: cs)) -> nested step d a = Returned (Some a').
Proof.
  intros Hs Hr Hd. destruct (nested_layout d t c cs Hs Hd) as (attrs & Hp & Hv).
  unfold nested. rewrite Hp. cbn [obind]. by rewrite (Hr attrs Hv).
Qed.

(** A struct in an attribute of its own. *)
Lemma small_struct {A} `{GoStruct A} t (a : A) :
  Z.of_nat (Sizeof A) < 65000 -> small_attr (NewRtAttr t (Some (Serialize a))).
Proof.
  intros Ha. apply small_of_Len with (n := (4 + Sizeof A)%nat); [|lia].
  cbn [data_Len bytes_of default]. unfold id. rewrite length_Serialize. unfold SizeofRtAttr. lia.
Qed.

(** A kind, as every TCA_KIND is read. *)
Lemma drop_last_kind (d : slice) k :
  items d = ZeroTerminated k -> exists b, drop_last d = Returned b /\ bytes_str b = k.
Proof.
  intros Hd. pose proof (drop_last_ZeroTerminated d k Hd) as H. unfold omap_out in H.
  destruct (drop_last d) as [b|]; simplify_eq/=. eauto.
Qed.

(** ** Queueing disciplines *)

Definition fits_attrs (index handle parent : Z) : Prop :=
  - 2 ^ 31 <= index < 2 ^ 31 /\ u32 handle /\ u32 parent.

Definition wf_netem (o : NetemOptions) : Prop :=
  u32 (Latency o) /\ u32 (DelayCorr o) /\ u32 (Limit o) /\ u32 (Loss o) /\ u32 (LossCorr o)
  /\ u32 (Gap o) /\ u32 (Duplicate o) /\ u32 (DuplicateCorr o) /\ u32 (Jitter o)
  /\ u32 (ReorderProb o) /\ u32 (ReorderCorr o) /\ u32 (CorruptProb o) /\ u32 (CorruptCorr o).

(** A discipline whose numbers are of their types; the kernel's default discipline, of which
    nothing is written, is not one, and the kind of a generic one is none that is known and has
    at most fifteen characters. *)
Definition wf_qdisc (q : Qdisc) : Prop :=
  fits_attrs (q_LinkIndex (qdisc_Attrs q)) (q_Handle (qdisc_Attrs q)) (q_Parent (qdisc_Attrs q))
  /\ match q with
     | PfifoFast _ _ _ => False
     | Prio _ b m => 0 <= b < 256 /\ length m = 16%nat
     | Htb _ o => u32 (Version o) /\ u32 (Rate2Quantum o) /\ u32 (Defcls o) /\ u32 (Debug o)
                  /\ u32 (DirectPkts o)
     | Netem _ o => wf_netem o
     | Tbf _ r l b => 0 <= r < 2 ^ 64 /\ u32 l /\ u32 b
     | Ingress a => q_Parent a = HANDLE_INGRESS
     | GenericQdisc _ k => qdisc_of_kind k = GenericQdisc zero_qattrs k /\ (String.length k <= 15)%nat
     end.

(** What is seen of it: the count of references is the kernel's; the correlations of netem's
    reordering and corruption are not sent without a probability; and a rate of tbf is cut to 32
    bits. *)
Definition qdisc_seen (q : Qdisc) : Qdisc :=
  let a := qdisc_Attrs q in
  set_qdisc_Attrs (mkQdiscAttrs (q_LinkIndex a) (q_Handle a) (q_Parent a) 0)
    match q with
    | Netem a o =>
        Netem a (mkNetemOptions (Latency o) (DelayCorr o) (Limit o) (Loss o) (LossCorr o) (Gap o)
          (Duplicate o) (DuplicateCorr o) (Jitter o) (ReorderProb o)
          (if 0 <? ReorderProb o then ReorderCorr o else 0) (CorruptProb o)
          (if 0 <? CorruptProb o then CorruptCorr o else 0))
    | Tbf a r l b => Tbf a (r mod 2 ^ 32) l b
    | _ => q
    end.

(** The attributes under the options of netem. *)
Definition netem_children (o : NetemOptions) : list request_data :=
  (when ((0 <? DelayCorr o) || (0 <? LossCorr o) || (0 <? DuplicateCorr o))
     (NewRtAttr TCA_NETEM_CORR
        (Some (TcNetemCorr_Serialize (mkTcNetemCorr (DelayCorr o) (LossCorr o) (DuplicateCorr o)))))
   ++ when (0 <? CorruptProb o)
        (NewRtAttr TCA_NETEM_CORRUPT
           (Some (TcNetemCorrupt_Serialize (mkTcNetemCorrupt (CorruptProb o) (CorruptCorr o)))))
   ++ when (0 <? ReorderProb o)
        (NewRtAttr TCA_NETEM_REORDER
           (Some (TcNetemReorder_Serialize (mkTcNetemReorder (ReorderProb o) (ReorderCorr o))))))%list.

Definition netem_qopt (o : NetemOptions) : TcNetemQopt :=
  mkTcNetemQopt (Latency o) (Limit o) (Loss o) (Gap o) (Duplicate o) (Jitter o).

Lemma netem_options_eq o :
  netem_options o = DAttr (uint_n 2 TCA_OPTIONS) (Some (Serialize (netem_qopt o))) (netem_children o).
Proof.
  unfold netem_options, netem_children, when.
  by destruct (_ || _), (0 <? CorruptProb o), (0 <? ReorderProb o).
Qed.

Lemma netem_children_small o : Forall small_attr (netem_children o).
Proof. unfold netem_children. repeat apply Forall_app_2; apply small_when; by apply small_struct. Qed.

(** Data whose length is a multiple of four, before children. *)
Lemma payload_data t b cs k :
  length b = (4 * k)%nat -> payload (DAttr t (Some b) cs) = (b ++ concat (map layout cs))%list.
Proof.
  intros Hb. destruct cs as [|c cs]; cbn [payload bytes_of default]; unfold id.
  - cbn. by rewrite app_nil_r.
  - unfold padded. rewrite Hb, rtaAlignOf_mul, Nat.sub_diag. cbn [replicate]. by rewrite app_nil_r.
Qed.

Lemma reads_netem o :
  wf_netem o ->
  reads netem_step (netem_children o)
    (mkNetemOptions (Latency o) 0 (Limit o) (Loss o) 0 (Gap o) (Duplicate o) 0 (Jitter o) 0 0 0 0)
    (mkNetemOptions (Latency o) (DelayCorr o) (Limit o) (Loss o) (LossCorr o) (Gap o)
          (Duplicate o) (DuplicateCorr o) (Jitter o) (ReorderProb o)
          (if 0 <? ReorderProb o then ReorderCorr o else 0) (CorruptProb o)
          (if 0 <? CorruptProb o then CorruptCorr o else 0)).
Proof.
  destruct o as [la dc li lo lc ga du duc ji rp rc cp cc]. intros Hw. unfold netem_children.
  cbn [Latency DelayCorr Limit Loss LossCorr Gap Duplicate DuplicateCorr Jitter ReorderProb ReorderCorr
       CorruptProb CorruptCorr] in *.
  unfold wf_netem in Hw.
  cbn [Latency DelayCorr Limit Loss LossCorr Gap Duplicate DuplicateCorr Jitter ReorderProb ReorderCorr
       CorruptProb CorruptCorr] in Hw.
  eapply (reads_app _ _ _ _ (mkNetemOptions la dc li lo lc ga du duc ji 0 0 0 0)).
  { apply reads_when; intros Hb.
    - apply reads_leaf. intros d Hd. unfold netem_step; tc_branch. unfold DeserializeTcNetemCorr.
      rewrite (Deserialize_exact _ d) with (2 := Hd) by fields_fit. done.
    - apply orb_false_iff in Hb as [[Hb1 Hb2]%orb_false_iff Hb3].
      apply Z.ltb_ge in Hb1, Hb2, Hb3. f_equal; unfold u32 in Hw; lia. }
  eapply (reads_app _ _ _ _ (mkNetemOptions la dc li lo lc ga du duc ji 0 0 cp (if 0 <? cp then cc else 0))).
  { apply reads_when; intros Hb.
    - apply reads_leaf. intros d Hd. unfold netem_step; tc_branch. unfold DeserializeTcNetemCorrupt.
      rewrite (Deserialize_exact _ d) with (2 := Hd) by fields_fit. cbn. by rewrite Hb.
    - rewrite Hb. apply Z.ltb_ge in Hb. f_equal; unfold u32 in Hw; lia. }
  apply reads_when; intros Hb.
  - apply reads_leaf. intros d Hd. unfold netem_step; tc_branch. unfold DeserializeTcNetemReorder.
    rewrite (Deserialize_exact _ d) with (2 := Hd) by fields_fit. cbn. by rewrite Hb.
  - rewrite Hb. apply Z.ltb_ge in Hb. f_equal; unfold u32 in Hw; lia.
Qed.

Lemma reads_qdisc_kind k q :
  reads (sticky qdisc_step) [NewRtAttr TCA_KIND (Some (ZeroTerminated k))] (Some q)
        (Some (Some (qdisc_of_kind k))).
Proof.
  apply reads_leaf. intros d Hd. unfold sticky, qdisc_step. tc_branch.
  destruct (drop_last_kind d k Hd) as (b & -> & Hb). cbn [obind]. by rewrite Hb.
Qed.

Lemma reads_qdisc_options data cs q q' :
  (forall d, items d = payload (DAttr (uint_n 2 TCA_OPTIONS) data cs) ->
     qdisc_options (Some q) d = Returned (Some (Some q'))) ->
  reads (sticky qdisc_step) [DAttr (uint_n 2 TCA_OPTIONS) data cs] (Some (Some q)) (Some (Some q')).
Proof.
  intros H. apply reads_attr. intros d Hd. unfold sticky, qdisc_step. tc_branch. by apply H.
Qed.

Lemma parseNetemData_read o (d : slice) :
  wf_netem o -> items d = payload (netem_options o) ->
  parseNetemData zero_netem d = Returned (Some match qdisc_seen (Netem zero_qattrs o) with
                                               | Netem _ o' => o' | _ => zero_netem end).
Proof.
  intros Hw. rewrite netem_options_eq, (payload_data _ _ _ 6) by (by rewrite length_Serialize).
  destruct d as [b sp]. cbn [items]. intros ->. unfold parseNetemData, DeserializeTcNetemQopt.
  rewrite Deserialize_Serialize by (unfold wf_netem in Hw; fields_fit). cbn [obind].
  rewrite sub_from_body by (by rewrite length_Serialize). cbn [obind]. unfold nested.
  destruct (ParseRouteAttr_layout _ sp (netem_children_small o)) as (attrs & -> & Hv).
  cbn [obind]. cbn. by rewrite (reads_netem o Hw attrs Hv).
Qed.

(** The options are read back into the discipline they were written from. *)
Lemma reads_qdisc q data :
  wf_qdisc q -> qdiscPayload q = inr data ->
  reads (sticky qdisc_step) data (Some None) (Some (Some (set_qdisc_Attrs zero_qattrs (qdisc_seen q)))).
Proof.
  intros [_ Hq] Hd. destruct q as [a b m|a b m|a o|a o|a r l b|a|a k]; [done| | | | | |];
    cbn [qdiscPayload qdisc_Type add_child NewRtAttr] in Hd.
  - injection Hd as <-. eapply reads_cons; [apply reads_qdisc_kind|]. apply reads_qdisc_options.
    intros d Hd. cbn [payload] in Hd. destruct Hq as [Hb Hm].
    change (qdisc_of_kind "prio") with (Prio zero_qattrs 0 (replicate 16 0)). cbn [qdisc_options].
    unfold DeserializeTcPrioMap.
    rewrite (Deserialize_exact _ d) with (2 := Hd) by (unfold fits; cbn; split; [lia|done]).
    cbn. by rewrite uint1_small.
  - injection Hd as <-. eapply reads_cons; [apply reads_qdisc_kind|]. apply reads_qdisc_options.
    intros d Hd. change (qdisc_of_kind "htb") with (Htb zero_qattrs (mkHtbOptions 0 0 0 0 0)).
    cbn [qdisc_options]. erewrite nested_reads; [reflexivity| | |exact Hd].
    { constructor; [by apply small_struct|done]. }
    apply reads_leaf. intros d' Hd'. unfold htb_step. tc_branch. unfold DeserializeTcHtbGlob.
    rewrite (Deserialize_exact _ d') with (2 := Hd') by fields_fit. by destruct o.
  - injection Hd as <-. eapply reads_cons; [apply reads_qdisc_kind|].
    rewrite netem_options_eq. apply reads_qdisc_options. rewrite <- netem_options_eq. intros d Hd.
    change (qdisc_of_kind "netem") with (Netem zero_qattrs zero_netem). cbn [qdisc_options].
    by rewrite (parseNetemData_read o d Hq Hd).
  - injection Hd as <-. eapply reads_cons; [apply reads_qdisc_kind|]. apply reads_qdisc_options.
    intros d Hd. destruct Hq as (Hr & Hl & Hb).
    change (qdisc_of_kind "tbf") with (Tbf zero_qattrs 0 0 0).
    cbn [qdisc_options]. assert (uint_n 4 r = r mod 2 ^ 32) as Hrr by done. rewrite Hrr in Hd.
    pose proof (Z.mod_pos_bound r (2 ^ 32) ltac:(lia)) as Hb32.
    rewrite (nested_reads _ _ _ _ _ (r mod 2 ^ 32, l, b) d) with (3 := Hd); [done| |].
    { constructor; [by apply small_struct|done]. }
    apply reads_leaf. intros d' Hd'. unfold tbf_step. tc_branch. unfold DeserializeTcTbfQopt.
    rewrite (Deserialize_exact _ d') with (2 := Hd') by fields_fit. done.
  - destruct (Z.eqb_spec (q_Parent a) HANDLE_INGRESS); [|done].
    injection Hd as <-. eapply reads_cons; [apply reads_qdisc_kind|]. by apply reads_qdisc_options.
  - injection Hd as <-. eapply reads_cons; [apply reads_qdisc_kind|]. destruct Hq as [Hk _].
    rewrite Hk. by apply reads_qdisc_options.
Qed.

(** ** Messages *)

Lemma int32_id v : - 2 ^ 31 <= v < 2 ^ 31 -> int32 v = v.
Proof.
  intros Hv. rewrite <- (int32_uint v Hv) at 2. unfold int32, uint_n.
  change (256 ^ Z.of_nat 4) with (2 ^ 32). by rewrite Z.mod_mod by lia.
Qed.

Lemma read_tc_msg ix h p info body sp :
  fits_attrs ix h p -> u32 info ->
  DeserializeTcMsg (mkSlice (layout (tc_msg ix h p info) ++ body) sp) = Returned (mkTcMsg 0 ix h p info)
  /\ sub_from (mkSlice (layout (tc_msg ix h p info) ++ body) sp) (Sizeof TcMsg) = Returned (mkSlice body sp).
Proof.
  intros (Hi & Hh & Hp) Hn. unfold tc_msg. rewrite layout_DataOf, int32_id by done. split.
  - apply Deserialize_Serialize. unfold fits; cbn; unfold u32 in *. split_and!; try done; lia.
  - apply sub_from_body, length_Serialize.
Qed.

(** An attribute takes a header, its data and its children, each rounded up. *)
Definition fits_in (n : nat) (d : request_data) : Prop :=
  match d with DAttr _ _ _ => (rtaAlignOf (data_Len d) <= n)%nat | _ => False end.

Lemma fits_in_len n d : fits_in n d -> (rtaAlignOf (data_Len d) <= n)%nat.
Proof. intros Hd. destruct d; try by destruct Hd. exact Hd. Qed.

Lemma fits_in_attr t data cs n :
  (4 + rtaAlignOf (length (bytes_of data)) + children_len cs <= n)%nat -> fits_in n (DAttr t data cs).
Proof. intros H. unfold fits_in. by rewrite data_Len_align. Qed.

Lemma fits_in_struct {A} `{GoStruct A} t (a : A) n :
  (4 + rtaAlignOf (Sizeof A) <= n)%nat -> fits_in n (NewRtAttr t (Some (Serialize a))).
Proof.
  intros Hn. apply fits_in_attr. cbn [bytes_of default]. unfold id. rewrite length_Serialize, children_len_nil. lia.
Qed.

Lemma fits_in_kind t k : (String.length k <= 15)%nat -> fits_in 20 (NewRtAttr t (Some (ZeroTerminated k))).
Proof.
  intros Hk. apply fits_in_attr. cbn [bytes_of default]. unfold id, ZeroTerminated.
  rewrite length_app, length_str_bytes, children_len_nil. change (length [0]) with 1%nat.
  assert (rtaAlignOf (String.length k + 1) <= rtaAlignOf 16)%nat; [|change (rtaAlignOf 16) with 16%nat in *; lia].
  rewrite !rtaAlignOf_eq. apply Nat.mul_le_mono_l, Nat.Div0.div_le_mono. lia.
Qed.

Lemma fits_in_children cs n :
  Forall (fits_in n) cs -> (children_len cs <= n * length cs)%nat.
Proof.
  induction 1 as [|c cs Hc _ IH]; [rewrite children_len_nil; lia|]. rewrite children_len_cons. cbn [length].
  apply fits_in_len in Hc. lia.
Qed.

Lemma fits_in_small n d : Z.of_nat n < 65536 -> fits_in n d -> small_attr d.
Proof.
  intros Hn Hd. destruct d; try done. cbn [fits_in] in Hd.
  eapply small_of_Len; [|instantiate (1 := n); lia].
  pose proof (rtaAlignOf_bounds (data_Len (DAttr Type_ Data children))). lia.
Qed.

Lemma fits_in_total n ds : Forall (fits_in n) ds -> (length (concat (map layout ds)) <= n * length ds)%nat.
Proof.
  induction 1 as [|d ds Hd _ IH]; [cbn; lia|]. cbn [map concat length]. rewrite length_app, length_layout.
  apply fits_in_len in Hd. lia.
Qed.

Lemma fits_in_mono n m d : fits_in n d -> (n <= m)%nat -> fits_in m d.
Proof. destruct d; cbn; try done. lia. Qed.

Lemma fits_in_parent t c n m : fits_in m c -> (4 + m <= n)%nat -> fits_in n (DAttr t None [c]).
Proof.
  intros Hc Hn. apply fits_in_attr. rewrite children_len_cons, children_len_nil.
  change (rtaAlignOf (length (bytes_of None))) with 0%nat.
  apply fits_in_len in Hc. lia.
Qed.

Lemma qdisc_data_fits q data :
  wf_qdisc q -> qdiscPayload q = inr data -> Forall (fits_in 100) data /\ length data = 2%nat.
Proof.
  intros [_ Hq] Hd.
  assert (Hk : (String.length (qdisc_Type q) <= 15)%nat) by (destruct q; cbn; try lia; apply Hq).
  pose proof (fits_in_mono _ 100 _ (fits_in_kind TCA_KIND _ Hk) ltac:(lia)) as Hkind.
  assert (exists opt, data = [NewRtAttr TCA_KIND (Some (ZeroTerminated (qdisc_Type q))); opt]
                      /\ fits_in 100 opt) as (opt & -> & Hopt);
    [|split; [by repeat (apply List.Forall_cons; [done|])|done]].
  destruct q as [a b m|a b m|a o|a o|a r l b|a|a k]; cbn [qdiscPayload] in Hd; try done;
    try (destruct (q_Parent a =? HANDLE_INGRESS); [|done]); injection Hd as <-;
    eexists; (split; [reflexivity|]).
  - apply fits_in_struct. by apply Nat.leb_le.
  - eapply fits_in_parent; [apply fits_in_struct, Nat.le_refl|]. by apply Nat.leb_le.
  - rewrite netem_options_eq. apply fits_in_attr. cbn [bytes_of default]. unfold id.
    rewrite length_Serialize. change (rtaAlignOf (Sizeof TcNetemQopt)) with 24%nat.
    assert (Forall (fits_in 16) (netem_children o)) as Hc%fits_in_children.
    { unfold netem_children, when. repeat apply Forall_app_2.
      all: match goal with |- Forall _ (if ?b then _ else _) => destruct b end; [|done].
      all: constructor; [|done]; apply fits_in_struct; by apply Nat.leb_le. }
    assert (length (netem_children o) <= 3)%nat; [|lia].
    unfold netem_children, when. rewrite !length_app.
    destruct (_ || _), (0 <? CorruptProb o), (0 <? ReorderProb o); cbn [length]; lia.
  - eapply fits_in_parent; [apply fits_in_struct, Nat.le_refl|]. by apply Nat.leb_le.
  - apply fits_in_attr. by apply Nat.leb_le.
  - apply fits_in_attr. by apply Nat.leb_le.
Qed.

(** What qdiscModify writes, QdiscList reads for its link. *)
Lemma read_qdisc_data q data sp :
  wf_qdisc q -> qdiscPayload q = inr data ->
  let a := qdisc_Attrs q in
  read_qdisc (Some (q_LinkIndex a))
    (mkSlice (concat (map layout (tc_msg (q_LinkIndex a) (q_Handle a) (q_Parent a) 0 :: data))) sp)
  = Returned (Some (Some (qdisc_seen q))).
Proof.
  intros Hw Hd a. pose proof Hw as [Ha _]. fold a in Ha. cbn [map concat]. unfold read_qdisc.
  destruct (read_tc_msg _ _ _ 0 (concat (map layout data)) sp Ha ltac:(done)) as [-> ->]. cbn [obind].
  destruct (qdisc_data_fits q data Hw Hd) as [Hf _].
  destruct (ParseRouteAttr_layout data sp) as (attrs & -> & Hv).
  { eapply Forall_impl; [exact Hf|]. intros d. by apply fits_in_small. }
  cbn [obind tcm_Ifindex tcm_Handle tcm_Parent tcm_Info]. rewrite Z.eqb_refl. cbn [negb].
  rewrite (reads_qdisc q data Hw Hd attrs Hv). cbn [obind]. by destruct q.
Qed.

(** ** Classes *)

Definition wf_class (c : Class_) : Prop :=
  fits_attrs (c_LinkIndex (class_Attrs c)) (c_Handle (class_Attrs c)) (c_Parent (class_Attrs c))
  /\ c_Leaf (class_Attrs c) = 0
  /\ match c with
     | HtbClass _ o => u32 (hca_Rate o) /\ u32 (hca_Ceil o) /\ u32 (hca_Buffer o) /\ u32 (hca_Cbuffer o)
                       /\ u32 (hca_Quantum o) /\ u32 (hca_Level o) /\ u32 (hca_Prio o)
     | GenericClass _ k => k <> "htb" /\ (String.length k <= 15)%nat
     end.

Lemma reads_class c :
  wf_class c ->
  reads (sticky class_step) (classPayload c) (Some None) (Some (Some (set_class_Attrs zero_cattrs c))).
Proof.
  intros (_ & _ & Hc).
  assert (forall k st, reads (sticky class_step) [NewRtAttr TCA_KIND (Some (ZeroTerminated k))] (Some st)
                         (Some (Some (class_of_kind k)))) as Hkind.
  { intros k st. apply reads_leaf. intros d Hd. unfold sticky, class_step. tc_branch.
    destruct (drop_last_kind d k Hd) as (b & -> & Hb). cbn [obind]. by rewrite Hb. }
  destruct c as [a o|a k]; (eapply reads_cons; [apply Hkind|]); apply reads_attr; intros d Hd;
    unfold sticky, class_step; tc_branch; cbn [class_Type] in *.
  - change (class_of_kind "htb") with (HtbClass zero_cattrs zero_htb_class).
    cbv iota. rewrite (nested_reads _ _ _ _ _ o d) with (3 := Hd); [done|constructor; [by apply small_struct|done]|].
    apply reads_leaf. intros d' Hd'. unfold htb_class_step. tc_branch. unfold DeserializeTcHtbCopt.
    destruct Hc as (Hr & Hl & Hc). rewrite !uint4_small in Hd' by done.
    rewrite (Deserialize_exact _ d') with (2 := Hd') by fields_fit. by destruct o.
  - destruct Hc as [Hk _]. unfold class_of_kind. apply String.eqb_neq in Hk. by rewrite Hk.
Qed.

Lemma class_data_fits c : wf_class c -> Forall (fits_in 100) (classPayload c) /\ length (classPayload c) = 2%nat.
Proof.
  intros (_ & _ & Hc).
  assert (Hk : (String.length (class_Type c) <= 15)%nat) by (destruct c; cbn; try lia; apply Hc).
  pose proof (fits_in_mono _ 100 _ (fits_in_kind TCA_KIND _ Hk) ltac:(lia)) as Hkind.
  destruct c as [a o|a k]; (split; [|done]);
    (apply List.Forall_cons; [exact Hkind|]); (apply List.Forall_cons; [|done]).
  - eapply fits_in_parent; [apply fits_in_struct, Nat.le_refl|]. by apply Nat.leb_le.
  - apply fits_in_attr. by apply Nat.leb_le.
Qed.

Lemma read_class_data c sp :
  wf_class c ->
  let a := class_Attrs c in
  read_class (mkSlice (concat (map layout
    (tc_msg (c_LinkIndex a) (c_Handle a) (c_Parent a) 0 :: classPayload c))) sp)
  = Returned (Some (Some c)).
Proof.
  intros Hw a. pose proof Hw as (Ha & Hl & _). fold a in Ha, Hl. cbn [map concat]. unfold read_class.
  destruct (read_tc_msg _ _ _ 0 (concat (map layout (classPayload c))) sp Ha ltac:(done)) as [-> ->].
  cbn [obind]. destruct (class_data_fits c Hw) as [Hf _].
  destruct (ParseRouteAttr_layout (classPayload c) sp) as (attrs & -> & Hv).
  { eapply Forall_impl; [exact Hf|]. intros d. by apply fits_in_small. }
  cbn [obind tcm_Ifindex tcm_Handle tcm_Parent tcm_Info]. rewrite (reads_class c Hw attrs Hv).
  cbn [obind]. destruct c as [a' o|a' k]; cbn in *; subst a; destruct a'; cbn in *; by subst.
Qed.

End wire.

Section operations.
Context {E : Endian} {W : Type} {K : Kernel W}.

(** A request of one message of traffic control and attributes that fit. *)
Lemma tc_sent rounds proto flags ix h p info data (s : NS W) seq res s' :
  (length (concat (map layout data)) <= 3900)%nat ->
  Execute rounds (fold_left AddData (tc_msg ix h p info :: data) (NewNetlinkRequest proto flags seq))
    NETLINK_ROUTE 0 s = (Ended (Returned (inr res)), s') ->
  exists fd b t m, calls s' = (calls s ++ t)%list /\ mkCall (Sendto fd b) None ∈ t
    /\ ParseNetlinkMessage (mkSlice b []) = Some [m] /\ m_Type m = uint_n 2 proto
    /\ m_Data m = mkSlice (concat (map layout (tc_msg ix h p info :: data))) [].
Proof.
  intros Hd Hx. apply Execute_sent in Hx as (fd & b & t & m & Ht & Hs & Hp & Hty & Hm).
  - exists fd, b, t, m. by rewrite uint_n_idem in Hty.
  - cbn [map concat]. rewrite length_app. pose proof (layout_length_DataOf (mkTcMsg FAMILY_ALL (int32 ix) h p info)).
    change (Sizeof TcMsg) with 20%nat in *. fold (tc_msg ix h p info) in *. lia.
Qed.

Lemma ClassAdd_wire rounds flags c (s : NS W) s' :
  wf_class c -> classModify rounds RTM_NEWTCLASS flags c s = (Ended (Returned None), s') ->
  exists fd b t m, calls s' = (calls s ++ t)%list /\ mkCall (Sendto fd b) None ∈ t
    /\ ParseNetlinkMessage (mkSlice b []) = Some [m] /\ m_Type m = RTM_NEWTCLASS
    /\ read_all read_class [m_Data m] = Returned (Some [c]).
Proof.
  intros Hw. unfold classModify, mbind_ at 1, new_request at 1. cbn [Z.eqb Pos.eqb RTM_NEWTCLASS RTM_DELTCLASS].
  unfold mbind_ at 1.
  destruct (Execute rounds _ NETLINK_ROUTE 0 _) as [[[[e|res]|h]|] s3] eqn:Ex; [done| |done|done].
  intros [= <-]. destruct (class_data_fits c Hw) as [Hf Hl].
  apply tc_sent in Ex as (fd & b & t & m & Ht & Hs & Hp & Hty & Hm);
    [|apply fits_in_total in Hf; lia].
  exists fd, b, t, m. do 4 (split; [done|]). cbn [read_all]. rewrite Hm, (read_class_data c [] Hw). done.
Qed.

End operations.

(** * What is on the wire *)

(** C35: when QdiscAdd, QdiscReplace or QdiscChange report success, the message they sent is
    an RTM_NEWQDISC that QdiscList reads, on its link, as a discipline of the same kind, handle
    and parent, with every option of prio, htb and ingress and, of netem and tbf, all but what
    the code does not send: the correlations of netem's reordering and corruption come back as 0
    when the probability is 0, and a rate of tbf comes back modulo 2^32. The numbers are those of
    the Go types, and a discipline of another kind has a name of at most fifteen bytes that is
    none of the known kinds. *)
Theorem qdisc_wire {E : Endian} {W} {K : Kernel W} rounds flags q (s : NS W) s' :
  wf_qdisc q ->
  qdiscModify rounds RTM_NEWQDISC flags q s = (Ended (Returned None), s') ->
  exists fd b t m, calls s' = (calls s ++ t)%list /\ mkCall (Sendto fd b) None ∈ t
    /\ ParseNetlinkMessage (mkSlice b []) = Some [m] /\ m_Type m = RTM_NEWQDISC
    /\ read_all (read_qdisc (Some (q_LinkIndex (qdisc_Attrs q)))) [m_Data m]
       = Returned (Some [qdisc_seen q]).
Proof.
  intros Hw. unfold qdiscModify, mbind_ at 1, new_request at 1.
  change (RTM_NEWQDISC =? RTM_DELQDISC) with false. cbv iota.
  destruct (qdiscPayload q) as [e|data] eqn:Hd; [done|]. unfold mbind_ at 1.
  destruct (Execute rounds _ NETLINK_ROUTE 0 _) as [[[[e|res]|h]|] s3] eqn:Ex; [done| |done|done].
  intros [= <-]. destruct (qdisc_data_fits q data Hw Hd) as [Hf Hl].
  apply tc_sent in Ex as (fd & b & t & m & Ht & Hs & Hp & Hty & Hm);
    [|apply fits_in_total in Hf; lia].
  exists fd, b, t, m. do 4 (split; [done|]). cbn [read_all]. rewrite Hm, (read_qdisc_data q data [] Hw Hd).
  done.
Qed.

(** A delay of 100 ms with some loss on link 4. *)
Definition sample_netem : Qdisc :=
  Netem (mkQdiscAttrs 4 0x10000 HANDLE_ROOT 0)
        (mkNetemOptions 1562500 0 1000 42949672 0 1 0 0 0 21474836 0 0 0).

Definition netem_added : NS (list (list Z)) :=
  (QdiscAdd (E := false) 1 sample_netem (fresh [@reply false 2 0 1 [0; 0; 0; 0]])).2.

Lemma qdisc_wire_witness :
  exists fd b t m, calls netem_added = t /\ mkCall (Sendto fd b) None ∈ t
    /\ @ParseNetlinkMessage false (mkSlice b []) = Some [m] /\ m_Type m = RTM_NEWQDISC
    /\ read_all (@read_qdisc false (Some 4)) [m_Data m] = Returned (Some [sample_netem]).
Proof.
  apply (@qdisc_wire false _ scripted 1 (Z.lor NLM_F_CREATE NLM_F_EXCL) sample_netem
           (fresh [@reply false 2 0 1 [0; 0; 0; 0]])).
  - unfold wf_qdisc, fits_attrs, wf_netem, u32, sample_netem, HANDLE_ROOT. cbn. lia.
  - vm_compute. reflexivity.
Defined.

(** An ingress discipline with another parent is refused before any system call. *)
Theorem ingress_refused {E : Endian} {W} {K : Kernel W} rounds flags a (s : NS W) :
  q_Parent a <> HANDLE_INGRESS ->
  exists e s', qdiscModify rounds RTM_NEWQDISC flags (Ingress a) s = (Ended (Returned (Some e)), s')
    /\ calls s' = calls s.
Proof.
  intros Ha. apply Z.eqb_neq in Ha. unfold qdiscModify, mbind_ at 1, new_request at 1.
  change (RTM_NEWQDISC =? RTM_DELQDISC) with false. cbn [qdiscPayload]. rewrite Ha. by eexists _, _.
Qed.

(** The attributes the kernel sends for a tbf discipline whose rate needs 64 bits. *)
Definition tbf_rate64 {E : Endian} (opt : TcTbfQopt) (rate : Z) : list request_data :=
  [NewRtAttr TCA_KIND (Some (ZeroTerminated "tbf"));
   DAttr TCA_OPTIONS None [NewRtAttr TCA_TBF_PARMS (Some (TcTbfQopt_Serialize opt));
                           NewRtAttr TCA_TBF_RATE64 (Some (put_uint 8 rate))]].

(** QdiscList cannot list such a discipline: eight bytes are read from a slice of four, and the
    program panics. *)
Theorem QdiscList_rate64 {E : Endian} ix h p opt rate sp :
  fits_attrs ix h p -> fits opt ->
  read_all (read_qdisc None) [mkSlice (concat (map layout (tc_msg ix h p 0 :: tbf_rate64 opt rate))) sp]
  = Halted (GoPanic "index out of range").
Proof.
  intros Ha Hopt. cbn [read_all]. unfold read_qdisc.
  cbn [map concat]. set (rest := concat (map layout (tbf_rate64 opt rate))).
  destruct (read_tc_msg ix h p 0 rest sp Ha ltac:(done)) as [-> ->]. subst rest. cbn [obind].
  assert (Forall small_attr [NewRtAttr TCA_TBF_PARMS (Some (TcTbfQopt_Serialize opt));
                             NewRtAttr TCA_TBF_RATE64 (Some (put_uint 8 rate))]) as Hin.
  { constructor; [by apply small_struct|]. constructor; [|done]. apply small_leaf.
    rewrite length_put_uint. lia. }
  destruct (ParseRouteAttr_layout (tbf_rate64 opt rate) sp) as (attrs & -> & Hv); [|cbn [obind]].
  { constructor; [by apply small_ZeroTerminated, Nat.leb_le|]. constructor; [|done].
    apply (fits_in_small 100); [done|]. apply fits_in_attr. rewrite !children_len_cons, children_len_nil.
    rewrite !data_Len_leaf, length_put_uint. unfold TcTbfQopt_Serialize. rewrite length_Serialize.
    by apply Nat.leb_le. }
  destruct attrs as [|[t1 d1] [|[t2 d2] [|]]]; try done.
  unfold tbf_rate64 in Hv. cbn [map attr_view view_of NewRtAttr attr_Type attr_Value] in Hv.
  injection Hv as -> H1 -> H2.
  cbn [over_attrs attr_Type attr_Value sticky]. unfold qdisc_step at 1. tc_branch.
  destruct (drop_last_kind d1 "tbf" H1) as (b & -> & Hb). cbn [obind sticky]. rewrite Hb.
  change (qdisc_of_kind "tbf") with (Tbf zero_qattrs 0 0 0). unfold qdisc_step at 1. tc_branch.
  cbn [qdisc_options]. unfold nested.
  destruct (nested_layout d2 TCA_OPTIONS _ _ Hin H2) as (attrs & -> & Hv). cbn [obind].
  destruct attrs as [|[t3 d3] [|[t4 d4] [|]]]; try done.
  cbn [map attr_view view_of NewRtAttr attr_Type attr_Value] in Hv. injection Hv as -> H3 -> H4.
  cbn [over_attrs attr_Type attr_Value]. unfold tbf_step at 1. tc_branch. unfold DeserializeTcTbfQopt.
  rewrite (Deserialize_exact opt d3) by done. cbn [obind]. unfold tbf_step at 1. tc_branch.
  unfold sub. rewrite length_app, H4, length_put_uint. done.
Qed.
