(* ===== verification/NetlinkFilter.v ===== *)
(** vishvananda/netlink, filters (filter.go, filter_linux.go): making, adding, deleting and
    listing them. *)

From Stdlib Require Import SpecFloat.
From S2P Require Import Prelude NetIP Nl NlStruct NlTc TcRate NlSock Netlink NetlinkVeth NetlinkRead NetlinkAddr.
From S2P Require Import NetlinkRoute NetlinkTc.

Local Open Scope go_scope.
Local Open Scope nl_scope.
Local Open Scope tc_scope.
Local Open Scope Z_scope.

#[export] Instance TcRateSpec_eq_dec : EqDecision TcRateSpec.
Proof. solve_decision. Defined.
#[export] Instance TcPolice_eq_dec : EqDecision TcPolice.
Proof. solve_decision. Defined.

(** * Filters *)

Record FilterAttrs : Type := mkFilterAttrs {
  f_LinkIndex : Z; f_Handle : Z; f_Parent : Z; f_Priority : Z; f_Protocol : Z }.

(** The fields of Fw beside its attributes; the tables have 256 entries. *)
Record FwOptions : Type := mkFw {
  fw_ClassId : Z; fw_Police : TcPolice; fw_InDev : string; fw_Mask : Z; fw_AvRate : Z;
  fw_Rtab : list Z; fw_Ptab : list Z }.

Inductive Filter : Type :=
| U32 (a : FilterAttrs) (RedirIndex : Z)
| Fw (a : FilterAttrs) (o : FwOptions)
| GenericFilter (a : FilterAttrs) (FilterType : string).

Definition filter_Attrs (f : Filter) : FilterAttrs :=
  match f with U32 a _ | Fw a _ | GenericFilter a _ => a end.

Definition set_filter_Attrs (a : FilterAttrs) (f : Filter) : Filter :=
  match f with
  | U32 _ i => U32 a i
  | Fw _ o => Fw a o
  | GenericFilter _ t => GenericFilter a t
  end.

Definition filter_Type (f : Filter) : string :=
  match f with U32 _ _ => "u32" | Fw _ _ => "fw" | GenericFilter _ t => t end.

Record FilterFwAttrs : Type := mkFilterFwAttrs {
  fa_ClassId : Z; fa_InDev : string; fa_Mask : Z; fa_Index : Z; fa_Buffer : Z; fa_Mtu : Z; fa_Mpu : Z;
  fa_Rate : Z; fa_AvRate : Z; fa_PeakRate : Z; fa_Action : Z; fa_Overhead : Z; fa_LinkLayer : Z }.

Definition zero_police : TcPolice := mkTcPolice 0 0 0 0 0 zero_rate zero_rate 0 0 0.
Definition zero_table : list Z := replicate 256 0.

(** A rate of NewFw: its table is computed when the rate is not zero; [None] when that fails.
    The local arrays [rtab] and [ptab] stay as they were. *)
Definition fw_rate `{WildConversion} (psched : option string) (rate : Z) (fattrs : FilterFwAttrs)
    (linklayer : Z) : Ck (option TcRateSpec) :=
  if rate =? 0 then ckret (Some (set_Rate rate zero_rate))
  else
    let spec := mkTcRateSpec 0 0 (fa_Overhead fattrs) 0 (fa_Mpu fattrs) rate in
    let^ r := CalcRtable psched spec (-1) (fa_Mtu fattrs) linklayer in
    ckret (if r.1.2 <? 0 then None else Some r.1.1).

Definition NewFw `{WildConversion} (psched : option string) (attrs : FilterAttrs) (fattrs : FilterFwAttrs)
    : Ck (error + Filter) :=
  let avrate := fa_AvRate fattrs / 8 in
  let rate := fa_Rate fattrs / 8 in
  let peak := fa_PeakRate fattrs / 8 in
  let linklayer := if fa_LinkLayer fattrs =? LINKLAYER_UNSPEC then LINKLAYER_ETHERNET
                   else fa_LinkLayer fattrs in
  let^ r := fw_rate psched rate fattrs linklayer in
  match r with
  | None => ckret (inl (errors_New "TBF: failed to calculate rate table."))
  | Some spec =>
      let^ burst := if rate =? 0 then ckret 0
                    else let^ t := Xmittime psched (rs_Rate spec) (fa_Buffer fattrs) in ckret (to_uint32 t) in
      let^ p := fw_rate psched peak fattrs linklayer in
      match p with
      | None => ckret (inl (errors_New "POLICE: failed to calculate peak rate table."))
      | Some pspec =>
          let police := mkTcPolice 0 (int32 (fa_Action fattrs)) 0 burst (fa_Mtu fattrs) spec pspec 0 0 0 in
          ckret (inr (Fw attrs (mkFw (fa_ClassId fattrs) police (fa_InDev fattrs) (fa_Mask fattrs) avrate
                                     zero_table zero_table)))
      end
  end.

Definition RTM_NEWTFILTER : Z := 44.
Definition RTM_DELTFILTER : Z := 45.
Definition RTM_GETTFILTER : Z := 46.

Section filters.
Context {E : Endian} {W : Type} {K : Kernel W} (rounds : nat).

(** binary.Write and binary.Read of an array of 256 numbers; a short input is an error that is
    not looked at, and leaves zeros. *)
Definition SerializeRtab (rtab : list Z) : list Z := concat (map (put_uint 4) rtab).

Fixpoint words (n : nat) (l : list Z) : list Z :=
  match n with
  | O => []
  | S n' => get_uint (take 4 l) :: words n' (drop 4 l)
  end.

Definition DeserializeRtab (b : list Z) : list Z :=
  if Z.of_nat (length b) <? 1024 then zero_table else words 256 b.

Definition filter_msg (f : Filter) : request_data :=
  let base := filter_Attrs f in
  tc_msg (f_LinkIndex base) (f_Handle base) (f_Parent base)
         (MakeHandle (f_Priority base) (Swap16 (f_Protocol base))).

Definition FilterDel (f : Filter) : M W (option nl_error) :=
  let* req := new_request RTM_DELTFILTER NLM_F_ACK in
  let* r := Execute rounds (AddData req (filter_msg f)) NETLINK_ROUTE 0 in
  mret (err_of r).

Definition match_all : TcU32Sel := mkTcU32Sel TC_U32_TERMINAL 0 1 0 0 0 0 0 0 [mkTcU32Key 0 0 0 0].

(** The selector that matches all packets, and the action that redirects them. *)
Definition u32_options (RedirIndex : Z) : outcome (list request_data) :=
  let? sel := TcU32Sel_Serialize match_all in
  let mir := mkTcMirred 0 0 TC_ACT_STOLEN 0 0 TCA_EGRESS_REDIR (uint_n 4 RedirIndex) in
  let aopts := add_child (NewRtAttr TCA_OPTIONS None)
                         (NewRtAttr TCA_MIRRED_PARMS (Some (TcMirred_Serialize mir))) in
  let table := add_child (add_child (NewRtAttr TCA_ACT_TAB None)
                                    (NewRtAttr TCA_KIND (Some (ZeroTerminated "mirred")))) aopts in
  Returned [NewRtAttr TCA_U32_SEL (Some sel); add_child (NewRtAttr TCA_U32_ACT None) table].

Definition fw_police_options (o : FwOptions) : list request_data :=
  let p := fw_Police o in
  (NewRtAttr TCA_POLICE_TBF (Some (TcPolice_Serialize p))
   :: when (negb (bool_decide (pol_Rate p = zero_rate)))
        (NewRtAttr TCA_POLICE_RATE (Some (SerializeRtab (fw_Rtab o))))
   ++ when (negb (bool_decide (pol_PeakRate p = zero_rate)))
        (NewRtAttr TCA_POLICE_PEAKRATE (Some (SerializeRtab (fw_Ptab o)))))%list.

Definition fw_options (o : FwOptions) : list request_data :=
  (when (negb (fw_Mask o =? 0)) (NewRtAttr TCA_FW_MASK (Some (put_uint 4 (fw_Mask o))))
   ++ when (negb (String.eqb (fw_InDev o) ""))
        (NewRtAttr TCA_FW_INDEV (Some (ZeroTerminated (fw_InDev o))))
   ++ when (negb (bool_decide (fw_Police o = zero_police)))
        (fold_left add_child (fw_police_options o) (NewRtAttr TCA_FW_POLICE None))
   ++ when (negb (fw_ClassId o =? 0)) (NewRtAttr TCA_FW_CLASSID (Some (put_uint 4 (fw_ClassId o)))))%list.

Definition filter_options (f : Filter) : outcome (list request_data) :=
  match f with
  | U32 _ redir => u32_options redir
  | Fw _ o => Returned (fw_options o)
  | GenericFilter _ _ => Returned []
  end.

Definition FilterAdd (f : Filter) : M W (option nl_error) :=
  let* req := new_request RTM_NEWTFILTER (Z.lor (Z.lor NLM_F_CREATE NLM_F_EXCL) NLM_F_ACK) in
  let kind := NewRtAttr TCA_KIND (Some (ZeroTerminated (filter_Type f))) in
  let* children := mlift (filter_options f) in
  let options := fold_left add_child children (NewRtAttr TCA_OPTIONS None) in
  let* r := Execute rounds (fold_left AddData [filter_msg f; kind; options] req) NETLINK_ROUTE 0 in
  mret (err_of r).

(** ** Listing *)

(** Where the parse of a u32 filter is: the link found, whether there was a selector, and
    whether it has returned. *)
Record u32_state : Type := mkU32State { redir : Z; detailed : bool; ended : bool }.

Definition mirred_step (i : Z) (t : Z) (v : slice) : outcome Z :=
  if t =? TCA_MIRRED_PARMS then
    let? mir := DeserializeTcMirred v in
    Returned (mir_Ifindex mir)
  else Returned i.

(** An attribute of the action. *)
Definition action_step (st : nl_error + u32_state) (t : Z) (v : slice) : outcome (nl_error + u32_state) :=
  match st with
  | inl e => Returned (inl e)
  | inr s =>
      if ended s then Returned st
      else if t =? TCA_KIND then
        let? k := drop_last v in
        Returned (inr (mkU32State (redir s) (detailed s) (negb (String.eqb (bytes_str k) "mirred"))))
      else if t =? TCA_OPTIONS then
        let? r := nested mirred_step v (redir s) in
        match r with
        | None => Returned (inl (Errno EINVAL))
        | Some i => Returned (inr (mkU32State i (detailed s) false))
        end
      else Returned st
  end.

Definition u32_step (st : nl_error + u32_state) (t : Z) (v : slice) : outcome (nl_error + u32_state) :=
  match st with
  | inl e => Returned (inl e)
  | inr s =>
      if ended s then Returned st
      else if t =? TCA_U32_SEL then
        let? sel := DeserializeTcU32Sel v in
        Returned (inr (mkU32State (redir s) true
          ((Z.land (us_Flags sel) TC_U32_TERMINAL =? 0) || negb (us_Nkeys sel =? 1))))
      else if t =? TCA_U32_ACT then
        let? r := ParseRouteAttr v in
        match r with
        | None => Returned (inl (Errno EINVAL))
        | Some [tab] =>
            if attr_Type tab =? TCA_ACT_TAB then
              let? r := ParseRouteAttr (attr_Value tab) in
              over_attrs action_step (default [] r) st
            else Returned (inl (Text (errors_New "Action table not formed properly")))
        | Some _ => Returned (inl (Text (errors_New "Action table not formed properly")))
        end
      else Returned st
  end.

(** [u32.RedirIndex] and the result of parseU32Data. *)
Definition parseU32Data (i : Z) (data : list RouteAttr) : outcome (nl_error + Z * bool) :=
  let? r := over_attrs u32_step data (inr (mkU32State i false false)) in
  Returned (match r with
            | inl e => inl e
            | inr s => inr (redir s, detailed s)
            end).

Definition set_Police (p : TcPolice) (o : FwOptions) : FwOptions :=
  mkFw (fw_ClassId o) p (fw_InDev o) (fw_Mask o) (fw_AvRate o) (fw_Rtab o) (fw_Ptab o).
Definition set_Rtab (t : list Z) (o : FwOptions) : FwOptions :=
  mkFw (fw_ClassId o) (fw_Police o) (fw_InDev o) (fw_Mask o) (fw_AvRate o) t (fw_Ptab o).
Definition set_Ptab (t : list Z) (o : FwOptions) : FwOptions :=
  mkFw (fw_ClassId o) (fw_Police o) (fw_InDev o) (fw_Mask o) (fw_AvRate o) (fw_Rtab o) t.

Definition police_step (o : FwOptions) (t : Z) (v : slice) : outcome FwOptions :=
  if t =? TCA_POLICE_TBF then let? p := DeserializeTcPolice v in Returned (set_Police p o)
  else if t =? TCA_POLICE_RATE then Returned (set_Rtab (DeserializeRtab (items v)) o)
  else if t =? TCA_POLICE_PEAKRATE then Returned (set_Ptab (DeserializeRtab (items v)) o)
  else Returned o.

(** The error of parsing the police attribute is not looked at. *)
Definition parseFwData_step (o : FwOptions) (t : Z) (v : slice) : outcome FwOptions :=
  if t =? TCA_FW_MASK then
    let? m := read_uint v 4 in
    Returned (mkFw (fw_ClassId o) (fw_Police o) (fw_InDev o) m (fw_AvRate o) (fw_Rtab o) (fw_Ptab o))
  else if t =? TCA_FW_CLASSID then
    let? c := read_uint v 4 in
    Returned (mkFw c (fw_Police o) (fw_InDev o) (fw_Mask o) (fw_AvRate o) (fw_Rtab o) (fw_Ptab o))
  else if t =? TCA_FW_INDEV then
    let? b := drop_last v in
    Returned (mkFw (fw_ClassId o) (fw_Police o) (bytes_str b) (fw_Mask o) (fw_AvRate o) (fw_Rtab o) (fw_Ptab o))
  else if t =? TCA_FW_POLICE then
    let? r := ParseRouteAttr v in
    over_attrs police_step (default [] r) o
  else Returned o.

Definition zero_fattrs : FilterAttrs := mkFilterAttrs 0 0 0 0 0.
Definition zero_fw : FwOptions := mkFw 0 zero_police "" 0 0 zero_table zero_table.

Definition filter_of_kind (k : string) : Filter :=
  if String.eqb k "u32" then U32 zero_fattrs 0
  else if String.eqb k "fw" then Fw zero_fattrs zero_fw
  else GenericFilter zero_fattrs k.

(** The variables of the loop of FilterList: the filter and [detailed]. *)
Definition filter_step (st : nl_error + option Filter * bool) (t : Z) (v : slice)
    : outcome (nl_error + option Filter * bool) :=
  match st with
  | inl e => Returned (inl e)
  | inr (f, d) =>
      if t =? TCA_KIND then
        let? k := drop_last v in
        Returned (inr (Some (filter_of_kind (bytes_str k)), d))
      else if t =? TCA_OPTIONS then
        match f with
        | Some (U32 a i) =>
            let? r := ParseRouteAttr v in
            match r with
            | None => Returned (inl (Errno EINVAL))
            | Some data =>
                let? r := parseU32Data i data in
                Returned (match r with
                          | inl e => inl e
                          | inr (i', d') => inr (Some (U32 a i'), d')
                          end)
            end
        | Some (Fw a o) =>
            let? r := nested parseFwData_step v o in
            Returned (match r with
                      | None => inl (Errno EINVAL)
                      | Some o' => inr (Some (Fw a o'), true)
                      end)
        | _ => Returned st
        end
      else Returned st
  end.

(** One message; [None] for a filter that is not detailed. *)
Definition read_filter (m : slice) : outcome (nl_error + option Filter) :=
  let? msg := DeserializeTcMsg m in
  let? body := sub_from m (Sizeof TcMsg) in
  let? r := ParseRouteAttr body in
  match r with
  | None => Returned (inl (Errno EINVAL))
  | Some attrs =>
      let '(prio, proto) := MajorMinor (tcm_Info msg) in
      let base := mkFilterAttrs (tcm_Ifindex msg) (tcm_Handle msg) (tcm_Parent msg) prio (Swap16 proto) in
      let? r := over_attrs filter_step attrs (inr (None, false)) in
      match r with
      | inl e => Returned (inl e)
      | inr (_, false) => Returned (inr None)
      | inr (None, true) => Halted (GoPanic "nil pointer dereference")
      | inr (Some f, true) => Returned (inr (Some (set_filter_Attrs base f)))
      end
  end.

Fixpoint filters_of_msgs (msgs : list slice) : outcome (nl_error + list Filter) :=
  match msgs with
  | [] => Returned (inr [])
  | m :: msgs' =>
      let? r := read_filter m in
      match r with
      | inl e => Returned (inl e)
      | inr f =>
          let? rest := filters_of_msgs msgs' in
          Returned (match rest with inl e => inl e | inr l => inr (option_list f ++ l)%list end)
      end
  end.

Definition FilterList (link : option Link) (parent : Z) : M W (option Link * (nl_error + list Filter)) :=
  let* req := new_request RTM_GETTFILTER NLM_F_DUMP in
  let finish (link : option Link) (index : Z) : M W (option Link * (nl_error + list Filter)) :=
    let* r := Execute rounds (AddData req (tc_msg index 0 parent 0)) NETLINK_ROUTE RTM_NEWTFILTER in
    match r with
    | inl err => mret (link, inl err)
    | inr msgs => let* l := mlift (filters_of_msgs msgs) in mret (link, l)
    end in
  match link with
  | Some l =>
      let* base := ensureIndex rounds (Attrs l) in
      finish (Some (set_Attrs base l)) (Index base)
  | None => finish None 0
  end.

End filters.

(** * What is sent can be read *)

Section filter_wire.
Context {E : Endian}.

Lemma words_put t rest : Forall u32 t -> words (length t) (concat (map (put_uint 4) t) ++ rest) = t.
Proof.
  induction 1 as [|z t Hz _ IH]; [done|]. cbn [length words map concat]. rewrite <- app_assoc, put_field.
  rewrite get_put_uint, uint4_small by done. rewrite skip_field, Nat.sub_diag by lia. by rewrite drop_0, IH.
Qed.

Lemma length_SerializeRtab t : length (SerializeRtab t) = (4 * length t)%nat.
Proof.
  unfold SerializeRtab. induction t as [|z t IH]; [done|]. cbn [map concat length].
  rewrite length_app, length_put_uint, IH. lia.
Qed.

Definition wf_table (t : list Z) : Prop := length t = 256%nat /\ Forall u32 t.

(** A rate table is read back. *)
Lemma Rtab_roundtrip t : wf_table t -> DeserializeRtab (SerializeRtab t) = t.
Proof.
  intros [Hl Ht]. unfold DeserializeRtab. rewrite length_SerializeRtab, Hl. cbn [Z.ltb].
  change (Z.of_nat (4 * 256) <? 1024) with false. cbv iota. rewrite <- Hl.
  rewrite <- (app_nil_r (SerializeRtab t)). by apply words_put.
Qed.

(** Filters that are listed: those of other kinds never are. *)
Definition wf_filter (f : Filter) : Prop :=
  let a := filter_Attrs f in
  fits_attrs (f_LinkIndex a) (f_Handle a) (f_Parent a)
  /\ 0 <= f_Priority a < 65536 /\ 0 <= f_Protocol a < 65536
  /\ match f with
     | U32 _ i => u32 i
     | Fw _ o => u32 (fw_ClassId o) /\ u32 (fw_Mask o) /\ (String.length (fw_InDev o) <= 15)%nat
                 /\ fits (fw_Police o) /\ wf_table (fw_Rtab o) /\ wf_table (fw_Ptab o)
     | GenericFilter _ _ => False
     end.

(** What is seen of a filter: the average rate is not sent, and a table only for a rate. *)
Definition fw_seen (o : FwOptions) : FwOptions :=
  mkFw (fw_ClassId o) (fw_Police o) (fw_InDev o) (fw_Mask o) 0
       (if bool_decide (pol_Rate (fw_Police o) = zero_rate) then zero_table else fw_Rtab o)
       (if bool_decide (pol_PeakRate (fw_Police o) = zero_rate) then zero_table else fw_Ptab o).

Definition filter_seen (f : Filter) : Filter :=
  match f with
  | Fw a o => Fw a (fw_seen o)
  | _ => f
  end.

Lemma fold_add_child cs t data ds :
  fold_left add_child cs (DAttr t data ds) = DAttr t data (ds ++ cs).
Proof.
  revert ds. induction cs as [|c cs IH]; intros ds; cbn [fold_left add_child]; [by rewrite app_nil_r|].
  by rewrite IH, <- app_assoc.
Qed.

Lemma police_fits o : wf_table (fw_Rtab o) -> wf_table (fw_Ptab o) ->
  Forall (fits_in 1028) (fw_police_options o) /\ (length (fw_police_options o) <= 3)%nat.
Proof.
  intros [Hr _] [Hp _]. split.
  - apply List.Forall_cons; [apply fits_in_struct; by apply Nat.leb_le|].
    apply Forall_app_2; unfold when; match goal with |- Forall _ (if ?b then _ else _) => destruct b end; try done;
      (apply List.Forall_cons; [|done]); apply fits_in_attr; cbn [bytes_of default]; unfold id;
      rewrite length_SerializeRtab, children_len_nil, ?Hr, ?Hp; by apply Nat.leb_le.
  - cbn [fw_police_options length]. rewrite length_app. unfold when.
    destruct (negb _), (negb _); cbn [length]; lia.
Qed.

Lemma reads_police o :
  fits (fw_Police o) -> wf_table (fw_Rtab o) -> wf_table (fw_Ptab o) ->
  reads police_step (fw_police_options o) (mkFw 0 zero_police (fw_InDev o) (fw_Mask o) 0 zero_table zero_table)
    (mkFw 0 (fw_Police o) (fw_InDev o) (fw_Mask o) 0 (fw_Rtab (fw_seen o)) (fw_Ptab (fw_seen o))).
Proof.
  intros Hp Hr Ht. unfold fw_police_options.
  eapply (reads_cons _ _ _ _ (mkFw 0 (fw_Police o) (fw_InDev o) (fw_Mask o) 0 zero_table zero_table)).
  { apply reads_leaf. intros d Hd. unfold police_step. tc_branch. unfold DeserializeTcPolice.
    by rewrite (Deserialize_exact (fw_Police o) d). }
  eapply (reads_app _ _ _ _ (mkFw 0 (fw_Police o) (fw_InDev o) (fw_Mask o) 0 (fw_Rtab (fw_seen o)) zero_table)).
  - apply reads_when; intros Hb; cbn [fw_seen fw_Rtab].
    + apply negb_true_iff in Hb. rewrite Hb. apply reads_leaf. intros d Hd. unfold police_step. tc_branch.
      by rewrite Hd, Rtab_roundtrip.
    + apply negb_false_iff in Hb. by rewrite Hb.
  - apply reads_when; intros Hb; cbn [fw_seen fw_Ptab].
    + apply negb_true_iff in Hb. rewrite Hb. apply reads_leaf. intros d Hd. unfold police_step. tc_branch.
      by rewrite Hd, Rtab_roundtrip.
    + apply negb_false_iff in Hb. by rewrite Hb.
Qed.

Lemma fw_seen_no_police o :
  fw_Police o = zero_police -> fw_Rtab (fw_seen o) = zero_table /\ fw_Ptab (fw_seen o) = zero_table.
Proof. intros Hp. cbn. by rewrite Hp. Qed.

Lemma reads_fw a o :
  wf_filter (Fw a o) -> reads parseFwData_step (fw_options o) zero_fw (fw_seen o).
Proof.
  intros (_ & _ & _ & Hc & Hm & Hi & Hp & Hr & Ht). unfold fw_options.
  eapply (reads_app _ _ _ _ (mkFw 0 zero_police "" (fw_Mask o) 0 zero_table zero_table)).
  { apply reads_when; intros Hb.
    - apply reads_leaf. intros d Hd. unfold parseFwData_step. tc_branch.
      by rewrite (read_uint_exact _ _ _ Hd), uint4_small.
    - apply negb_false_iff, Z.eqb_eq in Hb. by rewrite Hb. }
  eapply (reads_app _ _ _ _ (mkFw 0 zero_police (fw_InDev o) (fw_Mask o) 0 zero_table zero_table)).
  { apply reads_when; intros Hb.
    - apply reads_leaf. intros d Hd. unfold parseFwData_step. tc_branch.
      destruct (drop_last_kind d _ Hd) as (b & -> & Hs). cbn [obind]. by rewrite Hs.
    - apply negb_false_iff, String.eqb_eq in Hb. by rewrite Hb. }
  eapply (reads_app _ _ _ _ (mkFw 0 (fw_Police o) (fw_InDev o) (fw_Mask o) 0
                                  (fw_Rtab (fw_seen o)) (fw_Ptab (fw_seen o)))).
  { apply reads_when; intros Hb.
    - unfold NewRtAttr. rewrite fold_add_child. apply reads_attr. intros d Hd.
      unfold parseFwData_step. tc_branch. destruct (police_fits o Hr Ht) as [Hf _].
      cbn [app] in Hd. destruct (nested_layout d _ _ _ ltac:(eapply Forall_impl; [exact Hf|];
        intros x; by apply fits_in_small) Hd) as (attrs & -> & Hv).
      cbn [obind default]. unfold id. by apply (reads_police o).
    - apply negb_false_iff, bool_decide_eq_true in Hb. destruct (fw_seen_no_police o Hb) as [-> ->].
      by rewrite Hb. }
  apply reads_when; intros Hb.
  - apply reads_leaf. intros d Hd. unfold parseFwData_step. tc_branch.
    by rewrite (read_uint_exact _ _ _ Hd), uint4_small.
  - apply negb_false_iff, Z.eqb_eq in Hb. unfold fw_seen. by rewrite Hb.
Qed.

Lemma match_all_wf : wf_sel match_all.
Proof. split; [unfold match_all, TC_U32_TERMINAL; cbn; lia|]. split; [done|]. constructor; [|done]. unfold fits. cbn. lia. Qed.

Definition redirect (i : Z) : TcMirred := mkTcMirred 0 0 TC_ACT_STOLEN 0 0 TCA_EGRESS_REDIR i.

Definition action_options (i : Z) : list request_data :=
  [NewRtAttr TCA_KIND (Some (ZeroTerminated "mirred"));
   DAttr (uint_n 2 TCA_OPTIONS) None [NewRtAttr TCA_MIRRED_PARMS (Some (TcMirred_Serialize (redirect i)))]].

Lemma u32_options_eq i :
  u32 i -> exists sel, TcU32Sel_Serialize match_all = Returned sel /\ length sel = 32%nat
  /\ u32_options i = Returned [NewRtAttr TCA_U32_SEL (Some sel);
       DAttr (uint_n 2 TCA_U32_ACT) None [DAttr (uint_n 2 TCA_ACT_TAB) None (action_options i)]].
Proof.
  intros Hi. eexists. split; [by apply TcU32Sel_Serialize_eq|]. split.
  - rewrite length_app, length_sput, length_keys. done.
  - unfold u32_options. rewrite TcU32Sel_Serialize_eq by done. cbn [obind]. by rewrite uint4_small.
Qed.

Lemma action_fits i : Forall (fits_in 40) (action_options i).
Proof.
  apply List.Forall_cons.
  - eapply fits_in_mono; [apply fits_in_kind|]; by apply Nat.leb_le.
  - apply List.Forall_cons; [|done]. eapply fits_in_parent; [apply fits_in_struct, Nat.le_refl|].
    by apply Nat.leb_le.
Qed.

Lemma u32_fits i sel :
  length sel = 32%nat ->
  Forall (fits_in 100) [NewRtAttr TCA_U32_SEL (Some sel);
    DAttr (uint_n 2 TCA_U32_ACT) None [DAttr (uint_n 2 TCA_ACT_TAB) None (action_options i)]].
Proof.
  intros Hs. apply List.Forall_cons; [|apply List.Forall_cons; [|done]].
  - apply fits_in_attr. cbn [bytes_of default]. unfold id. rewrite Hs, children_len_nil. by apply Nat.leb_le.
  - apply (fits_in_parent _ _ _ 84); [|by apply Nat.leb_le]. apply fits_in_attr.
    pose proof (fits_in_children _ _ (action_fits i)). cbn [action_options length] in *.
    change (rtaAlignOf (length (bytes_of None))) with 0%nat. lia.
Qed.

Lemma reads_action i s0 :
  u32 i -> ended s0 = false ->
  reads action_step (action_options i) (inr s0) (inr (mkU32State i (detailed s0) false)).
Proof.
  intros Hi He. destruct s0 as [r dt en]. cbn in He. subst en.
  eapply (reads_cons _ _ _ _ (inr (mkU32State r dt false))).
  - apply reads_leaf. intros d Hd. unfold action_step. cbn [ended redir detailed]. tc_branch.
    destruct (drop_last_kind d _ Hd) as (b & -> & Hb). cbn [obind]. by rewrite Hb.
  - apply reads_attr. intros d Hd. unfold action_step. cbn [ended redir detailed]. tc_branch.
    rewrite (nested_reads _ _ _ _ _ i d) with (3 := Hd); [done|constructor; [by apply small_struct|done]|].
    apply reads_leaf. intros d' Hd'. unfold mirred_step. tc_branch. unfold DeserializeTcMirred.
    rewrite (Deserialize_exact (redirect i) d'); [done| |done].
    unfold redirect, TC_ACT_STOLEN, TCA_EGRESS_REDIR. fields_fit.
Qed.

Lemma reads_u32 i sel :
  u32 i -> TcU32Sel_Serialize match_all = Returned sel ->
  reads u32_step [NewRtAttr TCA_U32_SEL (Some sel);
    DAttr (uint_n 2 TCA_U32_ACT) None [DAttr (uint_n 2 TCA_ACT_TAB) None (action_options i)]]
    (inr (mkU32State 0 false false)) (inr (mkU32State i true false)).
Proof.
  intros Hi Hs. eapply (reads_cons _ _ _ _ (inr (mkU32State 0 true false))).
  - apply reads_leaf. intros d Hd. unfold u32_step. cbn [ended redir detailed]. tc_branch.
    rewrite (TcU32Sel_roundtrip match_all sel d match_all_wf Hs Hd). done.
  - apply reads_attr. intros d Hd. unfold u32_step. cbn [ended redir detailed]. tc_branch.
    assert (Forall small_attr [DAttr (uint_n 2 TCA_ACT_TAB) None (action_options i)]) as Htab.
    { constructor; [|done]. apply (fits_in_small 84); [done|]. apply fits_in_attr.
      pose proof (fits_in_children _ _ (action_fits i)). cbn [action_options length] in *.
      change (rtaAlignOf (length (bytes_of None))) with 0%nat. lia. }
    destruct (nested_layout d _ _ _ Htab Hd)
      as (attrs & -> & Hv). cbn [obind].
    destruct attrs as [|[t v] [|]]; try done. cbn [map attr_view view_of attr_Type attr_Value] in Hv |- *.
    injection Hv as -> Hv. rewrite uint_n_idem. tc_branch.
    assert (Forall small_attr (action_options i)) as Hact.
    { eapply Forall_impl; [exact (action_fits i)|]. intros x. by apply fits_in_small. }
    destruct (nested_layout v TCA_ACT_TAB _ _ Hact Hv) as (attrs & -> & Hv'). cbn [obind default]. unfold id.
    by apply (reads_action i (mkU32State 0 true false)).
Qed.

(** Attributes under one that may have none. *)
Lemma ParseRouteAttr_payload t cs (d : slice) :
  Forall small_attr cs -> items d = payload (DAttr t None cs) ->
  exists attrs, ParseRouteAttr d = Returned (Some attrs) /\ map attr_view attrs = map view_of cs.
Proof.
  destruct d as [b sp]. cbn [items]. intros Hs ->.
  replace (payload (DAttr t None cs)) with (concat (map layout cs)) by by destruct cs.
  by apply ParseRouteAttr_layout.
Qed.

Lemma fw_options_fits a o :
  wf_filter (Fw a o) -> Forall (fits_in 3100) (fw_options o) /\ (children_len (fw_options o) <= 3136)%nat.
Proof.
  intros (_ & _ & _ & Hc & Hm & Hi & Hp & Hr & Ht).
  destruct (police_fits o Hr Ht) as [Hf Hl]. pose proof (fits_in_children _ _ Hf) as Hch.
  assert (fits_in 3100 (fold_left add_child (fw_police_options o) (NewRtAttr TCA_FW_POLICE None))) as Hpol.
  { unfold NewRtAttr. rewrite fold_add_child. apply fits_in_attr. cbn [app].
    change (rtaAlignOf (length (bytes_of None))) with 0%nat. lia. }
  assert (forall t v, fits_in 8 (NewRtAttr t (Some (put_uint 4 v)))) as Hu.
  { intros t v. apply fits_in_attr. cbn [bytes_of default]. unfold id.
    rewrite length_put_uint, children_len_nil. by apply Nat.leb_le. }
  pose proof (fits_in_kind TCA_FW_INDEV _ Hi) as Hdev.
  assert (forall n (b : bool) d, fits_in n d -> (n <= 3100)%nat ->
    Forall (fits_in 3100) (when b d) /\ (children_len (when b d) <= n)%nat) as Hwhen.
  { intros n [] d Hd Hn; unfold when; split; try done.
    - apply List.Forall_cons; [by eapply fits_in_mono|done].
    - rewrite children_len_cons, children_len_nil. apply fits_in_len in Hd. lia.
    - rewrite children_len_nil. lia. }
  unfold fw_options.
  destruct (Hwhen 8%nat (negb (fw_Mask o =? 0)) _ (Hu TCA_FW_MASK (fw_Mask o)) ltac:(lia)) as [H1 L1].
  destruct (Hwhen 20%nat (negb (String.eqb (fw_InDev o) "")) _ Hdev ltac:(lia)) as [H2 L2].
  destruct (Hwhen 3100%nat (negb (bool_decide (fw_Police o = zero_police))) _ Hpol ltac:(lia)) as [H3 L3].
  destruct (Hwhen 8%nat (negb (fw_ClassId o =? 0)) _ (Hu TCA_FW_CLASSID (fw_ClassId o)) ltac:(lia)) as [H4 L4].
  split; [by repeat apply Forall_app_2|].
  assert (forall l l', children_len (l ++ l') = children_len l + children_len l')%nat as Happ.
  { intros l l'. unfold children_len. rewrite fold_left_app, children_len_acc. unfold children_len. lia. }
  rewrite !Happ. lia.
Qed.

(** The attributes FilterAdd sends, and how FilterList reads them. *)
Lemma filter_attrs f :
  wf_filter f ->
  exists cs, filter_options f = Returned cs /\ Forall small_attr cs /\ (children_len cs <= 3136)%nat
  /\ reads filter_step [NewRtAttr TCA_KIND (Some (ZeroTerminated (filter_Type f)));
                        fold_left add_child cs (NewRtAttr TCA_OPTIONS None)]
       (inr (None, false)) (inr (Some (set_filter_Attrs zero_fattrs (filter_seen f)), true)).
Proof.
  intros Hw. pose proof Hw as (_ & _ & _ & Hf).
  assert (forall st d0, reads filter_step [NewRtAttr TCA_KIND (Some (ZeroTerminated (filter_Type f)))]
            (inr (st, d0)) (inr (Some (filter_of_kind (filter_Type f)), d0))) as Hkind.
  { intros st d0. apply reads_leaf. intros d Hd. unfold filter_step. tc_branch.
    destruct (drop_last_kind d _ Hd) as (b & -> & Hb). cbn [obind]. by rewrite Hb. }
  destruct f as [a i|a o|a k]; [| |done]; cbn [filter_options].
  - destruct (u32_options_eq i Hf) as (sel & Hs & Hl & Ho). eexists. split; [exact Ho|].
    pose proof (u32_fits i sel Hl) as Hfit.
    assert (Forall small_attr [NewRtAttr TCA_U32_SEL (Some sel);
      DAttr (uint_n 2 TCA_U32_ACT) None [DAttr (uint_n 2 TCA_ACT_TAB) None (action_options i)]]) as Hsm.
    { eapply Forall_impl; [exact Hfit|]. intros x. by apply fits_in_small. }
    split; [done|]. split; [pose proof (fits_in_children _ _ Hfit); cbn [length] in *; lia|].
    eapply reads_cons; [apply Hkind|]. change (NewRtAttr TCA_OPTIONS None) with (DAttr (uint_n 2 TCA_OPTIONS) None []).
    rewrite fold_add_child. apply reads_attr.
    intros d Hd. unfold filter_step. tc_branch.
    change (filter_of_kind (filter_Type (U32 a i))) with (U32 zero_fattrs 0). cbv iota.
    destruct (ParseRouteAttr_payload _ _ d Hsm Hd) as (attrs & -> & Hv). cbn [obind].
    unfold parseU32Data. by rewrite (reads_u32 i sel Hf Hs attrs Hv).
  - eexists. split; [done|]. destruct (fw_options_fits a o Hw) as [Hfit Hlen].
    assert (Forall small_attr (fw_options o)) as Hsm.
    { eapply Forall_impl; [exact Hfit|]. intros x. by apply fits_in_small. }
    split; [done|]. split; [done|]. eapply reads_cons; [apply Hkind|].
    change (NewRtAttr TCA_OPTIONS None) with (DAttr (uint_n 2 TCA_OPTIONS) None []).
    rewrite fold_add_child. apply reads_attr. intros d Hd.
    unfold filter_step. tc_branch.
    change (filter_of_kind (filter_Type (Fw a o))) with (Fw zero_fattrs zero_fw). cbv iota. unfold nested.
    destruct (ParseRouteAttr_payload _ _ d Hsm Hd) as (attrs & -> & Hv). cbn [obind].
    by rewrite (reads_fw a o Hw attrs Hv).
Qed.

Lemma read_filter_data f cs sp :
  wf_filter f -> filter_options f = Returned cs ->
  let data := [NewRtAttr TCA_KIND (Some (ZeroTerminated (filter_Type f)));
               fold_left add_child cs (NewRtAttr TCA_OPTIONS None)] in
  (length (concat (map layout data)) <= 3900)%nat
  /\ read_filter (mkSlice (concat (map layout (filter_msg f :: data))) sp)
     = Returned (inr (Some (filter_seen f))).
Proof.
  intros Hw Hc data. destruct (filter_attrs f Hw) as (cs' & Hcs & Hsm & Hlen & Hr).
  rewrite Hc in Hcs. injection Hcs as <-. fold data in Hr.
  pose proof Hw as (Ha & Hp & Hq & Hf).
  assert (Hk : (String.length (filter_Type f) <= 15)%nat) by (destruct f; cbn; [lia|lia|done]).
  pose proof (fits_in_kind TCA_KIND _ Hk) as Hkind.
  assert (fits_in 3140 (fold_left add_child cs (NewRtAttr TCA_OPTIONS None))) as Hopt.
  { unfold NewRtAttr. rewrite fold_add_child. apply fits_in_attr. cbn [app].
    change (rtaAlignOf (length (bytes_of None))) with 0%nat. lia. }
  split.
  { subst data. cbn [map concat]. rewrite !length_app, !length_layout.
    apply fits_in_len in Hkind, Hopt. cbn [length]. lia. }
  destruct (ParseRouteAttr_layout data sp) as (attrs & Hpa & Hv).
  { constructor; [by apply (fits_in_small 20)|constructor; [by apply (fits_in_small 3140)|done]]. }
  cbn [map concat]. unfold read_filter, filter_msg. set (a := filter_Attrs f) in *.
  assert (0 <= Swap16 (f_Protocol a) < 65536) as Hsw by by apply Swap16_range.
  assert (u32 (MakeHandle (f_Priority a) (Swap16 (f_Protocol a)))) as Hinfo.
  { rewrite MakeHandle_eq by done. unfold u32. lia. }
  destruct (read_tc_msg _ _ _ _ (concat (map layout data)) sp Ha Hinfo) as [-> ->]. cbn [obind].
  rewrite Hpa. cbn [obind tcm_Info tcm_Ifindex tcm_Handle tcm_Parent].
  rewrite MajorMinor_MakeHandle, Swap16_involutive by done.
  rewrite (Hr attrs Hv). cbn [obind]. do 3 f_equal. subst a.
  destruct f as [[] i|[] o|[] k]; done.
Qed.

End filter_wire.

(** * What is on the wire *)

(** When FilterAdd reports success, the message it sent is an RTM_NEWTFILTER that FilterList
    reads as the same filter: priority and protocol in the byte order of the network, the link a
    u32 filter redirects to, the class, device, mark mask and policing of a firewall filter with
    its rate tables. *)
Theorem FilterAdd_wire {E : Endian} {W} {K : Kernel W} rounds f (s : NS W) s' :
  wf_filter f -> FilterAdd rounds f s = (Ended (Returned None), s') ->
  exists fd b t m, calls s' = (calls s ++ t)%list /\ mkCall (Sendto fd b) None ∈ t
    /\ ParseNetlinkMessage (mkSlice b []) = Some [m] /\ m_Type m = RTM_NEWTFILTER
    /\ filters_of_msgs [m_Data m] = Returned (inr [filter_seen f]).
Proof.
  intros Hw. destruct (filter_attrs f Hw) as (cs & Hcs & _).
  destruct (read_filter_data f cs [] Hw Hcs) as [Hlen Hread].
  unfold FilterAdd, mbind_ at 1, new_request at 1. rewrite Hcs. unfold mlift, mbind_ at 1. unfold mbind_ at 1.
  destruct (Execute rounds _ NETLINK_ROUTE 0 _) as [[[[e|res]|h]|] s3] eqn:Ex; [done| |done|done].
  intros [= <-]. apply tc_sent in Ex as (fd & b & t & m & Ht & Hs & Hp & Hty & Hm); [|exact Hlen].
  exists fd, b, t, m. do 4 (split; [done|]). cbn [filters_of_msgs]. rewrite Hm.
  fold (filter_msg f). rewrite Hread. done.
Qed.

(** A filter on link 4 that sends what it gets to link 7. *)
Definition sample_u32 : Filter := U32 (mkFilterAttrs 4 0 0xFFFF0000 1 0x800) 7.

Definition u32_added : NS (list (list Z)) :=
  (FilterAdd (E := false) 1 sample_u32 (fresh [@reply false 2 0 1 [0; 0; 0; 0]])).2.

Lemma FilterAdd_wire_witness :
  exists fd b t m, calls u32_added = t /\ mkCall (Sendto fd b) None ∈ t
    /\ @ParseNetlinkMessage false (mkSlice b []) = Some [m] /\ m_Type m = RTM_NEWTFILTER
    /\ @filters_of_msgs false [m_Data m] = Returned (inr [sample_u32]).
Proof.
  apply (@FilterAdd_wire false _ scripted 1 sample_u32 (fresh [@reply false 2 0 1 [0; 0; 0; 0]])).
  - unfold wf_filter, fits_attrs, u32, sample_u32. cbn. lia.
  - vm_compute. reflexivity.
Defined.

(** NewFw never fails, and never fills the tables of the filter it makes: CalcRtable works on a
    copy of the array it is given, so the rate tables FilterAdd sends to the kernel are zero. *)
Theorem NewFw_tables `{WildConversion} psched attrs fattrs c :
  0 <= fa_Mtu fattrs < 2 ^ 32 -> ready psched c ->
  exists o c', NewFw psched attrs fattrs c = (inr (Fw attrs o), c') /\ ready psched c'
    /\ fw_Rtab o = zero_table /\ fw_Ptab o = zero_table
    /\ rs_Rate (pol_Rate (fw_Police o)) = fa_Rate fattrs / 8
    /\ rs_Rate (pol_PeakRate (fw_Police o)) = fa_PeakRate fattrs / 8.
Proof.
  intros Hm Hc.
  assert (forall rate ll c, ready psched c -> exists spec c', fw_rate psched rate fattrs ll c = (Some spec, c')
            /\ rs_Rate spec = rate /\ ready psched c') as Hrate.
  { intros rate ll c0 Hc0. unfold fw_rate. destruct (rate =? 0); [by eexists _, c0|].
    destruct (CalcRtable_covers psched (mkTcRateSpec 0 0 (fa_Overhead fattrs) 0 (fa_Mpu fattrs) rate)
                (fa_Mtu fattrs) ll c0 Hm Hc0) as (r' & k & tb & c1 & Hcalc & Hr1 & Hk & _ & Hrt & _).
    unfold ckbind. rewrite Hcalc. cbn [fst snd]. destruct (Z.ltb_spec k 0); [lia|].
    exists r', c1. split; [reflexivity|]. split; [exact Hrt|exact Hr1]. }
  unfold NewFw. set (ll := if fa_LinkLayer fattrs =? LINKLAYER_UNSPEC then _ else _). unfold ckbind at 1.
  destruct (Hrate (fa_Rate fattrs / 8) ll c Hc) as (spec & c1 & -> & Hs1 & Hc1).
  unfold ckbind at 1.
  assert (exists v c2, (if fa_Rate fattrs / 8 =? 0 then ckret 0 else
     let^ t := Xmittime psched (rs_Rate spec) (fa_Buffer fattrs) in ckret (to_uint32 t)) c1 = (v, c2)
     /\ ready psched c2) as (v & c2 & -> & Hc2).
  { destruct (_ =? 0); [by eexists _, c1|].
    destruct (Xmittime_ready psched (rs_Rate spec) (fa_Buffer fattrs) c1 Hc1) as (c2 & Hx & Hc2).
    unfold ckbind. rewrite Hx. by eexists _, c2. }
  unfold ckbind at 1. destruct (Hrate (fa_PeakRate fattrs / 8) ll c2 Hc2) as (ps & c3 & -> & Hs3 & Hc3).
  by eexists _, c3.
Qed.
