(* ===== verification/NlXfrm.v ===== *)
(** vishvananda/netlink/nl, IPsec (nl/xfrm_linux.go, nl/xfrm_policy_linux.go,
    nl/xfrm_state_linux.go): addresses, the structs of policies and states, and algorithms
    with their keys. *)

From S2P Require Import Prelude NetIP Nl NlStruct NlSock Netlink NetlinkVeth NetlinkAddr.

Local Open Scope go_scope.
Local Open Scope Z_scope.

(** * Numbers *)

Definition XFRM_INF : Z := 2 ^ 64 - 1.
Definition XFRM_MSG_NEWSA : Z := 0x10.
Definition XFRM_MSG_DELSA : Z := 0x11.
Definition XFRM_MSG_GETSA : Z := 0x12.
Definition XFRM_MSG_NEWPOLICY : Z := 0x13.
Definition XFRM_MSG_DELPOLICY : Z := 0x14.
Definition XFRM_MSG_GETPOLICY : Z := 0x15.
Definition XFRMA_ALG_AUTH : Z := 0x01.
Definition XFRMA_ALG_CRYPT : Z := 0x02.
Definition XFRMA_ENCAP : Z := 0x04.
Definition XFRMA_TMPL : Z := 0x05.
Definition XFRMA_SRCADDR : Z := 0x0d.
Definition XFRMA_ALG_AUTH_TRUNC : Z := 0x14.

(** * Addresses *)

(** XfrmAddress: sixteen bytes. *)
Definition zero_address : list Z := replicate 16 0.

(** An address whose last twelve bytes are zero is taken for an IPv4 address. *)
Definition ToIP (x : list Z) : list Z :=
  if bool_decide (drop 4 x = replicate 12 0)
  then (replicate 10 0 ++ [0xff; 0xff] ++ take 4 x)%list
  else x.

Definition ToIPNet (x : list Z) (prefixlen : Z) : IPNet :=
  let ip := ToIP x in
  mkIPNet ip (CIDRMask prefixlen (if GetIPFamily ip =? FAMILY_V4 then 32 else 128)).

(** The bytes after writing an address over them. *)
Definition FromIP (x ip : list Z) : outcome (list Z) :=
  if (length ip <? 4)%nat then Returned (take 4 x ++ replicate 12 0)%list
  else if GetIPFamily ip =? FAMILY_V4 then
    match To4 ip with
    | Some b => Returned (take 4 b ++ replicate 12 0)%list
    | None => slice_panic
    end
  else
    match To16 ip with
    | Some b => Returned (take 16 b)
    | None => slice_panic
    end.

(** * Structs *)

Record XfrmSelector : Type := mkXfrmSelector {
  xs_Daddr : list Z; xs_Saddr : list Z; xs_Dport : Z; xs_DportMask : Z; xs_Sport : Z;
  xs_SportMask : Z; xs_Family : Z; xs_PrefixlenD : Z; xs_PrefixlenS : Z; xs_Proto : Z;
  xs_Ifindex : Z; xs_User : Z }.

#[export] Instance XfrmSelector_struct : GoStruct XfrmSelector := {|
  the_shape := (SBytes 16 +++ SBytes 16 +++ SU 2 +++ SU 2 +++ SU 2 +++ SU 2 +++ SU 2 +++ SU 1
                +++ SU 1 +++ SU 1 +++ SPad 3 +++ SI 4 +++ SU 4)%struct;
  to_fields x := (xs_Daddr x, (xs_Saddr x, (xs_Dport x, (xs_DportMask x, (xs_Sport x,
                 (xs_SportMask x, (xs_Family x, (xs_PrefixlenD x,
                 (xs_PrefixlenS x, (xs_Proto x, (tt, (xs_Ifindex x,
                 xs_User x))))))))))));
  of_fields v := let '(f0, (f1, (f2, (f3, (f4, (f5, (f6, (f7, (f8, (f9, (_, (f11,
                 f12)))))))))))) := v in mkXfrmSelector f0 f1 f2 f3 f4 f5 f6
                 f7 f8 f9 f11 f12;
  of_to_fields := ltac:(struct_law) |}.

Definition XfrmSelector_Serialize `{Endian} : XfrmSelector -> list Z := Serialize.
Definition DeserializeXfrmSelector `{Endian} : slice -> outcome XfrmSelector := Deserialize.

Record XfrmLifetimeCfg : Type := mkXfrmLifetimeCfg {
  lc_SoftByteLimit : Z; lc_HardByteLimit : Z; lc_SoftPacketLimit : Z; lc_HardPacketLimit : Z;
  lc_SoftAddExpiresSeconds : Z; lc_HardAddExpiresSeconds : Z; lc_SoftUseExpiresSeconds : Z;
  lc_HardUseExpiresSeconds : Z }.

#[export] Instance XfrmLifetimeCfg_struct : GoStruct XfrmLifetimeCfg := {|
  the_shape := (SU 8 +++ SU 8 +++ SU 8 +++ SU 8 +++ SU 8 +++ SU 8 +++ SU 8 +++ SU 8)%struct;
  to_fields x := (lc_SoftByteLimit x, (lc_HardByteLimit x, (lc_SoftPacketLimit x,
                 (lc_HardPacketLimit x, (lc_SoftAddExpiresSeconds x,
                 (lc_HardAddExpiresSeconds x, (lc_SoftUseExpiresSeconds x,
                 lc_HardUseExpiresSeconds x)))))));
  of_fields v := let '(f0, (f1, (f2, (f3, (f4, (f5, (f6, f7))))))) := v in mkXfrmLifetimeCfg f0
                 f1 f2 f3 f4 f5 f6 f7;
  of_to_fields := ltac:(struct_law) |}.

Definition XfrmLifetimeCfg_Serialize `{Endian} : XfrmLifetimeCfg -> list Z := Serialize.
Definition DeserializeXfrmLifetimeCfg `{Endian} : slice -> outcome XfrmLifetimeCfg := Deserialize.

Record XfrmLifetimeCur : Type := mkXfrmLifetimeCur {
  lu_Bytes : Z; lu_Packets : Z; lu_AddTime : Z; lu_UseTime : Z }.

#[export] Instance XfrmLifetimeCur_struct : GoStruct XfrmLifetimeCur := {|
  the_shape := (SU 8 +++ SU 8 +++ SU 8 +++ SU 8)%struct;
  to_fields x := (lu_Bytes x, (lu_Packets x, (lu_AddTime x, lu_UseTime x)));
  of_fields v := let '(f0, (f1, (f2, f3))) := v in mkXfrmLifetimeCur f0 f1 f2 f3;
  of_to_fields := ltac:(struct_law) |}.

Definition XfrmLifetimeCur_Serialize `{Endian} : XfrmLifetimeCur -> list Z := Serialize.
Definition DeserializeXfrmLifetimeCur `{Endian} : slice -> outcome XfrmLifetimeCur := Deserialize.

Record XfrmId : Type := mkXfrmId {
  xi_Daddr : list Z; xi_Spi : Z; xi_Proto : Z }.

#[export] Instance XfrmId_struct : GoStruct XfrmId := {|
  the_shape := (SBytes 16 +++ SU 4 +++ SU 1 +++ SPad 3)%struct;
  to_fields x := (xi_Daddr x, (xi_Spi x, (xi_Proto x, tt)));
  of_fields v := let '(f0, (f1, (f2, _))) := v in mkXfrmId f0 f1 f2;
  of_to_fields := ltac:(struct_law) |}.

Definition XfrmId_Serialize `{Endian} : XfrmId -> list Z := Serialize.
Definition DeserializeXfrmId `{Endian} : slice -> outcome XfrmId := Deserialize.

Record XfrmUserpolicyId : Type := mkXfrmUserpolicyId {
  pid_Sel : XfrmSelector; pid_Index : Z; pid_Dir : Z }.

#[export] Instance XfrmUserpolicyId_struct : GoStruct XfrmUserpolicyId := {|
  the_shape := (the_shape XfrmSelector +++ SU 4 +++ SU 1 +++ SPad 3)%struct;
  to_fields x := (to_fields (pid_Sel x), (pid_Index x, (pid_Dir x, tt)));
  of_fields v := let '(f0, (f1, (f2, _))) := v in mkXfrmUserpolicyId (of_fields f0) f1 f2;
  of_to_fields := ltac:(struct_law) |}.

Definition XfrmUserpolicyId_Serialize `{Endian} : XfrmUserpolicyId -> list Z := Serialize.
Definition DeserializeXfrmUserpolicyId `{Endian} : slice -> outcome XfrmUserpolicyId := Deserialize.

Record XfrmUserpolicyInfo : Type := mkXfrmUserpolicyInfo {
  pi_Sel : XfrmSelector; pi_Lft : XfrmLifetimeCfg; pi_Curlft : XfrmLifetimeCur; pi_Priority : Z;
  pi_Index : Z; pi_Dir : Z; pi_Action : Z; pi_Flags : Z; pi_Share : Z }.

#[export] Instance XfrmUserpolicyInfo_struct : GoStruct XfrmUserpolicyInfo := {|
  the_shape := (the_shape XfrmSelector +++ the_shape XfrmLifetimeCfg +++ the_shape
                XfrmLifetimeCur +++ SU 4 +++ SU 4 +++ SU 1 +++ SU 1 +++ SU 1
                +++ SU 1 +++ SPad 4)%struct;
  to_fields x := (to_fields (pi_Sel x), (to_fields (pi_Lft x), (to_fields (pi_Curlft x),
                 (pi_Priority x, (pi_Index x, (pi_Dir x, (pi_Action x,
                 (pi_Flags x, (pi_Share x, tt)))))))));
  of_fields v := let '(f0, (f1, (f2, (f3, (f4, (f5, (f6, (f7, (f8, _))))))))) := v in
                 mkXfrmUserpolicyInfo (of_fields f0) (of_fields f1)
                 (of_fields f2) f3 f4 f5 f6 f7 f8;
  of_to_fields := ltac:(struct_law) |}.

Definition XfrmUserpolicyInfo_Serialize `{Endian} : XfrmUserpolicyInfo -> list Z := Serialize.
Definition DeserializeXfrmUserpolicyInfo `{Endian} : slice -> outcome XfrmUserpolicyInfo := Deserialize.

Record XfrmUserTmpl : Type := mkXfrmUserTmpl {
  ut_XfrmId : XfrmId; ut_Family : Z; ut_Saddr : list Z; ut_Reqid : Z; ut_Mode : Z; ut_Share : Z;
  ut_Optional : Z; ut_Aalgos : Z; ut_Ealgos : Z; ut_Calgos : Z }.

#[export] Instance XfrmUserTmpl_struct : GoStruct XfrmUserTmpl := {|
  the_shape := (the_shape XfrmId +++ SU 2 +++ SPad 2 +++ SBytes 16 +++ SU 4 +++ SU 1 +++ SU 1
                +++ SU 1 +++ SPad 1 +++ SU 4 +++ SU 4 +++ SU 4)%struct;
  to_fields x := (to_fields (ut_XfrmId x), (ut_Family x, (tt, (ut_Saddr x, (ut_Reqid x,
                 (ut_Mode x, (ut_Share x, (ut_Optional x, (tt, (ut_Aalgos x,
                 (ut_Ealgos x, ut_Calgos x)))))))))));
  of_fields v := let '(f0, (f1, (_, (f3, (f4, (f5, (f6, (f7, (_, (f9, (f10,
                 f11))))))))))) := v in mkXfrmUserTmpl (of_fields f0) f1 f3 f4
                 f5 f6 f7 f9 f10 f11;
  of_to_fields := ltac:(struct_law) |}.

Definition XfrmUserTmpl_Serialize `{Endian} : XfrmUserTmpl -> list Z := Serialize.
Definition DeserializeXfrmUserTmpl `{Endian} : slice -> outcome XfrmUserTmpl := Deserialize.

Record XfrmUsersaId : Type := mkXfrmUsersaId {
  sid_Daddr : list Z; sid_Spi : Z; sid_Family : Z; sid_Proto : Z }.

#[export] Instance XfrmUsersaId_struct : GoStruct XfrmUsersaId := {|
  the_shape := (SBytes 16 +++ SU 4 +++ SU 2 +++ SU 1 +++ SPad 1)%struct;
  to_fields x := (sid_Daddr x, (sid_Spi x, (sid_Family x, (sid_Proto x, tt))));
  of_fields v := let '(f0, (f1, (f2, (f3, _)))) := v in mkXfrmUsersaId f0 f1 f2 f3;
  of_to_fields := ltac:(struct_law) |}.

Definition XfrmUsersaId_Serialize `{Endian} : XfrmUsersaId -> list Z := Serialize.
Definition DeserializeXfrmUsersaId `{Endian} : slice -> outcome XfrmUsersaId := Deserialize.

Record XfrmStats : Type := mkXfrmStats {
  st_ReplayWindow : Z; st_Replay : Z; st_IntegrityFailed : Z }.

#[export] Instance XfrmStats_struct : GoStruct XfrmStats := {|
  the_shape := (SU 4 +++ SU 4 +++ SU 4)%struct;
  to_fields x := (st_ReplayWindow x, (st_Replay x, st_IntegrityFailed x));
  of_fields v := let '(f0, (f1, f2)) := v in mkXfrmStats f0 f1 f2;
  of_to_fields := ltac:(struct_law) |}.

Definition XfrmStats_Serialize `{Endian} : XfrmStats -> list Z := Serialize.
Definition DeserializeXfrmStats `{Endian} : slice -> outcome XfrmStats := Deserialize.

Record XfrmUsersaInfo : Type := mkXfrmUsersaInfo {
  si_Sel : XfrmSelector; si_Id : XfrmId; si_Saddr : list Z; si_Lft : XfrmLifetimeCfg; si_Curlft
  : XfrmLifetimeCur; si_Stats : XfrmStats; si_Seq : Z; si_Reqid : Z; si_Family : Z; si_Mode : Z;
  si_ReplayWindow : Z; si_Flags : Z }.

#[export] Instance XfrmUsersaInfo_struct : GoStruct XfrmUsersaInfo := {|
  the_shape := (the_shape XfrmSelector +++ the_shape XfrmId +++ SBytes 16 +++ the_shape
                XfrmLifetimeCfg +++ the_shape XfrmLifetimeCur +++ the_shape
                XfrmStats +++ SU 4 +++ SU 4 +++ SU 2 +++ SU 1 +++ SU 1 +++ SU
                1 +++ SPad 7)%struct;
  to_fields x := (to_fields (si_Sel x), (to_fields (si_Id x), (si_Saddr x,
                 (to_fields (si_Lft x), (to_fields (si_Curlft x),
                 (to_fields (si_Stats x), (si_Seq x, (si_Reqid x,
                 (si_Family x, (si_Mode x, (si_ReplayWindow x, (si_Flags x,
                 tt))))))))))));
  of_fields v := let '(f0, (f1, (f2, (f3, (f4, (f5, (f6, (f7, (f8, (f9, (f10, (f11,
                 _)))))))))))) := v in mkXfrmUsersaInfo (of_fields f0)
                 (of_fields f1) f2 (of_fields f3) (of_fields f4)
                 (of_fields f5) f6 f7 f8 f9 f10 f11;
  of_to_fields := ltac:(struct_law) |}.

Definition XfrmUsersaInfo_Serialize `{Endian} : XfrmUsersaInfo -> list Z := Serialize.
Definition DeserializeXfrmUsersaInfo `{Endian} : slice -> outcome XfrmUsersaInfo := Deserialize.

Record XfrmEncapTmpl : Type := mkXfrmEncapTmpl {
  et_EncapType : Z; et_EncapSport : Z; et_EncapDport : Z; et_EncapOa : list Z }.

#[export] Instance XfrmEncapTmpl_struct : GoStruct XfrmEncapTmpl := {|
  the_shape := (SU 2 +++ SU 2 +++ SU 2 +++ SPad 2 +++ SBytes 16)%struct;
  to_fields x := (et_EncapType x, (et_EncapSport x, (et_EncapDport x, (tt, et_EncapOa x))));
  of_fields v := let '(f0, (f1, (f2, (_, f4)))) := v in mkXfrmEncapTmpl f0 f1 f2 f4;
  of_to_fields := ltac:(struct_law) |}.

Definition XfrmEncapTmpl_Serialize `{Endian} : XfrmEncapTmpl -> list Z := Serialize.
Definition DeserializeXfrmEncapTmpl `{Endian} : slice -> outcome XfrmEncapTmpl := Deserialize.

(** * Algorithms *)

(** The name is an array of 64 bytes; the key follows the struct. *)
Record XfrmAlgo : Type := mkXfrmAlgo { xa_AlgName : list Z; xa_AlgKeyLen : Z; xa_AlgKey : list Z }.
Record XfrmAlgoAuth : Type := mkXfrmAlgoAuth {
  xaa_AlgName : list Z; xaa_AlgKeyLen : Z; xaa_AlgTruncLen : Z; xaa_AlgKey : list Z }.

Definition SizeofXfrmAlgo : nat := 68.
Definition SizeofXfrmAlgoAuth : nat := 72.

Definition XfrmAlgo_Len (m : XfrmAlgo) : nat := SizeofXfrmAlgo + Z.to_nat (xa_AlgKeyLen m / 8).
Definition XfrmAlgoAuth_Len (m : XfrmAlgoAuth) : nat := SizeofXfrmAlgoAuth + Z.to_nat (xaa_AlgKeyLen m / 8).

Section algorithms.
Context {E : Endian}.

(** [*( *uint32)(unsafe.Pointer(&b[i]))]: the index is checked, the three bytes after it are
    read from the array of the slice. *)
Definition uint32_at (b : slice) (i : nat) : outcome Z :=
  if (i <? length (items b))%nat
  then Returned (get_uint (take 4 (drop i (items b ++ spare b))))
  else Halted (GoPanic "index out of range").

Definition DeserializeXfrmAlgo (b : slice) : outcome XfrmAlgo :=
  let? name := sub b 0 64 in
  let? keyLen := uint32_at b 64 in
  let? key := sub b 68 (SizeofXfrmAlgo + Z.to_nat (keyLen / 8)) in
  Returned (mkXfrmAlgo (items name) keyLen (items key)).

Definition XfrmAlgo_Serialize (m : XfrmAlgo) : list Z :=
  let b := replicate (XfrmAlgo_Len m) 0 in
  let b := copy_at b 0 (take 64 (xa_AlgName m)) in
  let b := copy_at b 64 (put_uint 4 (xa_AlgKeyLen m)) in
  copy_at b 68 (xa_AlgKey m).

Definition DeserializeXfrmAlgoAuth (b : slice) : outcome XfrmAlgoAuth :=
  let? name := sub b 0 64 in
  let? keyLen := uint32_at b 64 in
  let? truncLen := uint32_at b 68 in
  let? key := sub b 72 (SizeofXfrmAlgoAuth + Z.to_nat (keyLen / 8)) in
  Returned (mkXfrmAlgoAuth (items name) keyLen truncLen (items key)).

Definition XfrmAlgoAuth_Serialize (m : XfrmAlgoAuth) : list Z :=
  let b := replicate (XfrmAlgoAuth_Len m) 0 in
  let b := copy_at b 0 (take 64 (xaa_AlgName m)) in
  let b := copy_at b 64 (put_uint 4 (xaa_AlgKeyLen m)) in
  let b := copy_at b 68 (put_uint 4 (xaa_AlgTruncLen m)) in
  copy_at b 72 (xaa_AlgKey m).

End algorithms.

(** * Addresses are read back *)

(** Sixteen bytes: an IPv4 address, or an IPv6 address not all zero after its first four bytes. *)
Definition wf_addr (ip : list Z) : Prop :=
  length ip = 16%nat /\ (is_Some (To4 ip) \/ drop 4 ip <> replicate 12 0).

Lemma forallb_replicate v n (l : list Z) :
  forallb (Z.eqb v) l = true -> length l = n -> l = replicate n v.
Proof.
  intros H <-. rewrite forallb_forall in H. symmetry; apply replicate_as_elem_of. split; [done|].
  intros x Hx. apply list_elem_of_In, H, Z.eqb_eq in Hx. done.
Qed.

Lemma To4_mapped ip b :
  length ip = 16%nat -> To4 ip = Some b ->
  b = drop 12 ip /\ length b = 4%nat /\ ip = (replicate 10 0 ++ [0xff; 0xff] ++ b)%list.
Proof.
  intros Hl. unfold To4. rewrite Hl. cbn [Nat.eqb andb].
  destruct (forallb (Z.eqb 0) (take 10 ip)) eqn:H0; [|done].
  destruct (forallb (Z.eqb 255) (take 2 (drop 10 ip))) eqn:H1; [|done]. cbn [andb]. intros [= <-].
  split; [done|]. split; [by rewrite length_drop, Hl|].
  apply (forallb_replicate 0 10) in H0; [|rewrite length_take; lia].
  apply (forallb_replicate 255 2) in H1; [|rewrite length_take, length_drop; lia].
  rewrite <- H0 at 1. change [255; 255] with (replicate 2 255). rewrite <- H1.
  change 12%nat with (10 + 2)%nat. rewrite <- drop_drop, take_drop, take_drop. done.
Qed.

Lemma GetIPFamily_16 ip : length ip = 16%nat ->
  GetIPFamily ip = match To4 ip with Some _ => FAMILY_V4 | None => FAMILY_V6 end.
Proof. intros Hl. unfold GetIPFamily. rewrite Hl. done. Qed.

Lemma FromIP_ToIP ip :
  wf_addr ip -> exists x, FromIP zero_address ip = Returned x /\ length x = 16%nat /\ ToIP x = ip.
Proof.
  intros [Hl Ha]. unfold FromIP. rewrite Hl, GetIPFamily_16 by done. cbn [Nat.ltb Nat.leb].
  destruct (To4 ip) as [b|] eqn:H4.
  - destruct (To4_mapped ip b Hl H4) as (_ & Hb & Hip). cbn. eexists. split; [reflexivity|].
    rewrite take_ge by lia. split; [rewrite length_app, Hb; done|]. unfold ToIP.
    rewrite drop_app_length', take_app_length' by done. rewrite bool_decide_true by done. by symmetry.
  - cbn. unfold To16. rewrite Hl. cbn [Nat.eqb]. eexists. split; [reflexivity|]. rewrite take_ge by lia.
    split; [done|]. unfold ToIP. rewrite bool_decide_false; [done|].
    destruct Ha as [[b Hb]|]; [congruence|done].
Qed.

(** An IPv6 address that ends in twelve zero bytes comes back as an IPv4 address. *)
Lemma ToIP_ambiguous ip :
  length ip = 16%nat -> drop 4 ip = replicate 12 0 ->
  exists x, FromIP zero_address ip = Returned x
  /\ ToIP x = (replicate 10 0 ++ [0xff; 0xff] ++ take 4 ip)%list /\ GetIPFamily ip = FAMILY_V6.
Proof.
  intros Hl Hz.
  assert (To4 ip = None) as H4.
  { destruct (To4 ip) as [b|] eqn:H4; [|done]. apply To4_mapped in H4 as (_ & _ & Hip); [|done].
    rewrite Hip in Hz. discriminate Hz. }
  unfold FromIP. rewrite Hl, GetIPFamily_16, H4 by done. cbn [Nat.ltb Nat.leb]. cbn.
  unfold To16. rewrite Hl. cbn [Nat.eqb]. eexists. split; [reflexivity|].
  rewrite take_ge by lia. unfold ToIP. by rewrite bool_decide_true.
Qed.

(** * Algorithms are read back *)

Section algorithm_facts.
Context {E : Endian}.

Definition algo_bytes (name : list Z) (nums : list Z) (key : list Z) : list Z :=
  (name ++ concat (map (put_uint 4) nums) ++ key)%list.

Lemma XfrmAlgo_Serialize_eq name key :
  length name = 64%nat ->
  XfrmAlgo_Serialize (mkXfrmAlgo name (8 * Z.of_nat (length key)) key)
  = algo_bytes name [8 * Z.of_nat (length key)] key.
Proof.
  intros Hn. unfold XfrmAlgo_Serialize, XfrmAlgo_Len, algo_bytes. cbn [xa_AlgName xa_AlgKeyLen xa_AlgKey].
  rewrite (Z.mul_comm 8), Z.div_mul, Nat2Z.id by lia. rewrite take_ge by lia.
  set (n4 := put_uint 4 _). assert (Hl4 : length n4 = 4%nat) by apply length_put_uint.
  change SizeofXfrmAlgo with (64 + 4)%nat. rewrite !replicate_add, <- app_assoc.
  change (copy_at (replicate 64 0 ++ ?r) 0) with (copy_at ([] ++ replicate 64 0 ++ r) (length (A := Z) [])).
  rewrite copy_at_app by (rewrite length_app, length_replicate; lia).
  rewrite drop_app_length' by (rewrite length_replicate; lia). cbn [app].
  rewrite <- Hn at 1. rewrite copy_at_app by (rewrite length_app, length_replicate; lia).
  rewrite drop_app_length' by (rewrite length_replicate; lia).
  replace 68%nat with (length (name ++ n4)) by (rewrite length_app; lia).
  rewrite app_assoc, copy_at_app by (rewrite length_replicate; lia).
  rewrite drop_ge by (rewrite length_replicate; lia). cbn [map concat]. by rewrite !app_nil_r, <- app_assoc.
Qed.

Lemma XfrmAlgoAuth_Serialize_eq name trunc key :
  length name = 64%nat ->
  XfrmAlgoAuth_Serialize (mkXfrmAlgoAuth name (8 * Z.of_nat (length key)) trunc key)
  = algo_bytes name [8 * Z.of_nat (length key); trunc] key.
Proof.
  intros Hn. unfold XfrmAlgoAuth_Serialize, XfrmAlgoAuth_Len, algo_bytes.
  cbn [xaa_AlgName xaa_AlgKeyLen xaa_AlgTruncLen xaa_AlgKey].
  rewrite (Z.mul_comm 8), Z.div_mul, Nat2Z.id by lia. rewrite take_ge by lia.
  set (n4 := put_uint 4 (_ * 8)). assert (Hl4 : length n4 = 4%nat) by apply length_put_uint.
  set (t4 := put_uint 4 trunc). assert (Ht4 : length t4 = 4%nat) by apply length_put_uint.
  change SizeofXfrmAlgoAuth with (64 + (4 + 4))%nat. rewrite !replicate_add, <- !app_assoc.
  change (copy_at (replicate 64 0 ++ ?r) 0) with (copy_at ([] ++ replicate 64 0 ++ r) (length (A := Z) [])).
  rewrite copy_at_app by (rewrite length_app, length_replicate; lia).
  rewrite drop_app_length' by (rewrite length_replicate; lia). cbn [app].
  rewrite <- Hn at 1. rewrite copy_at_app by (rewrite length_app, length_replicate; lia).
  rewrite drop_app_length' by (rewrite length_replicate; lia).
  replace 72%nat with (length ((name ++ n4) ++ t4)) by (rewrite !length_app; lia).
  replace 68%nat with (length (name ++ n4)) by (rewrite length_app; lia).
  rewrite (app_assoc name n4), copy_at_app by (rewrite length_app, length_replicate; lia).
  rewrite drop_app_length' by (rewrite length_replicate; lia).
  rewrite (app_assoc (name ++ n4)), copy_at_app by (rewrite length_replicate; lia).
  rewrite drop_ge by (rewrite length_replicate; lia). cbn [map concat]. by rewrite !app_nil_r, <- !app_assoc.
Qed.

Lemma sub_mid (l m r sp : list Z) n k :
  length l = n -> (n + length m)%nat = k -> sub (mkSlice (l ++ m ++ r) sp) n k = Returned (mkSlice m (r ++ sp)).
Proof.
  intros <- <-. unfold sub. cbn [items spare]. rewrite !length_app.
  destruct (Nat.leb_spec (length l) (length l + length m)); [|lia].
  destruct (Nat.leb_spec (length l + length m) (length l + (length m + length r) + length sp)); [|lia].
  cbn [andb]. rewrite <- !app_assoc, drop_app_length, Nat.add_comm, Nat.add_sub, take_app_length.
  by rewrite Nat.add_comm, <- drop_drop, !drop_app_length.
Qed.

Lemma sub_end (l m sp : list Z) n k :
  length l = n -> (n + length m)%nat = k -> sub (mkSlice (l ++ m) sp) n k = Returned (mkSlice m sp).
Proof. intros Hl Hm. pose proof (sub_mid l m [] sp n k Hl Hm) as H. by rewrite app_nil_r in H. Qed.

Lemma uint32_at_mid (l r sp : list Z) v n :
  length l = n -> uint32_at (mkSlice (l ++ put_uint 4 v ++ r) sp) n = Returned (uint_n 4 v).
Proof.
  intros <-. unfold uint32_at. cbn [items spare]. rewrite !length_app, length_put_uint.
  destruct (Nat.ltb_spec (length l) (length l + (4 + length r))); [|lia].
  by rewrite <- !app_assoc, drop_app_length, put_field, get_put_uint.
Qed.

Lemma DeserializeXfrmAlgo_bytes name key (d : slice) :
  length name = 64%nat -> 8 * Z.of_nat (length key) < 2 ^ 32 ->
  items d = algo_bytes name [8 * Z.of_nat (length key)] key ->
  DeserializeXfrmAlgo d = Returned (mkXfrmAlgo name (8 * Z.of_nat (length key)) key).
Proof.
  intros Hn Hk. destruct d as [b sp]. cbn [items]. intros ->. unfold algo_bytes. cbn [map concat].
  rewrite app_nil_r. unfold DeserializeXfrmAlgo. rewrite sub_prefix by done. cbn [obind].
  rewrite uint32_at_mid, uint4_small by lia. cbn [obind].
  rewrite (Z.mul_comm 8), Z.div_mul, Nat2Z.id by lia. set (n4 := put_uint 4 _).
  assert (Hl4 : length n4 = 4%nat) by apply length_put_uint.
  rewrite app_assoc, sub_end; [done| |].
  - rewrite length_app; lia.
  - unfold SizeofXfrmAlgo. lia.
Qed.

Lemma DeserializeXfrmAlgoAuth_bytes name trunc key (d : slice) :
  length name = 64%nat -> 8 * Z.of_nat (length key) < 2 ^ 32 -> 0 <= trunc < 2 ^ 32 ->
  items d = algo_bytes name [8 * Z.of_nat (length key); trunc] key ->
  DeserializeXfrmAlgoAuth d = Returned (mkXfrmAlgoAuth name (8 * Z.of_nat (length key)) trunc key).
Proof.
  intros Hn Hk Ht. destruct d as [b sp]. cbn [items]. intros ->. unfold algo_bytes. cbn [map concat].
  rewrite app_nil_r, <- app_assoc. unfold DeserializeXfrmAlgoAuth. rewrite sub_prefix by done. cbn [obind].
  rewrite uint32_at_mid, uint4_small by lia. cbn [obind].
  rewrite (Z.mul_comm 8), Z.div_mul, Nat2Z.id by lia. set (n4 := put_uint 4 (_ * 8)).
  assert (Hl4 : length n4 = 4%nat) by apply length_put_uint.
  rewrite (app_assoc name), uint32_at_mid, uint4_small by (rewrite ?length_app; lia). cbn [obind].
  set (t4 := put_uint 4 trunc). assert (Ht4 : length t4 = 4%nat) by apply length_put_uint.
  rewrite (app_assoc _ t4), sub_end; [done| |].
  - rewrite !length_app; lia.
  - unfold SizeofXfrmAlgoAuth. lia.
Qed.

(** A name of less than 64 bytes, none of them zero. *)
Definition wf_name (name : string) : Prop :=
  (String.length name < 64)%nat /\ Forall (fun z => z <> 0) (str_bytes name).

Lemma index_zero_name (b : list Z) n :
  Forall (fun z => z <> 0) b -> index_zero (b ++ replicate (S n) 0) = Some (length b).
Proof.
  induction 1 as [|z b Hz _ IH]; [done|]. cbn [app index_zero length].
  destruct (Z.eqb_spec z 0); [done|]. by rewrite IH.
Qed.

Lemma BytesToString_name name : wf_name name ->
  BytesToString (resize 64 0 (str_bytes name)) = Returned name.
Proof.
  intros [Hl Hz]. unfold BytesToString. rewrite resize_ge by (rewrite length_str_bytes; lia).
  rewrite length_str_bytes. destruct (64 - String.length name)%nat as [|n] eqn:Hn; [lia|].
  rewrite index_zero_name by done. by rewrite take_app_length, bytes_str_bytes.
Qed.

(** A name of 64 bytes has no zero byte after it: reading it back panics. *)
Lemma BytesToString_long name :
  String.length name = 64%nat -> Forall (fun z => z <> 0) (str_bytes name) ->
  BytesToString (resize 64 0 (str_bytes name)) = slice_panic.
Proof.
  intros Hl Hz. rewrite resize_all_alt by (rewrite length_str_bytes; lia). unfold BytesToString.
  assert (index_zero (str_bytes name) = None) as ->; [|done].
  clear Hl. induction Hz as [|z b Hz _ IH]; [done|]. cbn [index_zero].
  destruct (Z.eqb_spec z 0); [done|]. by rewrite IH.
Qed.

End algorithm_facts.
