(* ===== verification/NetlinkXfrm.v ===== *)
(** vishvananda/netlink, IPsec (xfrm.go, xfrm_policy.go, xfrm_policy_linux.go, xfrm_state.go,
    xfrm_state_linux.go): policies and states, added, deleted and listed.

    The templates of a policy are written through pointers into one buffer; the buffer is the
    bytes of the templates, one after the other. *)

From S2P Require Import Prelude NetIP Nl NlStruct TcRate NlSock Netlink NetlinkVeth NetlinkRead NetlinkAddr.
From S2P Require Import NetlinkRoute NetlinkTc NetlinkFilter NlXfrm.

Local Open Scope go_scope.
Local Open Scope nl_scope.
Local Open Scope Z_scope.

(** * Enumerations *)

Definition XFRM_PROTO_ROUTE2 : Z := 43.
Definition XFRM_PROTO_ESP : Z := 50.
Definition XFRM_PROTO_AH : Z := 51.
Definition XFRM_PROTO_HAO : Z := 60.
Definition XFRM_PROTO_COMP : Z := 108.
Definition XFRM_PROTO_IPSEC_ANY : Z := 255.

Definition Proto_String (p : Z) : string :=
  if p =? XFRM_PROTO_ROUTE2 then "route2"
  else if p =? XFRM_PROTO_ESP then "esp"
  else if p =? XFRM_PROTO_AH then "ah"
  else if p =? XFRM_PROTO_HAO then "hao"
  else if p =? XFRM_PROTO_COMP then "comp"
  else if p =? XFRM_PROTO_IPSEC_ANY then "ipsec-any"
  else pretty p.

Definition Mode_String (m : Z) : string :=
  if m =? 0 then "transport"
  else if m =? 1 then "tunnel"
  else if m =? 2 then "ro"
  else if m =? 3 then "in_trigger"
  else if m =? 4 then "beet"
  else pretty m.

(** The difference is taken in eight bits. *)
Definition Dir_String (d : Z) : string :=
  if d =? 0 then "dir in"
  else if d =? 1 then "dir out"
  else if d =? 2 then "dir fwd"
  else if d =? 3 then "socket in"
  else if d =? 4 then "socket out"
  else if d =? 5 then "socket fwd"
  else ("socket " +:+ pretty (uint_n 1 (d - 3)))%string.

Definition EncapType_String (e : Z) : string :=
  if e =? 1 then "espinudp-nonike" else if e =? 2 then "espinudp" else "unknown".

(** * Policies and states *)

Record XfrmPolicyTmpl : Type := mkTmpl {
  t_Dst : list Z; t_Src : list Z; t_Proto : Z; t_Mode : Z; t_Reqid : Z }.

Record XfrmPolicy : Type := mkPolicy {
  p_Dst : option IPNet; p_Src : option IPNet; p_Dir : Z; p_Priority : Z; p_Index : Z;
  p_Tmpls : list XfrmPolicyTmpl }.

Record XfrmStateAlgo : Type := mkAlgo { alg_Name : string; alg_Key : list Z; alg_TruncateLen : Z }.

Record XfrmStateEncap : Type := mkEncap {
  enc_Type : Z; enc_SrcPort : Z; enc_DstPort : Z; enc_OriginalAddress : list Z }.

Record XfrmState : Type := mkState {
  s_Dst : list Z; s_Src : list Z; s_Proto : Z; s_Mode : Z; s_Spi : Z; s_Reqid : Z; s_ReplayWindow : Z;
  s_Auth : option XfrmStateAlgo; s_Crypt : option XfrmStateAlgo; s_Encap : option XfrmStateEncap }.

Definition NETLINK_XFRM : Z := 6.

Section xfrm.
Context {E : Endian} {W : Type} {K : Kernel W} (rounds : nat).

(** ** Policies *)

Definition deref {A} (o : option A) : outcome A :=
  match o with
  | Some a => Returned a
  | None => Halted (GoPanic "nil pointer dereference")
  end.

Definition selFromPolicy (policy : XfrmPolicy) : outcome XfrmSelector :=
  let? dst := deref (p_Dst policy) in
  let? daddr := FromIP zero_address (IP dst) in
  let? src := deref (p_Src policy) in
  let? saddr := FromIP zero_address (IP src) in
  Returned (mkXfrmSelector daddr saddr 0 0 0 0 (uint_n 2 (GetIPFamily (IP dst)))
              (uint_n 1 (Size (Mask dst)).1) (uint_n 1 (Size (Mask src)).1) 0 0 0).

Definition no_limits : XfrmLifetimeCfg := mkXfrmLifetimeCfg XFRM_INF XFRM_INF XFRM_INF XFRM_INF 0 0 0 0.
Definition no_use : XfrmLifetimeCur := mkXfrmLifetimeCur 0 0 0 0.

Definition user_tmpl (tmpl : XfrmPolicyTmpl) : outcome XfrmUserTmpl :=
  let? daddr := FromIP zero_address (t_Dst tmpl) in
  let? saddr := FromIP zero_address (t_Src tmpl) in
  Returned (mkXfrmUserTmpl (mkXfrmId daddr 0 (uint_n 1 (t_Proto tmpl))) 0 saddr (uint_n 4 (t_Reqid tmpl))
              (uint_n 1 (t_Mode tmpl)) 0 0 (2 ^ 32 - 1) (2 ^ 32 - 1) (2 ^ 32 - 1)).

(** The loop over the templates: the buffer. *)
Fixpoint tmpl_data (tmpls : list XfrmPolicyTmpl) : outcome (list Z) :=
  match tmpls with
  | [] => Returned []
  | tmpl :: tmpls' =>
      let? t := user_tmpl tmpl in
      let? rest := tmpl_data tmpls' in
      Returned (XfrmUserTmpl_Serialize t ++ rest)%list
  end.

Definition policy_data (policy : XfrmPolicy) : outcome (list request_data) :=
  let? sel := selFromPolicy policy in
  let msg := mkXfrmUserpolicyInfo sel no_limits no_use (uint_n 4 (p_Priority policy))
               (uint_n 4 (p_Index policy)) (uint_n 1 (p_Dir policy)) 0 0 0 in
  let? tmplData := tmpl_data (p_Tmpls policy) in
  Returned (DataOf msg :: (if (0 <? length tmplData)%nat
                           then [NewRtAttr XFRMA_TMPL (Some tmplData)] else [])).

(** A request made of data that may panic. *)
Definition xfrm_request (cmd flags : Z) (data : outcome (list request_data)) : M W (option nl_error) :=
  let* req := new_request cmd flags in
  let* ds := mlift data in
  let* r := Execute rounds (fold_left AddData ds req) NETLINK_XFRM 0 in
  mret (err_of r).

Definition XfrmPolicyAdd (policy : XfrmPolicy) : M W (option nl_error) :=
  xfrm_request XFRM_MSG_NEWPOLICY (Z.lor (Z.lor NLM_F_CREATE NLM_F_EXCL) NLM_F_ACK) (policy_data policy).

Definition XfrmPolicyDel (policy : XfrmPolicy) : M W (option nl_error) :=
  xfrm_request XFRM_MSG_DELPOLICY NLM_F_ACK
    (let? sel := selFromPolicy policy in
     Returned [DataOf (mkXfrmUserpolicyId sel (uint_n 4 (p_Index policy)) (uint_n 1 (p_Dir policy)))]).

(** The loop over the value of XFRMA_TMPL; the slice expression may reach past its end. *)
Fixpoint read_tmpls (fuel : nat) (v : slice) (i : nat) : outcome (list XfrmPolicyTmpl) :=
  match fuel with
  | O => Returned []
  | S fuel' =>
      if (i <? length (items v))%nat then
        let? b := sub v i (i + Sizeof XfrmUserTmpl) in
        let? t := DeserializeXfrmUserTmpl b in
        let? rest := read_tmpls fuel' v (i + Sizeof XfrmUserTmpl) in
        Returned (mkTmpl (ToIP (xi_Daddr (ut_XfrmId t))) (ToIP (ut_Saddr t)) (xi_Proto (ut_XfrmId t))
                         (ut_Mode t) (ut_Reqid t) :: rest)
      else Returned []
  end.

Definition policy_step (p : XfrmPolicy) (t : Z) (v : slice) : outcome XfrmPolicy :=
  if t =? XFRMA_TMPL then
    let? tmpls := read_tmpls (length (items v)) v 0 in
    Returned (mkPolicy (p_Dst p) (p_Src p) (p_Dir p) (p_Priority p) (p_Index p) (p_Tmpls p ++ tmpls)%list)
  else Returned p.

Definition read_policy (family : Z) (m : slice) : outcome (option (option XfrmPolicy)) :=
  let? msg := DeserializeXfrmUserpolicyInfo m in
  let sel := pi_Sel msg in
  if negb (family =? FAMILY_ALL) && negb (family =? xs_Family sel) then Returned (Some None)
  else
    let policy := mkPolicy (Some (ToIPNet (xs_Daddr sel) (xs_PrefixlenD sel)))
                           (Some (ToIPNet (xs_Saddr sel) (xs_PrefixlenS sel)))
                           (pi_Dir msg) (pi_Priority msg) (pi_Index msg) [] in
    let? body := sub_from m (Sizeof XfrmUserpolicyInfo) in
    let? r := nested policy_step body policy in
    Returned (option_map Some r).

(** The dump of policies or states of a family. *)
Definition xfrm_list {A} (cmd resType : Z) (read : slice -> outcome (option (option A))) (family : Z)
    : M W (nl_error + list A) :=
  let* req := new_request cmd NLM_F_DUMP in
  let* r := Execute rounds (AddData req (DIfInfo (NewIfInfomsg family))) NETLINK_XFRM resType in
  match r with
  | inl err => mret (inl err)
  | inr msgs =>
      let* r := mlift (read_all read msgs) in
      mret (match r with Some l => inr l | None => inl (Errno EINVAL) end)
  end.

Definition XfrmPolicyList (family : Z) : M W (nl_error + list XfrmPolicy) :=
  xfrm_list XFRM_MSG_GETPOLICY XFRM_MSG_NEWPOLICY (read_policy family) family.

(** ** States *)

Definition algo_name (name : string) : list Z := resize 64 0 (str_bytes name).

Definition writeStateAlgo (a : XfrmStateAlgo) : list Z :=
  XfrmAlgo_Serialize (mkXfrmAlgo (algo_name (alg_Name a)) (uint_n 4 (8 * Z.of_nat (length (alg_Key a))))
                                 (alg_Key a)).

Definition writeStateAlgoAuth (a : XfrmStateAlgo) : list Z :=
  XfrmAlgoAuth_Serialize (mkXfrmAlgoAuth (algo_name (alg_Name a))
    (uint_n 4 (8 * Z.of_nat (length (alg_Key a)))) (uint_n 4 (alg_TruncateLen a)) (alg_Key a)).

Definition encap_tmpl (e : XfrmStateEncap) : outcome XfrmEncapTmpl :=
  let? oa := FromIP zero_address (enc_OriginalAddress e) in
  Returned (mkXfrmEncapTmpl (uint_n 2 (enc_Type e)) (Swap16 (uint_n 2 (enc_SrcPort e)))
                            (Swap16 (uint_n 2 (enc_DstPort e))) oa).

Definition zero_selector : XfrmSelector :=
  mkXfrmSelector zero_address zero_address 0 0 0 0 0 0 0 0 0 0.

Definition state_data (state : XfrmState) : outcome (list request_data) :=
  let? daddr := FromIP zero_address (s_Dst state) in
  let? saddr := FromIP zero_address (s_Src state) in
  let msg := mkXfrmUsersaInfo zero_selector
               (mkXfrmId daddr (Swap32 (uint_n 4 (s_Spi state))) (uint_n 1 (s_Proto state))) saddr
               no_limits no_use (mkXfrmStats 0 0 0) 0 (uint_n 4 (s_Reqid state))
               (uint_n 2 (GetIPFamily (s_Dst state))) (uint_n 1 (s_Mode state))
               (uint_n 1 (s_ReplayWindow state)) 0 in
  let auth := match s_Auth state with
              | Some a => [NewRtAttr XFRMA_ALG_AUTH_TRUNC (Some (writeStateAlgoAuth a))]
              | None => []
              end in
  let crypt := match s_Crypt state with
               | Some a => [NewRtAttr XFRMA_ALG_CRYPT (Some (writeStateAlgo a))]
               | None => []
               end in
  let? encap := match s_Encap state with
                | Some e => let? t := encap_tmpl e in
                            Returned [NewRtAttr XFRMA_ENCAP (Some (XfrmEncapTmpl_Serialize t))]
                | None => Returned []
                end in
  Returned (DataOf msg :: auth ++ crypt ++ encap)%list.

Definition XfrmStateAdd (state : XfrmState) : M W (option nl_error) :=
  if s_Spi state =? 0 then mret (Some (Text (errors_New "Spi must be set when adding xfrm state.")))
  else xfrm_request XFRM_MSG_NEWSA (Z.lor (Z.lor NLM_F_CREATE NLM_F_EXCL) NLM_F_ACK) (state_data state).

Definition XfrmStateDel (state : XfrmState) : M W (option nl_error) :=
  xfrm_request XFRM_MSG_DELSA NLM_F_ACK
    (let? daddr := FromIP zero_address (s_Dst state) in
     let msg := mkXfrmUsersaId daddr (Swap32 (uint_n 4 (s_Spi state)))
                  (uint_n 2 (GetIPFamily (s_Dst state))) (uint_n 1 (s_Proto state)) in
     let? saddr := FromIP zero_address (s_Src state) in
     Returned [DataOf msg; NewRtAttr XFRMA_SRCADDR (Some saddr)]).

Definition set_algos (auth crypt : option XfrmStateAlgo) (s : XfrmState) : XfrmState :=
  mkState (s_Dst s) (s_Src s) (s_Proto s) (s_Mode s) (s_Spi s) (s_Reqid s) (s_ReplayWindow s)
          auth crypt (s_Encap s).
Definition set_encap (e : option XfrmStateEncap) (s : XfrmState) : XfrmState :=
  mkState (s_Dst s) (s_Src s) (s_Proto s) (s_Mode s) (s_Spi s) (s_Reqid s) (s_ReplayWindow s)
          (s_Auth s) (s_Crypt s) e.

(** The kernel sends the authentication twice: XFRMA_ALG_AUTH does not change the length of
    the tag that XFRMA_ALG_AUTH_TRUNC gave. *)
Definition state_step (s : XfrmState) (t : Z) (v : slice) : outcome XfrmState :=
  if (t =? XFRMA_ALG_AUTH) || (t =? XFRMA_ALG_CRYPT) then
    let? algo := DeserializeXfrmAlgo v in
    let? name := BytesToString (xa_AlgName algo) in
    if t =? XFRMA_ALG_AUTH
    then let trunc := match s_Auth s with Some a => alg_TruncateLen a | None => 0 end in
         Returned (set_algos (Some (mkAlgo name (xa_AlgKey algo) trunc)) (s_Crypt s) s)
    else Returned (set_algos (s_Auth s) (Some (mkAlgo name (xa_AlgKey algo) 0)) s)
  else if t =? XFRMA_ALG_AUTH_TRUNC then
    let? algo := DeserializeXfrmAlgoAuth v in
    let? name := BytesToString (xaa_AlgName algo) in
    Returned (set_algos (Some (mkAlgo name (xaa_AlgKey algo) (xaa_AlgTruncLen algo))) (s_Crypt s) s)
  else if t =? XFRMA_ENCAP then
    let? encap := DeserializeXfrmEncapTmpl v in
    Returned (set_encap (Some (mkEncap (uint_n 1 (et_EncapType encap)) (Swap16 (et_EncapSport encap))
                                       (Swap16 (et_EncapDport encap)) (ToIP (et_EncapOa encap)))) s)
  else Returned s.

Definition read_state (family : Z) (m : slice) : outcome (option (option XfrmState)) :=
  let? msg := DeserializeXfrmUsersaInfo m in
  if negb (family =? FAMILY_ALL) && negb (family =? si_Family msg) then Returned (Some None)
  else
    let state := mkState (ToIP (xi_Daddr (si_Id msg))) (ToIP (si_Saddr msg)) (xi_Proto (si_Id msg))
                         (si_Mode msg) (Swap32 (xi_Spi (si_Id msg))) (si_Reqid msg) (si_ReplayWindow msg)
                         None None None in
    let? body := sub_from m (Sizeof XfrmUsersaInfo) in
    let? r := nested state_step body state in
    Returned (option_map Some r).

Definition XfrmStateList (family : Z) : M W (nl_error + list XfrmState) :=
  xfrm_list XFRM_MSG_GETSA XFRM_MSG_NEWSA (read_state family) family.

End xfrm.

(** * What is sent can be read *)

Section xfrm_wire.
Context {E : Endian}.

Definition u8 (z : Z) : Prop := 0 <= z < 256.
Definition u16 (z : Z) : Prop := 0 <= z < 65536.

Definition wf_algo (a : XfrmStateAlgo) : Prop :=
  wf_name (alg_Name a) /\ (length (alg_Key a) <= 256)%nat /\ u32 (alg_TruncateLen a).

Definition wf_encap (e : XfrmStateEncap) : Prop :=
  u8 (enc_Type e) /\ u16 (enc_SrcPort e) /\ u16 (enc_DstPort e) /\ wf_addr (enc_OriginalAddress e).

(** A state whose addresses have sixteen bytes and come back from the wire, whose algorithms have
    names and keys that fit, and whose numbers are of their types. *)
Definition wf_state (s : XfrmState) : Prop :=
  wf_addr (s_Dst s) /\ wf_addr (s_Src s) /\ u8 (s_Proto s) /\ u8 (s_Mode s) /\ u32 (s_Spi s)
  /\ u32 (s_Reqid s) /\ u8 (s_ReplayWindow s)
  /\ match s_Auth s with Some a => wf_algo a | None => True end
  /\ match s_Crypt s with Some a => wf_algo a /\ alg_TruncateLen a = 0 | None => True end
  /\ match s_Encap s with Some e => wf_encap e | None => True end.

Lemma length_algo_name name : length (algo_name name) = 64%nat.
Proof. apply length_resize. Qed.

Lemma writeStateAlgo_eq a :
  wf_algo a -> writeStateAlgo a = algo_bytes (algo_name (alg_Name a)) [8 * Z.of_nat (length (alg_Key a))] (alg_Key a).
Proof.
  intros (_ & Hk & _). unfold writeStateAlgo. rewrite uint4_small by lia.
  apply XfrmAlgo_Serialize_eq, length_algo_name.
Qed.

Lemma writeStateAlgoAuth_eq a :
  wf_algo a ->
  writeStateAlgoAuth a
  = algo_bytes (algo_name (alg_Name a)) [8 * Z.of_nat (length (alg_Key a)); alg_TruncateLen a] (alg_Key a).
Proof.
  intros (_ & Hk & Ht). unfold writeStateAlgoAuth. rewrite !uint4_small by (done || lia).
  apply XfrmAlgoAuth_Serialize_eq, length_algo_name.
Qed.

Lemma length_algo_bytes name nums key :
  length (algo_bytes name nums key) = (length name + (4 * length nums + length key))%nat.
Proof.
  unfold algo_bytes. rewrite !length_app. do 2 f_equal. induction nums as [|n nums IH]; [done|].
  cbn [map concat length]. rewrite length_app, length_put_uint, IH. lia.
Qed.

Lemma reads_auth s a :
  wf_algo a -> reads state_step [NewRtAttr XFRMA_ALG_AUTH_TRUNC (Some (writeStateAlgoAuth a))] s
                 (set_algos (Some a) (s_Crypt s) s).
Proof.
  intros Ha. pose proof Ha as (Hn & Hk & Ht). apply reads_leaf. intros d Hd. unfold state_step. tc_branch.
  rewrite writeStateAlgoAuth_eq in Hd by done. cbn [orb].
  rewrite (DeserializeXfrmAlgoAuth_bytes _ (alg_TruncateLen a) (alg_Key a) d (length_algo_name _) ltac:(lia) Ht Hd). cbn [obind].
  cbn [xaa_AlgName xaa_AlgKey xaa_AlgTruncLen]. unfold algo_name. rewrite BytesToString_name by done.
  by destruct a.
Qed.

Lemma reads_crypt s a :
  wf_algo a -> alg_TruncateLen a = 0 ->
  reads state_step [NewRtAttr XFRMA_ALG_CRYPT (Some (writeStateAlgo a))] s (set_algos (s_Auth s) (Some a) s).
Proof.
  intros Ha Ht0. pose proof Ha as (Hn & Hk & Ht). apply reads_leaf. intros d Hd. unfold state_step. tc_branch.
  rewrite writeStateAlgo_eq in Hd by done. cbn [orb].
  rewrite (DeserializeXfrmAlgo_bytes _ (alg_Key a) d (length_algo_name _) ltac:(lia) Hd). cbn [obind].
  cbn [xa_AlgName xa_AlgKey]. unfold algo_name. rewrite BytesToString_name by done.
  destruct a. cbn in *. by subst.
Qed.

Lemma encap_tmpl_read e :
  wf_encap e -> exists t, encap_tmpl e = Returned t /\ fits t
  /\ mkEncap (uint_n 1 (et_EncapType t)) (Swap16 (et_EncapSport t)) (Swap16 (et_EncapDport t)) (ToIP (et_EncapOa t)) = e.
Proof.
  intros (Ht & Hs & Hd & Ha). destruct (FromIP_ToIP _ Ha) as (x & Hx & Hl & Hi). unfold encap_tmpl. rewrite Hx.
  cbn [obind]. eexists. split; [reflexivity|]. unfold u8, u16 in *.
  rewrite !uint2_small by (done || lia).
  pose proof (Swap16_range _ Hs). pose proof (Swap16_range _ Hd).
  split; [unfold fits; cbn; split_and!; lia|].
  cbn [et_EncapType et_EncapSport et_EncapDport et_EncapOa]. rewrite !Swap16_involutive, uint1_small, Hi by done.
  by destruct e.
Qed.

Lemma reads_encap s e t :
  fits t -> mkEncap (uint_n 1 (et_EncapType t)) (Swap16 (et_EncapSport t)) (Swap16 (et_EncapDport t))
              (ToIP (et_EncapOa t)) = e ->
  reads state_step [NewRtAttr XFRMA_ENCAP (Some (XfrmEncapTmpl_Serialize t))] s (set_encap (Some e) s).
Proof.
  intros Ht <-. apply reads_leaf. intros d Hd. unfold state_step. tc_branch. cbn [orb].
  unfold DeserializeXfrmEncapTmpl. by rewrite (Deserialize_exact t d).
Qed.

(** The message of a state, and the attributes after it. *)
Lemma state_data_read s :
  wf_state s ->
  exists msg attrs, state_data s = Returned (DataOf msg :: attrs) /\ fits msg
  /\ ToIP (xi_Daddr (si_Id msg)) = s_Dst s /\ ToIP (si_Saddr msg) = s_Src s
  /\ xi_Proto (si_Id msg) = s_Proto s /\ si_Mode msg = s_Mode s /\ Swap32 (xi_Spi (si_Id msg)) = s_Spi s
  /\ si_Reqid msg = s_Reqid s /\ si_ReplayWindow msg = s_ReplayWindow s
  /\ si_Family msg = GetIPFamily (s_Dst s)
  /\ Forall (fits_in 400) attrs /\ (length attrs <= 3)%nat
  /\ forall s0, s_Auth s0 = None -> s_Crypt s0 = None -> s_Encap s0 = None ->
       reads state_step attrs s0 (set_encap (s_Encap s) (set_algos (s_Auth s) (s_Crypt s) s0)).
Proof.
  destruct s as [dst src proto mode spi reqid rw auth crypt encap].
  intros (Hdst & Hsrc & Hp & Hm & Hspi & Hr & Hrw & Ha & Hc & He).
  cbn [s_Dst s_Src s_Proto s_Mode s_Spi s_Reqid s_ReplayWindow s_Auth s_Crypt s_Encap] in *.
  destruct (FromIP_ToIP _ Hdst) as (xd & Hxd & Hld & Hid).
  destruct (FromIP_ToIP _ Hsrc) as (xs & Hxs & Hls & His).
  assert (exists eattrs, match encap with
            | Some e => let? t := encap_tmpl e in Returned [NewRtAttr XFRMA_ENCAP (Some (XfrmEncapTmpl_Serialize t))]
            | None => Returned []
            end = Returned eattrs /\ Forall (fits_in 400) eattrs /\ (length eattrs <= 1)%nat
          /\ forall s0, s_Encap s0 = None -> reads state_step eattrs s0 (set_encap encap s0))
    as (eattrs & Heq & Hef & Hel & Her).
  { destruct encap as [e|].
    - destruct (encap_tmpl_read e He) as (t & -> & Ht & Hte). eexists. split; [reflexivity|].
      split; [apply List.Forall_cons; [apply fits_in_struct; by apply Nat.leb_le|done]|]. split; [done|].
      intros s0 _. by apply reads_encap.
    - eexists. split; [reflexivity|]. split; [done|]. split; [cbn; lia|]. intros s0 Hs0.
      destruct s0; cbn in *; subst. apply reads_nil. }
  unfold state_data. cbn [s_Dst s_Src s_Proto s_Mode s_Spi s_Reqid s_ReplayWindow s_Auth s_Crypt s_Encap].
  rewrite Hxd, Hxs. cbn [obind]. rewrite Heq. cbn [obind]. eexists _, _. split; [reflexivity|].
  cbn [si_Id si_Saddr si_Mode si_Reqid si_ReplayWindow si_Family xi_Daddr xi_Proto xi_Spi].
  unfold u8, u32 in *. rewrite !uint1_small, !uint4_small by done.
  assert (0 <= GetIPFamily dst < 65536) as Hfam
    by (unfold GetIPFamily; destruct (_ <=? _)%nat, (To4 dst); by vm_compute).
  rewrite !uint2_small by done. pose proof (Swap32_range _ Hspi) as Hsw. split.
  { unfold fits. cbn. unfold XFRM_INF. split_and!; try done; lia. }
  do 2 (split; [done|]). do 2 (split; [done|]). split; [by apply Swap32_involutive|]. do 3 (split; [done|]).
  assert (forall t name nums key, length name = 64%nat -> (length nums <= 2)%nat -> (length key <= 256)%nat ->
            fits_in 400 (NewRtAttr t (Some (algo_bytes name nums key)))) as Hab.
  { intros t name nums key H1 H2 H3. apply fits_in_attr. cbn [bytes_of default]. unfold id.
    rewrite length_algo_bytes, children_len_nil. pose proof (rtaAlignOf_bounds (length name + (4 * length nums + length key))).
    lia. }
  split.
  { repeat apply Forall_app_2; [| |done].
    - destruct auth as [a|]; [|done]. apply List.Forall_cons; [|done].
      rewrite writeStateAlgoAuth_eq by done. apply Hab; [apply length_algo_name|cbn; lia|apply Ha].
    - destruct crypt as [a|]; [|done]. destruct Hc as [Hc _]. apply List.Forall_cons; [|done].
      rewrite writeStateAlgo_eq by done. apply Hab; [apply length_algo_name|cbn; lia|apply Hc]. }
  split. { rewrite !length_app. destruct auth, crypt; cbn [length]; lia. }
  intros s0 Ha0 Hc0 He0.
  apply (reads_app _ _ _ _ (set_algos auth None s0)).
  { destruct auth as [a|].
    - pose proof (reads_auth s0 a Ha) as H. by rewrite Hc0 in H.
    - destruct s0; cbn in *; subst. apply reads_nil. }
  apply (reads_app _ _ _ _ (set_algos auth crypt s0)); [|by apply Her].
  destruct crypt as [a|]; [destruct Hc as [Hc Hc1]; by apply (reads_crypt (set_algos auth None s0))|apply reads_nil].
Qed.

(** What XfrmStateAdd writes, XfrmStateList reads, of its family or of all. *)
Lemma read_state_data s data sp family :
  wf_state s -> state_data s = Returned data -> family = FAMILY_ALL \/ family = GetIPFamily (s_Dst s) ->
  read_state family (mkSlice (concat (map layout data)) sp) = Returned (Some (Some s))
  /\ (length (concat (map layout data)) <= 3900)%nat.
Proof.
  intros Hw Hd Hf. destruct (state_data_read s Hw) as (msg & attrs & Hdata & Hfit & H1 & H2 & H3 & H4 & H5 & H6 & H7
    & H8 & Hin & Hlen & Hr). rewrite Hd in Hdata. injection Hdata as ->. cbn [map concat].
  rewrite layout_DataOf by done. split.
  - unfold read_state, DeserializeXfrmUsersaInfo. rewrite Deserialize_Serialize by done. cbn [obind].
    rewrite H8. assert (negb (family =? FAMILY_ALL) && negb (family =? GetIPFamily (s_Dst s)) = false) as ->.
    { destruct Hf as [->| ->]; [done|]. by rewrite Z.eqb_refl, andb_false_r. }
    rewrite sub_from_body by apply length_Serialize. cbn [obind]. unfold nested.
    destruct (ParseRouteAttr_layout attrs sp) as (ras & -> & Hv).
    { eapply Forall_impl; [exact Hin|]. intros d. by apply fits_in_small. }
    cbn [obind]. rewrite (Hr (mkState _ _ _ _ _ _ _ None None None) eq_refl eq_refl eq_refl ras Hv).
    cbn [obind option_map]. unfold set_encap, set_algos. cbn. rewrite H1, H2, H3, H4, H5, H6, H7. by destruct s.
  - rewrite length_app, length_Serialize. pose proof (fits_in_total _ _ Hin) as Ht.
    change (Sizeof XfrmUsersaInfo) with 224%nat. nia.
Qed.

(** ** Policies *)

(** A net as it comes back: an address of sixteen bytes and a mask of its family. *)
Definition wf_net (n : IPNet) : Prop :=
  wf_addr (IP n) /\ exists len, 0 <= len <= (if GetIPFamily (IP n) =? FAMILY_V4 then 32 else 128)
    /\ Mask n = CIDRMask len (if GetIPFamily (IP n) =? FAMILY_V4 then 32 else 128).

Definition wf_tmpl (t : XfrmPolicyTmpl) : Prop :=
  wf_addr (t_Dst t) /\ wf_addr (t_Src t) /\ u8 (t_Proto t) /\ u8 (t_Mode t) /\ u32 (t_Reqid t).

Definition wf_policy (p : XfrmPolicy) (dst src : IPNet) : Prop :=
  p_Dst p = Some dst /\ p_Src p = Some src /\ wf_net dst /\ wf_net src /\ u8 (p_Dir p)
  /\ u32 (p_Priority p) /\ u32 (p_Index p) /\ Forall wf_tmpl (p_Tmpls p) /\ (length (p_Tmpls p) <= 6)%nat.

Lemma net_read n :
  wf_net n -> exists x, FromIP zero_address (IP n) = Returned x /\ length x = 16%nat
  /\ u8 (Size (Mask n)).1 /\ ToIPNet x (Size (Mask n)).1 = n.
Proof.
  intros (Ha & len & Hl & Hm). destruct (FromIP_ToIP _ Ha) as (x & Hx & Hlen & Hi). exists x.
  split; [done|]. split; [done|].
  rewrite Hm, Size_CIDRMask; [|destruct (_ =? _); tauto|done]. cbn [fst].
  split; [unfold u8; destruct (_ =? _); lia|]. unfold ToIPNet. rewrite Hi, <- Hm. by destruct n.
Qed.

Lemma tmpl_read t :
  wf_tmpl t -> exists u, user_tmpl t = Returned u /\ fits u
  /\ mkTmpl (ToIP (xi_Daddr (ut_XfrmId u))) (ToIP (ut_Saddr u)) (xi_Proto (ut_XfrmId u)) (ut_Mode u) (ut_Reqid u) = t.
Proof.
  intros (Hd & Hs & Hp & Hm & Hr). destruct (FromIP_ToIP _ Hd) as (xd & Hxd & Hld & Hid).
  destruct (FromIP_ToIP _ Hs) as (xs & Hxs & Hls & His). unfold user_tmpl. rewrite Hxd, Hxs. cbn [obind].
  eexists. split; [reflexivity|]. unfold u8, u32 in *. rewrite !uint1_small, !uint4_small by done.
  split; [unfold fits; cbn; split_and!; try done; lia|].
  cbn [ut_XfrmId ut_Saddr ut_Mode ut_Reqid xi_Daddr xi_Proto]. rewrite Hid, His. by destruct t.
Qed.

Lemma read_tmpls_spec tmpls fuel front sp :
  Forall wf_tmpl tmpls -> (length tmpls <= fuel)%nat ->
  exists b, tmpl_data tmpls = Returned b /\ length b = (64 * length tmpls)%nat
  /\ read_tmpls fuel (mkSlice (front ++ b) sp) (length front) = Returned tmpls.
Proof.
  intros Ht. revert fuel front. induction Ht as [|t tmpls Ht _ IH]; intros fuel front Hf.
  - exists []. split; [done|]. split; [done|]. destruct fuel; cbn [read_tmpls items]; [done|].
    rewrite app_nil_r, Nat.ltb_irrefl. done.
  - cbn [length] in Hf. destruct fuel as [|fuel]; [lia|]. destruct (tmpl_read t Ht) as (u & Hu & Hfit & Hback).
    destruct (IH fuel (front ++ Serialize u)%list ltac:(lia)) as (b & Hb & Hlb & Hr).
    exists (Serialize u ++ b)%list. cbn [tmpl_data]. rewrite Hu. cbn [obind]. rewrite Hb. cbn [obind].
    split; [done|]. split; [rewrite length_app, length_Serialize, Hlb; cbn [length]; change (Sizeof XfrmUserTmpl) with 64%nat; lia|].
    cbn [read_tmpls items]. rewrite !length_app, length_Serialize.
    destruct (Nat.ltb_spec (length front) (length front + (Sizeof XfrmUserTmpl + length b)));
      [|change (Sizeof XfrmUserTmpl) with 64%nat in *; lia].
    rewrite (sub_mid front (Serialize u) b sp) by (try done; by rewrite length_Serialize). cbn [obind].
    unfold DeserializeXfrmUserTmpl. rewrite (Deserialize_exact u) by done. cbn [obind].
    rewrite <- app_assoc, length_app, length_Serialize in Hr. rewrite Hr. cbn [obind]. by rewrite Hback.
Qed.

(** What XfrmPolicyAdd writes, XfrmPolicyList reads. *)
Lemma read_policy_data p dst src data sp family :
  wf_policy p dst src -> policy_data p = Returned data ->
  family = FAMILY_ALL \/ family = GetIPFamily (IP dst) ->
  read_policy family (mkSlice (concat (map layout data)) sp) = Returned (Some (Some p))
  /\ (length (concat (map layout data)) <= 3900)%nat.
Proof.
  destruct p as [pd ps dir prio index tmpls]. intros (Hd & Hs & Hnd & Hns & Hdir & Hprio & Hidx & Ht & Hlt) Hdata Hf.
  cbn [p_Dst p_Src p_Dir p_Priority p_Index p_Tmpls] in *. subst pd ps.
  destruct (net_read dst Hnd) as (xd & Hxd & Hld & Hpd & Hrd).
  destruct (net_read src Hns) as (xs & Hxs & Hls & Hps & Hrs).
  destruct (read_tmpls_spec tmpls (64 * length tmpls) [] sp Ht ltac:(lia)) as (b & Hb & Hlb & _).
  unfold policy_data, selFromPolicy in Hdata. cbn [p_Dst p_Src p_Dir p_Priority p_Index p_Tmpls deref obind] in Hdata.
  rewrite Hxd, Hxs in Hdata. cbn [obind] in Hdata. rewrite Hb in Hdata. cbn [obind] in Hdata.
  injection Hdata as <-. unfold u8, u32 in *. rewrite !uint1_small, !uint4_small by done.
  assert (0 <= GetIPFamily (IP dst) < 65536) as Hfam
    by (unfold GetIPFamily; destruct (_ <=? _)%nat, (To4 (IP dst)); by vm_compute).
  rewrite uint2_small by done. set (attrs := if (0 <? length b)%nat then _ else _).
  assert (Forall (fits_in 388) attrs /\ (length attrs <= 1)%nat) as [Hin Hla].
  { subst attrs. destruct (0 <? length b)%nat; [|split; [done|cbn; lia]]. split; [|done].
    apply List.Forall_cons; [|done]. apply fits_in_attr. cbn [bytes_of default]. unfold id.
    rewrite Hlb, children_len_nil. replace (64 * length tmpls)%nat with (4 * (16 * length tmpls))%nat by lia.
    rewrite rtaAlignOf_mul. lia. }
  cbn [map concat]. rewrite layout_DataOf by done. split.
  - unfold read_policy, DeserializeXfrmUserpolicyInfo.
    rewrite Deserialize_Serialize by (unfold fits; cbn; unfold XFRM_INF; split_and!; try done; lia).
    cbn [obind pi_Sel xs_Family].
    assert (negb (family =? FAMILY_ALL) && negb (family =? GetIPFamily (IP dst)) = false) as ->.
    { destruct Hf as [->| ->]; [done|]. by rewrite Z.eqb_refl, andb_false_r. }
    rewrite sub_from_body by apply length_Serialize. cbn [obind xs_Daddr xs_Saddr xs_PrefixlenD xs_PrefixlenS pi_Dir
      pi_Priority pi_Index]. rewrite Hrd, Hrs. unfold nested.
    destruct (ParseRouteAttr_layout attrs sp) as (ras & -> & Hv).
    { eapply Forall_impl; [exact Hin|]. intros d. by apply fits_in_small. }
    cbn [obind].
    assert (reads policy_step attrs (mkPolicy (Some dst) (Some src) dir prio index [])
                  (mkPolicy (Some dst) (Some src) dir prio index tmpls)) as Hr.
    { subst attrs. destruct (Nat.ltb_spec 0 (length b)).
      - apply reads_leaf. intros [d spd] Hd. cbn [items] in Hd. subst d. unfold policy_step. tc_branch. cbn [items].
        destruct (read_tmpls_spec tmpls (length b) [] spd Ht ltac:(lia)) as (b' & Hb' & _ & Hrt).
        rewrite Hb in Hb'. injection Hb' as <-. cbn [app length] in Hrt. by rewrite Hrt.
      - destruct tmpls; [apply reads_nil|cbn [length] in Hlb; lia]. }
    by rewrite (Hr ras Hv).
  - rewrite length_app, length_Serialize. pose proof (fits_in_total _ _ Hin) as Htot.
    change (Sizeof XfrmUserpolicyInfo) with 168%nat. nia.
Qed.

End xfrm_wire.

Section xfrm_sent.
Context {E : Endian} {W : Type} {K : Kernel W}.

Lemma xfrm_sent rounds cmd flags data (s : NS W) s' :
  xfrm_request rounds cmd flags (Returned data) s = (Ended (Returned None), s') ->
  (length (concat (map layout data)) <= 3900)%nat ->
  exists fd b t m, calls s' = (calls s ++ t)%list /\ mkCall (Sendto fd b) None ∈ t
    /\ ParseNetlinkMessage (mkSlice b []) = Some [m] /\ m_Type m = uint_n 2 cmd
    /\ m_Data m = mkSlice (concat (map layout data)) [].
Proof.
  unfold xfrm_request, mbind_ at 1, new_request at 1. unfold mlift, mbind_ at 1. unfold mbind_ at 1. intros H Hl.
  destruct (Execute rounds _ NETLINK_XFRM 0 _) as [[[[e|res]|h]|] s3] eqn:Ex; [done| |done|done].
  injection H as <-. apply Execute_sent in Ex as (fd & b & t & m & Ht & Hs & Hp & Hty & Hm); [|lia].
  exists fd, b, t, m. by rewrite uint_n_idem in Hty.
Qed.

(** A request whose data panic is not sent. *)
Lemma xfrm_success rounds cmd flags data (s : NS W) s' :
  xfrm_request rounds cmd flags data s = (Ended (Returned None), s') -> exists ds, data = Returned ds.
Proof.
  unfold xfrm_request, mbind_ at 1, new_request at 1. unfold mbind_ at 1, mlift.
  destruct data as [ds|h]; [by exists ds|done].
Qed.

End xfrm_sent.

(** * What is on the wire *)

(** C40: when XfrmStateAdd reports success, the message it sent is an XFRM_MSG_NEWSA that
    XfrmStateList reads, among the states of its family, as the same state: addresses, protocol,
    mode, the index in network order, authentication and encryption with their keys, and
    encapsulation; a state with index 0 is never sent. The states meant are those whose addresses,
    the original one of an encapsulation included, are of sixteen bytes, either IPv4 or with a
    byte other than 0 among the last twelve; whose algorithms have a name of fewer than 64 bytes
    with no zero byte and a key of at most 256, the encryption without a truncation length; and
    whose numbers are of their Go types. (An IPv6 address that ends in twelve zero bytes is read
    as an IPv4 one, ToIP_ambiguous, and reading a name of 64 bytes panics,
    BytesToString_long.) *)
Theorem XfrmStateAdd_wire {E : Endian} {W} {K : Kernel W} rounds st family (s : NS W) s' :
  wf_state st -> family = FAMILY_ALL \/ family = GetIPFamily (s_Dst st) ->
  XfrmStateAdd rounds st s = (Ended (Returned None), s') ->
  s_Spi st <> 0
  /\ exists fd b t m, calls s' = (calls s ++ t)%list /\ mkCall (Sendto fd b) None ∈ t
    /\ ParseNetlinkMessage (mkSlice b []) = Some [m] /\ m_Type m = XFRM_MSG_NEWSA
    /\ read_all (read_state family) [m_Data m] = Returned (Some [st]).
Proof.
  intros Hw Hf. unfold XfrmStateAdd. destruct (Z.eqb_spec (s_Spi st) 0); [done|]. intros H. split; [done|].
  destruct (xfrm_success _ _ _ _ _ _ H) as [ds Hd].
  destruct (read_state_data st ds [] family Hw Hd Hf) as [Hr Hl].
  rewrite Hd in H. apply xfrm_sent in H as (fd & b & t & m & Ht & Hs & Hp & Hty & Hm); [|done].
  exists fd, b, t, m. do 4 (split; [done|]). cbn [read_all]. by rewrite Hm, Hr.
Qed.

(** When XfrmPolicyAdd reports success, the message it sent is an XFRM_MSG_NEWPOLICY that
    XfrmPolicyList reads as the same policy: the two nets with their masks, direction, priority,
    index and the templates in their order. *)
Theorem XfrmPolicyAdd_wire {E : Endian} {W} {K : Kernel W} rounds p dst src family (s : NS W) s' :
  wf_policy p dst src -> family = FAMILY_ALL \/ family = GetIPFamily (IP dst) ->
  XfrmPolicyAdd rounds p s = (Ended (Returned None), s') ->
  exists fd b t m, calls s' = (calls s ++ t)%list /\ mkCall (Sendto fd b) None ∈ t
    /\ ParseNetlinkMessage (mkSlice b []) = Some [m] /\ m_Type m = XFRM_MSG_NEWPOLICY
    /\ read_all (read_policy family) [m_Data m] = Returned (Some [p]).
Proof.
  intros Hw Hf. unfold XfrmPolicyAdd. intros H.
  destruct (xfrm_success _ _ _ _ _ _ H) as [ds Hd].
  destruct (read_policy_data p dst src ds [] family Hw Hd Hf) as [Hr Hl].
  rewrite Hd in H. apply xfrm_sent in H as (fd & b & t & m & Ht & Hs & Hp & Hty & Hm); [|done].
  exists fd, b, t, m. do 4 (split; [done|]). cbn [read_all]. by rewrite Hm, Hr.
Qed.

(** A tunnel from 10.1.0.1 to 10.1.0.2 with HMAC-SHA-256 and AES. *)
Definition v4 (a b c d : Z) : list Z := (replicate 10 0 ++ [0xff; 0xff; a; b; c; d])%list.

Definition sample_state : XfrmState :=
  mkState (v4 10 1 0 2) (v4 10 1 0 1) XFRM_PROTO_ESP 1 0xabcd 7 32
    (Some (mkAlgo "hmac(sha256)" (replicate 32 5) 128)) (Some (mkAlgo "cbc(aes)" (replicate 16 9) 0)) None.

Lemma sample_state_wf : wf_state sample_state.
Proof.
  unfold wf_state, wf_algo, wf_name, sample_state, u8, u32, XFRM_PROTO_ESP.
  cbn [s_Dst s_Src s_Proto s_Mode s_Spi s_Reqid s_ReplayWindow s_Auth s_Crypt s_Encap alg_Name alg_Key alg_TruncateLen].
  split_and!; try lia; try done; try (split; [done|left; by eexists]);
    try (by apply Nat.ltb_lt); try (by apply Nat.leb_le);
    (eapply (bool_decide_unpack _); vm_compute; exact I).
Qed.

Definition state_added : NS (list (list Z)) :=
  (XfrmStateAdd (E := false) 1 sample_state (fresh [@reply false 2 0 1 [0; 0; 0; 0]])).2.

Lemma XfrmStateAdd_wire_witness :
  s_Spi sample_state <> 0
  /\ exists fd b t m, calls state_added = t /\ mkCall (Sendto fd b) None ∈ t
    /\ @ParseNetlinkMessage false (mkSlice b []) = Some [m] /\ m_Type m = XFRM_MSG_NEWSA
    /\ read_all (@read_state false FAMILY_V4) [m_Data m] = Returned (Some [sample_state]).
Proof.
  apply (@XfrmStateAdd_wire false _ scripted 1 sample_state FAMILY_V4 (fresh [@reply false 2 0 1 [0; 0; 0; 0]])).
  - exact sample_state_wf.
  - right. reflexivity.
  - vm_compute. reflexivity.
Defined.
