(* ===== verification/DbusSig.v ===== *)
(** godbus/dbus, types and signatures (Godeps/.../godbus/dbus/sig.go, and alignment and
    isKeyType of dbus.go).

    A signature is the list of its bytes. findMatching ranges over runes, but brackets are
    ASCII, so it finds the same places byte by byte. The types are those D-Bus can carry: a
    struct stands for its exported fields, and pointers are followed. validSingle and typeFor
    recurse on ever shorter strings; their fuel is the length of the string, and the theorems
    show that it is enough. *)

From S2P Require Import Prelude.

Local Open Scope go_scope.
Local Open Scope char_scope.

(** * Types *)

Definition sig : Type := list ascii.

(** The types that are numbers on the wire. *)
Inductive num : Type := NByte | NInt16 | NUint16 | NInt32 | NUint32 | NInt64 | NUint64 | NDouble | NFd.

#[warnings="-register-all"]
Inductive dtype : Type :=
| TNum (k : num)
| TBool
| TString
| TPath
| TSig
| TVariant
| TArray (t : dtype)
| TDict (k v : dtype)
| TStruct (ts : list dtype).

Definition num_char (k : num) : ascii :=
  match k with
  | NByte => "y" | NInt16 => "n" | NUint16 => "q" | NInt32 => "i" | NUint32 => "u"
  | NInt64 => "x" | NUint64 => "t" | NDouble => "d" | NFd => "h"
  end.

(** sigToType *)
Definition sigToType (c : ascii) : option dtype :=
  if (c =? "y")%char then Some (TNum NByte)
  else if (c =? "b")%char then Some TBool
  else if (c =? "n")%char then Some (TNum NInt16)
  else if (c =? "q")%char then Some (TNum NUint16)
  else if (c =? "i")%char then Some (TNum NInt32)
  else if (c =? "u")%char then Some (TNum NUint32)
  else if (c =? "x")%char then Some (TNum NInt64)
  else if (c =? "t")%char then Some (TNum NUint64)
  else if (c =? "d")%char then Some (TNum NDouble)
  else if (c =? "s")%char then Some TString
  else if (c =? "g")%char then Some TSig
  else if (c =? "o")%char then Some TPath
  else if (c =? "v")%char then Some TVariant
  else if (c =? "h")%char then Some (TNum NFd)
  else None.

Definition isKeyType (t : dtype) : bool :=
  match t with
  | TNum _ | TString | TPath => true
  | _ => false
  end.

Definition num_size (k : num) : nat :=
  match k with
  | NByte => 1
  | NInt16 | NUint16 => 2
  | NInt32 | NUint32 | NFd => 4
  | NInt64 | NUint64 | NDouble => 8
  end.

Definition alignment (t : dtype) : nat :=
  match t with
  | TVariant | TSig | TBool => 1
  | TPath | TString | TArray _ | TDict _ _ => 4
  | TNum k => num_size k
  | TStruct _ => 8
  end.

(** getSignature, on the types it does not refuse. *)
Fixpoint sig_of (t : dtype) : sig :=
  match t with
  | TNum k => [num_char k]
  | TBool => ["b"]
  | TString => ["s"]
  | TPath => ["o"]
  | TSig => ["g"]
  | TVariant => ["v"]
  | TArray t => "a" :: sig_of t
  | TDict k v => ["a"; "{"] ++ sig_of k ++ sig_of v ++ ["}"]
  | TStruct ts => "(" :: concat (map sig_of ts) ++ [")"]
  end.

(** getSignature refuses dicts whose keys are not basic, with a panic. *)
Fixpoint getSignature (t : dtype) : outcome sig :=
  let invalid := Halted (GoPanic "dbus: invalid type") in
  match t with
  | TArray t => let? s := getSignature t in Returned ("a" :: s)
  | TDict k v =>
      if isKeyType k then
        let? sk := getSignature k in
        let? sv := getSignature v in
        Returned (["a"; "{"] ++ sk ++ sv ++ ["}"])
      else invalid
  | TStruct ts =>
      let? s := (fix go (ts : list dtype) : outcome sig :=
                   match ts with
                   | [] => Returned []
                   | t :: ts => let? s := getSignature t in let? s' := go ts in Returned (s ++ s')
                   end) ts in
      Returned ("(" :: s ++ [")"])
  | t => Returned (sig_of t)
  end.

(** * Signatures *)

Record SignatureError : Type := mkSigError { se_Sig : sig; se_Reason : string }.

(** The search of findMatching, with the depth and the index reached. *)
Fixpoint find_from (n : Z) (i : nat) (s : sig) (left right : ascii) : option nat :=
  match s with
  | [] => None
  | v :: s' =>
      let n := if (v =? left)%char then (n + 1)%Z else if (v =? right)%char then (n - 1)%Z else n in
      if (n =? 0)%Z then Some i else find_from n (S i) s' left right
  end.

Definition findMatching (s : sig) (left right : ascii) : option nat := find_from 0 0 s left right.

(** The loop of validSingle over the fields of a struct. *)
Fixpoint valid_fields (single : sig -> outcome (SignatureError + sig)) (n : nat) (s : sig)
    : outcome (option SignatureError) :=
  match s, n with
  | [], _ => Returned None
  | _, O => Returned None
  | _, S n' =>
      let? r := single s in
      match r with
      | inl e => Returned (Some e)
      | inr s' => valid_fields single n' s'
      end
  end.

Definition sig_panic {A} : outcome A := Halted (GoPanic "slice bounds out of range").

Fixpoint valid_go (fuel : nat) (s : sig) (depth : nat) : outcome (SignatureError + sig) :=
  match fuel, s with
  | _, [] => Returned (inl (mkSigError s "empty signature"))
  | O, _ => Returned (inl (mkSigError s "empty signature"))
  | S fuel', c :: s1 =>
      if (64 <? depth)%nat then Returned (inl (mkSigError s "container nesting too deep"))
      else if match sigToType c with Some _ => true | None => false end then Returned (inr s1)
      else if (c =? "a")%char then
        if match s1 with c1 :: _ => (c1 =? "{")%char | [] => false end then
          match findMatching s1 "{" "}" with
          | None => Returned (inl (mkSigError s "unmatched '{'"))
          | Some j =>
              let rem := drop (j + 2) s in
              let s := take (j - 1) (drop 2 s) in
              match s with
              | [] => sig_panic
              | k :: s2 =>
                  let? r := valid_go fuel' [k] (S depth) in
                  match r with
                  | inl e => Returned (inl e)
                  | inr _ =>
                      let? r := valid_go fuel' s2 (S depth) in
                      match r with
                      | inl e => Returned (inl e)
                      | inr [] => Returned (inr rem)
                      | inr _ => Returned (inl (mkSigError s "too many types in dict"))
                      end
                  end
              end
          end
        else valid_go fuel' s1 (S depth)
      else if (c =? "(")%char then
        match findMatching s "(" ")" with
        | None => Returned (inl (mkSigError s "unmatched ')'"))
        | Some i =>
            let rem := drop (i + 1) s in
            let s := take (i - 1) (drop 1 s) in
            let? err := valid_fields (fun s => valid_go fuel' s (S depth)) (length s) s in
            match err with
            | Some e => Returned (inl e)
            | None => Returned (inr rem)
            end
        end
      else Returned (inl (mkSigError s "invalid type character"))
  end.

Definition validSingle (s : sig) (depth : nat) : outcome (SignatureError + sig) :=
  valid_go (length s) s depth.

(** A signature that is not valid is reported with the error. *)
Definition ParseSignature (s : sig) : outcome (SignatureError + sig) :=
  if (255 <? length s)%nat then Returned (inl (mkSigError s "too long"))
  else
    let? err := valid_fields (fun s => validSingle s 0) (length s) s in
    match err with
    | Some e => Returned (inl e)
    | None => Returned (inr s)
    end.

Definition ParseSignatureMust (s : sig) : outcome sig :=
  let? r := ParseSignature s in
  match r with
  | inl e => Halted (GoPanic "dbus: invalid signature")
  | inr s => Returned s
  end.

Definition Empty (s : sig) : bool := match s with [] => true | _ => false end.

(** Single, as it is written: the test of the error is the wrong way around. *)
Definition Single (s : sig) : outcome bool :=
  let? r := validSingle s 0 in
  Returned (match r with inl _ => true | inr _ => false end).

(** ** Go types *)

(** What reflection makes of a signature: every struct is the type []interface{}. *)
Inductive gotype : Type :=
| GSimple (t : dtype)
| GSlice (g : gotype)
| GMap (k : dtype) (v : gotype)
| GInterfaces.

Definition go_alignment (g : gotype) : nat :=
  match g with
  | GSimple t => alignment t
  | GSlice _ | GMap _ _ => 4
  | GInterfaces => 8
  end.

(** strings.LastIndex of a character *)
Fixpoint last_index (c : ascii) (s : sig) : option nat :=
  match s with
  | [] => None
  | c' :: s' =>
      match last_index c s' with
      | Some i => Some (S i)
      | None => if (c' =? c)%char then Some 0 else None
      end
  end.

Fixpoint type_go (fuel : nat) (s : sig) : outcome gotype :=
  match fuel with
  | O => sig_panic
  | S fuel' =>
      let? r := validSingle s 0 in
      match r, s with
      | inl _, _ => Halted (GoPanic "dbus: invalid signature")
      | inr _, [] => sig_panic
      | inr _, c :: s1 =>
          match sigToType c with
          | Some t => Returned (GSimple t)
          | None =>
              if (c =? "a")%char then
                if match s1 with c1 :: _ => (c1 =? "{")%char | [] => false end then
                  match last_index "}" s, s1 with
                  | Some i, _ :: k :: _ =>
                      let? v := type_go fuel' (take (i - 3) (drop 3 s)) in
                      match sigToType k with
                      | Some tk => Returned (GMap tk v)
                      | None => Halted (GoPanic "reflect.MapOf: nil key")
                      end
                  | _, _ => sig_panic
                  end
                else let? g := type_go fuel' s1 in Returned (GSlice g)
              else Returned GInterfaces
          end
      end
  end.

Definition typeFor (s : sig) : outcome gotype := type_go (S (length s)) s.

(** * What a valid signature is *)

(** The nested induction on types. *)
Section dtype_nested.
Variable P : dtype -> Prop.
Hypothesis P_num : forall k, P (TNum k).
Hypothesis P_bool : P TBool.
Hypothesis P_string : P TString.
Hypothesis P_path : P TPath.
Hypothesis P_sig : P TSig.
Hypothesis P_variant : P TVariant.
Hypothesis P_array : forall t, P t -> P (TArray t).
Hypothesis P_dict : forall k v, P k -> P v -> P (TDict k v).
Hypothesis P_struct : forall ts, Forall P ts -> P (TStruct ts).

Fixpoint dtype_nested (t : dtype) : P t :=
  match t with
  | TNum k => P_num k
  | TBool => P_bool
  | TString => P_string
  | TPath => P_path
  | TSig => P_sig
  | TVariant => P_variant
  | TArray t => P_array t (dtype_nested t)
  | TDict k v => P_dict k v (dtype_nested k) (dtype_nested v)
  | TStruct ts =>
      P_struct ts ((fix go (ts : list dtype) : Forall P ts :=
                      match ts with
                      | [] => @List.Forall_nil _ P
                      | t :: ts => @List.Forall_cons _ P t ts (dtype_nested t) (go ts)
                      end) ts)
  end.

End dtype_nested.

Definition simple (t : dtype) : bool :=
  match t with TArray _ | TDict _ _ | TStruct _ => false | _ => true end.

(** The nesting is at most 64 deep and the keys of dicts are simple. *)
Fixpoint fits (d : nat) (t : dtype) : bool :=
  (d <=? 64)%nat &&
  match t with
  | TArray t => fits (S d) t
  | TDict k v => simple k && fits (S d) v
  | TStruct ts => forallb (fits (S d)) ts
  | _ => true
  end.

Definition sigs_of (ts : list dtype) : sig := concat (map sig_of ts).

Lemma fits_le d t : fits d t = true -> d <= 64.
Proof. destruct t; simpl; rewrite andb_true_iff, Nat.leb_le; tauto. Qed.

Lemma sigToType_num k : sigToType (num_char k) = Some (TNum k).
Proof. by destruct k. Qed.

(** The table of sigToType and the letters of getSignature are inverse. *)
Lemma sigToType_spec c t : sigToType c = Some t <-> simple t = true /\ sig_of t = [c].
Proof.
  split.
  - unfold sigToType. intros H.
    repeat match type of H with
    | (if (?a =? ?b)%char then _ else _) = _ => destruct (Ascii.eqb_spec a b) as [->|]
    end; simplify_eq; done.
  - destruct t as [k| | | | | |t|k v|ts]; simpl; intros [? H]; simplify_eq;
      [apply sigToType_num|done..].
Qed.

Lemma sig_of_cons t : exists c s, sig_of t = c :: s.
Proof. destruct t; simpl; eauto. Qed.

Lemma sig_of_length t : 0 < length (sig_of t).
Proof. destruct (sig_of_cons t) as (c & s & ->). simpl. lia. Qed.

Lemma sigs_of_length ts : length ts <= length (sigs_of ts).
Proof.
  induction ts as [|t ts IH]; unfold sigs_of in *; simpl; [lia|].
  rewrite length_app. pose proof (sig_of_length t). lia.
Qed.

(** ** Brackets *)

Definition bracket (l r : ascii) : Prop := (l = "{" /\ r = "}") \/ (l = "(" /\ r = ")").

Section brackets.
Variables (l r : ascii).
Hypothesis LR : bracket l r.

(** The search passes over the text. *)
Definition skips (s : sig) : Prop := forall n i rest,
  (0 < n)%Z -> find_from n i (s ++ rest) l r = find_from n (i + length s) rest l r.

Lemma skips_nil : skips [].
Proof. intros n i rest _. by rewrite Nat.add_0_r. Qed.

Lemma skips_app s1 s2 : skips s1 -> skips s2 -> skips (s1 ++ s2).
Proof.
  intros H1 H2 n i rest Hn. rewrite <- app_assoc, H1, H2, length_app by done. f_equal. lia.
Qed.

Lemma skips_char c : (c =? l)%char = false -> (c =? r)%char = false -> skips [c].
Proof.
  intros Hl Hr n i rest Hn. simpl. rewrite Hl, Hr.
  destruct (Z.eqb_spec n 0); [lia|]. f_equal. lia.
Qed.

Lemma skips_bracketed a b s : bracket a b -> skips s -> skips (a :: s ++ [b]).
Proof.
  intros Hab Hs.
  assert ((a = l /\ b = r) \/ (skips [a] /\ skips [b])) as [[-> ->]|[Ha Hb]].
  { destruct LR as [[El Er]|[El Er]], Hab as [[-> ->]|[-> ->]]; auto;
      right; split; apply skips_char; by rewrite ?El, ?Er. }
  - intros n i rest Hn.
    assert ((r =? l)%char = false) as Hrl by (destruct LR as [[-> ->]|[-> ->]]; done).
    simpl. rewrite Ascii.eqb_refl. destruct (Z.eqb_spec (n + 1) 0); [lia|].
    rewrite <- app_assoc, Hs by lia. simpl. rewrite Hrl, Ascii.eqb_refl.
    replace (n + 1 - 1)%Z with n by lia. destruct (Z.eqb_spec n 0); [lia|].
    f_equal. rewrite length_app. simpl. lia.
  - change (a :: s ++ [b]) with ([a] ++ (s ++ [b])). by repeat apply skips_app.
Qed.

(** A signature is balanced. *)
Lemma sig_of_skips t : skips (sig_of t).
Proof.
  assert (forall c, c <> "{" -> c <> "}" -> c <> "(" -> c <> ")" -> skips [c]) as Hc.
  { intros c ????. apply skips_char; apply Ascii.eqb_neq; destruct LR as [[-> ->]|[-> ->]]; done. }
  induction t as [k| | | | | |t IH|k v IHk IHv|ts IH] using dtype_nested; simpl;
    try (by apply Hc).
  - by apply Hc; destruct k.
  - change ("a" :: sig_of t) with (["a"] ++ sig_of t). apply skips_app; [by apply Hc|done].
  - change ("a" :: "{" :: sig_of k ++ sig_of v ++ ["}"])
      with (["a"] ++ ("{" :: sig_of k ++ sig_of v ++ ["}"])).
    apply skips_app; [by apply Hc|]. rewrite app_assoc. apply skips_bracketed; [by left|by apply skips_app].
  - apply skips_bracketed; [by right|].
    induction IH; simpl; [apply skips_nil|by apply skips_app].
Qed.

Lemma sigs_of_skips ts : skips (sigs_of ts).
Proof.
  induction ts as [|t ts IH]; [apply skips_nil|]. apply skips_app; [apply sig_of_skips|apply IH].
Qed.

(** The bracket that closes the first one. *)
Lemma findMatching_closes s rest :
  skips s -> findMatching (l :: s ++ r :: rest) l r = Some (S (length s)).
Proof.
  intros Hs. unfold findMatching. simpl. rewrite Ascii.eqb_refl. simpl.
  rewrite Hs by lia. simpl.
  assert ((r =? l)%char = false) as -> by (destruct LR as [[-> ->]|[-> ->]]; done).
  by rewrite Ascii.eqb_refl.
Qed.

(** Where the search stops, there is a closing bracket. *)
Lemma find_from_Some s : forall n i j,
  (0 < n)%Z -> find_from n i s l r = Some j ->
  exists s1 s2, s = s1 ++ r :: s2 /\ j = i + length s1.
Proof.
  induction s as [|v s IH]; intros n i j Hn; simpl; [done|].
  destruct (Ascii.eqb_spec v l) as [->|Hl].
  - destruct (Z.eqb_spec (n + 1) 0); [lia|]. intros H.
    destruct (IH (n + 1)%Z (S i) j ltac:(lia) H) as (s1 & s2 & -> & ->).
    exists (l :: s1), s2. split; [done|]. simpl. lia.
  - destruct (Ascii.eqb_spec v r) as [->|Hr].
    + destruct (Z.eqb_spec (n - 1) 0).
      * intros [= <-]. exists [], s. split; [done|]. simpl. lia.
      * intros H. destruct (IH (n - 1)%Z (S i) j ltac:(lia) H) as (s1 & s2 & -> & ->).
        exists (r :: s1), s2. split; [done|]. simpl. lia.
    + destruct (Z.eqb_spec n 0); [lia|]. intros H.
      destruct (IH n (S i) j Hn H) as (s1 & s2 & -> & ->).
      exists (v :: s1), s2. split; [done|]. simpl. lia.
Qed.

Lemma findMatching_Some s j :
  findMatching (l :: s) l r = Some j -> exists s1 s2, s = s1 ++ r :: s2 /\ j = S (length s1).
Proof.
  unfold findMatching. simpl. rewrite Ascii.eqb_refl. simpl. intros H.
  by apply find_from_Some in H.
Qed.

End brackets.

(** ** Accepted signatures *)

(** The slices of a text between brackets and after them. *)
Lemma take_enclosed (pre mid : sig) (c : ascii) (rem : sig) i n :
  i = length pre -> n = length mid -> take n (drop i (pre ++ mid ++ c :: rem)) = mid.
Proof. intros -> ->. by rewrite drop_app_length, take_app_length. Qed.

Lemma drop_enclosed (pre mid : sig) (c : ascii) (rem : sig) n :
  n = length pre + length mid + 1 -> drop n (pre ++ mid ++ c :: rem) = rem.
Proof.
  intros ->. replace (pre ++ mid ++ c :: rem) with ((pre ++ mid ++ [c]) ++ rem).
  - apply drop_app_length'. rewrite !length_app. simpl. lia.
  - by rewrite <- !app_assoc.
Qed.

(** The struct and the dict entry that a well-bracketed text encloses. *)
Lemma valid_struct fuel mid rem d :
  skips "(" ")" mid -> d <= 64 ->
  valid_go (S fuel) ("(" :: mid ++ ")" :: rem) d =
    let? err := valid_fields (fun s => valid_go fuel s (S d)) (length mid) mid in
    match err with Some e => Returned (inl e) | None => Returned (inr rem) end.
Proof.
  intros Hm Hd. cbn [valid_go sigToType Ascii.eqb Bool.eqb].
  destruct (Nat.ltb_spec 64 d); [lia|].
  rewrite findMatching_closes by (done || by right).
  by rewrite (take_enclosed ["("] mid ")" rem), (drop_enclosed ["("] mid ")" rem)
    by (simpl; lia).
Qed.

Lemma valid_dict fuel k s2 rem d :
  skips "{" "}" (k :: s2) -> d <= 64 ->
  valid_go (S fuel) ("a" :: "{" :: (k :: s2) ++ "}" :: rem) d =
    let? r := valid_go fuel [k] (S d) in
    match r with
    | inl e => Returned (inl e)
    | inr _ =>
        let? r := valid_go fuel s2 (S d) in
        match r with
        | inl e => Returned (inl e)
        | inr [] => Returned (inr rem)
        | inr _ => Returned (inl (mkSigError (k :: s2) "too many types in dict"))
        end
    end.
Proof.
  intros Hm Hd. set (mid := k :: s2) in *. cbn [valid_go sigToType Ascii.eqb Bool.eqb].
  destruct (Nat.ltb_spec 64 d); [lia|].
  rewrite findMatching_closes by (done || by left).
  by rewrite (take_enclosed ["a"; "{"] mid "}" rem), (drop_enclosed ["a"; "{"] mid "}" rem)
    by (simpl; lia).
Qed.

Lemma valid_simple fuel c s d t :
  sigToType c = Some t -> d <= 64 -> valid_go (S fuel) (c :: s) d = Returned (inr s).
Proof. intros Hc Hd. simpl. destruct (Nat.ltb_spec 64 d); [lia|]. by rewrite Hc. Qed.

Lemma valid_array fuel t s d :
  d <= 64 ->
  valid_go (S fuel) ("a" :: sig_of t ++ s) d = valid_go fuel (sig_of t ++ s) (S d).
Proof.
  intros Hd. cbn [valid_go sigToType Ascii.eqb Bool.eqb].
  destruct (Nat.ltb_spec 64 d); [lia|].
  by destruct t as [[]| | | | | |t|k v|ts].
Qed.

(** The loop over the fields reads types one after the other. *)
Lemma valid_fields_sigs single ts n :
  (forall t s, In t ts -> single (sig_of t ++ s) = Returned (inr s)) -> length ts <= n ->
  valid_fields single n (sigs_of ts) = Returned None.
Proof.
  revert n. induction ts as [|t ts IH]; intros n Hs Hn; [by destruct n|].
  destruct n as [|n]; simpl in Hn; [lia|].
  change (sigs_of (t :: ts)) with (sig_of t ++ sigs_of ts).
  destruct (sig_of_cons t) as (c & s & Ht). rewrite Ht. simpl.
  change (c :: s ++ sigs_of ts) with ((c :: s) ++ sigs_of ts). rewrite <- Ht.
  rewrite Hs by (by left). simpl. apply IH; [|lia]. intros. apply Hs. by right.
Qed.

Lemma valid_fields_sound single Q n s :
  (forall s s', single s = Returned (inr s') -> exists t, Q t /\ s = sig_of t ++ s') ->
  length s <= n -> valid_fields single n s = Returned None ->
  exists ts, Forall Q ts /\ s = sigs_of ts.
Proof.
  intros Hs. revert s. induction n as [|n IH]; intros s Hn Hv.
  - destruct s; simpl in Hn; [|lia]. by exists [].
  - destruct s as [|c s]; [by exists []|]. cbn [valid_fields] in Hv.
    destruct (single (c :: s)) as [[e|s']|] eqn:E; simpl in Hv; try done.
    destruct (Hs _ _ E) as (t & Ht & Heq).
    destruct (IH s') as (ts & Hts & ->); [|done|].
    { apply (f_equal length) in Heq. rewrite length_app in Heq. simpl in Heq, Hn.
      pose proof (sig_of_length t). lia. }
    exists (t :: ts). split; [by constructor|done].
Qed.

Lemma valid_go_complete t : forall fuel rem d,
  fits d t = true -> length (sig_of t) <= fuel ->
  valid_go fuel (sig_of t ++ rem) d = Returned (inr rem).
Proof.
  induction t as [k| | | | | |t IH|k v IHk IHv|ts IH] using dtype_nested;
    intros fuel rem d Hf Hlen; pose proof (fits_le _ _ Hf) as Hd;
    (destruct fuel as [|fuel]; [simpl in Hlen; lia|]);
    try (by eapply valid_simple).
  - eapply valid_simple; [apply sigToType_num|done].
  - simpl in Hf, Hlen. apply andb_true_iff in Hf as [_ Hf].
    cbn [sig_of]. change (("a" :: sig_of t) ++ rem) with ("a" :: sig_of t ++ rem).
    rewrite valid_array by done. apply IH; [done|lia].
  - simpl in Hf. rewrite !andb_true_iff in Hf. destruct Hf as (_ & Hk & Hv).
    destruct (sig_of_cons k) as (c & s & Hc).
    assert (sig_of k = [c]) as Hk1 by (destruct k; simpl in Hk, Hc |- *; simplify_eq; done).
    assert (sigToType c = Some k) as Hck by (by apply sigToType_spec).
    simpl in Hlen. rewrite Hk1, !length_app in Hlen. simpl in Hlen.
    replace (sig_of (TDict k v) ++ rem) with ("a" :: "{" :: (c :: sig_of v) ++ "}" :: rem).
    2:{ simpl. rewrite Hk1. simpl. by rewrite <- app_assoc. }
    destruct fuel as [|fuel]; [lia|]. pose proof (fits_le _ _ Hv).
    rewrite valid_dict; [|rewrite <- (app_nil_l (sig_of v)), app_comm_cons, <- Hk1;
      apply skips_app; apply sig_of_skips; by left|done].
    erewrite valid_simple by (done || lia). cbn [obind].
    rewrite <- (app_nil_r (sig_of v)), IHv by (done || lia). done.
  - simpl in Hf, Hlen. rewrite length_app in Hlen. simpl in Hlen.
    apply andb_true_iff in Hf as [_ Hf]. change (concat (map sig_of ts)) with (sigs_of ts) in Hlen.
    replace (sig_of (TStruct ts) ++ rem) with ("(" :: sigs_of ts ++ ")" :: rem).
    2:{ simpl. by rewrite <- app_assoc. }
    rewrite valid_struct; [|apply sigs_of_skips; by right|done].
    rewrite valid_fields_sigs; [done| |apply sigs_of_length].
    intros t s Ht. rewrite List.Forall_forall in IH. apply IH; [done| |].
    + rewrite forallb_forall in Hf. by apply Hf.
    + apply in_split in Ht as (l1 & l2 & ->). unfold sigs_of in Hlen.
      rewrite map_app, concat_app, length_app in Hlen. simpl in Hlen.
      rewrite length_app in Hlen. lia.
Qed.

Lemma valid_key_sound fuel k s d :
  valid_go fuel [k] d = Returned (inr s) -> exists t, sigToType k = Some t.
Proof.
  destruct fuel as [|fuel]; simpl; [done|]. destruct (64 <? d)%nat; [done|].
  destruct (sigToType k) as [t|]; [eauto|].
  destruct (Ascii.eqb_spec k "a") as [->|]; [by destruct fuel|].
  by destruct (Ascii.eqb_spec k "(") as [->|].
Qed.

Lemma valid_go_sound fuel : forall s rem d,
  valid_go fuel s d = Returned (inr rem) -> exists t, fits d t = true /\ s = sig_of t ++ rem.
Proof.
  induction fuel as [|fuel IH]; intros s rem d; [by destruct s|].
  destruct s as [|c s]; [done|]. cbn [valid_go].
  destruct (Nat.ltb_spec 64 d) as [|Hd]; [done|].
  assert ((d <=? 64)%nat = true) as Hdb by (by apply Nat.leb_le).
  destruct (sigToType c) as [t|] eqn:Hc.
  { intros [= <-]. apply sigToType_spec in Hc as [Hs Ht]. exists t. split; [|by rewrite Ht].
    by destruct t; simpl in Hs |- *; rewrite ?Hdb. }
  destruct (Ascii.eqb_spec c "a") as [->|].
  - destruct (match s with c1 :: _ => (c1 =? "{")%char | [] => false end) eqn:Hb.
    + destruct s as [|c1 s]; [done|]. apply Ascii.eqb_eq in Hb as ->.
      destruct (findMatching ("{" :: s) "{" "}") as [j|] eqn:Hj; [|done].
      apply findMatching_Some in Hj as (mid & rest & -> & ->).
      rewrite (take_enclosed ["a"; "{"] mid "}" rest), (drop_enclosed ["a"; "{"] mid "}" rest)
        by (simpl; lia).
      destruct mid as [|k s2]; [done|].
      destruct (valid_go fuel [k] (S d)) as [[]|] eqn:Ek; try done. cbn [obind].
      destruct (valid_go fuel s2 (S d)) as [[|[|]]|] eqn:Ev; simpl; try done. intros [= <-].
      destruct (valid_key_sound _ _ _ _ Ek) as (tk & Htk).
      apply sigToType_spec in Htk as [Hsk Hk].
      destruct (IH _ _ _ Ev) as (tv & Hv & ->). exists (TDict tk tv).
      split; [simpl; by rewrite Hdb, Hsk, Hv|].
      simpl. rewrite Hk, app_nil_r. simpl. by rewrite <- app_assoc.
    + intros H. destruct (IH _ _ _ H) as (t & Ht & ->). exists (TArray t).
      split; [simpl; by rewrite Hdb|done].
  - destruct (Ascii.eqb_spec c "(") as [->|]; [|done].
    destruct (findMatching ("(" :: s) "(" ")") as [i|] eqn:Hi; [|done].
    apply findMatching_Some in Hi as (mid & rest & -> & ->).
    rewrite (take_enclosed ["("] mid ")" rest), (drop_enclosed ["("] mid ")" rest) by (simpl; lia).
    destruct (valid_fields _ _ mid) as [[e|]|] eqn:Ef; simpl; try done. intros [= <-].
    apply (valid_fields_sound _ (fun t => fits (S d) t = true)) in Ef as (ts & Hts & ->);
      [|by intros ?? ?%IH|done].
    exists (TStruct ts). split; simpl.
    + rewrite Hdb. apply forallb_forall. by apply List.Forall_forall.
    + by rewrite <- app_assoc.
Qed.

Lemma validSingle_sig_of t rem d :
  fits d t = true -> validSingle (sig_of t ++ rem) d = Returned (inr rem).
Proof. intros Hf. apply valid_go_complete; [done|]. rewrite length_app. lia. Qed.

Lemma validSingle_sound s rem d :
  validSingle s d = Returned (inr rem) -> exists t, fits d t = true /\ s = sig_of t ++ rem.
Proof. apply valid_go_sound. Qed.

Lemma ParseSignature_accepts s s' :
  ParseSignature s = Returned (inr s') <->
  s' = s /\ length s <= 255 /\ exists ts, forallb (fits 0) ts = true /\ s = sigs_of ts.
Proof.
  unfold ParseSignature. destruct (Nat.ltb_spec 255 (length s)) as [Hl|Hl].
  - split; [done|]. intros (_ & ? & _). lia.
  - split.
    + destruct (valid_fields _ _ s) as [[e|]|] eqn:Ef; simpl; try done. intros [= <-].
      apply (valid_fields_sound _ (fun t => fits 0 t = true)) in Ef as (ts & Hts & ->);
        [|intros ??; apply validSingle_sound|done].
      split; [done|]. split; [done|]. exists ts. split; [|done].
      apply forallb_forall. by apply List.Forall_forall.
    + intros (-> & _ & ts & Hts & ->). rewrite forallb_forall in Hts.
      rewrite valid_fields_sigs; [done| |apply sigs_of_length].
      intros t rem Ht. by apply validSingle_sig_of, Hts.
Qed.

(** C30: ParseSignature accepts exactly the strings of at most 255 bytes that are a sequence of
    complete types, each nested at most 64 deep and with simple types as the keys of its dicts,
    and returns the string as it is. *)
Theorem ParseSignature_spec s s' :
  ParseSignature s = Returned (inr s') <->
  s' = s /\ length s <= 255 /\ exists ts, forallb (fits 0) ts = true /\ s = sigs_of ts.
Proof. apply ParseSignature_accepts. Qed.

(** ** The fuel *)

Lemma valid_fields_ext single single' n s :
  (forall s', length s' <= length s -> single s' = single' s') ->
  (forall s1 s2, single s1 = Returned (inr s2) -> length s2 <= length s1) ->
  valid_fields single n s = valid_fields single' n s.
Proof.
  revert s. induction n as [|n IH]; intros s He Hr; [done|]. destruct s as [|c s]; [done|].
  cbn [valid_fields]. rewrite <- He by done.
  destruct (single (c :: s)) as [[e|s']|] eqn:E; try done. cbn [obind].
  apply IH; [|done]. intros s'' Hs. apply He. pose proof (Hr _ _ E). lia.
Qed.

Lemma valid_go_rest fuel s rem d : valid_go fuel s d = Returned (inr rem) -> length rem <= length s.
Proof. intros (t & _ & ->)%valid_go_sound. rewrite length_app. lia. Qed.

(** Fuel beyond the length of the string makes no difference: validSingle never runs out. *)
Lemma valid_go_fuel f1 : forall f2 s d,
  length s <= f1 -> length s <= f2 -> valid_go f1 s d = valid_go f2 s d.
Proof.
  induction f1 as [|f1 IH]; intros f2 s d H1 H2.
  { destruct s; simpl in H1; [by destruct f2|lia]. }
  destruct f2 as [|f2]; [destruct s; simpl in H2; [done|lia]|].
  destruct s as [|c s]; [done|]. simpl in H1, H2. cbn [valid_go].
  destruct (64 <? d)%nat; [done|]. destruct (match sigToType c with Some _ => true | None => false end); [done|].
  destruct (c =? "a")%char.
  - destruct (match s with c1 :: _ => (c1 =? "{")%char | [] => false end); [|apply IH; lia].
    destruct (findMatching s "{" "}") as [j|]; [|done].
    destruct (take _ _) as [|k s2] eqn:Ht; [done|].
    assert (length s2 + 2 <= length s).
    { apply (f_equal length) in Ht. rewrite length_take, length_drop in Ht. simpl in Ht. lia. }
    rewrite (IH f2 [k]), (IH f2 s2) by (simpl; lia). done.
  - destruct (c =? "(")%char; [|done]. destruct (findMatching _ "(" ")") as [i|]; [|done].
    rewrite (valid_fields_ext _ (fun s => valid_go f2 s (S d))); [done| |].
    + intros s' Hs. rewrite length_take, length_drop in Hs. simpl in Hs. apply IH; lia.
    + intros s1 s2. apply valid_go_rest.
Qed.

Lemma fits_mono t : forall d d', d' <= d -> fits d t = true -> fits d' t = true.
Proof.
  induction t as [k| | | | | |t IH|k v IHk IHv|ts IH] using dtype_nested; intros d d' Hd;
    simpl; rewrite !andb_true_iff, !Nat.leb_le; try (intros; lia).
  - intros [? ?]. split; [lia|]. apply (IH (S d)); [lia|done].
  - intros (? & ? & ?). repeat split; [lia|done|]. apply (IHv (S d)); [lia|done].
  - rewrite !forallb_forall. intros [? Hts]. split; [lia|]. intros t Ht.
    rewrite List.Forall_forall in IH. apply (IH t Ht (S d)); [lia|by apply Hts].
Qed.

(** ** The Go type of a signature *)

Fixpoint go_of (t : dtype) : gotype :=
  match t with
  | TArray t => GSlice (go_of t)
  | TDict k v => GMap k (go_of v)
  | TStruct _ => GInterfaces
  | t => GSimple t
  end.

Lemma go_of_alignment t : go_alignment (go_of t) = alignment t.
Proof. by destruct t. Qed.

Lemma last_index_end c s : last_index c (s ++ [c]) = Some (length s).
Proof.
  induction s as [|c' s IH]; simpl; [by rewrite Ascii.eqb_refl|]. by rewrite IH.
Qed.

Lemma type_go_spec t : forall fuel,
  fits 0 t = true -> length (sig_of t) <= fuel -> type_go fuel (sig_of t) = Returned (go_of t).
Proof.
  assert (forall t, fits 0 t = true -> validSingle (sig_of t) 0 = Returned (inr [])) as Hv.
  { intros t' Hf. by rewrite <- (app_nil_r (sig_of t')), validSingle_sig_of. }
  induction t as [k| | | | | |t IH|k v IHk IHv|ts IH] using dtype_nested; intros fuel Hf Hl;
    (destruct fuel as [|fuel]; [simpl in Hl; lia|]);
    pose proof (Hv _ Hf) as Hs; cbn [type_go]; rewrite Hs; cbn [obind]; try done.
  - by destruct k.
  - simpl in Hf, Hl. apply (fits_mono _ _ 0) in Hf; [|lia]. cbn [sig_of sigToType Ascii.eqb Bool.eqb].
    assert (forall c s, sig_of t = c :: s -> (c =? "{")%char = false) as Hb.
    { intros c s. destruct t as [[]| | | | | |t|k v|ts]; simpl; intros [= <- _]; done. }
    destruct (sig_of_cons t) as (c & s & Ht). pose proof (Hb _ _ Ht) as Hc.
    rewrite Ht, Hc, <- Ht, IH by (done || lia). done.
  - simpl in Hf, Hl. rewrite !andb_true_iff in Hf. destruct Hf as [Hk Hfv].
    apply (fits_mono _ _ 0) in Hfv; [|lia].
    destruct (sig_of_cons k) as (c & s & Hc).
    assert (sig_of k = [c]) as Hk1 by (destruct k; simpl in Hk, Hc |- *; simplify_eq; done).
    assert (sigToType c = Some k) as Hck by (by apply sigToType_spec).
    cbn [sig_of]. rewrite Hk1 in *.
    assert (last_index "}" (["a"; "{"; c] ++ sig_of v ++ ["}"]) = Some (3 + length (sig_of v))) as Hi
      by (by rewrite app_assoc, last_index_end, length_app).
    cbn [app] in Hi |- *. cbn [sigToType Ascii.eqb Bool.eqb]. rewrite Hi.
    rewrite (take_enclosed ["a"; "{"; c] (sig_of v) "}" []) by (simpl; lia).
    rewrite IHv; [|done|simpl in Hl; rewrite !length_app in Hl; simpl in Hl; lia]. cbn [obind].
    by rewrite Hck.
Qed.

Lemma typeFor_sig_of t : fits 0 t = true -> typeFor (sig_of t) = Returned (go_of t).
Proof. intros Hf. apply type_go_spec; [done|lia]. Qed.

(** The types getSignature does not refuse have the signature that validSingle reads back. *)
Fixpoint keyed (t : dtype) : bool :=
  match t with
  | TArray t => keyed t
  | TDict k v => isKeyType k && keyed v
  | TStruct ts => forallb keyed ts
  | _ => true
  end.

Lemma getSignature_sig_of t : keyed t = true -> getSignature t = Returned (sig_of t).
Proof.
  induction t as [k| | | | | |t IH|k v IHk IHv|ts IH] using dtype_nested; simpl; try done.
  - intros H. by rewrite IH.
  - rewrite andb_true_iff. intros [Hk Hv]. rewrite Hk, (IHv Hv).
    by destruct k; simpl in Hk.
  - intros H. rewrite forallb_forall in H.
    set (go := fix go (ts : list dtype) : outcome sig := _).
    assert (go ts = Returned (concat (map sig_of ts))) as ->; [|done].
    induction IH as [|t ts Ht _ IHts]; simpl; [done|].
    rewrite (Ht (H t (or_introl eq_refl))). simpl.
    rewrite IHts; [done|]. intros x Hx. apply H. by right.
Qed.

(** An empty dict type makes validSingle panic, an empty struct is accepted, and Single is false
    of a single complete type. *)
Example empty_dict_panics : ParseSignature ["a"; "{"; "}"] = sig_panic.
Proof. reflexivity. Qed.

Example empty_struct_accepted : ParseSignature ["("; ")"] = Returned (inr ["("; ")"]).
Proof. reflexivity. Qed.

Example Single_inverted : Single ["s"] = Returned false /\ Single ["("] = Returned true.
Proof. by split. Qed.
