(* ===== verification/DbusCodec.v ===== *)
(** godbus/dbus, the wire format (Godeps/.../godbus/dbus/encoder.go, decoder.go).

    An encoder writes to a buffer, which does not fail; a decoder reads from the bytes that
    are left. Both keep the position that decides the padding. What encode takes is a value
    with its Go type; what decode returns are values in which a struct has become a slice of
    interfaces, so the element types are Go types and no longer say what the struct was. A Go
    string is the list of its bytes, a float64 its bits. A dict is the list of its entries, in
    the order MapKeys returns them or in which they came. The byte order is the instance
    [Endian]. decode loops for as long as the input says; its fuel bounds the depth and the
    rounds, and running out of it is a result of its own. Memory is taken to be enough for the
    lengths that messages announce. *)

From S2P Require Import Prelude NetIP Nl DbusSig.

Local Open Scope go_scope.
Local Open Scope nat_scope.

(** * Values *)

#[warnings="-register-all"]
Inductive val (T : Type) : Type :=
| VNum (k : num) (z : Z)
| VBool (b : bool)
| VString (s : sig)
| VPath (s : sig)
| VSig (s : sig)
| VVariant (s : sig) (v : val T)
| VArray (t : T) (vs : list (val T))
| VDict (k v : T) (kvs : list (val T * val T))
| VStruct (vs : list (val T)).
Arguments VNum {T} k z.
Arguments VBool {T} b.
Arguments VString {T} s.
Arguments VPath {T} s.
Arguments VSig {T} s.
Arguments VVariant {T} s v.
Arguments VArray {T} t vs.
Arguments VDict {T} k v kvs.
Arguments VStruct {T} vs.

Definition dval : Type := val dtype.
Definition gval : Type := val gotype.

(** reflect.TypeOf *)
Fixpoint type_of (v : dval) : dtype :=
  match v with
  | VNum k _ => TNum k
  | VBool _ => TBool
  | VString _ => TString
  | VPath _ => TPath
  | VSig _ => TSig
  | VVariant _ _ => TVariant
  | VArray t _ => TArray t
  | VDict k v _ => TDict k v
  | VStruct vs => TStruct (map type_of vs)
  end.

Definition char_byte (c : ascii) : Z := Z.of_N (N_of_ascii c).
Definition byte_char (z : Z) : ascii := ascii_of_N (Z.to_N z).

Section codec.
Context {E : Endian}.

(** * The encoder *)

Inductive enc_error : Type :=
| FormatError (why : string)
| InvalidTypeError.

Record encoder : Type := mkEnc { e_out : list Z; e_pos : Z }.

(** newEncoderAtOffset, on a buffer of its own *)
Definition newEncoderAtOffset (offset : Z) : encoder := mkEnc [] offset.
Definition newEncoder : encoder := newEncoderAtOffset 0.

(** A step of the encoder: a panic leaves what was written. *)
Definition enc_step : Type := encoder -> encoder * option enc_error.

Definition enc_then (m k : enc_step) : enc_step :=
  fun e => match m e with
           | (e', None) => k e'
           | r => r
           end.

Definition enc_skip : enc_step := fun e => (e, None).
Definition enc_panic (err : enc_error) : enc_step := fun e => (e, Some err).

(** A write to the buffer and the advance of pos by what was written. *)
Definition enc_write (b : list Z) : enc_step :=
  fun e => (mkEnc (e_out e ++ b) (e_pos e + Z.of_nat (length b)), None).

Definition padding (e : encoder) (offset algn : Z) : Z :=
  let abs := (e_pos e + offset)%Z in
  if (abs mod algn =? 0)%Z then 0%Z
  else (Z.land (abs + algn - 1) (Z.lnot (algn - 1)) - abs)%Z.

Definition enc_align (n : nat) : enc_step :=
  fun e =>
    let pad := padding e 0 (Z.of_nat n) in
    if (0 <? pad)%Z then enc_write (replicate (Z.to_nat pad) 0%Z) e else (e, None).

(** encode of a number, which binwrite writes. *)
Definition encode_num (k : num) (z : Z) : enc_step :=
  enc_then (enc_align (num_size k)) (enc_write (put_uint (num_size k) z)).

(** encode of a string *)
Definition encode_string (s : sig) : enc_step :=
  enc_then (encode_num NUint32 (Z.of_nat (length s))) (enc_write (map char_byte s ++ [0%Z])).

(** encode of a Signature *)
Definition encode_sig (s : sig) : enc_step :=
  enc_then (encode_num NByte (Z.of_nat (length s))) (enc_write (map char_byte s ++ [0%Z])).

(** The loops over the elements of a slice and over the entries of a map. *)
Fixpoint enc_list {A} (f : A -> enc_step) (l : list A) : enc_step :=
  match l with
  | [] => enc_skip
  | a :: l' => enc_then (f a) (enc_list f l')
  end.

(** The part of encode that slices and maps share: the elements are encoded in a buffer that
    starts where they will start, then come their length, the padding and the buffer. *)
Definition enc_sized (algn : nat) (elems : enc_step) : enc_step :=
  fun e =>
    let n := (padding e 0 4 + 4)%Z in
    let offset := (e_pos e + n + padding e n (Z.of_nat algn))%Z in
    match elems (newEncoderAtOffset offset) with
    | (_, Some err) => (e, Some err)
    | (buf, None) =>
        enc_then (encode_num NUint32 (Z.of_nat (length (e_out buf))))
          (enc_then (enc_align algn) (enc_write (e_out buf))) e
    end.

Definition depth_error : enc_error := FormatError "input exceeds container depth limit".

Fixpoint encode (v : dval) (depth : nat) {struct v} : enc_step :=
  enc_then (enc_align (alignment (type_of v)))
  match v with
  | VNum k z => enc_write (put_uint (num_size k) z)
  | VBool b => encode_num NUint32 (if b then 1 else 0)%Z
  | VString s | VPath s => encode_string s
  | VSig s => encode_sig s
  | VVariant s v =>
      if 64 <=? depth then enc_panic depth_error
      else enc_then (encode_sig s) (encode v (S depth))
  | VArray t vs =>
      if 64 <=? depth then enc_panic depth_error
      else enc_sized (alignment t) (enc_list (fun v => encode v (S depth)) vs)
  | VDict k _ kvs =>
      if 63 <=? depth then enc_panic depth_error
      else if isKeyType k then
        enc_sized 8 (enc_list (fun '(k, v) =>
          enc_then (enc_align 8) (enc_then (encode k (2 + depth)) (encode v (2 + depth)))) kvs)
      else enc_panic InvalidTypeError
  | VStruct vs =>
      if 64 <=? depth then enc_panic depth_error
      else enc_list (fun v => encode v (S depth)) vs
  end.

(** Encode recovers the panic of encode: what was written stays in the buffer. *)
Definition Encode (vs : list dval) : enc_step := enc_list (fun v => encode v 0) vs.

(** * The decoder *)

Inductive dec_error : Type :=
| UnexpectedEOF
| DecFormat (why : string)
| DecSignature (e : SignatureError)
| DecInvalidType
| DecRuntime.

Record decoder : Type := mkDec { d_pos : Z; d_in : list Z }.

Inductive dres (A : Type) : Type :=
| DOk (a : A) (d : decoder)
| DPanic (err : dec_error)
| DMore.
Arguments DOk {A} a d.
Arguments DPanic {A} err.
Arguments DMore {A}.

Definition dec_step (A : Type) : Type := decoder -> dres A.

Definition dec_ret {A} (a : A) : dec_step A := fun d => DOk a d.
Definition dec_panic {A} (err : dec_error) : dec_step A := fun _ => DPanic err.
Definition dec_bind {A B} (m : dec_step A) (k : A -> dec_step B) : dec_step B :=
  fun d => match m d with
           | DOk a d' => k a d'
           | DPanic err => DPanic err
           | DMore => DMore
           end.

(** io.ReadFull of n bytes and the advance of pos. *)
Definition dec_read (n : Z) : dec_step (list Z) :=
  fun d =>
    if (Z.of_nat (length (d_in d)) <? n)%Z then DPanic UnexpectedEOF
    else DOk (take (Z.to_nat n) (d_in d)) (mkDec (d_pos d + n) (drop (Z.to_nat n) (d_in d))).

Definition dec_align (n : nat) : dec_step unit :=
  fun d =>
    let n := Z.of_nat n in
    if (d_pos d mod n =? 0)%Z then DOk tt d
    else
      let newpos := Z.land (d_pos d + n - 1) (Z.lnot (n - 1)) in
      dec_bind (dec_read (newpos - d_pos d)) (fun _ => dec_ret tt) d.

(** The signed types in two's complement. *)
Definition num_val (k : num) (u : Z) : Z :=
  match k with
  | NInt16 => if (u <? 2 ^ 15)%Z then u else (u - 2 ^ 16)%Z
  | NInt32 => if (u <? 2 ^ 31)%Z then u else (u - 2 ^ 32)%Z
  | NInt64 => if (u <? 2 ^ 63)%Z then u else (u - 2 ^ 64)%Z
  | _ => u
  end.

(** binread of a number *)
Definition dec_num (k : num) : dec_step Z :=
  dec_bind (dec_read (Z.of_nat (num_size k))) (fun b => dec_ret (num_val k (get_uint b))).

(** decode of "u", "s" and "g" *)
Definition decode_u32 : dec_step Z := dec_bind (dec_align 4) (fun _ => dec_num NUint32).

Definition dec_chars (length : Z) : dec_step sig :=
  dec_bind (dec_read (length + 1)) (fun b => dec_ret (map byte_char (take (Z.to_nat length) b))).

Definition dec_string : dec_step sig := dec_bind decode_u32 dec_chars.
Definition decode_string : dec_step sig := dec_bind (dec_align 4) (fun _ => dec_string).

(** A call that panics with an error, or with a runtime error. *)
Definition dec_lift {A} (o : outcome A) : dec_step A :=
  match o with
  | Returned a => dec_ret a
  | Halted _ => dec_panic DecRuntime
  end.

Definition dec_valid {A} (o : outcome (SignatureError + A)) : dec_step A :=
  match o with
  | Returned (inr a) => dec_ret a
  | Returned (inl e) => dec_panic (DecSignature e)
  | Halted _ => dec_panic DecRuntime
  end.

Definition decode_sig : dec_step sig :=
  dec_bind (dec_num NByte) (fun length =>
  dec_bind (dec_chars length) (fun s => dec_valid (ParseSignature s))).

(** ** Maps *)

Definition float_nan (b : Z) : bool :=
  (2047 * 2 ^ 52 <? Z.land b (2 ^ 63 - 1))%Z.

(** Equality of keys: floats are compared as numbers. *)
Definition key_eqb (a b : gval) : bool :=
  match a, b with
  | VNum NDouble x, VNum NDouble y =>
      negb (float_nan x) && negb (float_nan y) &&
      ((x =? y)%Z || ((Z.land x (2 ^ 63 - 1) =? 0)%Z && (Z.land y (2 ^ 63 - 1) =? 0)%Z))
  | VNum _ x, VNum _ y => (x =? y)%Z
  | VString x, VString y | VPath x, VPath y => bool_decide (x = y)
  | _, _ => false
  end.

(** SetMapIndex *)
Fixpoint map_set (k v : gval) (m : list (gval * gval)) : list (gval * gval) :=
  match m with
  | [] => [(k, v)]
  | (k', v') :: m' => if key_eqb k' k then (k, v) :: m' else (k', v') :: map_set k v m'
  end.

(** ** The loops *)

Definition dec_pos : dec_step Z := fun d => DOk (d_pos d) d.

(** for dec.pos < stop *)
Fixpoint dec_loop {A} (n : nat) (stop : Z) (f : A -> dec_step A) (acc : A) : dec_step A :=
  fun d =>
    if (d_pos d <? stop)%Z then
      match n with
      | O => DMore
      | S n' => dec_bind (f acc) (dec_loop n' stop f) d
      end
    else DOk acc d.

(** for s != "", over the types of a signature *)
Fixpoint dec_types (n : nat) (f : sig -> dec_step gval) (s : sig) (acc : list gval)
    : dec_step (list gval) :=
  match s, n with
  | [], _ => dec_ret acc
  | _, O => fun _ => DMore
  | _, S n' =>
      dec_bind (dec_valid (validSingle s 0)) (fun rem =>
      dec_bind (f (take (length s - length rem) s)) (fun v => dec_types n' f rem (acc ++ [v])))
  end.

Definition too_deep {A} : dec_step A := dec_panic (DecFormat "input exceeds container depth limit").

Fixpoint decode (fuel : nat) (s : sig) (depth : nat) : dec_step gval :=
  match fuel with
  | O => fun _ => DMore
  | S fuel' =>
      dec_bind (dec_lift (typeFor s)) (fun t =>
      dec_bind (dec_align (go_alignment t)) (fun _ =>
      match s with
      | [] => dec_panic DecRuntime
      | c :: s1 =>
          match sigToType c with
          | Some (TNum NFd) => dec_bind decode_u32 (fun i => dec_ret (VNum NFd i))
          | Some (TNum k) => dec_bind (dec_num k) (fun i => dec_ret (VNum k i))
          | Some TBool =>
              dec_bind decode_u32 (fun i =>
                if (i =? 0)%Z then dec_ret (VBool false)
                else if (i =? 1)%Z then dec_ret (VBool true)
                else dec_panic (DecFormat "invalid value for boolean"))
          | Some TString => dec_bind dec_string (fun s => dec_ret (VString s))
          | Some TPath => dec_bind decode_string (fun s => dec_ret (VPath s))
          | Some TSig => dec_bind decode_sig (fun s => dec_ret (VSig s))
          | Some TVariant =>
              if 64 <=? depth then too_deep
              else
                dec_bind decode_sig (fun sg =>
                match sg with
                | [] => dec_panic (DecFormat "variant signature is empty")
                | _ =>
                    dec_bind (dec_valid (validSingle sg 0)) (fun rem =>
                    match rem with
                    | [] => dec_bind (decode fuel' sg (S depth)) (fun v => dec_ret (VVariant sg v))
                    | _ => dec_panic (DecFormat "variant signature has multiple types")
                    end)
                end)
          | _ =>
              if (c =? "a")%char then
                if match s1 with c1 :: _ => (c1 =? "{")%char | [] => false end then
                  let ksig := take 1 (drop 2 s) in
                  let vsig := take (length s - 1 - 3) (drop 3 s) in
                  dec_bind (dec_lift (typeFor ksig)) (fun kt =>
                  dec_bind (dec_lift (typeFor vsig)) (fun vt =>
                  if 63 <=? depth then too_deep
                  else
                    dec_bind decode_u32 (fun length =>
                    dec_bind (dec_align 8) (fun _ =>
                    dec_bind dec_pos (fun spos =>
                    dec_bind (dec_loop fuel' (spos + length) (fun m =>
                      dec_bind (dec_align 8) (fun _ =>
                      if match kt with GSimple t => isKeyType t | _ => false end then
                        dec_bind (decode fuel' ksig (2 + depth)) (fun kv =>
                        dec_bind (decode fuel' vsig (2 + depth)) (fun vv =>
                        dec_ret (map_set kv vv m)))
                      else dec_panic DecInvalidType)) [])
                    (fun m => dec_ret (VDict kt vt m)))))))
                else if 64 <=? depth then too_deep
                else
                  dec_bind decode_u32 (fun length =>
                  dec_bind (dec_lift (typeFor s1)) (fun t =>
                  dec_bind (dec_align (go_alignment t)) (fun _ =>
                  dec_bind dec_pos (fun spos =>
                  dec_bind (dec_loop fuel' (spos + length) (fun vs =>
                    dec_bind (decode fuel' s1 (S depth)) (fun v => dec_ret (vs ++ [v]))) [])
                  (fun vs => dec_ret (VArray t vs))))))
              else if (c =? "(")%char then
                if 64 <=? depth then too_deep
                else
                  dec_bind (dec_align 8) (fun _ =>
                  let s := take (length s - 1 - 1) (drop 1 s) in
                  dec_bind (dec_types (length s) (fun s => decode fuel' s (S depth)) s [])
                  (fun vs => dec_ret (VStruct vs)))
              else dec_panic (DecSignature (mkSigError s EmptyString))
          end
      end))
  end.

(** Decode. The error of validSingle is lost: the deferred function overwrites the result with
    what recover returns, which is nil. *)
Fixpoint decode_all (fuel n : nat) (s : sig) (acc : list gval) : dec_step (list gval) :=
  match s, n with
  | [], _ => dec_ret acc
  | _, O => fun _ => DMore
  | _, S n' =>
      match validSingle s 0 with
      | Halted _ => dec_panic DecRuntime
      | Returned (inl _) => dec_ret []
      | Returned (inr rem) =>
          dec_bind (decode fuel (take (length s - length rem) s) 0) (fun v =>
          decode_all fuel n' rem (acc ++ [v]))
      end
  end.

Definition Decode (fuel : nat) (s : sig) : dec_step (list gval) := decode_all fuel (length s) s [].

End codec.

Arguments DOk {A} a d.
Arguments DPanic {A} err.
Arguments DMore {A}.

(** * Reading back what was written *)

(** The nested induction on values. *)
Section val_nested.
Variable T : Type.
Variable P : val T -> Prop.
Hypothesis P_num : forall k z, P (VNum k z).
Hypothesis P_bool : forall b, P (VBool b).
Hypothesis P_string : forall s, P (VString s).
Hypothesis P_path : forall s, P (VPath s).
Hypothesis P_sig : forall s, P (VSig s).
Hypothesis P_variant : forall s v, P v -> P (VVariant s v).
Hypothesis P_array : forall t vs, Forall P vs -> P (VArray t vs).
Hypothesis P_dict : forall k v kvs, Forall (fun kv => P kv.1 /\ P kv.2) kvs -> P (VDict k v kvs).
Hypothesis P_struct : forall vs, Forall P vs -> P (VStruct vs).

Fixpoint val_nested (v : val T) : P v :=
  let go := fix go (vs : list (val T)) : Forall P vs :=
    match vs with
    | [] => @List.Forall_nil _ P
    | v :: vs => @List.Forall_cons _ P v vs (val_nested v) (go vs)
    end in
  match v with
  | VNum k z => P_num k z
  | VBool b => P_bool b
  | VString s => P_string s
  | VPath s => P_path s
  | VSig s => P_sig s
  | VVariant s v => P_variant s v (val_nested v)
  | VArray t vs => P_array t vs (go vs)
  | VDict k v kvs =>
      P_dict k v kvs
        ((fix go2 (kvs : list (val T * val T)) : Forall (fun kv => P kv.1 /\ P kv.2) kvs :=
            match kvs with
            | [] => @List.Forall_nil _ _
            | (k, v) :: kvs =>
                @List.Forall_cons _ (fun kv => P kv.1 /\ P kv.2) (k, v) kvs
                  (conj (val_nested k) (val_nested v)) (go2 kvs)
            end) kvs)
  | VStruct vs => P_struct vs (go vs)
  end.

End val_nested.

Lemma byte_char_byte c : byte_char (char_byte c) = c.
Proof. unfold byte_char, char_byte. by rewrite N2Z.id, ascii_N_embedding. Qed.

Lemma map_byte_char s : map byte_char (map char_byte s) = s.
Proof. rewrite map_map. rewrite <- (map_id s) at 2. apply map_ext, byte_char_byte. Qed.

Section roundtrip.
Context {E : Endian}.

(** What a step writes is read back by another as [a]. *)
Definition matches {A} (m : enc_step) (D : dec_step A) (a : A) : Prop := forall e e',
  (0 <= e_pos e)%Z -> m e = (e', None) -> exists bs,
  e' = mkEnc (e_out e ++ bs) (e_pos e + Z.of_nat (length bs))
  /\ ((Z.of_nat (length bs) < 2 ^ 32)%Z -> forall rest,
      D (mkDec (e_pos e) (bs ++ rest)) = DOk a (mkDec (e_pos e') rest)).

Lemma matches_then {A B} m1 m2 (D1 : dec_step A) (D2 : A -> dec_step B) a b :
  matches m1 D1 a -> matches m2 (D2 a) b -> matches (enc_then m1 m2) (dec_bind D1 D2) b.
Proof.
  intros H1 H2 e e2 Hp. unfold enc_then, dec_bind.
  destruct (m1 e) as [e1 [err|]] eqn:E1; [done|]. intros E2.
  destruct (H1 _ _ Hp E1) as (bs1 & -> & R1).
  destruct (H2 (mkEnc (e_out e ++ bs1) (e_pos e + Z.of_nat (length bs1))) e2)
    as (bs2 & -> & R2); simpl in *; [lia|done|].
  exists (bs1 ++ bs2). rewrite length_app, Nat2Z.inj_add. split.
  - f_equal; [by rewrite app_assoc|lia].
  - intros Hl rest. rewrite <- app_assoc, R1 by lia. apply R2. lia.
Qed.

(** A decoder that only changes the result. *)
Lemma matches_map {A B} m (D : dec_step A) (f : A -> dec_step B) a b :
  matches m D a -> (forall d, f a d = DOk b d) -> matches m (dec_bind D f) b.
Proof.
  intros H Hf e e' Hp He. destruct (H _ _ Hp He) as (bs & -> & R). exists bs.
  split; [done|]. intros Hl rest. unfold dec_bind. rewrite R by done. apply Hf.
Qed.

(** A decoder that first does something that costs nothing. *)
Lemma matches_pure {A B} m (D : dec_step A) (f : A -> dec_step B) a b :
  (forall d, D d = DOk a d) -> matches m (f a) b -> matches m (dec_bind D f) b.
Proof.
  intros HD H e e' Hp He. destruct (H _ _ Hp He) as (bs & -> & R). exists bs.
  split; [done|]. intros Hl rest. unfold dec_bind. rewrite HD. by apply R.
Qed.

Lemma matches_ret {A} (a : A) : matches enc_skip (dec_ret a) a.
Proof.
  intros e e' Hp [= <-]. exists []. simpl. rewrite app_nil_r, Z.add_0_r. by destruct e.
Qed.

Lemma matches_panic {A} err (D : dec_step A) a : matches (enc_panic err) D a.
Proof. by intros e e' _ ?. Qed.

Lemma matches_ext {A} m (D D' : dec_step A) a :
  (forall d, (0 <= d_pos d)%Z -> D d = D' d) -> matches m D a -> matches m D' a.
Proof.
  intros HD H e e' Hp He. destruct (H _ _ Hp He) as (bs & -> & R). exists bs. split; [done|].
  intros Hl rest. rewrite <- HD by done. by apply R.
Qed.

(** A write whose bytes are read back at once. *)
Lemma matches_write {A} b (D : dec_step A) a :
  ((Z.of_nat (length b) < 2 ^ 32)%Z -> forall p rest,
     D (mkDec p (b ++ rest)) = DOk a (mkDec (p + Z.of_nat (length b)) rest)) ->
  matches (enc_write b) D a.
Proof. intros H e e' Hp [= <-]. exists b. split; [done|]. intros Hl rest. simpl. by apply H. Qed.

Lemma dec_read_app p b rest :
  dec_read (Z.of_nat (length b)) (mkDec p (b ++ rest)) = DOk b (mkDec (p + Z.of_nat (length b)) rest).
Proof.
  unfold dec_read. simpl. rewrite length_app.
  destruct (Z.ltb_spec (Z.of_nat (length b + length rest)) (Z.of_nat (length b))); [lia|].
  by rewrite Nat2Z.id, take_app_length, drop_app_length.
Qed.

(** ** Padding *)

Definition aligned (n : nat) : Prop := n = 1 \/ n = 2 \/ n = 4 \/ n = 8.

Lemma alignment_aligned t : aligned (alignment t).
Proof. unfold aligned. destruct t as [[]| | | | | | | |]; simpl; lia. Qed.

Lemma land_lnot_pow2 x k : (0 <= k)%Z -> Z.land x (Z.lnot (2 ^ k - 1)) = (x / 2 ^ k * 2 ^ k)%Z.
Proof.
  intros Hk. replace (2 ^ k - 1)%Z with (Z.ones k) by (rewrite Z.ones_equiv; lia).
  rewrite <- Z.ldiff_land, Z.ldiff_ones_r by done. by rewrite Z.shiftr_div_pow2, Z.shiftl_mul_pow2.
Qed.

(** The next multiple of the alignment. *)
Lemma round_up n x : aligned n -> (x mod Z.of_nat n <> 0)%Z ->
  exists k, (Z.land (x + Z.of_nat n - 1) (Z.lnot (Z.of_nat n - 1)) = Z.of_nat n * k
             /\ x < Z.of_nat n * k < x + Z.of_nat n)%Z.
Proof.
  intros Ha Hm.
  assert (exists j, (0 <= j)%Z /\ Z.of_nat n = (2 ^ j)%Z) as (j & Hj & Hn).
  { destruct Ha as [-> |[-> |[-> | ->]]];
      [exists 0%Z|exists 1%Z|exists 2%Z|exists 3%Z]; (split; [lia|done]). }
  rewrite Hn in *. rewrite land_lnot_pow2 by done.
  set (N := (2 ^ j)%Z) in *. assert (0 < N)%Z by (unfold N; lia). exists ((x + N - 1) / N)%Z. split; [lia|].
  pose proof (Z.div_mod (x + N - 1) N ltac:(lia)). pose proof (Z.mod_pos_bound (x + N - 1) N ltac:(lia)).
  pose proof (Z.div_mod x N ltac:(lia)). pose proof (Z.mod_pos_bound x N ltac:(lia)).
  assert ((x + N - 1) / N = x / N + 1)%Z by (symmetry; apply Z.div_unique with (x mod N - 1)%Z; lia).
  nia.
Qed.

Lemma matches_align n : aligned n -> matches (enc_align n) (dec_align n) tt.
Proof.
  intros Ha e e' Hp. unfold enc_align, padding. rewrite Z.add_0_r.
  destruct (Z.eqb_spec (e_pos e mod Z.of_nat n) 0) as [Hz|Hz].
  - intros [= <-]. exists []. simpl. rewrite app_nil_r, Z.add_0_r. split; [by destruct e|].
    intros _ rest. unfold dec_align. simpl. by rewrite Hz.
  - destruct (round_up n _ Ha Hz) as (k & Hk & Hb). rewrite Hk.
    set (q := (Z.of_nat n * k - e_pos e)%Z) in *.
    destruct (Z.ltb_spec 0 q) as [Hq|]; [|unfold q in *; lia]. intros [= <-].
    exists (replicate (Z.to_nat q) 0%Z). split; [done|]. intros _ rest.
    unfold dec_align. cbn [d_pos e_pos]. rewrite (proj2 (Z.eqb_neq _ _) Hz), Hk. fold q.
    unfold dec_bind. rewrite length_replicate.
    rewrite <- (Z2Nat.id q) at 1 by lia.
    rewrite <- (length_replicate (Z.to_nat q) 0%Z) at 1. rewrite dec_read_app.
    by rewrite length_replicate.
Qed.

(** ** Numbers and strings *)

Definition in_range (k : num) (z : Z) : bool :=
  let m := (256 ^ Z.of_nat (num_size k))%Z in
  match k with
  | NInt16 | NInt32 | NInt64 => (- (m / 2) <=? z)%Z && (z <? m / 2)%Z
  | _ => (0 <=? z)%Z && (z <? m)%Z
  end.

Lemma signed_mod h z : (0 < h)%Z -> (- h <= z < h)%Z ->
  (if z mod (2 * h) <? h then z mod (2 * h) else z mod (2 * h) - 2 * h)%Z = z.
Proof.
  intros Hh Hz. destruct (Z.ltb_spec z 0).
  - rewrite <- (Z.mod_add z 1), Z.mod_small by lia.
    destruct (Z.ltb_spec (z + 1 * (2 * h)) h); lia.
  - rewrite Z.mod_small by lia. destruct (Z.ltb_spec z h); lia.
Qed.

Lemma num_val_in_range k z : in_range k z = true -> num_val k (uint_n (num_size k) z) = z.
Proof.
  unfold in_range, uint_n. destruct k; cbn [num_size num_val];
    rewrite andb_true_iff, Z.leb_le, Z.ltb_lt; intros Hz; try (apply Z.mod_small; lia).
  - by apply (signed_mod (2 ^ 15)).
  - by apply (signed_mod (2 ^ 31)).
  - by apply (signed_mod (2 ^ 63)).
Qed.

Lemma matches_num_bytes k z :
  matches (enc_write (put_uint (num_size k) z)) (dec_num k) (num_val k (uint_n (num_size k) z)).
Proof.
  apply matches_write. intros _ p rest. unfold dec_num, dec_bind.
  rewrite length_put_uint. rewrite <- (length_put_uint (num_size k) z) at 1.
  rewrite dec_read_app, length_put_uint. unfold dec_ret. by rewrite get_put_uint.
Qed.

Lemma num_size_aligned k : aligned (num_size k).
Proof. apply (alignment_aligned (TNum k)). Qed.

Lemma matches_encode_u32 z :
  matches (encode_num NUint32 z) decode_u32 (uint_n 4 z).
Proof.
  apply (matches_then _ _ _ _ tt); [apply matches_align; by right; right; left|].
  apply (matches_num_bytes NUint32).
Qed.

(** The bytes of a string and the zero after it. *)
Lemma matches_chars s :
  matches (enc_write (map char_byte s ++ [0%Z])) (dec_chars (Z.of_nat (length s))) s.
Proof.
  apply matches_write. intros _ p rest. unfold dec_chars, dec_bind.
  assert (Z.of_nat (length s) + 1 = Z.of_nat (length (map char_byte s ++ [0%Z])))%Z as Hl
    by (rewrite length_app, length_map; simpl; lia).
  rewrite Hl, dec_read_app. unfold dec_ret. f_equal.
  rewrite Nat2Z.id, take_app_le by (by rewrite length_map).
  rewrite take_ge by (by rewrite length_map). apply map_byte_char.
Qed.

Lemma matches_string s :
  (Z.of_nat (length s) < 2 ^ 32)%Z -> matches (encode_string s) dec_string s.
Proof.
  intros Hl. apply (matches_then _ _ _ _ (uint_n 4 (Z.of_nat (length s)))).
  - apply matches_encode_u32.
  - rewrite uint_n_small by lia. apply matches_chars.
Qed.

Lemma matches_sig s :
  ParseSignature s = Returned (inr s) -> matches (encode_sig s) decode_sig s.
Proof.
  intros Hp. pose proof (proj1 (ParseSignature_accepts s s) Hp) as (_ & Hl & _).
  apply (matches_then _ _ _ _ (uint_n 1 (Z.of_nat (length s)))).
  - unfold encode_num. intros e e' H0. unfold enc_then at 1, enc_align, padding.
    rewrite Z.add_0_r. change (Z.of_nat (num_size NByte)) with 1%Z. rewrite Z.mod_1_r. simpl Z.ltb.
    by apply (matches_num_bytes NByte).
  - rewrite uint_n_small by lia. apply (matches_map _ _ _ s); [apply matches_chars|].
    intros d. unfold dec_valid. by rewrite Hp.
Qed.

(** ** Progress *)

(** Steps that write at least one byte. *)
Definition grows (m : enc_step) : Prop := forall e e',
  (0 <= e_pos e)%Z -> m e = (e', None) -> (e_pos e < e_pos e')%Z.

Definition keeps (m : enc_step) : Prop := forall e e',
  (0 <= e_pos e)%Z -> m e = (e', None) -> (e_pos e <= e_pos e')%Z.

Lemma matches_keeps {A} m (D : dec_step A) a : matches m D a -> keeps m.
Proof. intros H e e' Hp He. destruct (H e e' Hp He) as (bs & -> & _). simpl. lia. Qed.

Lemma grows_keeps m : grows m -> keeps m.
Proof. intros H e e' Hp He. pose proof (H e e' Hp He). lia. Qed.

Lemma align_keeps n : aligned n -> keeps (enc_align n).
Proof. intros Ha. by eapply matches_keeps, matches_align. Qed.

Lemma write_keeps b : keeps (enc_write b).
Proof. intros e e' _ [= <-]. simpl. lia. Qed.

Lemma write_grows b : 0 < length b -> grows (enc_write b).
Proof. intros Hb e e' _ [= <-]. simpl. lia. Qed.

Lemma then_keeps m1 m2 : keeps m1 -> keeps m2 -> keeps (enc_then m1 m2).
Proof.
  intros H1 H2 e e' Hp. unfold enc_then. destruct (m1 e) as [e1 [|]] eqn:E1; [done|]. intros E2.
  pose proof (H1 _ _ Hp E1). pose proof (H2 e1 e' ltac:(lia) E2). lia.
Qed.

Lemma then_grows m1 m2 :
  keeps m1 -> keeps m2 -> grows m1 \/ grows m2 -> grows (enc_then m1 m2).
Proof.
  intros H1 H2 Hg e e' Hp. unfold enc_then. destruct (m1 e) as [e1 [|]] eqn:E1; [done|]. intros E2.
  pose proof (H1 _ _ Hp E1). pose proof (H2 e1 e' ltac:(lia) E2).
  destruct Hg as [Hg|Hg]; [pose proof (Hg _ _ Hp E1)|pose proof (Hg e1 e' ltac:(lia) E2)]; lia.
Qed.

Lemma list_keeps {A} (f : A -> enc_step) l : (forall a, In a l -> keeps (f a)) -> keeps (enc_list f l).
Proof.
  induction l as [|a l IH]; intros H; [by intros e e' _ [= <-]|].
  apply then_keeps; [apply H; by left|]. apply IH. intros. apply H. by right.
Qed.

Lemma encode_num_grows k z : grows (encode_num k z).
Proof.
  apply then_grows; [apply align_keeps, num_size_aligned|apply write_keeps|right].
  apply write_grows. rewrite length_put_uint. destruct k; simpl; lia.
Qed.

Lemma sized_grows n elems : aligned n -> grows (enc_sized n elems).
Proof.
  intros Ha e e' Hp. unfold enc_sized. destruct (elems _) as [buf [|]]; [done|].
  apply then_grows; [apply grows_keeps, encode_num_grows| |left; apply encode_num_grows|done].
  apply then_keeps; [by apply align_keeps|apply write_keeps].
Qed.

(** ** Slices and maps *)

(** A decoder that knows where the elements start and how many bytes they take. *)
Definition sized_matches {A} (m : enc_step) (D : Z -> Z -> dec_step A) (a : A) : Prop := forall e e',
  (0 <= e_pos e)%Z -> m e = (e', None) -> exists bs,
  e' = mkEnc (e_out e ++ bs) (e_pos e + Z.of_nat (length bs))
  /\ ((Z.of_nat (length bs) < 2 ^ 32)%Z -> forall rest,
      D (e_pos e) (Z.of_nat (length bs)) (mkDec (e_pos e) (bs ++ rest))
      = DOk a (mkDec (e_pos e') rest)).

Lemma enc_align_pos n e : aligned n -> exists out,
  enc_align n e = (mkEnc out (e_pos e + padding e 0 (Z.of_nat n)), None).
Proof.
  intros Ha. unfold enc_align, enc_write. cbn [fst].
  assert (0 <= padding e 0 (Z.of_nat n))%Z as Hpad.
  { unfold padding. destruct (Z.eqb_spec ((e_pos e + 0) mod Z.of_nat n) 0) as [|Hz]; [lia|].
    destruct (round_up n _ Ha Hz) as (k & -> & ?). lia. }
  destruct (Z.ltb_spec 0 (padding e 0 (Z.of_nat n))).
  - rewrite length_replicate, Z2Nat.id by lia. eauto.
  - replace (padding e 0 (Z.of_nat n)) with 0%Z by lia. rewrite Z.add_0_r.
    exists (e_out e). by destruct e.
Qed.

Lemma padding_shift e e' offset algn :
  e_pos e' = (e_pos e + offset)%Z -> padding e' 0 algn = padding e offset algn.
Proof. intros H. unfold padding. by rewrite H, Z.add_0_r. Qed.

(** The look-ahead is right: the length and the padding end where the buffer starts. *)
Lemma enc_sized_offset n e L : aligned n -> exists out,
  enc_then (encode_num NUint32 L) (enc_align n) e =
    (mkEnc out (e_pos e + (padding e 0 4 + 4) + padding e (padding e 0 4 + 4) (Z.of_nat n)), None).
Proof.
  intros Ha. unfold enc_then, encode_num, enc_then.
  destruct (enc_align_pos 4 e) as (out & Hout); [by right; right; left|].
  change (Z.of_nat 4) with 4%Z in Hout.
  cbn [num_size]. rewrite Hout. unfold enc_write. cbn [e_out e_pos].
  rewrite length_put_uint.
  set (e1 := mkEnc (out ++ put_uint 4 L) (e_pos e + padding e 0 4 + Z.of_nat 4)).
  destruct (enc_align_pos n e1 Ha) as (out' & ->). exists out'.
  rewrite (padding_shift e e1 (padding e 0 4 + 4)) by (unfold e1; cbn [e_pos]; lia). unfold e1.
  cbn [e_pos]. do 2 f_equal. lia.
Qed.

Lemma matches_sized {A} n n' elems (D : Z -> Z -> dec_step A) a :
  aligned n -> n' = n -> sized_matches elems D a ->
  matches (enc_sized n elems)
    (dec_bind decode_u32 (fun length => dec_bind (dec_align n') (fun _ =>
       dec_bind dec_pos (fun spos => D spos length)))) a.
Proof.
  intros Ha -> H e e' Hp. unfold enc_sized.
  set (offset := (e_pos e + (padding e 0 4 + 4) + padding e (padding e 0 4 + 4) (Z.of_nat n))%Z).
  destruct (elems (newEncoderAtOffset offset)) as [buf [|]] eqn:Eb; [done|].
  set (L := Z.of_nat (length (e_out buf))). intros He.
  set (m1 := enc_then (encode_num NUint32 L) (enc_align n)).
  assert (enc_then m1 (enc_write (e_out buf)) e = (e', None)) as He'.
  { rewrite <- He. unfold m1, enc_then. by destruct (encode_num NUint32 L e) as [? [|]]. }
  destruct (enc_sized_offset n e L Ha) as (out & Hm1). fold offset m1 in Hm1.
  assert (matches m1 (dec_bind decode_u32 (fun l => dec_bind (dec_align n) (fun _ => dec_ret l)))
                  (uint_n 4 L)) as HM.
  { apply (matches_then _ _ _ _ (uint_n 4 L)); [apply matches_encode_u32|].
    by apply (matches_map _ _ _ tt); [apply matches_align|]. }
  destruct (HM _ _ Hp Hm1) as (bs1 & Heq & R1). injection Heq as -> Hoff.
  unfold enc_then in He'. rewrite Hm1 in He'. unfold enc_write in He'. cbn [e_out e_pos] in He'.
  destruct (H (newEncoderAtOffset offset) buf) as (bs & Hbuf & R2); [simpl; lia|done|].
  subst buf. simpl e_out in *. injection He' as <-.
  exists (bs1 ++ bs). rewrite length_app, Nat2Z.inj_add. split.
  - f_equal; [by rewrite app_assoc|lia].
  - intros Hl rest. rewrite <- app_assoc.
    specialize (R1 ltac:(lia) (bs ++ rest)). specialize (R2 ltac:(lia) rest). cbn [e_pos] in *.
    rewrite uint_n_small in R1 by (unfold L; simpl; lia).
    unfold dec_bind in R1 |- *. destruct (decode_u32 _) as [l d1| |]; try done.
    destruct (dec_align n d1) as [[] d2| |]; try done. injection R1 as -> ->.
    unfold dec_pos. cbn [d_pos]. unfold newEncoderAtOffset in R2. cbn [e_pos] in R2.
    exact R2.
Qed.

(** The loop reads the elements one after the other and stops after the last. *)
Lemma matches_loop {A X} (enc1 : X -> enc_step) (f : A -> dec_step A) (g : A -> X -> A) l : forall n acc,
  (forall x acc, In x l -> matches (enc1 x) (f acc) (g acc x)) ->
  (forall x, In x l -> grows (enc1 x)) -> length l <= n ->
  sized_matches (enc_list enc1 l) (fun spos len => dec_loop n (spos + len) f acc) (fold_left g l acc).
Proof.
  induction l as [|x l IH]; intros n acc Hm Hg Hn e e' Hp.
  - intros [= <-]. exists []. simpl. rewrite app_nil_r, Z.add_0_r. split; [by destruct e|].
    intros _ rest. destruct n; cbn [dec_loop d_pos]; by rewrite Z.ltb_irrefl.
  - destruct n as [|n]; simpl in Hn; [lia|]. cbn [enc_list]. unfold enc_then.
    destruct (enc1 x e) as [e1 [|]] eqn:E1; [done|]. intros E2.
    pose proof (Hg x (or_introl eq_refl) _ _ Hp E1) as Hlt.
    destruct (Hm x acc (or_introl eq_refl) _ _ Hp E1) as (bs1 & -> & R1). simpl e_pos in *.
    assert (sized_matches (enc_list enc1 l) (fun spos len => dec_loop n (spos + len) f (g acc x))
              (fold_left g l (g acc x))) as H2
      by (apply IH; [intros; apply Hm; by right|intros; apply Hg; by right|lia]).
    destruct (H2 (mkEnc (e_out e ++ bs1) (e_pos e + Z.of_nat (length bs1))) e' ltac:(simpl; lia) E2)
      as (bs2 & -> & R2). simpl e_pos in *.
    exists (bs1 ++ bs2). rewrite length_app, Nat2Z.inj_add. cbn [e_out]. split.
    + f_equal; [by rewrite app_assoc|lia].
    + intros Hl rest. rewrite <- app_assoc. cbn [dec_loop]. cbn [d_pos].
      destruct (Z.ltb_spec (e_pos e) (e_pos e + (Z.of_nat (length bs1) + Z.of_nat (length bs2)))); [|lia].
      unfold dec_bind. rewrite R1 by lia. cbn [fold_left]. rewrite Z.add_assoc. apply R2. lia.
Qed.

Lemma sized_map {A B} m (D : Z -> Z -> dec_step A) (f : A -> dec_step B) a b :
  sized_matches m D a -> (forall d, f a d = DOk b d) ->
  sized_matches m (fun spos length => dec_bind (D spos length) f) b.
Proof.
  intros H Hf e e' Hp He. destruct (H _ _ Hp He) as (bs & -> & R). exists bs.
  split; [done|]. intros Hl rest. unfold dec_bind. rewrite R by done. apply Hf.
Qed.

(** ** Values that can be read back *)

(** What the decoder makes of a value. *)
Fixpoint erase (v : dval) : gval :=
  match v with
  | VNum k z => VNum k z
  | VBool b => VBool b
  | VString s => VString s
  | VPath s => VPath s
  | VSig s => VSig s
  | VVariant s v => VVariant s (erase v)
  | VArray t vs => VArray (go_of t) (map erase vs)
  | VDict k v kvs => VDict (go_of k) (go_of v) (map (fun '(k, v) => (erase k, erase v)) kvs)
  | VStruct vs => VStruct (map erase vs)
  end.

Fixpoint distinct_keys (ks : list gval) : bool :=
  match ks with
  | [] => true
  | k :: ks => forallb (fun k' => negb (key_eqb k k')) ks && distinct_keys ks
  end.

(** The invariants of Go values of D-Bus types: numbers are in their range, the elements of
    slices and maps have the type the container says and the keys of a map differ. Further,
    strings have lengths that fit their length fields, signatures are valid, a variant has the
    signature of its value, and no struct is empty. *)
Fixpoint wf_val (v : dval) : Prop :=
  match v with
  | VNum k z => in_range k z = true
  | VBool _ => True
  | VString s | VPath s => (Z.of_nat (length s) < 2 ^ 32)%Z
  | VSig s => ParseSignature s = Returned (inr s)
  | VVariant s v =>
      s = sig_of (type_of v) /\ length s <= 255 /\ fits 0 (type_of v) = true /\ wf_val v
  | VArray t vs => foldr (fun v P => (type_of v = t /\ wf_val v) /\ P) True vs
  | VDict k v kvs =>
      isKeyType k = true /\ distinct_keys (map (fun kv => erase kv.1) kvs) = true
      /\ foldr (fun '(k', v') P =>
                  (type_of k' = k /\ wf_val k') /\ (type_of v' = v /\ wf_val v') /\ P) True kvs
  | VStruct vs => vs <> [] /\ foldr (fun v P => wf_val v /\ P) True vs
  end.

(** The fuel that decode needs: one for the call, and for a container its elements and theirs. *)
Fixpoint need (v : dval) : nat :=
  match v with
  | VVariant _ v => S (need v)
  | VArray _ vs | VStruct vs => S (foldr (fun v n => S (need v + n)) 0 vs)
  | VDict _ _ kvs => S (foldr (fun '(k, v) n => S (need k + need v + n)) 0 kvs)
  | _ => 1
  end.

(** The nesting that encode and decode accept: a dict counts twice. *)
Fixpoint depth_ok (d : nat) (v : dval) : bool :=
  match v with
  | VVariant _ v => (d <? 64) && depth_ok (S d) v
  | VArray _ vs | VStruct vs => (d <? 64) && forallb (depth_ok (S d)) vs
  | VDict _ _ kvs => (d <? 63) && forallb (fun '(k, v) => depth_ok (2 + d) k && depth_ok (2 + d) v) kvs
  | _ => true
  end.

Lemma wf_array t vs : wf_val (VArray t vs) <-> Forall (fun v => type_of v = t /\ wf_val v) vs.
Proof. simpl. induction vs as [|v vs IH]; simpl; [done|]. by rewrite IH, Forall_cons. Qed.

Lemma wf_struct vs : wf_val (VStruct vs) <-> vs <> [] /\ Forall wf_val vs.
Proof.
  simpl. apply and_iff_compat_l. induction vs as [|v vs IH]; simpl; [done|].
  by rewrite IH, Forall_cons.
Qed.

Lemma wf_dict k v kvs : wf_val (VDict k v kvs) <->
  isKeyType k = true /\ distinct_keys (map (fun kv => erase kv.1) kvs) = true
  /\ Forall (fun kv => (type_of kv.1 = k /\ wf_val kv.1) /\ (type_of kv.2 = v /\ wf_val kv.2)) kvs.
Proof.
  simpl. do 2 apply and_iff_compat_l.
  induction kvs as [|[k' v'] kvs IH]; simpl; [done|]. rewrite IH, Forall_cons. simpl. tauto.
Qed.

Lemma need_In v vs : In v vs -> need v + 1 <= foldr (fun v n => S (need v + n)) 0 vs.
Proof. induction vs as [|v' vs IH]; simpl; [done|]. intros [-> |H]; [lia|]. specialize (IH H). lia. Qed.

Lemma need_length vs : length vs <= foldr (fun v n => S (need v + n)) 0 vs.
Proof. induction vs; simpl; lia. Qed.

Lemma need_pairs_In k v kvs :
  In (k, v) kvs -> need k + need v + 1 <= foldr (fun '(k, v) n => S (need k + need v + n)) 0 kvs.
Proof.
  induction kvs as [|[k' v'] kvs IH]; simpl; [done|].
  intros [[= -> ->]|H]; [lia|]. specialize (IH H). lia.
Qed.

Lemma need_pairs_length (kvs : list (dval * dval)) :
  length kvs <= foldr (fun '(k, v) n => S (need k + need v + n)) 0 kvs.
Proof. induction kvs as [|[k v] kvs IH]; simpl; lia. Qed.

(** The loop over the types of a struct reads its fields. *)
Lemma matches_types (enc1 : dval -> enc_step) f vs : forall n acc,
  Forall (fun v => fits 0 (type_of v) = true
                   /\ matches (enc1 v) (f (sig_of (type_of v))) (erase v)) vs ->
  length vs <= n ->
  matches (enc_list enc1 vs) (dec_types n f (sigs_of (map type_of vs)) acc) (acc ++ map erase vs).
Proof.
  induction vs as [|v vs IH]; intros n acc Hvs Hn.
  - cbn [map]. rewrite app_nil_r. destruct n; apply matches_ret.
  - destruct n as [|n]; simpl in Hn; [lia|]. apply Forall_cons in Hvs as [[Hf Hv] Hvs].
    change (sigs_of (map type_of (v :: vs))) with (sig_of (type_of v) ++ sigs_of (map type_of vs)).
    pose proof (sig_of_length (type_of v)) as Hlen.
    remember (sig_of (type_of v) ++ sigs_of (map type_of vs)) as s eqn:Es.
    destruct s as [|c s]; [apply (f_equal length) in Es; rewrite length_app in Es; simpl in Es; lia|].
    cbn [dec_types]. rewrite Es. apply (matches_pure _ _ _ (sigs_of (map type_of vs))).
    { intros d. by rewrite validSingle_sig_of. }
    rewrite length_app, Nat.add_sub, take_app_length.
    apply (matches_then _ _ _ _ (erase v)); [done|].
    replace (acc ++ map erase (v :: vs)) with ((acc ++ [erase v]) ++ map erase vs)
      by (by rewrite <- app_assoc).
    apply IH; [done|lia].
Qed.

(** Entries with new keys are added at the end. *)
Lemma map_set_new k v m :
  forallb (fun kv => negb (key_eqb kv.1 k)) m = true -> map_set k v m = m ++ [(k, v)].
Proof.
  induction m as [|[k' v'] m IH]; simpl; [done|]. rewrite andb_true_iff, negb_true_iff.
  intros [-> H]. by rewrite IH.
Qed.

Lemma map_set_all (kvs : list (dval * dval)) : forall m,
  distinct_keys (map fst m ++ map (fun kv => erase kv.1) kvs) = true ->
  fold_left (fun m '(k, v) => map_set (erase k) (erase v) m) kvs m
  = m ++ map (fun '(k, v) => (erase k, erase v)) kvs.
Proof.
  induction kvs as [|[k v] kvs IH]; intros m Hd; [by rewrite app_nil_r|].
  cbn [fold_left map] in *. rewrite map_set_new.
  - rewrite IH; [by rewrite <- app_assoc|]. rewrite map_app. simpl. by rewrite <- app_assoc.
  - clear IH. induction m as [|[k' v'] m IHm]; [done|].
    cbn [map app distinct_keys] in Hd. rewrite andb_true_iff in Hd. destruct Hd as [H1 H2].
    simpl. rewrite (IHm H2), andb_true_r. rewrite forallb_app, andb_true_iff in H1.
    destruct H1 as [_ H1]. simpl in H1. by apply andb_true_iff in H1 as [H1 _].
Qed.

Lemma encode_string_grows s : grows (encode_string s).
Proof. apply then_grows; [apply grows_keeps| |left]; auto using encode_num_grows, write_keeps. Qed.

Lemma encode_sig_grows s : grows (encode_sig s).
Proof. apply then_grows; [apply grows_keeps| |left]; auto using encode_num_grows, write_keeps. Qed.

Lemma panic_grows err : grows (enc_panic err).
Proof. by intros e e' _ ?. Qed.

(** Every value takes at least one byte. *)
Lemma encode_grows v : forall d, wf_val v -> grows (encode v d).
Proof.
  induction v as [k z|b|s|s|s|s v IH|t vs IH|kt vt kvs IH|vs IH] using val_nested; intros d Hw;
    cbn [encode];
    (assert (forall m, grows m -> grows (enc_then (enc_align (alignment (type_of ltac:(match goal with
      | H : wf_val ?v |- _ => exact v end)))) m)) as Halign;
     [intros m Hm; apply then_grows; auto using align_keeps, alignment_aligned, grows_keeps|];
     apply Halign).
  - apply write_grows. rewrite length_put_uint. destruct k; simpl; lia.
  - apply encode_num_grows.
  - apply encode_string_grows.
  - apply encode_string_grows.
  - apply encode_sig_grows.
  - destruct (64 <=? d); [apply panic_grows|]. destruct Hw as (_ & _ & _ & Hw).
    apply then_grows; [apply grows_keeps, encode_sig_grows|by apply grows_keeps, IH|left].
    apply encode_sig_grows.
  - destruct (64 <=? d); [apply panic_grows|]. apply sized_grows, alignment_aligned.
  - destruct (63 <=? d); [apply panic_grows|]. destruct (isKeyType kt); [|apply panic_grows].
    apply sized_grows. unfold aligned. lia.
  - destruct (64 <=? d); [apply panic_grows|]. apply wf_struct in Hw as [Hne Hw].
    rewrite List.Forall_forall in IH. rewrite List.Forall_forall in Hw.
    destruct vs as [|v vs]; [done|]. cbn [enc_list].
    apply then_grows; [apply grows_keeps, IH; [by left|by apply Hw; left]|
      |left; apply IH; [by left|by apply Hw; left]].
    apply list_keeps. intros a Ha. apply grows_keeps, IH; [by right|]. apply Hw. by right.
Qed.

(** ** The round trip *)

Lemma dec_align_twice {A} n (k : unit -> dec_step A) d :
  aligned n ->
  dec_bind (dec_align n) (fun _ => dec_bind (dec_align n) k) d = dec_bind (dec_align n) k d.
Proof.
  intros Ha. assert (forall d', (d_pos d' mod Z.of_nat n = 0)%Z -> dec_align n d' = DOk tt d') as H.
  { intros d' Hd. unfold dec_align. by rewrite Hd. }
  unfold dec_bind. destruct (Z.eqb_spec (d_pos d mod Z.of_nat n) 0) as [Hz|Hz].
  - by rewrite !H.
  - unfold dec_align at 1 3. rewrite (proj2 (Z.eqb_neq _ _) Hz).
    destruct (round_up n _ Ha Hz) as (j & -> & _). unfold dec_bind, dec_read.
    destruct (Z.ltb_spec (Z.of_nat (length (d_in d))) (Z.of_nat n * j - d_pos d)); [done|].
    unfold dec_ret. rewrite H; [done|]. cbn [d_pos].
    replace (d_pos d + (Z.of_nat n * j - d_pos d))%Z with (j * Z.of_nat n)%Z by lia.
    apply Z.mod_mul. destruct Ha as [-> |[-> |[-> | ->]]]; done.
Qed.

Lemma matches_align_twice {A} m n (k : unit -> dec_step A) a :
  aligned n -> matches m (k tt) a ->
  matches (enc_then (enc_align n) m)
    (dec_bind (dec_align n) (fun _ => dec_bind (dec_align n) k)) a.
Proof.
  intros Ha Hm. apply (matches_ext _ (dec_bind (dec_align n) k)).
  - intros d _. by rewrite dec_align_twice.
  - apply (matches_then _ _ _ _ tt); [by apply matches_align|done].
Qed.

(** What decode does first, on the signature of a type. *)
Lemma matches_typed {A} m (k : unit -> dec_step A) t a :
  fits 0 t = true -> matches m (dec_bind (dec_align (alignment t)) k) a ->
  matches m (dec_bind (dec_lift (typeFor (sig_of t)))
               (fun g => dec_bind (dec_align (go_alignment g)) k)) a.
Proof.
  intros Hf Hm. apply (matches_pure _ _ _ (go_of t)).
  - intros d. by rewrite typeFor_sig_of.
  - by rewrite go_of_alignment.
Qed.

Lemma fold_left_snoc {A B} (f : A -> B) l : forall acc,
  fold_left (fun acc a => acc ++ [f a]) l acc = acc ++ map f l.
Proof.
  induction l as [|a l IH]; intros acc; simpl; [by rewrite app_nil_r|]. by rewrite IH, <- app_assoc.
Qed.

(** The claim for one value, at the depth and fuel that are left. *)
Definition reads_back (d f : nat) (v : dval) : Prop :=
  fits 0 (type_of v) = true /\ matches (encode v d) (decode f (sig_of (type_of v)) d) (erase v).

Lemma matches_variant v d f :
  length (sig_of (type_of v)) <= 255 -> reads_back (S d) f v ->
  matches (encode (VVariant (sig_of (type_of v)) v) d) (decode (S f) (sig_of TVariant) d)
    (VVariant (sig_of (type_of v)) (erase v)).
Proof.
  intros Hl [Hf Hv]. cbn [encode decode]. apply (matches_typed _ _ TVariant); [done|].
  apply (matches_then _ _ _ _ tt); [apply matches_align; by left|]. cbn [sig_of sigToType Ascii.eqb Bool.eqb].
  destruct (64 <=? d); [apply matches_panic|].
  apply (matches_then _ _ _ _ (sig_of (type_of v))).
  - apply matches_sig, ParseSignature_accepts. split; [done|]. split; [done|].
    exists [type_of v]. split; [by simpl; rewrite Hf|]. unfold sigs_of. simpl. by rewrite app_nil_r.
  - pose proof (validSingle_sig_of _ [] 0 Hf) as Hval. rewrite app_nil_r in Hval.
    destruct (sig_of_cons (type_of v)) as (c & s & Hs). rewrite Hs in *.
    apply (matches_pure _ _ _ []); [intros d'; by rewrite Hval|].
    by apply (matches_map _ _ _ (erase v)).
Qed.

Lemma matches_array t vs d f :
  fits 0 t = true -> length vs <= f ->
  Forall (fun v => type_of v = t /\ grows (encode v (S d)) /\ reads_back (S d) f v) vs ->
  fits 0 (TArray t) = true ->
  matches (encode (VArray t vs) d) (decode (S f) (sig_of (TArray t)) d) (erase (VArray t vs)).
Proof.
  intros Ht Hn Hvs Hf. rewrite List.Forall_forall in Hvs.
  cbn [encode decode]. apply (matches_typed _ _ (TArray t)); [done|].
  apply (matches_then _ _ _ _ tt); [apply matches_align, alignment_aligned|].
  cbn [sig_of sigToType Ascii.eqb Bool.eqb].
  destruct (sig_of_cons t) as (c & s & Hs).
  assert ((c =? "{")%char = false) as Hc.
  { destruct t as [[]| | | | | | | |]; simpl in Hs; by injection Hs as <- _. }
  rewrite Hs, Hc, <- Hs. destruct (64 <=? d); [apply matches_panic|].
  rewrite (typeFor_sig_of _ Ht). cbn [dec_lift].
  refine (matches_sized (alignment t) (go_alignment (go_of t)) _
    (fun spos length => dec_bind (dec_loop f (spos + length) (fun vs =>
       dec_bind (decode f (sig_of t) (S d)) (fun v => dec_ret (vs ++ [v]))) [])
       (fun vs => dec_ret (VArray (go_of t) vs))) _
    (alignment_aligned t) (go_of_alignment t) _).
  apply sized_map with (a := map erase vs); [|done].
  rewrite <- (app_nil_l (map erase vs)), <- fold_left_snoc.
  apply matches_loop; [|by intros x Hx; destruct (Hvs x Hx) as (_ & ? & _)|done].
  intros x acc Hx. destruct (Hvs x Hx) as (<- & _ & _ & Hm). by apply (matches_map _ _ _ (erase x)).
Qed.

Lemma matches_dict kt vt kvs d f :
  fits 0 kt = true -> fits 0 vt = true -> fits 0 (TDict kt vt) = true -> length kvs <= f ->
  isKeyType kt = true -> distinct_keys (map (fun kv => erase kv.1) kvs) = true ->
  Forall (fun kv => (type_of kv.1 = kt /\ grows (encode kv.1 (2 + d)) /\ reads_back (2 + d) f kv.1)
                    /\ (type_of kv.2 = vt /\ grows (encode kv.2 (2 + d)) /\ reads_back (2 + d) f kv.2)) kvs ->
  matches (encode (VDict kt vt kvs) d) (decode (S f) (sig_of (TDict kt vt)) d) (erase (VDict kt vt kvs)).
Proof.
  intros Hkt Hvt Hf Hn Hkey Hd Hkvs. rewrite List.Forall_forall in Hkvs.
  assert (exists c, sig_of kt = [c] /\ go_of kt = GSimple kt) as (c & Hc & Hgo)
    by (destruct kt as [k| | | | | | | |]; simpl in Hkey |- *; try done; eauto).
  cbn [encode decode]. apply (matches_typed _ _ (TDict kt vt)); [done|].
  apply (matches_then _ _ _ _ tt); [apply matches_align, alignment_aligned|].
  cbn [sig_of sigToType Ascii.eqb Bool.eqb app].
  replace (take 1 (drop 2 ("a" :: "{" :: sig_of kt ++ sig_of vt ++ ["}"])))%char with (sig_of kt)
    by (by rewrite Hc).
  replace (take (length ("a" :: "{" :: sig_of kt ++ sig_of vt ++ ["}"]) - 1 - 3)
             (drop 3 ("a" :: "{" :: sig_of kt ++ sig_of vt ++ ["}"])))%char with (sig_of vt).
  2:{ rewrite Hc. symmetry. apply (take_enclosed ["a"; "{"; c]%char (sig_of vt) "}"%char []); [done|].
      simpl. rewrite length_app. simpl. lia. }
  destruct (63 <=? d); [destruct (typeFor (sig_of kt)); apply matches_panic|].
  rewrite (typeFor_sig_of _ Hkt), (typeFor_sig_of _ Hvt), Hkey. cbn [dec_lift].
  refine (matches_sized 8 8 _
    (fun spos length => dec_bind (dec_loop f (spos + length) (fun m =>
       dec_bind (dec_align 8) (fun _ =>
         if match go_of kt with GSimple t => isKeyType t | _ => false end then
           dec_bind (decode f (sig_of kt) (2 + d)) (fun kv =>
           dec_bind (decode f (sig_of vt) (2 + d)) (fun vv => dec_ret (map_set kv vv m)))
         else dec_panic DecInvalidType)) [])
       (fun m => dec_ret (VDict (go_of kt) (go_of vt) m))) _ _ eq_refl _); [unfold aligned; lia|].
  apply sized_map with (a := map (fun '(k, v) => (erase k, erase v)) kvs); [|done].
  rewrite <- (app_nil_l (map _ kvs)), <- map_set_all by done. rewrite Hgo, Hkey.
  apply matches_loop; [| |done].
  - intros [k v] m Hx. destruct (Hkvs _ Hx) as [(Hk1 & _ & _ & Hk) (Hv1 & _ & _ & Hv)].
    cbn [fst snd] in *. rewrite Hk1 in Hk. rewrite Hv1 in Hv.
    apply (matches_then _ _ _ _ tt); [apply matches_align; unfold aligned; lia|].
    apply (matches_then _ _ _ _ (erase k)); [done|]. by apply (matches_map _ _ _ (erase v)).
  - intros [k v] Hx. destruct (Hkvs _ Hx) as [(_ & Hk & _) (_ & Hv & _)]. cbn [fst snd] in *.
    apply then_grows; [apply align_keeps; unfold aligned; lia| |right];
      [apply then_keeps; by apply grows_keeps|].
    apply then_grows; [by apply grows_keeps..|by left].
Qed.

Lemma matches_struct vs d f :
  fits 0 (TStruct (map type_of vs)) = true -> length vs <= f -> Forall (reads_back (S d) f) vs ->
  matches (encode (VStruct vs) d) (decode (S f) (sig_of (type_of (VStruct vs))) d) (erase (VStruct vs)).
Proof.
  intros Hf Hn Hvs. cbn [encode decode type_of].
  apply (matches_typed _ _ (TStruct (map type_of vs))); [done|].
  cbn [sig_of sigToType Ascii.eqb Bool.eqb alignment].
  destruct (64 <=? d).
  { apply (matches_then _ _ _ _ tt); [apply matches_align; unfold aligned; lia|apply matches_panic]. }
  apply matches_align_twice; [unfold aligned; lia|].
  fold (sigs_of (map type_of vs)).
  replace (take (length ("(" :: sigs_of (map type_of vs) ++ [")"]) - 1 - 1)
             (drop 1 ("(" :: sigs_of (map type_of vs) ++ [")"])))%char with (sigs_of (map type_of vs)).
  2:{ symmetry. apply (take_enclosed ["("]%char _ ")"%char []); [done|].
      simpl. rewrite length_app. simpl. lia. }
  apply (matches_map _ _ _ (map erase vs)); [|done].
  rewrite <- (app_nil_l (map erase vs)). apply matches_types; [|].
  - eapply Forall_impl; [done|]. by intros v [? ?].
  - etrans; [|apply sigs_of_length]. by rewrite length_map.
Qed.

Lemma encode_matches v : forall d f,
  wf_val v -> fits 0 (type_of v) = true -> need v <= f ->
  matches (encode v d) (decode f (sig_of (type_of v)) d) (erase v).
Proof.
  induction v as [k z|b|s|s|s|s v IH|t vs IH|kt vt kvs IH|vs IH] using val_nested;
    intros d f Hw Hf Hn; (destruct f as [|f]; [simpl in Hn; lia|]).
  - cbn [encode decode]. apply (matches_typed _ _ (TNum k)); [done|].
    pose proof (num_val_in_range _ _ Hw) as Hv.
    destruct k; try (apply (matches_then _ _ _ _ tt); [apply matches_align, alignment_aligned|];
      apply (matches_map _ _ _ z); [rewrite <- Hv at 2; apply matches_num_bytes|done]).
    apply (matches_ext _ (dec_bind (dec_align 4) (fun _ =>
      dec_bind (dec_align 4) (fun _ => dec_bind (dec_num NUint32) (fun i => dec_ret (VNum NFd i)))))).
    { intros d' _. cbn -[dec_align dec_num]. unfold decode_u32, dec_bind. destruct (dec_align 4 d') as [? d1| |]; try done.
      by destruct (dec_align 4 d1). }
    apply matches_align_twice; [apply (alignment_aligned (TNum NFd))|].
    apply (matches_map _ _ _ z); [rewrite <- Hv at 2; apply (matches_num_bytes NUint32)|done].
  - cbn [encode decode]. apply (matches_typed _ _ TBool); [done|].
    apply (matches_then _ _ _ _ tt); [apply matches_align, alignment_aligned|].
    cbn [sig_of sigToType Ascii.eqb Bool.eqb].
    apply (matches_map _ _ _ (if b then 1 else 0)%Z); [|by destruct b].
    rewrite <- (uint_n_small 4 (if b then 1 else 0)%Z) at 2 by (destruct b; simpl; lia).
    apply matches_encode_u32.
  - cbn [encode decode]. apply (matches_typed _ _ TString); [done|].
    apply (matches_then _ _ _ _ tt); [apply matches_align, alignment_aligned|].
    by apply (matches_map _ _ _ s); [apply matches_string|].
  - cbn [encode decode]. apply (matches_typed _ _ TPath); [done|].
    apply (matches_ext _ (dec_bind (dec_align 4) (fun _ => dec_bind (dec_align 4) (fun _ =>
      dec_bind dec_string (fun s => dec_ret (VPath s)))))).
    { intros d' _. cbn. unfold decode_string, dec_bind.
      destruct (dec_align 4 d') as [? d1| |]; try done. by destruct (dec_align 4 d1). }
    apply matches_align_twice; [apply (alignment_aligned TPath)|].
    by apply (matches_map _ _ _ s); [apply matches_string|].
  - cbn [encode decode]. apply (matches_typed _ _ TSig); [done|].
    apply (matches_then _ _ _ _ tt); [apply matches_align, alignment_aligned|].
    by apply (matches_map _ _ _ s); [apply matches_sig|].
  - destruct Hw as (-> & Hl & Hfv & Hw). simpl in Hn.
    apply matches_variant; [done|]. split; [done|]. apply IH; [done..|lia].
  - apply wf_array in Hw. simpl in Hn. pose proof (need_length vs).
    assert (fits 0 t = true) as Ht by (by apply (fits_mono _ 1); [lia|]).
    apply matches_array; [done|lia| |done].
    rewrite List.Forall_forall in *. intros v Hv. destruct (Hw v Hv) as [<- Hwv].
    pose proof (need_In v vs Hv). split; [done|]. split; [by apply encode_grows|].
    split; [done|]. apply IH; [done..|lia].
  - apply wf_dict in Hw as (Hk & Hd & Hw). simpl in Hn. pose proof (need_pairs_length kvs).
    assert (fits 0 kt = true) as Hkt by (by destruct kt).
    assert (fits 0 vt = true) as Hvt.
    { simpl in Hf. apply andb_true_iff in Hf as [_ Hf]. by apply (fits_mono _ 1); [lia|]. }
    apply matches_dict; [done|done|done|lia|done|done|].
    rewrite List.Forall_forall in *. intros [k v] Hkv.
    destruct (Hw _ Hkv) as [[Hk1 Hwk] [Hv1 Hwv]], (IH _ Hkv) as [IHk IHv]. cbn [fst snd] in *.
    pose proof (need_pairs_In k v kvs Hkv). subst.
    split; (split; [done|]); (split; [by apply encode_grows|]); (split; [done|]);
      [apply IHk|apply IHv]; done || lia.
  - apply wf_struct in Hw as [_ Hw]. simpl in Hn. pose proof (need_length vs).
    apply matches_struct; [done|lia|].
    rewrite List.Forall_forall in *. intros v Hv. pose proof (need_In v vs Hv).
    assert (fits 0 (type_of v) = true) as Hfv.
    { simpl in Hf. rewrite forallb_forall in Hf. apply (fits_mono _ 1); [lia|].
      apply Hf. by apply in_map. }
    split; [done|]. apply IH; [done|by apply Hw|done|lia].
Qed.

(** ** Encoding succeeds *)

Definition succeeds (m : enc_step) : Prop := forall e, exists e', m e = (e', None).

Lemma then_succeeds m1 m2 : succeeds m1 -> succeeds m2 -> succeeds (enc_then m1 m2).
Proof. intros H1 H2 e. unfold enc_then. destruct (H1 e) as (e1 & ->). apply H2. Qed.

Lemma align_succeeds n : succeeds (enc_align n).
Proof. intros e. unfold enc_align. destruct (0 <? _)%Z; unfold enc_write; eauto. Qed.

Lemma write_succeeds b : succeeds (enc_write b).
Proof. intros e. unfold enc_write. eauto. Qed.

Lemma list_succeeds {A} (f : A -> enc_step) l :
  (forall a, In a l -> succeeds (f a)) -> succeeds (enc_list f l).
Proof.
  induction l as [|a l IH]; intros H; [by intros e; exists e|].
  apply then_succeeds; [apply H; by left|]. apply IH. intros. apply H. by right.
Qed.

Lemma num_succeeds k z : succeeds (encode_num k z).
Proof. apply then_succeeds; auto using align_succeeds, write_succeeds. Qed.

Lemma sized_succeeds n elems : succeeds elems -> succeeds (enc_sized n elems).
Proof.
  intros H e. unfold enc_sized. destruct (H (newEncoderAtOffset
    (e_pos e + (padding e 0 4 + 4) + padding e (padding e 0 4 + 4) (Z.of_nat n)))) as (buf & ->).
  by repeat apply then_succeeds; auto using align_succeeds, write_succeeds, num_succeeds.
Qed.

Lemma encode_succeeds v : forall d, wf_val v -> depth_ok d v = true -> succeeds (encode v d).
Proof.
  induction v as [k z|b|s|s|s|s v IH|t vs IH|kt vt kvs IH|vs IH] using val_nested; intros d Hw Hd;
    cbn [encode]; (apply then_succeeds; [apply align_succeeds|]);
    unfold encode_string, encode_sig;
    auto using then_succeeds, align_succeeds, write_succeeds, num_succeeds.
  - cbn [depth_ok] in Hd. apply andb_true_iff in Hd as [Hd Hv]. apply Nat.ltb_lt in Hd.
    destruct (Nat.leb_spec 64 d); [lia|]. destruct Hw as (_ & _ & _ & Hw).
    auto using then_succeeds, align_succeeds, write_succeeds, num_succeeds.
  - cbn [depth_ok] in Hd. apply andb_true_iff in Hd as [Hd Hvs]. apply Nat.ltb_lt in Hd.
    destruct (Nat.leb_spec 64 d); [lia|]. apply wf_array in Hw. rewrite forallb_forall in Hvs.
    rewrite List.Forall_forall in *. apply sized_succeeds, list_succeeds. intros v Hv.
    apply IH; [done|by apply Hw|by apply Hvs].
  - cbn [depth_ok] in Hd. apply andb_true_iff in Hd as [Hd Hkvs]. apply Nat.ltb_lt in Hd.
    destruct (Nat.leb_spec 63 d); [lia|]. apply wf_dict in Hw as (-> & _ & Hw).
    rewrite forallb_forall in Hkvs. rewrite List.Forall_forall in *.
    apply sized_succeeds, list_succeeds. intros [k v] Hkv.
    destruct (IH _ Hkv) as [IHk IHv], (Hw _ Hkv) as [[_ Hk] [_ Hv]].
    pose proof (Hkvs _ Hkv) as [Hdk Hdv]%andb_true_iff.
    apply then_succeeds; [apply align_succeeds|]. apply then_succeeds; auto.
  - cbn [depth_ok] in Hd. apply andb_true_iff in Hd as [Hd Hvs]. apply Nat.ltb_lt in Hd.
    destruct (Nat.leb_spec 64 d); [lia|]. apply wf_struct in Hw as [_ Hw].
    rewrite forallb_forall in Hvs. rewrite List.Forall_forall in *. apply list_succeeds. intros v Hv.
    apply IH; [done|by apply Hw|by apply Hvs].
Qed.

(** ** Bodies *)

Definition sendable (v : dval) : Prop :=
  wf_val v /\ fits 0 (type_of v) = true /\ depth_ok 0 v = true.

Definition needs (vs : list dval) : nat := foldr (fun v n => S (need v + n)) 0 vs.

Lemma matches_body vs : forall fuel n acc,
  Forall sendable vs -> needs vs <= fuel -> length vs <= n ->
  matches (Encode vs) (decode_all fuel n (sigs_of (map type_of vs)) acc) (acc ++ map erase vs).
Proof.
  induction vs as [|v vs IH]; intros fuel n acc Hvs Hfuel Hn.
  - cbn [map]. rewrite app_nil_r. destruct n; apply matches_ret.
  - destruct n as [|n]; simpl in Hn; [lia|]. apply Forall_cons in Hvs as [(Hw & Hf & _) Hvs].
    cbn [needs foldr] in Hfuel.
    change (sigs_of (map type_of (v :: vs))) with (sig_of (type_of v) ++ sigs_of (map type_of vs)).
    destruct (sig_of_cons (type_of v)) as (c & s & Hs).
    pose proof (validSingle_sig_of _ (sigs_of (map type_of vs)) 0 Hf) as Hval.
    cbn [decode_all]. rewrite Hs at 1. cbn [app]. rewrite Hval.
    rewrite length_app, Nat.add_sub, take_app_length.
    replace (acc ++ map erase (v :: vs)) with ((acc ++ [erase v]) ++ map erase vs)
      by (by rewrite <- app_assoc).
    apply (matches_then _ _ _ _ (erase v)).
    + apply encode_matches; [done..|lia].
    + apply IH; [done|unfold needs; lia|lia].
Qed.

Lemma Encode_matches vs fuel :
  Forall sendable vs -> needs vs <= fuel ->
  matches (Encode vs) (Decode fuel (sigs_of (map type_of vs))) (map erase vs).
Proof.
  intros Hvs Hf. apply (matches_body vs fuel _ []); [done..|].
  etrans; [|apply sigs_of_length]. by rewrite length_map.
Qed.

Lemma Encode_succeeds vs : Forall sendable vs -> succeeds (Encode vs).
Proof.
  rewrite List.Forall_forall. intros H. apply list_succeeds. intros v Hv.
  destruct (H v Hv) as (? & _ & ?). by apply encode_succeeds.
Qed.

(** C29: Values that Go can hold and D-Bus can carry are encoded without an error, at any
    position and in either byte order, and Decode with their signatures reads them back from the
    bytes written, whatever follows these, and ends up where the encoder did: the paddings of
    both sides agree and the look-ahead of encode finds where the elements start. *)
Theorem Encode_Decode_roundtrip vs e :
  Forall sendable vs -> (0 <= e_pos e)%Z ->
  exists bs, Encode vs e = (mkEnc (e_out e ++ bs) (e_pos e + Z.of_nat (length bs)), None)
  /\ ((Z.of_nat (length bs) < 2 ^ 32)%Z -> forall fuel rest, needs vs <= fuel ->
      Decode fuel (sigs_of (map type_of vs)) (mkDec (e_pos e) (bs ++ rest))
      = DOk (map erase vs) (mkDec (e_pos e + Z.of_nat (length bs)) rest)).
Proof.
  intros Hvs Hp. destruct (Encode_succeeds vs Hvs e) as (e' & He).
  destruct (Encode_matches vs _ Hvs (le_n _) e e' Hp He) as (bs & -> & _).
  exists bs. split; [done|]. intros Hl fuel rest Hfuel.
  destruct (Encode_matches vs fuel Hvs Hfuel e _ Hp He) as (bs' & Heq & R). injection Heq as Hbs _.
  apply app_inv_head in Hbs as <-. by apply R.
Qed.

(** ** Empty structs *)

Lemma dec_bind_ok {A B} (m : dec_step A) (k : A -> dec_step B) d a d' :
  m d = DOk a d' -> dec_bind m k d = k a d'.
Proof. intros H. unfold dec_bind. by rewrite H. Qed.

Lemma empty_structs_loop n f stop acc rest :
  (8 < stop)%Z ->
  dec_loop n stop (fun vs => dec_bind (decode f ["("; ")"]%char 1) (fun v => dec_ret (vs ++ [v]))) acc
    (mkDec 8 rest) = DMore.
Proof.
  intros Hs. revert acc. induction n as [|n IH]; intros acc; cbn [dec_loop d_pos];
    (destruct (Z.ltb_spec 8 stop); [|lia]); [done|].
  destruct f as [|f]; [done|]. unfold dec_bind at 1. cbn -[dec_loop]. apply IH.
Qed.

(** An array of empty structs whose length is not zero, a body that the signature check lets
    through, keeps decode in its loop for ever: no fuel is enough. *)
Theorem empty_structs_never_decoded n rest fuel :
  (0 < n < 2 ^ 32)%Z ->
  decode fuel ["a"; "("; ")"]%char 0 (mkDec 0 (put_uint 4 n ++ [0; 0; 0; 0]%Z ++ rest)) = DMore.
Proof.
  intros Hn. set (inp := [0; 0; 0; 0]%Z ++ rest).
  assert (decode_u32 (mkDec 0 (put_uint 4 n ++ inp)) = DOk n (mkDec 4 inp)) as Hu.
  { pose proof (dec_read_app 0 (put_uint 4 n) inp) as Hr. rewrite length_put_uint in Hr.
    unfold decode_u32. unfold dec_bind at 1.
    change (dec_align 4 (mkDec 0 (put_uint 4 n ++ inp))) with (DOk tt (mkDec 0 (put_uint 4 n ++ inp))).
    unfold dec_num, dec_bind. cbn [num_size]. rewrite Hr. unfold dec_ret.
    rewrite get_put_uint, uint_n_small by (simpl; lia). done. }
  assert (dec_align 8 (mkDec 4 inp) = DOk tt (mkDec 8 rest)) as H8.
  { pose proof (dec_read_app 4 [0; 0; 0; 0]%Z rest) as Hr. unfold dec_align.
    change (d_pos (mkDec 4 inp) mod Z.of_nat 8 =? 0)%Z with false. by erewrite dec_bind_ok by exact Hr. }
  destruct fuel as [|f]; [done|]. cbn [decode].
  do 2 (erewrite dec_bind_ok; [|reflexivity]). cbn [sigToType Ascii.eqb Bool.eqb Nat.leb].
  erewrite dec_bind_ok by exact Hu. erewrite dec_bind_ok by reflexivity.
  erewrite dec_bind_ok by exact H8. erewrite dec_bind_ok by reflexivity.
  unfold dec_bind at 1. cbn [d_pos]. rewrite empty_structs_loop by lia. done.
Qed.

End roundtrip.

(** The witnesses use a body with every kind of container. *)
Definition sample_body : list dval :=
  [VNum NByte 7; VString ["h"; "i"]%char;
   VArray (TStruct [TNum NInt16; TBool]) [VStruct [VNum NInt16 (-2); VBool true]; VStruct [VNum NInt16 3; VBool false]];
   VDict TString TVariant [(VString ["k"]%char, VVariant ["x"]%char (VNum NInt64 (-5)));
                           (VString ["l"]%char, VVariant ["g"]%char (VSig ["a"; "s"]%char))]].

Lemma sample_body_sendable : Forall sendable sample_body.
Proof.
  unfold sample_body. repeat (apply List.Forall_cons); try apply List.Forall_nil;
    (split; [|split; vm_compute; reflexivity]);
    cbn [wf_val foldr type_of map sig_of num_char length];
    repeat split; first [lia | discriminate | vm_compute; reflexivity].
Qed.

Lemma Encode_Decode_roundtrip_witness : exists bs,
  @Encode false sample_body (mkEnc [] 1) = (mkEnc bs (1 + Z.of_nat (length bs)), None)
  /\ @Decode false 40 (sigs_of (map type_of sample_body)) (mkDec 1 bs)
     = DOk (map erase sample_body) (mkDec (1 + Z.of_nat (length bs)) []).
Proof.
  destruct (@Encode_Decode_roundtrip false sample_body (mkEnc [] 1) sample_body_sendable)
    as (bs & He & HD); [done|]. exists bs. split; [exact He|].
  assert (Z.of_nat (length (e_out (fst (@Encode false sample_body (mkEnc [] 1))))) < 2 ^ 32)%Z as Hl
    by (vm_compute; reflexivity).
  rewrite He in Hl. cbn [fst e_out app] in Hl.
  assert (needs sample_body <= 40) as Hn by (apply Nat.leb_le; vm_compute; reflexivity).
  pose proof (HD Hl 40 [] Hn) as H. rewrite app_nil_r in H. exact H.
Defined.

Lemma empty_structs_never_decoded_witness :
  @decode false 1000 ["a"; "("; ")"]%char 0 (mkDec 0 [1; 0; 0; 0; 0; 0; 0; 0]%Z) = DMore.
Proof. apply (@empty_structs_never_decoded false 1 [] 1000). lia. Defined.
