(* ===== verification/DbusMessage.v ===== *)
(** godbus/dbus, messages (Godeps/.../godbus/dbus/message.go, and the names, paths and Store of
    dbus.go).

    A Message is what the program has built (values of [dval]) or what was read ([gval]). The
    headers are the entries of the map, in the order of its iteration. A reader is the bytes it
    still has to give; the writer does not fail. DecodeMessage hands its fuel to decode. *)

From S2P Require Import Prelude NetIP Nl DbusSig DbusCodec.

Local Open Scope go_scope.
Local Open Scope nat_scope.

(** * Names and paths *)

Definition between (lo hi c : ascii) : bool :=
  (N_of_ascii lo <=? N_of_ascii c)%N && (N_of_ascii c <=? N_of_ascii hi)%N.

Definition is_digit (c : ascii) : bool := between "0" "9" c.

(** The bytes of a rune that is not ASCII are not member characters either. *)
Definition isMemberChar (c : ascii) : bool :=
  is_digit c || between "A" "Z" c || between "a" "z" c || (c =? "_")%char.

(** strings.Split with a separator of one byte *)
Fixpoint split (sep : ascii) (s : sig) : list sig :=
  match s with
  | [] => [[]]
  | c :: s' =>
      match split sep s' with
      | [] => [[c]]
      | p :: ps => if (c =? sep)%char then [] :: p :: ps else (c :: p) :: ps
      end
  end.

Definition ObjectPath_IsValid (s : sig) : bool :=
  match s with
  | [] => false
  | c :: s1 =>
      if negb (c =? "/")%char then false
      else if bool_decide (last s = Some "/"%char) && negb (length s =? 1) then false
      else if (length s =? 1) then true
      else forallb (fun v => negb (length v =? 0) && forallb isMemberChar v) (split "/" s1)
  end.

Definition isValidInterface (s : sig) : bool :=
  match s with
  | [] => false
  | c :: _ =>
      if (255 <? length s) || (c =? ".")%char then false
      else
        let elem := split "." s in
        if length elem <? 2 then false
        else forallb (fun v => match v with
                               | [] => false
                               | c :: _ => negb (is_digit c) && forallb isMemberChar v
                               end) elem
  end.

Definition isValidMember (s : sig) : bool :=
  match s with
  | [] => false
  | c :: _ =>
      if 255 <? length s then false
      else if existsb (fun c => (c =? ".")%char) s then false
      else if is_digit c then false
      else forallb isMemberChar s
  end.

(** * Messages *)

Definition protoVersion : Z := 1.
Definition FlagNoReplyExpected : Z := 1.
Definition FlagNoAutoStart : Z := 2.

Definition TypeMethodCall : Z := 1.
Definition TypeMethodReply : Z := 2.
Definition TypeError : Z := 3.
Definition TypeSignal : Z := 4.
Definition typeMax : Z := 5.

Definition Type_String (t : Z) : string :=
  if (t =? TypeMethodCall)%Z then "method call"
  else if (t =? TypeMethodReply)%Z then "reply"
  else if (t =? TypeError)%Z then "error"
  else if (t =? TypeSignal)%Z then "signal"
  else "invalid".

Definition FieldPath : Z := 1.
Definition FieldInterface : Z := 2.
Definition FieldMember : Z := 3.
Definition FieldErrorName : Z := 4.
Definition FieldReplySerial : Z := 5.
Definition FieldDestination : Z := 6.
Definition FieldSender : Z := 7.
Definition FieldSignature : Z := 8.
Definition FieldUnixFDs : Z := 9.
Definition fieldMax : Z := 10.

Definition fieldTypes (k : Z) : dtype :=
  if (k =? FieldPath)%Z then TPath
  else if (k =? FieldReplySerial)%Z then TNum NUint32
  else if (k =? FieldSignature)%Z then TSig
  else if (k =? FieldUnixFDs)%Z then TNum NUint32
  else TString.

Definition requiredFields (t : Z) : list Z :=
  if (t =? TypeMethodCall)%Z then [FieldPath; FieldMember]
  else if (t =? TypeMethodReply)%Z then [FieldReplySerial]
  else if (t =? TypeError)%Z then [FieldErrorName; FieldReplySerial]
  else if (t =? TypeSignal)%Z then [FieldPath; FieldInterface; FieldMember]
  else [].

(** A Variant: its signature and its value. *)
Definition variant (T : Type) : Type := (sig * val T)%type.

Record Message (T : Type) : Type := mkMessage {
  m_Type : Z;
  m_Flags : Z;
  m_Headers : list (Z * variant T);
  m_Body : list (val T);
  m_serial : Z }.
Arguments mkMessage {T} _ _ _ _ _.
Arguments m_Type {T} _.
Arguments m_Flags {T} _.
Arguments m_Headers {T} _.
Arguments m_Body {T} _.
Arguments m_serial {T} _.

Inductive message_error : Type :=
| InvalidMessageError (why : string)
| ReadError
| StoreError
| DecodeError (e : dec_error).

Section valid.
Context {T : Type}.

(** The lookup in the map of headers. *)
Fixpoint header_of (k : Z) (hs : list (Z * variant T)) : option (variant T) :=
  match hs with
  | [] => None
  | (k', v) :: hs' => if (k' =? k)%Z then Some v else header_of k hs'
  end.

(** reflect.TypeOf(v) == t, for the types of header fields *)
Definition val_is (v : val T) (t : dtype) : bool :=
  match v, t with
  | VNum NUint32 _, TNum NUint32 => true
  | VString _, TString | VPath _, TPath | VSig _, TSig => true
  | _, _ => false
  end.

Definition chars_of (v : val T) : sig :=
  match v with VString s | VPath s | VSig s => s | _ => [] end.

(** A header that, if it is there, has to satisfy a check. *)
Definition checked (hs : list (Z * variant T)) (k : Z) (check : sig -> bool) : bool :=
  match header_of k hs with
  | Some (_, v) => check (chars_of v)
  | None => true
  end.

Fixpoint headers_error (hs : list (Z * variant T)) : option message_error :=
  match hs with
  | [] => None
  | (k, (_, v)) :: hs' =>
      if (k =? 0)%Z || (fieldMax <=? k)%Z then Some (InvalidMessageError "invalid header")
      else if negb (val_is v (fieldTypes k)) then Some (InvalidMessageError "invalid type of header field")
      else headers_error hs'
  end.

Definition present (k : Z) (hs : list (Z * variant T)) : bool :=
  match header_of k hs with Some _ => true | None => false end.

Definition IsValid (msg : Message T) : option message_error :=
  let hs := m_Headers msg in
  if negb (Z.land (m_Flags msg) (Z.lnot (Z.lor FlagNoAutoStart FlagNoReplyExpected)) =? 0)%Z
  then Some (InvalidMessageError "invalid flags")
  else if (m_Type msg =? 0)%Z || (typeMax <=? m_Type msg)%Z
  then Some (InvalidMessageError "invalid message type")
  else match headers_error hs with
  | Some e => Some e
  | None =>
      if negb (forallb (fun k => present k hs) (requiredFields (m_Type msg)))
      then Some (InvalidMessageError "missing required header")
      else if negb (checked hs FieldPath ObjectPath_IsValid)
      then Some (InvalidMessageError "invalid path name")
      else if negb (checked hs FieldInterface isValidInterface)
      then Some (InvalidMessageError "invalid interface name")
      else if negb (checked hs FieldMember isValidMember)
      then Some (InvalidMessageError "invalid member name")
      else if negb (checked hs FieldErrorName isValidInterface)
      then Some (InvalidMessageError "invalid error name")
      else if negb (length (m_Body msg) =? 0) && negb (present FieldSignature hs)
      then Some (InvalidMessageError "missing signature")
      else None
  end.

End valid.

(** ** Sending *)

(** The bytes before the headers and the headers, as EncodeTo hands them to the encoder. *)
Definition header_type : dtype := TStruct [TNum NByte; TVariant].

Definition header_val (h : Z * variant dtype) : dval :=
  let '(k, (s, v)) := h in VStruct [VNum NByte k; VVariant s v].

Definition order_byte (E : Endian) : Z := if E then 66 else 108.

Definition header_vals (E : Endian) (msg : Message dtype) (body_len : nat) : list dval :=
  [VNum NByte (order_byte E); VNum NByte (m_Type msg); VNum NByte (m_Flags msg);
   VNum NByte protoVersion; VNum NUint32 (Z.of_nat body_len); VNum NUint32 (m_serial msg);
   VArray header_type (map header_val (m_Headers msg))].

(** EncodeTo, for either byte order: what is written, or the error. The errors of the two calls
    of Encode are dropped. *)
Definition EncodeTo (E : Endian) (msg : Message dtype) : message_error + list Z :=
  match IsValid msg with
  | Some e => inl e
  | None =>
      let body := e_out (fst (Encode (m_Body msg) newEncoder)) in
      let enc := fst (Encode (header_vals E msg (length body)) newEncoder) in
      let buf := e_out (fst (enc_align 8 enc)) ++ body in
      if (2 ^ 27 <? Z.of_nat (length buf))%Z then inl (InvalidMessageError "message is too long")
      else inr buf
  end.

(** ** Receiving *)

(** Store into variables of the types of the values, and into a slice of headers. *)
Definition Store_prefix (vs : list gval) : option (Z * Z * Z * Z * Z) :=
  match vs with
  | [VNum NByte typ; VNum NByte flags; VNum NByte proto; VNum NUint32 length; VNum NUint32 serial] =>
      Some (typ, flags, proto, length, serial)
  | _ => None
  end.

Definition store_header (v : gval) : option (Z * variant gotype) :=
  match v with
  | VStruct [VNum NByte k; VVariant s v] => Some (k, (s, v))
  | _ => None
  end.

Definition Store_headers (vs : list gval) : option (list (Z * variant gotype)) :=
  match vs with
  | [VArray _ elems] => mapM store_header elems
  | _ => None
  end.

(** The assignment to an entry of the map of headers. *)
Fixpoint set_header (h : Z * variant gotype) (hs : list (Z * variant gotype))
    : list (Z * variant gotype) :=
  match hs with
  | [] => [h]
  | h' :: hs' => if (h'.1 =? h.1)%Z then h :: hs' else h' :: set_header h hs'
  end.

Inductive received : Type :=
| Got (msg : Message gotype) (rest : list Z)
| Refused (e : message_error)
| Crashed
| Hangs.

Definition decoded {A} (r : dres A) (k : A -> decoder -> received) : received :=
  match r with
  | DOk a d => k a d
  | DPanic e => Refused (DecodeError e)
  | DMore => Hangs
  end.

(** The part of DecodeMessage after the byte order. The padding after the headers is read
    outside Decode, so that its panic is not recovered. *)
Definition decode_ordered (E : Endian) (fuel : nat) (rd : list Z) : received :=
  decoded (Decode fuel ["y"; "y"; "y"; "u"; "u"]%char (mkDec 1 rd)) (fun vs d =>
  match Store_prefix vs with
  | None => Refused StoreError
  | Some (typ, flags, proto, len, serial) =>
      let rd := d_in d in
      if length rd <? 4 then Refused ReadError
      else
        let hlength := get_uint (take 4 rd) in
        if (2 ^ 27 <? uint_n 4 (hlength + len + 16))%Z
        then Refused (InvalidMessageError "message is too long")
        else
          decoded (Decode fuel ["a"; "("; "y"; "v"; ")"]%char (mkDec 12 rd)) (fun vs d =>
          match Store_headers vs with
          | None => Refused StoreError
          | Some headers =>
              let hs := fold_left (fun hs h => set_header h hs) headers [] in
              match dec_align 8 d with
              | DPanic _ => Crashed
              | DMore => Hangs
              | DOk _ d =>
                  let rd := d_in d in
                  if (Z.of_nat (length rd) <? len)%Z then Refused ReadError
                  else
                    let body := take (Z.to_nat len) rd in
                    let rest := drop (Z.to_nat len) rd in
                    match IsValid (mkMessage typ flags hs [] serial) with
                    | Some e => Refused e
                    | None =>
                        match header_of FieldSignature hs with
                        | Some (_, VSig (c :: s)) =>
                            decoded (Decode fuel (c :: s) (mkDec 0 body)) (fun vs _ =>
                            Got (mkMessage typ flags hs vs serial) rest)
                        | _ => Got (mkMessage typ flags hs [] serial) rest
                        end
                    end
              end
          end)
  end).

Definition DecodeMessage (fuel : nat) (rd : list Z) : received :=
  match rd with
  | [] => Refused ReadError
  | b :: rd =>
      if (b =? 108)%Z then decode_ordered false fuel rd
      else if (b =? 66)%Z then decode_ordered true fuel rd
      else Refused (InvalidMessageError "invalid byte order")
  end.

(** * Messages are read back *)

Definition erase_header (h : Z * variant dtype) : Z * variant gotype :=
  let '(k, (s, v)) := h in (k, (s, erase v)).

Definition erase_message (msg : Message dtype) : Message gotype :=
  mkMessage (m_Type msg) (m_Flags msg) (map erase_header (m_Headers msg))
            (map erase (m_Body msg)) (m_serial msg).

(** The messages the library means to send: the fields are in the range of their types, each
    header is there once, as a variant made from its value, and the signature header says what
    is in the body. *)
Record wf_message (msg : Message dtype) : Prop := {
  wf_valid : IsValid msg = None;
  wf_Type : in_range NByte (m_Type msg) = true;
  wf_Flags : in_range NByte (m_Flags msg) = true;
  wf_serial : in_range NUint32 (m_serial msg) = true;
  wf_Headers : Forall (fun '(k, (s, v)) => in_range NByte k = true
                         /\ s = sig_of (type_of v) /\ wf_val v) (m_Headers msg);
  wf_keys : NoDup (map fst (m_Headers msg));
  wf_Body : Forall sendable (m_Body msg);
  wf_Signature : match header_of FieldSignature (m_Headers msg) with
                 | Some (_, v) => chars_of v = sigs_of (map type_of (m_Body msg))
                 | None => m_Body msg = []
                 end }.

Section headers.

Lemma header_of_erase k hs :
  header_of k (map erase_header hs)
  = match header_of k hs with Some (s, v) => Some (s, erase v) | None => None end.
Proof.
  induction hs as [|[k' [s v]] hs IH]; simpl; [done|]. by destruct (k' =? k)%Z.
Qed.

Lemma present_erase k hs : present k (map erase_header hs) = present k hs.
Proof. unfold present. rewrite header_of_erase. by destruct (header_of k hs) as [[]|]. Qed.

Lemma chars_of_erase v : chars_of (erase v) = chars_of v.
Proof. by destruct v. Qed.

Lemma checked_erase hs k f : checked (map erase_header hs) k f = checked hs k f.
Proof.
  unfold checked. rewrite header_of_erase. destruct (header_of k hs) as [[s v]|]; [|done].
  by rewrite chars_of_erase.
Qed.

Lemma headers_error_erase hs : headers_error (map erase_header hs) = headers_error hs.
Proof.
  induction hs as [|[k [s v]] hs IH]; simpl; [done|]. rewrite IH.
  assert (val_is (erase v) (fieldTypes k) = val_is v (fieldTypes k)) as -> by (by destruct v). done.
Qed.

(** A valid message is still valid without its body, and when it has been read. *)
Lemma IsValid_erase msg :
  IsValid msg = None ->
  IsValid (mkMessage (m_Type msg) (m_Flags msg) (map erase_header (m_Headers msg)) [] (m_serial msg))
  = None.
Proof.
  unfold IsValid. cbn [m_Type m_Flags m_Headers m_Body].
  rewrite headers_error_erase, !checked_erase.
  assert (forall ks, forallb (fun k => present k (map erase_header (m_Headers msg))) ks
                     = forallb (fun k => present k (m_Headers msg)) ks) as Hp.
  { intros ks. induction ks as [|k ks IH]; simpl; [done|]. by rewrite IH, present_erase. }
  rewrite Hp. repeat case_match; done.
Qed.

(** What a valid header holds. *)
Lemma headers_valid (hs : list (Z * variant dtype)) k s v :
  headers_error hs = None -> In (k, (s, v)) hs -> val_is v (fieldTypes k) = true.
Proof.
  induction hs as [|[k' [s' v']] hs IH]; simpl; [done|].
  destruct (_ || _); [done|]. destruct (val_is v' (fieldTypes k')) eqn:Hv; simpl; [|done].
  intros He [[= -> -> ->]|Hin]; [done|by apply IH].
Qed.

Lemma val_is_simple (v : dval) t :
  val_is v t = true -> simple (type_of v) = true /\ length (sig_of (type_of v)) = 1
                       /\ forall d, depth_ok d v = true.
Proof. by destruct v as [[]| | | | | | | |], t. Qed.

(** Entries with different keys are all kept, in their order. *)
Lemma set_header_new (h : Z * variant gotype) hs :
  ~ In h.1 (map fst hs) -> set_header h hs = hs ++ [h].
Proof.
  induction hs as [|h' hs IH]; simpl; [done|]. intros H.
  destruct (Z.eqb_spec h'.1 h.1); [tauto|]. by rewrite IH by tauto.
Qed.

Lemma set_headers_all (headers : list (Z * variant gotype)) : forall hs,
  NoDup (map fst (hs ++ headers)) ->
  fold_left (fun hs h => set_header h hs) headers hs = hs ++ headers.
Proof.
  induction headers as [|h headers IH]; intros hs Hnd; simpl; [by rewrite app_nil_r|].
  rewrite set_header_new.
  - rewrite IH by (by rewrite <- app_assoc). by rewrite <- app_assoc.
  - rewrite map_app in Hnd. rewrite <- list_elem_of_In. apply NoDup_app in Hnd as (_ & Hnd & _).
    intros Hin. apply (Hnd _ Hin). apply list_elem_of_here.
Qed.

Lemma store_headers_read g hs :
  Store_headers [VArray g (map erase (map header_val hs))] = Some (map erase_header hs).
Proof.
  unfold Store_headers. induction hs as [|[k [s v]] hs IH]; [done|]. simpl. simpl in IH. by rewrite IH.
Qed.

Lemma fst_erase_header hs : map fst (map erase_header hs) = map fst hs.
Proof. rewrite map_map. apply map_ext. by intros [k [s v]]. Qed.

(** The array of headers can be sent. *)
Lemma headers_sendable msg :
  wf_message msg -> sendable (VArray header_type (map header_val (m_Headers msg))).
Proof.
  intros Hw. assert (headers_error (m_Headers msg) = None) as He.
  { pose proof (wf_valid _ Hw) as Hv. unfold IsValid in Hv. repeat case_match; done. }
  pose proof (wf_Headers _ Hw) as Hh. rewrite List.Forall_forall in Hh.
  assert (forall h, In h (m_Headers msg) -> type_of (header_val h) = header_type
            /\ wf_val (header_val h) /\ depth_ok 1 (header_val h) = true) as H.
  { intros [k [s v]] Hin. destruct (Hh _ Hin) as (Hk & -> & Hwv).
    destruct (val_is_simple _ _ (headers_valid _ _ _ _ He Hin)) as (Hs & Hl & Hd).
    split; [done|]. split; [|simpl; by rewrite Hd].
    apply wf_struct. split; [done|]. rewrite !Forall_cons. split; [exact Hk|].
    split; [|done]. split; [done|]. split; [lia|]. split; [by destruct v|done]. }
  split; [|split; [done|]].
  - apply wf_array. rewrite List.Forall_forall. intros v (h & <- & Hin)%in_map_iff.
    by destruct (H h Hin) as (? & ? & _).
  - cbn [depth_ok]. apply forallb_forall. intros v (h & <- & Hin)%in_map_iff.
    by destruct (H h Hin) as (_ & _ & ?).
Qed.

End headers.

Section wire.
Context {E : Endian}.

Lemma Encode_app vs1 vs2 e : Encode (vs1 ++ vs2) e = enc_then (Encode vs1) (Encode vs2) e.
Proof.
  revert e. induction vs1 as [|v vs1 IH]; intros e; [done|].
  change (Encode ((v :: vs1) ++ vs2) e) with (enc_then (encode v 0) (Encode (vs1 ++ vs2)) e).
  change (Encode (v :: vs1)) with (enc_then (encode v 0) (Encode vs1)).
  unfold enc_then at 1 2 3. destruct (encode v 0 e) as [e1 [|]]; [done|]. by rewrite IH.
Qed.

Lemma encode_num_pos k z d e : exists out,
  encode (VNum k z) d e
  = (mkEnc out (e_pos e + padding e 0 (Z.of_nat (num_size k)) + Z.of_nat (num_size k)), None).
Proof.
  cbn [encode type_of alignment]. unfold enc_then.
  destruct (enc_align_pos (num_size k) e (num_size_aligned k)) as (out & ->).
  unfold enc_write. rewrite length_put_uint. eauto.
Qed.

Lemma encode_num_aligned k z d out p :
  (p mod Z.of_nat (num_size k) = 0)%Z ->
  encode (VNum k z) d (mkEnc out p)
  = (mkEnc (out ++ put_uint (num_size k) z) (p + Z.of_nat (num_size k)), None).
Proof.
  intros Hp. cbn [encode type_of alignment]. unfold enc_then, enc_align, padding. cbn [e_pos].
  rewrite Z.add_0_r, Hp. cbn. unfold enc_write. cbn [e_out e_pos]. by rewrite length_put_uint.
Qed.

(** The bytes up to the headers take twelve bytes. *)
Lemma prefix_pos out a b c d f :
  Encode [VNum NByte a; VNum NByte b; VNum NByte c; VNum NUint32 d; VNum NUint32 f] (mkEnc out 1)
  = (mkEnc (out ++ put_uint 1 a ++ put_uint 1 b ++ put_uint 1 c ++ put_uint 4 d ++ put_uint 4 f) 12, None).
Proof.
  unfold Encode. cbn [enc_list]. unfold enc_then.
  do 5 (rewrite encode_num_aligned by done; cbn [num_size]).
  unfold enc_skip. by rewrite <- !app_assoc.
Qed.

(** The headers start with their length. *)
Lemma headers_length vs out e' :
  encode (VArray header_type vs) 0 (mkEnc out 12) = (e', None) ->
  exists buf, e_out e' = out ++ put_uint 4 (Z.of_nat (length buf)) ++ buf.
Proof.
  cbn [encode type_of alignment Nat.leb]. unfold enc_then at 1.
  change (enc_align 4 (mkEnc out 12)) with (mkEnc out 12, @None enc_error). unfold enc_sized.
  match goal with |- context [enc_list ?f vs ?e0] =>
    destruct (enc_list f vs e0) as [buf [|]]; [done|] end. unfold enc_then, encode_num, enc_then.
  cbn [num_size]. change (enc_align 4 (mkEnc out 12)) with (mkEnc out 12, @None enc_error).
  unfold enc_write at 1. cbn [e_out e_pos]. rewrite length_put_uint.
  change (12 + Z.of_nat 4)%Z with 16%Z.
  match goal with |- context [enc_align ?n ?e] =>
    change (enc_align n e) with (e, @None enc_error) end.
  intros [= <-]. exists (e_out buf). cbn [e_out]. by rewrite <- app_assoc.
Qed.

(** The padding of the headers. *)
Lemma padded e n m :
  e_pos e = (12 + Z.of_nat (4 + n))%Z ->
  (e_pos e + Z.of_nat m = e_pos e + padding e 0 8)%Z -> Z.of_nat m = ((- Z.of_nat n) mod 8)%Z.
Proof.
  intros Hp Hm. unfold padding in Hm. rewrite Hp in Hm.
  destruct (Z.eqb_spec ((12 + Z.of_nat (4 + n) + 0) mod 8) 0) as [Hz|Hz].
  - apply (Z.mod_unique_pos _ _ (- (Z.of_nat n / 8))); [lia|].
    pose proof (Z.div_mod (Z.of_nat n) 8 ltac:(lia)).
    assert (Z.of_nat n mod 8 = 0)%Z; [|lia].
    replace (Z.of_nat n) with (12 + Z.of_nat (4 + n) + 0 + (-2) * 8)%Z by lia. by rewrite Z.mod_add.
  - destruct (round_up 8 (12 + Z.of_nat (4 + n) + 0)) as (k & Hk & Hlt); [unfold aligned; lia|done|].
    change (Z.of_nat 8) with 8%Z in *. rewrite Hk in Hm.
    apply (Z.mod_unique_pos _ _ (2 - k)); lia.
Qed.

(** The fuel a message needs. *)
Definition message_need (msg : Message dtype) : nat :=
  10 + needs [VArray header_type (map header_val (m_Headers msg))] + needs (m_Body msg).

(** The four parts of what EncodeTo writes: the byte order, the fixed part, the headers with
    their padding, and the body. *)
Lemma message_parts msg (bodylen : nat) :
  wf_message msg -> in_range NUint32 (Z.of_nat bodylen) = true ->
  exists bs1 buf pad,
  e_out (fst (enc_align 8 (fst (Encode (header_vals E msg bodylen) newEncoder))))
    = order_byte E :: bs1 ++ (put_uint 4 (Z.of_nat (length buf)) ++ buf) ++ pad
  /\ bs1 = put_uint 1 (m_Type msg) ++ put_uint 1 (m_Flags msg) ++ put_uint 1 protoVersion
           ++ put_uint 4 (Z.of_nat bodylen) ++ put_uint 4 (m_serial msg)
  /\ Z.of_nat (length pad) = ((- Z.of_nat (length buf)) mod 8)%Z
  /\ ((Z.of_nat (4 + length buf + length pad) < 2 ^ 32)%Z -> forall fuel, message_need msg <= fuel -> forall rest,
      Decode fuel ["y"; "y"; "y"; "u"; "u"]%char (mkDec 1 (bs1 ++ rest))
        = DOk [VNum NByte (m_Type msg); VNum NByte (m_Flags msg); VNum NByte protoVersion;
               VNum NUint32 (Z.of_nat bodylen); VNum NUint32 (m_serial msg)] (mkDec 12 rest)
      /\ (exists d, Decode fuel ["a"; "("; "y"; "v"; ")"]%char
                      (mkDec 12 ((put_uint 4 (Z.of_nat (length buf)) ++ buf) ++ pad ++ rest))
           = DOk [VArray GInterfaces (map erase (map header_val (m_Headers msg)))] d
           /\ dec_align 8 d = DOk tt (mkDec (16 + Z.of_nat (length buf + length pad)) rest))).
Proof.
  intros Hw Hb.
  set (five := [VNum NByte (m_Type msg); VNum NByte (m_Flags msg); VNum NByte protoVersion;
               VNum NUint32 (Z.of_nat bodylen); VNum NUint32 (m_serial msg)] : list dval).
  set (arr := VArray header_type (map header_val (m_Headers msg))).
  assert (Forall sendable five) as H5.
  { destruct Hw. repeat apply List.Forall_cons; try apply List.Forall_nil;
      (split; [done|split; reflexivity]). }
  assert (Forall sendable [arr]) as Ha by (constructor; [by apply headers_sendable|done]).
  change (header_vals E msg bodylen) with ([VNum NByte (order_byte E)] ++ five ++ [arr]).
  rewrite Encode_app. unfold enc_then at 1.
  assert (Encode [VNum NByte (order_byte E)] newEncoder = (mkEnc [order_byte E] 1, None)) as ->
    by (by destruct E).
  rewrite Encode_app. unfold enc_then at 1.
  pose proof (prefix_pos [order_byte E] (m_Type msg) (m_Flags msg) protoVersion (Z.of_nat bodylen)
                (m_serial msg)) as Hpre. fold five in Hpre. rewrite Hpre.
  set (bs1 := put_uint 1 (m_Type msg) ++ _) in *. cbn [app] in Hpre |- *.
  assert (length bs1 = 11) as H11 by (unfold bs1; by rewrite !length_app, !length_put_uint).
  destruct (Encode_succeeds [arr] Ha (mkEnc (order_byte E :: bs1) 12)) as (e2 & Harr).
  rewrite Harr. cbn [fst].
  destruct (Encode_matches [arr] _ Ha (le_n _) (mkEnc (order_byte E :: bs1) 12) e2 ltac:(done) Harr) as (bs2 & -> & _).
  assert (exists buf, bs2 = put_uint 4 (Z.of_nat (length buf)) ++ buf) as (buf & ->).
  { unfold Encode in Harr. cbn [enc_list] in Harr. unfold enc_then, enc_skip in Harr.
    destruct (encode arr 0 (mkEnc (order_byte E :: bs1) 12)) as [e3 [|]] eqn:E3; [done|].
    apply headers_length in E3 as (buf & Hbuf). injection Harr as Harr.
    rewrite Harr in Hbuf. cbn [e_out] in Hbuf.
    apply (app_inv_head (order_byte E :: bs1)) in Hbuf. eauto. }
  set (e2 := mkEnc ((order_byte E :: bs1) ++ put_uint 4 (Z.of_nat (length buf)) ++ buf)
    (12 + Z.of_nat (length (put_uint 4 (Z.of_nat (length buf)) ++ buf)))).
  destruct (enc_align_pos 8 e2) as (out3 & Hal); [unfold aligned; lia|].
  cbn [e_out e_pos]. fold e2. rewrite Hal.
  destruct (matches_align 8 ltac:(unfold aligned; lia) e2 _ ltac:(simpl; lia) Hal) as (pad & Heq & Rp).
  injection Heq as -> Hpad. cbn [fst e_out]. exists bs1, buf, pad.
  split; [cbn [app]; by rewrite <- !app_assoc|]. split; [done|].
  split.
  { apply (padded e2); [unfold e2; cbn [e_pos]; by rewrite length_app, length_put_uint|].
    unfold e2 at 1 2. cbn [e_pos]. by symmetry. }
  intros Hl fuel Hfuel rest. unfold message_need in Hfuel. fold arr in Hfuel. cbn [e_pos] in Rp.
  rewrite length_app, length_put_uint in *. split.
  - destruct (Encode_matches five fuel H5 ltac:(simpl; lia) (mkEnc [order_byte E] 1) _ ltac:(done) Hpre) as (bs' & Heq & R).
    injection Heq as Hbs _. subst bs'. apply R. lia.
  - destruct (Encode_matches [arr] fuel Ha ltac:(lia) (mkEnc (order_byte E :: bs1) 12) _ ltac:(done) Harr) as (bs' & Heq & R).
    injection Heq as Hbs _. apply (app_inv_head bs1) in Hbs as <-.
    eexists. split; [apply R; rewrite length_app, length_put_uint; lia|].
    assert (e_pos e2 = 16 + Z.of_nat (length buf))%Z as He2
      by (unfold e2; cbn [e_pos]; rewrite length_app, length_put_uint; lia).
    rewrite He2 in Rp. cbn [e_pos].
    replace (12 + Z.of_nat (4 + length buf))%Z with (16 + Z.of_nat (length buf))%Z by lia.
    rewrite Rp by lia. do 2 f_equal. lia.
Qed.

End wire.

(** What DecodeMessage does with the signature header and the body. *)
Lemma body_read (E : Endian) msg body fuel rest :
  wf_message msg -> needs (m_Body msg) <= fuel ->
  Encode (m_Body msg) newEncoder = (mkEnc body (Z.of_nat (length body)), None) ->
  (Z.of_nat (length body) < 2 ^ 32)%Z ->
  match header_of FieldSignature (map erase_header (m_Headers msg)) with
  | Some (_, VSig (c :: s)) =>
      decoded (Decode fuel (c :: s) (mkDec 0 body)) (fun vs _ =>
        Got (mkMessage (m_Type msg) (m_Flags msg) (map erase_header (m_Headers msg)) vs (m_serial msg)) rest)
  | _ => Got (mkMessage (m_Type msg) (m_Flags msg) (map erase_header (m_Headers msg)) [] (m_serial msg)) rest
  end = Got (erase_message msg) rest.
Proof.
  intros Hw Hf He Hl. unfold erase_message.
  assert (Decode fuel (sigs_of (map type_of (m_Body msg))) (mkDec 0 body)
          = DOk (map erase (m_Body msg)) (mkDec (Z.of_nat (length body)) [])) as HD.
  { destruct (Encode_matches (m_Body msg) fuel (wf_Body _ Hw) Hf newEncoder _ ltac:(done) He)
      as (bs & Heq & R). cbn in Heq. injection Heq as -> _.
    specialize (R Hl []). by rewrite app_nil_r in R. }
  rewrite header_of_erase. pose proof (wf_Signature _ Hw) as Hs.
  destruct (header_of FieldSignature (m_Headers msg)) as [[s v]|] eqn:Eh; [|by rewrite Hs].
  assert (val_is v TSig = true) as Hv.
  { apply (headers_valid (m_Headers msg) FieldSignature s v).
    - pose proof (wf_valid _ Hw) as Hv. unfold IsValid in Hv. repeat case_match; done.
    - clear -Eh. induction (m_Headers msg) as [|[k' v'] hs IH]; simpl in *; [done|].
      destruct (Z.eqb_spec k' FieldSignature) as [->|]; [left; by injection Eh as ->|right; auto]. }
  destruct v as [| | | |vs| | | |]; try done; [by destruct k|]. simpl in Hs. rewrite Hs. cbn [erase].
  destruct (sigs_of (map type_of (m_Body msg))) as [|c cs] eqn:Eq.
  - destruct (m_Body msg) as [|v vs']; [done|]. exfalso.
    pose proof (sigs_of_length (map type_of (v :: vs'))) as Hlen. rewrite Eq in Hlen. simpl in Hlen. lia.
  - unfold decoded. by rewrite HD.
Qed.

Lemma EncodeTo_read (E : Endian) msg fuel :
  wf_message msg -> message_need msg <= fuel ->
  match EncodeTo E msg with
  | inl e => e = InvalidMessageError "message is too long"
  | inr bs => forall rest, DecodeMessage fuel (bs ++ rest) = Got (erase_message msg) rest
  end.
Proof.
  intros Hw Hfuel. unfold EncodeTo. rewrite (wf_valid _ Hw).
  destruct (Encode_succeeds (m_Body msg) (wf_Body _ Hw) newEncoder) as (eb & Hbody).
  destruct (Encode_matches (m_Body msg) _ (wf_Body _ Hw) (le_n _) newEncoder eb ltac:(done) Hbody)
    as (body & -> & _). rewrite Hbody. cbn [fst e_out app newEncoder newEncoderAtOffset].
  destruct (Z.ltb_spec (2 ^ 27)
    (Z.of_nat (length (e_out (fst (enc_align 8 (fst (Encode (header_vals E msg (length body))
       newEncoder)))) ++ body)))) as [|Hlen]; [done|]. intros rest.
  assert (in_range NUint32 (Z.of_nat (length body)) = true) as Hrange.
  { rewrite length_app in Hlen. unfold in_range. rewrite andb_true_iff, Z.leb_le, Z.ltb_lt. simpl. lia. }
  destruct (message_parts msg (length body) Hw Hrange) as (bs1 & buf & pad & Hout & Hbs1 & _ & HD).
  assert (length bs1 = 11) as H11 by (by rewrite Hbs1, !length_app, !length_put_uint).
  rewrite Hout in *. cbn [app length] in Hlen. rewrite !length_app, length_put_uint in Hlen.
  specialize (HD ltac:(lia) fuel Hfuel).
  assert (forall rest, DecodeMessage fuel (order_byte E :: rest) = decode_ordered E fuel rest) as Hord
    by (by destruct E).
  cbn [app]. rewrite Hord, <- !app_assoc. unfold decode_ordered.
  destruct (HD (put_uint 4 (Z.of_nat (length buf)) ++ buf ++ pad ++ body ++ rest)) as [-> _].
  destruct (HD (body ++ rest)) as [_ (d & Hh & Hal)]. rewrite <- !app_assoc in Hh.
  cbn [decoded Store_prefix d_in].
  set (inp := put_uint 4 (Z.of_nat (length buf)) ++ buf ++ pad ++ body ++ rest) in *.
  assert (length inp = 4 + length (buf ++ pad ++ body ++ rest)) as Hinp
    by (unfold inp; by rewrite length_app, length_put_uint).
  destruct (Nat.ltb_spec (length inp) 4); [lia|].
  assert (get_uint (take 4 inp) = Z.of_nat (length buf)) as ->.
  { unfold inp. rewrite take_app_length' by (by rewrite length_put_uint).
    rewrite get_put_uint. apply uint_n_small. simpl. lia. }
  rewrite uint_n_small by (simpl; lia).
  destruct (Z.ltb_spec (2 ^ 27) (Z.of_nat (length buf) + Z.of_nat (length body) + 16)); [lia|].
  rewrite Hh. cbn [decoded]. rewrite store_headers_read, Hal. cbn [d_in].
  rewrite set_headers_all by (cbn [app]; rewrite fst_erase_header; apply (wf_keys _ Hw)). cbn [app].
  rewrite length_app.
  destruct (Z.ltb_spec (Z.of_nat (length body + length rest)) (Z.of_nat (length body))); [lia|].
  rewrite Nat2Z.id, take_app_length, drop_app_length.
  rewrite (IsValid_erase _ (wf_valid _ Hw)).
  apply (body_read E); [done|unfold message_need in Hfuel; lia|done|lia].
Qed.

(** C28: What EncodeTo writes for a message that is valid and whose signature header describes
    its body, in either byte order, is read back by DecodeMessage as that message, and what
    follows it is left to read. The only error is that the message is too long. *)
Theorem message_roundtrip (E : Endian) msg fuel :
  wf_message msg -> message_need msg <= fuel ->
  match EncodeTo E msg with
  | inl e => e = InvalidMessageError "message is too long"
  | inr bs => forall rest, DecodeMessage fuel (bs ++ rest) = Got (erase_message msg) rest
  end.
Proof. apply EncodeTo_read. Qed.

(** ** Samples *)

Definition chars (s : string) : sig := String.list_ascii_of_string s.

Definition sample_message : Message dtype :=
  mkMessage TypeMethodCall FlagNoAutoStart
    [(FieldPath, (chars "o", VPath (chars "/org/fedoraproject/FirewallD1")));
     (FieldInterface, (chars "s", VString (chars "org.fedoraproject.FirewallD1")));
     (FieldMember, (chars "s", VString (chars "passthrough")));
     (FieldSignature, (chars "g", VSig (sigs_of (map type_of sample_body))))]
    sample_body 7.

Lemma sample_message_wf : wf_message sample_message.
Proof.
  split; [vm_compute; reflexivity..| | | |vm_compute; reflexivity].
  - unfold sample_message. cbn [m_Headers].
    repeat apply List.Forall_cons; try apply List.Forall_nil;
      (split; [reflexivity|split; [reflexivity|cbn [wf_val]; vm_compute; reflexivity]]).
  - apply NoDup_ListNoDup. vm_compute. repeat constructor; simpl; intuition discriminate.
  - apply sample_body_sendable.
Qed.

Lemma message_roundtrip_witness : exists bs,
  EncodeTo true sample_message = inr bs
  /\ DecodeMessage 200 bs = Got (erase_message sample_message) [].
Proof.
  pose proof (message_roundtrip true sample_message 200 sample_message_wf
                ltac:(apply Nat.leb_le; vm_compute; reflexivity)) as H.
  destruct (EncodeTo true sample_message) as [e|bs] eqn:E.
  - vm_compute in E. discriminate.
  - exists bs. split; [reflexivity|]. rewrite <- (app_nil_r bs). apply H.
Defined.

(** The sum of the lengths wraps around: a message that says its body has 2^32 - 16 bytes passes
    for a short one. *)
Example length_check_wraps :
  DecodeMessage 100 ([108; 2; 0; 1] ++ [240; 255; 255; 255] ++ [1; 0; 0; 0] ++ [0; 0; 0; 0])%Z
  = Refused ReadError.
Proof. vm_compute. reflexivity. Qed.

(** A message that ends in the padding after its headers stops the program. *)
Example truncated_padding_crashes :
  DecodeMessage 100 ([108; 2; 0; 1] ++ [0; 0; 0; 0] ++ [1; 0; 0; 0]
                     ++ [5; 0; 0; 0] ++ [3; 1; 121; 0; 9])%Z = Crashed.
Proof. vm_compute. reflexivity. Qed.

(** A body that cannot be encoded is left out of the message, and no error is reported. *)
Example body_error_dropped :
  match EncodeTo false
    (mkMessage TypeMethodReply 0
       [(FieldReplySerial, (chars "u", VNum NUint32 1)); (FieldSignature, (chars "g", VSig (chars "a{bs}")))]
       [VDict TBool TString []] 2) with
  | inr bs => DecodeMessage 100 bs
  | inl _ => Hangs
  end = Refused (DecodeError UnexpectedEOF).
Proof. vm_compute. reflexivity. Qed.
