(* ===== verification/DbusAuth.v ===== *)
(** godbus/dbus, authentication (Godeps/.../godbus/dbus/auth.go, auth_external.go).

    The handshake runs over a transport that has the server's bytes to read and takes the
    client's lines; a write may fail, after a number of writes that the state counts down. The
    mechanisms are the interface Auth: AuthExternal is translated, the cookie mechanism, which
    reads files and random numbers, is a parameter like any other mechanism. The bufio.Reader
    is the bytes that are left. tryAuth reads a line in each round; its fuel is the number of
    bytes left, which is enough. *)

From S2P Require Import Prelude NetIP Nl DbusSig DbusCodec DbusMessage.

Local Open Scope go_scope.
Local Open Scope nat_scope.

Inductive AuthStatus : Type := AuthOk | AuthContinue | AuthError.
Inductive authState : Type := waitingForData | waitingForOk | waitingForReject.

(** The interface of mechanisms: the name, the first response and the status, and the answer to
    a DATA command. *)
Record Auth : Type := mkAuth {
  FirstData : sig * sig * AuthStatus;
  HandleData : sig -> sig * AuthStatus }.

(** * Lines *)

Definition CR : ascii := "013".
Definition LF : ascii := "010".
Definition SP : ascii := " ".

(** ReadBytes('\n'): the bytes up to the delimiter and with it, and the rest. *)
Fixpoint ReadBytes (s : sig) : option (sig * sig) :=
  match s with
  | [] => None
  | c :: s' =>
      if (c =? LF)%char then Some ([c], s')
      else match ReadBytes s' with
           | Some (l, r) => Some (c :: l, r)
           | None => None
           end
  end.

(** bytes.TrimSuffix(data, "\r\n") *)
Definition TrimSuffix (s : sig) : sig :=
  let n := length s - 2 in
  if bool_decide (drop n s = [CR; LF]) then take n s else s.

Record Transport : Type := mkTransport {
  t_in : sig;
  t_out : list sig;             (* the lines and the null byte written, in order *)
  t_writes : option nat }.      (* how many writes succeed yet, when not all do *)

Inductive auth_error : Type := ReadFailed | WriteFailed | ProtocolError | AuthFailed.

(** authReadLine, on the bytes left; a line has at least one field. *)
Definition authReadLine (t : Transport) : option (list sig * Transport) :=
  match ReadBytes (t_in t) with
  | None => None
  | Some (data, rest) =>
      Some (split SP (TrimSuffix data), mkTransport rest (t_out t) (t_writes t))
  end.

(** The fields with spaces between them. *)
Fixpoint join_fields (data : list sig) : sig :=
  match data with
  | [] => []
  | [v] => v
  | v :: data => v ++ SP :: join_fields data
  end.

Definition auth_line (data : list sig) : sig := join_fields data ++ [CR; LF].

Definition Write (b : sig) (t : Transport) : option Transport :=
  match t_writes t with
  | None => Some (mkTransport (t_in t) (t_out t ++ [b]) None)
  | Some O => None
  | Some (S n) => Some (mkTransport (t_in t) (t_out t ++ [b]) (Some n))
  end.

Definition authWriteLine (t : Transport) (data : list sig) : option Transport :=
  Write (auth_line data) t.

(** * The conversation about one mechanism *)

Inductive auth_result : Type :=
| ADone (err : option auth_error) (ok : bool) (uuid : sig) (t : Transport)
| APanic
| AMore.

Definition str (s : string) : sig := chars s.

(** Writes a line and goes on, or returns the error. *)
Definition reply (t : Transport) (line : list sig) (k : Transport -> auth_result) : auth_result :=
  match authWriteLine t line with
  | None => ADone (Some WriteFailed) false [] t
  | Some t' => k t'
  end.

(** s[0], which Split always gives *)
Definition field0 (s : list sig) : sig := match s with v :: _ => v | [] => [] end.

(** The two cases of an OK line: a malformed one is answered, but taken all the same. *)
Definition auth_ok (t : Transport) (s : list sig) : auth_result :=
  let finish t := match s with
                  | _ :: uuid :: _ => ADone None true uuid t
                  | _ => APanic
                  end in
  if length s =? 2 then finish t else reply t [str "CANCEL"] finish.

Fixpoint try_loop (fuel : nat) (m : Auth) (state : authState) (t : Transport) : auth_result :=
  match fuel with
  | O => AMore
  | S fuel' =>
      match authReadLine t with
      | None => ADone (Some ReadFailed) false [] t
      | Some (s, t) =>
          let cmd := field0 s in
          let cmd_is c := bool_decide (cmd = str c) in
          match state with
          | waitingForData =>
              if cmd_is "DATA" then
                match s with
                | [_; arg] =>
                    let '(data, status) := HandleData m arg in
                    match status with
                    | AuthOk | AuthContinue =>
                        let state' := match status with AuthOk => waitingForOk | _ => state end in
                        if length data =? 0 then try_loop fuel' m state' t
                        else reply t [str "DATA"; data] (try_loop fuel' m state')
                    | AuthError => reply t [str "ERROR"] (try_loop fuel' m state)
                    end
                | _ => reply t [str "ERROR"] (try_loop fuel' m state)
                end
              else if cmd_is "REJECTED" then ADone None false [] t
              else if cmd_is "ERROR" then reply t [str "CANCEL"] (try_loop fuel' m waitingForReject)
              else if cmd_is "OK" then auth_ok t s
              else reply t [str "ERROR"] (try_loop fuel' m state)
          | waitingForOk =>
              if cmd_is "OK" then auth_ok t s
              else if cmd_is "REJECTED" then ADone None false [] t
              else if cmd_is "DATA" || cmd_is "ERROR"
              then reply t [str "CANCEL"] (try_loop fuel' m waitingForReject)
              else reply t [str "ERROR"] (try_loop fuel' m state)
          | waitingForReject =>
              if cmd_is "REJECTED" then ADone None false [] t
              else ADone (Some ProtocolError) false [] t
          end
      end
  end.

Definition tryAuth (m : Auth) (state : authState) (t : Transport) : auth_result :=
  try_loop (S (length (t_in t))) m state t.

(** * The handshake *)

(** What has become of the connection: the workers run after a handshake that succeeded. *)
Record handshake : Type := mkHandshake { h_unixFD : bool; h_uuid : sig; h_transport : Transport }.

Inductive auth_outcome : Type :=
| Authenticated (h : handshake)
| AuthErr (e : auth_error)
| AuthPanic.

Definition written (t : Transport) (line : list sig) (k : Transport -> auth_outcome) : auth_outcome :=
  match authWriteLine t line with
  | None => AuthErr WriteFailed
  | Some t' => k t'
  end.

Definition begin (fd : bool) (uuid : sig) (t : Transport) : auth_outcome :=
  written t [str "BEGIN"] (fun t => Authenticated (mkHandshake fd uuid t)).

(** After a mechanism has succeeded: the passing of file descriptors, then BEGIN. *)
Definition negotiate (supportsFD : bool) (uuid : sig) (t : Transport) : auth_outcome :=
  if supportsFD then
    written t [str "NEGOTIATE_UNIX_FD"] (fun t =>
    match authReadLine t with
    | None => AuthErr ReadFailed
    | Some (line, t) =>
        if bool_decide (field0 line = str "AGREE_UNIX_FD") then begin true uuid t
        else if bool_decide (field0 line = str "ERROR") then begin false uuid t
        else AuthErr ProtocolError
    end)
  else begin false uuid t.

(** The inner loop of Auth, over the mechanisms of the client, for one of the server's. *)
Fixpoint try_methods (supportsFD : bool) (v : sig) (methods : list Auth) (t : Transport)
    (next : Transport -> auth_outcome) : auth_outcome :=
  match methods with
  | [] => next t
  | m :: methods' =>
      let '(name, data, status) := FirstData m in
      if bool_decide (v = name) then
        written t [str "AUTH"; v; data] (fun t =>
        let attempt state :=
          match tryAuth m state t with
          | APanic | AMore => AuthPanic
          | ADone (Some e) _ _ _ => AuthErr e
          | ADone None true uuid t => negotiate supportsFD uuid t
          | ADone None false _ t => try_methods supportsFD v methods' t next
          end in
        match status with
        | AuthOk => attempt waitingForOk
        | AuthContinue => attempt waitingForData
        | AuthError => AuthPanic
        end)
      else try_methods supportsFD v methods' t next
  end.

Fixpoint try_offers (supportsFD : bool) (offers : list sig) (methods : list Auth) (t : Transport)
    : auth_outcome :=
  match offers with
  | [] => AuthErr AuthFailed
  | v :: offers' =>
      try_methods supportsFD v methods t (fun t => try_offers supportsFD offers' methods t)
  end.

(** Auth, with the mechanisms it is given. *)
Definition Conn_Auth (supportsFD : bool) (methods : list Auth) (t : Transport) : auth_outcome :=
  match Write ["000"%char] t with
  | None => AuthErr WriteFailed
  | Some t =>
      written t [str "AUTH"] (fun t =>
      match authReadLine t with
      | None => AuthErr ReadFailed
      | Some (s, t) =>
          if (length s <? 2) || negb (bool_decide (field0 s = str "REJECTED"))
          then AuthErr ProtocolError
          else try_offers supportsFD (drop 1 s) methods t
      end)
  end.

(** ** EXTERNAL *)

Definition hex_digit (n : N) : ascii :=
  if (n <? 10)%N then ascii_of_N (48 + n) else ascii_of_N (87 + n).

(** hex.Encode *)
Definition hex_encode (s : sig) : sig :=
  flat_map (fun c => [hex_digit (N_of_ascii c / 16)%N; hex_digit (N_of_ascii c mod 16)%N]) s.

Definition AuthExternal (user : sig) : Auth :=
  mkAuth (str "EXTERNAL", hex_encode user, AuthOk) (fun _ => ([], AuthError)).

(** * Lines are read back *)

(** A byte that is neither the separator of fields nor the end of a line. *)
Definition plain (s : sig) : Prop := ~ In SP s /\ ~ In LF s.

Lemma ReadBytes_app l rest : ~ In LF l -> ReadBytes (l ++ LF :: rest) = Some (l ++ [LF], rest).
Proof.
  induction l as [|c l IH]; intros Hl; simpl; [done|].
  destruct (Ascii.eqb_spec c LF) as [->|]; [destruct Hl; by left|].
  rewrite IH; [done|]. intros H. apply Hl. by right.
Qed.

Lemma ReadBytes_Some s l r : ReadBytes s = Some (l, r) -> s = l ++ r /\ l <> [].
Proof.
  revert l. induction s as [|c s IH]; intros l; simpl; [done|].
  destruct (c =? LF)%char; [by intros [= <- <-]|].
  destruct (ReadBytes s) as [[l' r']|]; [|done]. intros [= <- <-].
  by destruct (IH l' eq_refl) as [-> _].
Qed.

Lemma split_plain sep v : ~ In sep v -> split sep v = [v].
Proof.
  induction v as [|c v IH]; intros Hv; simpl; [done|]. rewrite IH by (intros ?; apply Hv; by right).
  destruct (Ascii.eqb_spec c sep) as [->|]; [destruct Hv; by left|done].
Qed.

Lemma split_cons_app sep v s : ~ In sep v -> split sep (v ++ sep :: s) = v :: split sep s.
Proof.
  assert (exists p ps, split sep s = p :: ps) as (p & ps & Hs).
  { induction s as [|c s (p & ps & IH)]; simpl; [by eexists _, _|]. rewrite IH.
    destruct (c =? sep)%char; eauto. }
  induction v as [|c v IH]; intros Hv; simpl.
  - by rewrite Hs, Ascii.eqb_refl.
  - rewrite IH by (intros ?; apply Hv; by right).
    destruct (Ascii.eqb_spec c sep) as [->|]; [destruct Hv; by left|done].
Qed.

Lemma split_join data : data <> [] -> Forall plain data -> split SP (join_fields data) = data.
Proof.
  intros Hne Hp. induction Hp as [|v data [Hv _] Hd IH]; [done|].
  destruct data as [|w data]; [by apply split_plain|].
  change (join_fields (v :: w :: data)) with (v ++ SP :: join_fields (w :: data)).
  by rewrite split_cons_app, IH.
Qed.

Lemma join_no_LF data : Forall plain data -> ~ In LF (join_fields data).
Proof.
  intros Hp. induction Hp as [|v data [_ Hv] Hd IH]; [intros []|].
  destruct data as [|w data]; [done|].
  change (join_fields (v :: w :: data)) with (v ++ SP :: join_fields (w :: data)).
  rewrite in_app_iff. intros [H|[H|H]]; [by apply Hv|done|by apply IH].
Qed.

Lemma TrimSuffix_line l : TrimSuffix (l ++ [CR; LF]) = l.
Proof.
  unfold TrimSuffix. rewrite length_app. simpl. replace (length l + 2 - 2) with (length l) by lia.
  by rewrite drop_app_length, take_app_length.
Qed.

(** A line that authWriteLine makes is read by authReadLine as the same fields. *)
Lemma authReadLine_line data rest out w :
  data <> [] -> Forall plain data ->
  authReadLine (mkTransport (auth_line data ++ rest) out w)
  = Some (data, mkTransport rest out w).
Proof.
  intros Hne Hp. unfold authReadLine, auth_line. cbn [t_in].
  replace ((join_fields data ++ [CR; LF]) ++ rest) with ((join_fields data ++ [CR]) ++ LF :: rest)
    by (by rewrite <- !app_assoc).
  rewrite ReadBytes_app.
  - rewrite <- app_assoc. cbn [app]. by rewrite TrimSuffix_line, split_join.
  - rewrite in_app_iff. intros [H|[H|[]]]; [by apply (join_no_LF data)|done].
Qed.

(** * Termination *)

Lemma authReadLine_shorter t s t' : authReadLine t = Some (s, t') -> length (t_in t') < length (t_in t).
Proof.
  unfold authReadLine. destruct (ReadBytes (t_in t)) as [[l r]|] eqn:E; [|done]. intros [= _ <-].
  apply ReadBytes_Some in E as [-> Hl]. rewrite length_app. destruct l; [done|]. simpl. lia.
Qed.

Lemma authWriteLine_in t data t' : authWriteLine t data = Some t' -> t_in t' = t_in t.
Proof. unfold authWriteLine, Write. destruct (t_writes t) as [[]|]; intros [= <-]; done. Qed.

Lemma reply_not_more t line k :
  (forall t', t_in t' = t_in t -> k t' <> AMore) -> reply t line k <> AMore.
Proof.
  intros H. unfold reply. destruct (authWriteLine t line) as [t'|] eqn:E; [|done].
  apply H. by apply authWriteLine_in in E.
Qed.

Lemma try_loop_ends fuel m : forall state t, length (t_in t) < fuel -> try_loop fuel m state t <> AMore.
Proof.
  induction fuel as [|fuel IH]; intros state t Hl; [lia|]. cbn [try_loop].
  destruct (authReadLine t) as [[s t1]|] eqn:E; [|done]. apply authReadLine_shorter in E.
  assert (forall st, try_loop fuel m st t1 <> AMore) as H1 by (intros; apply IH; lia).
  assert (forall line st, reply t1 line (try_loop fuel m st) <> AMore) as H2.
  { intros line st. apply reply_not_more. intros t' Ht. apply IH. rewrite Ht. lia. }
  assert (auth_ok t1 s <> AMore) as H3.
  { unfold auth_ok. destruct (length s =? 2); [by destruct s as [|? []]|].
    apply reply_not_more. intros t' _. by destruct s as [|? []]. }
  destruct state; repeat case_match; auto; done.
Qed.

(** tryAuth returns, whatever the server sends. *)
Lemma tryAuth_ends m state t : tryAuth m state t <> AMore.
Proof. apply try_loop_ends. lia. Qed.

(** * The protocol *)

(** The client's side of the protocol: the state, the line of the server, the line sent in
    answer, if any, and the state after it. *)
Inductive converse (m : Auth) : authState -> list sig -> option (list sig) -> authState -> Prop :=
| converse_data cmd arg data status st' :
    cmd = str "DATA" -> HandleData m arg = (data, status) -> status <> AuthError ->
    st' = match status with AuthOk => waitingForOk | _ => waitingForData end ->
    converse m waitingForData [cmd; arg] (if length data =? 0 then None else Some [str "DATA"; data]) st'
| converse_data_error s :
    field0 s = str "DATA" ->
    (length s = 2 -> exists data, HandleData m (nth 1 s []) = (data, AuthError)) ->
    converse m waitingForData s (Some [str "ERROR"]) waitingForData
| converse_cancel_data s :
    field0 s = str "ERROR" -> converse m waitingForData s (Some [str "CANCEL"]) waitingForReject
| converse_cancel_ok s :
    field0 s = str "DATA" \/ field0 s = str "ERROR" ->
    converse m waitingForOk s (Some [str "CANCEL"]) waitingForReject
| converse_unknown st s :
    st <> waitingForReject ->
    field0 s <> str "OK" -> field0 s <> str "REJECTED" -> field0 s <> str "ERROR" ->
    field0 s <> str "DATA" -> converse m st s (Some [str "ERROR"]) st.

(** A conversation from one state to another: what was left to read and what had been written,
    before and after. *)
Inductive conversation (m : Auth) : authState -> Transport -> authState -> Transport -> Prop :=
| conv_none st t : conversation m st t st t
| conv_step st t s t1 answer st1 t2 st' t' :
    authReadLine t = Some (s, t1) -> converse m st s answer st1 ->
    (match answer with None => Some t1 | Some line => authWriteLine t1 line end) = Some t2 ->
    conversation m st1 t2 st' t' -> conversation m st t st' t'.

(** The ends of the exchange about one mechanism, by the last line of the server: an OK line
    of two fields is success; one with more fields is answered with CANCEL and reported as
    success all the same; one with no second field is answered with CANCEL and then crashes;
    REJECTED is a failure without an error; any line but REJECTED after the client has
    cancelled is a protocol error; and so are the failures to read and to write. *)
Inductive ending (m : Auth) : authState -> Transport -> auth_result -> Prop :=
| end_ok st t uuid t' :
    st <> waitingForReject -> authReadLine t = Some ([str "OK"; uuid], t') ->
    ending m st t (ADone None true uuid t')
| end_ok_long st t uuid x more t1 t' :
    st <> waitingForReject -> authReadLine t = Some (str "OK" :: uuid :: x :: more, t1) ->
    authWriteLine t1 [str "CANCEL"] = Some t' ->
    ending m st t (ADone None true uuid t')
| end_ok_short st t t1 t' :
    st <> waitingForReject -> authReadLine t = Some ([str "OK"], t1) ->
    authWriteLine t1 [str "CANCEL"] = Some t' ->
    ending m st t APanic
| end_ok_unwritten st t s t1 :
    st <> waitingForReject -> authReadLine t = Some (s, t1) -> field0 s = str "OK" -> length s <> 2 ->
    authWriteLine t1 [str "CANCEL"] = None ->
    ending m st t (ADone (Some WriteFailed) false [] t1)
| end_rejected st t s t' :
    authReadLine t = Some (s, t') -> field0 s = str "REJECTED" -> ending m st t (ADone None false [] t')
| end_protocol t s t' :
    authReadLine t = Some (s, t') -> field0 s <> str "REJECTED" ->
    ending m waitingForReject t (ADone (Some ProtocolError) false [] t')
| end_unread st t : authReadLine t = None -> ending m st t (ADone (Some ReadFailed) false [] t)
| end_unwritten st t s t1 line st1 :
    authReadLine t = Some (s, t1) -> converse m st s (Some line) st1 -> authWriteLine t1 line = None ->
    ending m st t (ADone (Some WriteFailed) false [] t1).

Lemma auth_ok_ends m st t s t1 :
  st <> waitingForReject -> authReadLine t = Some (s, t1) -> field0 s = str "OK" ->
  ending m st t (auth_ok t1 s).
Proof.
  intros Hst Hr Hs. unfold auth_ok, reply.
  destruct s as [|a [|uuid [|x more]]]; cbn [field0] in Hs; subst; [done| | |]; cbn [length Nat.eqb].
  - destruct (authWriteLine t1 _) as [t2|] eqn:Hw; [by eapply end_ok_short|by eapply end_ok_unwritten].
  - by apply end_ok.
  - destruct (authWriteLine t1 _) as [t2|] eqn:Hw; [by eapply end_ok_long|by eapply end_ok_unwritten].
Qed.

(** One round of the loop that goes on. *)
Definition goes_on (fuel : nat) (m : Auth) (t1 : Transport) (r : auth_result)
    (answer : option (list sig)) (st1 : authState) : Prop :=
  r = match answer with
      | None => try_loop fuel m st1 t1
      | Some line => reply t1 line (try_loop fuel m st1)
      end.

(** Every round stops, or follows the protocol and goes on. *)
Lemma try_loop_round fuel m st t s t1 :
  authReadLine t = Some (s, t1) ->
  let r := try_loop (S fuel) m st t in
  (exists answer st1, converse m st s answer st1 /\ goes_on fuel m t1 r answer st1)
  \/ (st <> waitingForReject /\ field0 s = str "OK" /\ r = auth_ok t1 s)
  \/ ending m st t r.
Proof.
  intros Hr. cbn [try_loop]. rewrite Hr. unfold goes_on.
  destruct st; cbv zeta.
  - destruct (bool_decide_reflect (field0 s = str "DATA")) as [Hd|Hd].
    { destruct s as [|c [|arg [|]]];
        try (left; eexists (Some _), _; split; [by apply converse_data_error|done]).
      destruct (HandleData m arg) as [data status] eqn:Hh.
      destruct status; [| |left; eexists (Some _), _; split; [apply converse_data_error; [done|eauto]|done]];
        (left; eexists _, _; split; [by eapply converse_data|]; by destruct (length data =? 0)). }
    destruct (bool_decide_reflect (field0 s = str "REJECTED")) as [Hj|Hj]; [right; right; by eapply end_rejected|].
    destruct (bool_decide_reflect (field0 s = str "ERROR")) as [He|He].
    { left. eexists (Some _), _. split; [by apply converse_cancel_data|done]. }
    destruct (bool_decide_reflect (field0 s = str "OK")) as [Ho|Ho]; [by right; left|].
    left. eexists (Some _), _. split; [by apply converse_unknown|done].
  - destruct (bool_decide_reflect (field0 s = str "OK")) as [Ho|Ho]; [by right; left|].
    destruct (bool_decide_reflect (field0 s = str "REJECTED")) as [Hj|Hj]; [right; right; by eapply end_rejected|].
    destruct (bool_decide_reflect (field0 s = str "DATA")) as [Hd|Hd];
      [left; eexists (Some _), _; split; [apply converse_cancel_ok; by left|done]|].
    destruct (bool_decide_reflect (field0 s = str "ERROR")) as [He|He];
      [left; eexists (Some _), _; split; [apply converse_cancel_ok; by right|done]|].
    left. eexists (Some _), _. split; [by apply converse_unknown|done].
  - right. right. destruct (bool_decide_reflect (field0 s = str "REJECTED"));
      [by eapply end_rejected|by eapply end_protocol].
Qed.

Lemma try_loop_refines fuel m : forall st t,
  length (t_in t) < fuel ->
  exists st1 t1, conversation m st t st1 t1 /\ ending m st1 t1 (try_loop fuel m st t).
Proof.
  induction fuel as [|fuel IH]; intros st t Hl; [lia|].
  destruct (authReadLine t) as [[s t1]|] eqn:Hr.
  2: { exists st, t. split; [constructor|]. cbn [try_loop]. rewrite Hr. by apply end_unread. }
  pose proof (authReadLine_shorter _ _ _ Hr) as Hlt.
  destruct (try_loop_round fuel m st t s t1 Hr) as [(answer & st1 & Hc & Hg)|[(Hst & Hs & He)|He]].
  - unfold goes_on in Hg. rewrite Hg. destruct answer as [line|].
    + unfold reply. destruct (authWriteLine t1 line) as [t2|] eqn:Hw.
      * destruct (IH st1 t2) as (st2 & t3 & Hconv & Hend);
          [rewrite (authWriteLine_in _ _ _ Hw); lia|].
        exists st2, t3. split; [by econstructor|done].
      * exists st, t. split; [constructor|]. by eapply end_unwritten.
    + destruct (IH st1 t1) as (st2 & t3 & Hconv & Hend); [lia|].
      exists st2, t3. split; [by econstructor|done].
  - rewrite He. exists st, t. split; [constructor|]. by apply auth_ok_ends.
  - exists st, t. split; [constructor|done].
Qed.

(** C33: whatever the server sends and whenever writing fails, tryAuth ends, and the lines
    exchanged are a conversation of the authentication protocol closed by one of its ends,
    which gives the result. Success is reported only for an OK line of the server that
    arrives before the client has cancelled, and its second field is the server's id; an OK
    line with more than two fields is answered with CANCEL and yet reported as success. An
    OK line without a second field is answered with CANCEL and then crashes tryAuth, the
    only crash. REJECTED is a failure without an error, and every other end is an error. *)
Theorem tryAuth_sound m st t :
  tryAuth m st t <> AMore /\
  exists st1 t1, conversation m st t st1 t1 /\ ending m st1 t1 (tryAuth m st t).
Proof. split; [apply tryAuth_ends|]. apply try_loop_refines. lia. Qed.

(** ** A server that lets the client in *)

(** The lines of a server that offers EXTERNAL, accepts it and, if asked, agrees to pass file
    descriptors. *)
Definition server_lines (offers : list sig) (uuid : sig) (fd agree : bool) : sig :=
  auth_line (str "REJECTED" :: offers) ++ auth_line [str "OK"; uuid]
  ++ (if fd then auth_line [str (if agree then "AGREE_UNIX_FD" else "ERROR")] else []).

(** What the client says to it. *)
Definition client_lines (uid : sig) (fd : bool) : list sig :=
  [["000"%char]; auth_line [str "AUTH"]; auth_line [str "AUTH"; str "EXTERNAL"; hex_encode uid]]
  ++ (if fd then [auth_line [str "NEGOTIATE_UNIX_FD"]] else []) ++ [auth_line [str "BEGIN"]].

Ltac plain_fields :=
  repeat (apply List.Forall_cons); try apply List.Forall_nil; try done;
  try (split; vm_compute; intuition discriminate).

(** Against a server that offers EXTERNAL first and accepts it, Auth with the mechanisms the
    library tries by default says exactly the lines of the protocol, leaves the rest of the
    input to the workers, and passes file descriptors just when both sides can. *)
Theorem Auth_external uid others offers uuid fd agree rest :
  Forall plain offers -> plain uuid ->
  Conn_Auth fd (AuthExternal uid :: others)
    (mkTransport (server_lines (str "EXTERNAL" :: offers) uuid fd agree ++ rest) [] None)
  = Authenticated (mkHandshake (fd && agree) uuid (mkTransport rest (client_lines uid fd) None)).
Proof.
  intros Ho Hu. unfold Conn_Auth, Write, written, authWriteLine, Write, server_lines.
  cbn [t_writes t_in t_out app]. rewrite <- !app_assoc.
  rewrite authReadLine_line; [|done|plain_fields].
  cbn [length Nat.ltb Nat.leb field0 orb drop try_offers try_methods FirstData AuthExternal].
  rewrite !bool_decide_true by done. cbn [negb]. unfold written, authWriteLine, Write.
  cbn [t_writes t_in t_out]. unfold tryAuth. cbn [try_loop].
  rewrite authReadLine_line; [|done|plain_fields]. cbn [field0].
  rewrite bool_decide_true by done. unfold auth_ok. cbn [length Nat.eqb].
  unfold negotiate, begin, written, authWriteLine, Write. cbn [t_writes t_in t_out].
  destruct fd; [|done]. rewrite authReadLine_line; [|done|destruct agree; plain_fields].
  by destruct agree.
Qed.

Lemma Auth_external_witness :
  Conn_Auth true [AuthExternal (str "0")]
    (mkTransport (server_lines [str "EXTERNAL"; str "ANONYMOUS"] (str "beef") true true ++ str "l") [] None)
  = Authenticated (mkHandshake true (str "beef") (mkTransport (str "l") (client_lines (str "0") true) None)).
Proof.
  apply (Auth_external (str "0") [] [str "ANONYMOUS"] (str "beef") true true (str "l")).
  - apply List.Forall_cons; [split; vm_compute; intuition discriminate|apply List.Forall_nil].
  - split; vm_compute; intuition discriminate.
Defined.

(** An OK line with a field too many is answered with CANCEL and taken as success; one with a
    field too few stops the program. *)
Example malformed_ok_accepted :
  tryAuth (AuthExternal (str "0")) waitingForOk
    (mkTransport (auth_line [str "OK"; str "a"; str "b"]) [] None)
  = ADone None true (str "a") (mkTransport [] [auth_line [str "CANCEL"]] None).
Proof. reflexivity. Qed.

Example short_ok_panics :
  tryAuth (AuthExternal (str "0")) waitingForOk (mkTransport (auth_line [str "OK"]) [] None) = APanic.
Proof. reflexivity. Qed.
