(* ===== verification/DbusConn.v ===== *)
(** godbus/dbus, connections (Godeps/.../godbus/dbus/conn.go, object.go, and Go types of call.go
    and variant.go).

    A connection is shared by the goroutines that make calls, by inWorker, which reads
    messages, and by outWorker, which sends them. Each lock is held for a part of these, and the
    parts are the steps: a step is a function on the state, and a run is any order of steps.
    The channels of calls and signals are a log of what was sent on them, with room for all.
    The transport is a parameter of the steps: what it read, and whether it could send. *)

From S2P Require Import Prelude NetIP Nl DbusSig DbusCodec DbusMessage.

Local Open Scope go_scope.
Local Open Scope Z_scope.

(** * Serials *)

Definition uint32 (z : Z) : Z := z mod 2 ^ 32.

(** for conn.serialUsed[n] { n++ }, with fuel for the numbers to look at *)
Fixpoint find_serial (fuel : nat) (used : gset Z) (n : Z) : option Z :=
  match fuel with
  | O => None
  | S fuel' => if bool_decide (n ∈ used) then find_serial fuel' used (uint32 (n + 1)) else Some n
  end.

(** * The connection *)

Inductive call_result : Type :=
| CBody (body : list gval)
| CError (name : sig) (body : list gval)
| CErrClosed
| CSendFailed
| CReadFailed.

Record Signal : Type := mkSignal {
  sg_Sender : sig; sg_Path : sig; sg_Name : sig; sg_Body : list gval }.

(** What is sent on channels and handed to handlers. *)
Inductive event : Type :=
| EDone (c : nat) (r : call_result)
| ESignal (ch : nat) (sg : Signal)
| EEavesdropped (ch : nat) (msg : Message gotype)
| EHandleCall (msg : Message gotype)
| EClosed (ch : nat).

Record Conn : Type := mkConn {
  names : list sig;
  nextSerial : Z;
  serialUsed : gset Z;
  calls : gmap Z nat;
  out : list (Message dtype);
  closed : bool;
  signals : list nat;
  eavesdropped : option nat;
  events : list event }.

Definition newConn : Conn := mkConn [] 1 {[0]} ∅ [] false [] None [].

Definition set_names v s := mkConn v (nextSerial s) (serialUsed s) (calls s) (out s) (closed s) (signals s) (eavesdropped s) (events s).
Definition set_serials n u s := mkConn (names s) n u (calls s) (out s) (closed s) (signals s) (eavesdropped s) (events s).
Definition set_calls v s := mkConn (names s) (nextSerial s) (serialUsed s) v (out s) (closed s) (signals s) (eavesdropped s) (events s).
Definition set_out v s := mkConn (names s) (nextSerial s) (serialUsed s) (calls s) v (closed s) (signals s) (eavesdropped s) (events s).
Definition set_closed s := mkConn (names s) (nextSerial s) (serialUsed s) (calls s) (out s) true (signals s) (eavesdropped s) (events s).
Definition set_signals v s := mkConn (names s) (nextSerial s) (serialUsed s) (calls s) (out s) (closed s) v (eavesdropped s) (events s).
Definition set_eavesdropped v s := mkConn (names s) (nextSerial s) (serialUsed s) (calls s) (out s) (closed s) (signals s) v (events s).
Definition emit (es : list event) s := mkConn (names s) (nextSerial s) (serialUsed s) (calls s) (out s) (closed s) (signals s) (eavesdropped s) (events s ++ es).

(** getSerial; None when every serial is in use, which the code would search for ever. *)
Definition getSerial (s : Conn) : option (Z * Conn) :=
  match find_serial (S (size (serialUsed s))) (serialUsed s) (nextSerial s) with
  | None => None
  | Some n => Some (n, set_serials (uint32 (n + 1)) ({[n]} ∪ serialUsed s) s)
  end.

(** delete(conn.serialUsed, serial) *)
Definition release (q : Z) (s : Conn) : Conn := set_serials (nextSerial s) (serialUsed s ∖ {[q]}) s.

(** Close *)
Definition Close (s : Conn) : Conn :=
  if closed s then s
  else emit (map EClosed (signals s)
             ++ match eavesdropped s with Some ch => [EClosed ch] | None => [] end) (set_closed s).

(** Eavesdrop, Signal, Names *)
Definition Eavesdrop (ch : option nat) (s : Conn) : Conn := set_eavesdropped ch s.
Definition Conn_Signal (ch : nat) (s : Conn) : Conn := set_signals (signals s ++ [ch]) s.
Definition Names (s : Conn) : list sig := names s.

(** Hello, when the call returned a name *)
Definition Hello_names (name : sig) (s : Conn) : Conn := set_names [name] s.

(** ** Names lost *)

(** The loop of NameLost: it ranges over the slice as it was, of which [arr] is the array, while
    the removals move the elements of that array and shorten conn.names to [m]. *)
Fixpoint lose_loop (left i : nat) (name : sig) (arr : list sig) (m : nat) : outcome (list sig) :=
  match left with
  | O => Returned (take m arr)
  | S left' =>
      if bool_decide (arr !! i = Some name) then
        if (m <? S i)%nat then Halted (GoPanic "slice bounds out of range")
        else
          let moved := take i arr ++ take (m - S i) (drop (S i) arr) ++ drop (m - 1) arr in
          lose_loop left' (S i) name moved (m - 1)
      else lose_loop left' (S i) name arr m
  end.

Definition lose_name (name : sig) (ns : list sig) : outcome (list sig) :=
  lose_loop (length ns) 0 name ns (length ns).

(** ** Messages that arrive *)

Definition header_string (k : Z) (msg : Message gotype) : sig :=
  match header_of k (m_Headers msg) with
  | Some (_, VString s) => s
  | _ => []
  end.

Definition header_path (msg : Message gotype) : sig :=
  match header_of FieldPath (m_Headers msg) with
  | Some (_, VPath s) => s
  | _ => []
  end.

Definition reply_serial (msg : Message gotype) : Z :=
  match header_of FieldReplySerial (m_Headers msg) with
  | Some (_, VNum NUint32 z) => z
  | _ => 0
  end.

(** Whether a message is for this connection. *)
Definition for_us (s : Conn) (msg : Message gotype) : bool :=
  let dest := header_string FieldDestination msg in
  bool_decide (dest = []) || bool_decide (names s = []) || existsb (fun v => bool_decide (dest = v)) (names s).

(** msg.Body[0].(string), with the message of the panic *)
Definition body_name (why : string) (msg : Message gotype) : outcome sig :=
  match m_Body msg with
  | VString s :: _ => Returned s
  | [] => Halted (GoPanic "index out of range")
  | _ => Halted (GoPanic why)
  end.

Definition bus_name : sig := chars "org.freedesktop.DBus".

(** The names the bus gives and takes away. *)
Definition track_names (s : Conn) (msg : Message gotype) : outcome Conn :=
  let iface := header_string FieldInterface msg in
  let member := header_string FieldMember msg in
  let sender := header_string FieldSender msg in
  if bool_decide (iface = bus_name) && bool_decide (sender = bus_name) then
    if bool_decide (member = chars "NameLost") then
      let? name := body_name "Unable to read the lost name" msg in
      let? ns := lose_name name (names s) in
      Returned (set_names ns s)
    else if bool_decide (member = chars "NameAcquired") then
      let? name := body_name "Unable to read the acquired name" msg in
      Returned (set_names (names s ++ [name]) s)
    else Returned s
  else Returned s.

(** A round of inWorker that read a message. *)
Definition handle_message (s : Conn) (msg : Message gotype) : outcome Conn :=
  match eavesdropped s with
  | Some ch => Returned (emit [EEavesdropped ch msg] s)
  | None =>
      if negb (for_us s msg) then Returned s
      else if (m_Type msg =? TypeMethodReply) || (m_Type msg =? TypeError) then
        let serial := reply_serial msg in
        match calls s !! serial with
        | None => Returned s
        | Some c =>
            let r := if m_Type msg =? TypeError
                     then CError (header_string FieldErrorName msg) (m_Body msg)
                     else CBody (m_Body msg) in
            Returned (set_calls (delete serial (calls s)) (release serial (emit [EDone c r] s)))
        end
      else if m_Type msg =? TypeSignal then
        let? s := track_names s msg in
        let sg := mkSignal (header_string FieldSender msg) (header_path msg)
                    (header_string FieldInterface msg ++ chars "." ++ header_string FieldMember msg)
                    (m_Body msg) in
        Returned (emit (map (fun ch => ESignal ch sg) (signals s)) s)
      else if m_Type msg =? TypeMethodCall then Returned (emit [EHandleCall msg] s)
      else Returned s
  end.

(** The round of inWorker in which reading failed, which is its last. *)
Definition read_failed (s : Conn) : Conn :=
  let s := Close s in
  emit (map (fun '(_, c) => EDone c CReadFailed) (map_to_list (calls s))) s.

(** A round of outWorker: the first message of the channel, and whether it could be sent. *)
Definition send_next (ok : bool) (s : Conn) : option Conn :=
  match out s with
  | [] => None
  | msg :: rest =>
      let s := set_out rest s in
      let q := m_serial msg in
      Some (if ok then
              if m_Type msg =? TypeMethodCall then s else release q s
            else
              release q (match calls s !! q with
                         | Some c => emit [EDone c CSendFailed] s
                         | None => s
                         end))
  end.

(** ** Calls *)

(** MakeVariant and SignatureOf *)
Fixpoint SignatureOf (vs : list dval) : outcome sig :=
  match vs with
  | [] => Returned []
  | v :: vs =>
      let? s := getSignature (type_of v) in
      let? s' := SignatureOf vs in
      Returned (s ++ s')
  end.

Definition MakeVariant (v : dval) : outcome (variant dtype) :=
  let? s := SignatureOf [v] in Returned (s, v).

(** strings.LastIndex of the dot: the part before it, if there is one, and the part after it. *)
Definition split_method (method : sig) : option sig * sig :=
  match last_index "."%char method with
  | Some i => (Some (take i method), drop (S i) method)
  | None => (None, method)
  end.

(** The signature header of a body that is not empty. *)
Definition body_header (values : list dval) : outcome (list (Z * variant dtype)) :=
  match values with
  | [] => Returned []
  | _ => let? s := SignatureOf values in
         let? v := MakeVariant (VSig s) in Returned [(FieldSignature, v)]
  end.

(** The message that Go builds. The map of headers has no order of its own. *)
Definition Go_message (dest path method : sig) (flags : Z) (args : list dval) (serial : Z)
    : outcome (Message dtype) :=
  let '(iface, member) := split_method method in
  let? vpath := MakeVariant (VPath path) in
  let? vdest := MakeVariant (VString dest) in
  let? vmember := MakeVariant (VString member) in
  let? viface := match iface with
                 | Some (c :: s) => let? v := MakeVariant (VString (c :: s)) in Returned [(FieldInterface, v)]
                 | _ => Returned []
                 end in
  let? vsig := body_header args in
  Returned (mkMessage TypeMethodCall (Z.land flags (Z.lor FlagNoAutoStart FlagNoReplyExpected))
              ([(FieldPath, vpath); (FieldDestination, vdest); (FieldMember, vmember)] ++ viface ++ vsig)
              args serial).

(** The test of Send; the messages of Go are all method calls. *)
Definition expects_reply (msg : Message dtype) : bool :=
  (m_Type msg =? TypeMethodCall) && (Z.land (m_Flags msg) FlagNoReplyExpected =? 0).

Definition dest_header (dest : sig) : outcome (list (Z * variant dtype)) :=
  match dest with
  | [] => Returned []
  | _ => let? v := MakeVariant (VString dest) in Returned [(FieldDestination, v)]
  end.

(** The messages that sendReply and sendError build. *)
Definition reply_message (dest : sig) (q : Z) (values : list dval) (serial : Z)
    : outcome (Message dtype) :=
  let? hdest := dest_header dest in
  let? vq := MakeVariant (VNum NUint32 q) in
  let? hsig := body_header values in
  Returned (mkMessage TypeMethodReply 0 (hdest ++ [(FieldReplySerial, vq)] ++ hsig) values serial).

Definition error_message (name : sig) (body : list dval) (dest : sig) (q : Z) (serial : Z)
    : outcome (Message dtype) :=
  let? hdest := dest_header dest in
  let? vname := MakeVariant (VString name) in
  let? vq := MakeVariant (VNum NUint32 q) in
  let? hsig := body_header body in
  Returned (mkMessage TypeError 0
              (hdest ++ [(FieldErrorName, vname); (FieldReplySerial, vq)] ++ hsig) body serial).

(** * Runs *)

(** The connection with the calls of Go under way (their message, and whether the call is in
    conn.calls), and the serials that calls were given, with whether a reply is expected. *)
Record System : Type := mkSystem {
  conn : Conn;
  going : gmap nat (Message dtype * bool);
  given : gmap nat (Z * bool) }.

Definition new_system : System := mkSystem newConn ∅ ∅.

Definition with_serial (q : Z) (msg : Message dtype) : Message dtype :=
  mkMessage (m_Type msg) (m_Flags msg) (m_Headers msg) (m_Body msg) q.

(** The steps: the three parts of Go and Send, and those of sendReply and sendError (Start takes
    the serial, Register stores a call that expects a reply, Enqueue gives the message to
    outWorker, or reports that the connection is closed on the channel of such a call), the
    rounds of the two workers, and the user's operations. *)
Inductive action : Type :=
| Start (c : nat) (msg : Message dtype)
| Register (c : nat)
| Enqueue (c : nat)
| SendNext (ok : bool)
| Receive (msg : Message gotype)
| ReceiveFailed
| UserClose
| UserSignal (ch : nat)
| UserEavesdrop (ch : option nat)
| UserHello (name : sig).

Definition on_conn (f : Conn -> Conn) (s : System) : System := mkSystem (f (conn s)) (going s) (given s).

Definition step (s : System) (a : action) : option System :=
  match a with
  | Start c msg =>
      match given s !! c, getSerial (conn s) with
      | None, Some (q, cn) =>
          Some (mkSystem cn (<[c := (with_serial q msg, false)]> (going s)) 
                  (<[c := (q, expects_reply msg)]> (given s)))
      | _, _ => None
      end
  | Register c =>
      match going s !! c with
      | Some (msg, false) =>
          if expects_reply msg then
            Some (mkSystem (set_calls (<[m_serial msg := c]> (calls (conn s))) (conn s))
                    (<[c := (msg, true)]> (going s)) (given s))
          else None
      | _ => None
      end
  | Enqueue c =>
      match going s !! c with
      | Some (msg, registered) =>
          if negb (Bool.eqb registered (expects_reply msg)) then None
          else if closed (conn s) then
            Some (mkSystem (emit (if registered then [EDone c CErrClosed] else []) (conn s))
                    (delete c (going s)) (given s))
          else if (length (out (conn s)) <? 10)%nat then
            Some (mkSystem (set_out (out (conn s) ++ [msg]) (conn s)) (delete c (going s)) (given s))
          else None
      | None => None
      end
  | SendNext ok =>
      match send_next ok (conn s) with
      | Some cn => Some (mkSystem cn (going s) (given s))
      | None => None
      end
  | Receive msg =>
      match handle_message (conn s) msg with
      | Returned cn => Some (mkSystem cn (going s) (given s))
      | Halted _ => None
      end
  | ReceiveFailed => Some (on_conn read_failed s)
  | UserClose => Some (on_conn Close s)
  | UserSignal ch => Some (on_conn (Conn_Signal ch) s)
  | UserEavesdrop ch => Some (on_conn (Eavesdrop ch) s)
  | UserHello name => Some (on_conn (Hello_names name) s)
  end.

Fixpoint steps (s : System) (acts : list action) : option System :=
  match acts with
  | [] => Some s
  | a :: acts => match step s a with Some s' => steps s' acts | None => None end
  end.

Inductive reachable : Z -> System -> Prop :=
| reach_new : reachable 0 new_system
| reach_step n s a s' :
    reachable n s -> step s a = Some s' ->
    reachable (n + match a with Start _ _ => 1 | _ => 0 end) s'.

(** * The serial that is found *)

Lemma uint32_range z : 0 <= uint32 z < 2 ^ 32.
Proof. apply Z.mod_pos_bound. lia. Qed.

Lemma uint32_add a b : uint32 (uint32 a + b) = uint32 (a + b).
Proof. unfold uint32. by rewrite Zplus_mod_idemp_l. Qed.

Lemma find_serial_Some fuel used n q :
  find_serial fuel used n = Some q -> (q ∉ used) /\ (q = n \/ 0 <= q < 2 ^ 32).
Proof.
  revert n. induction fuel as [|fuel IH]; intros n; simpl; [done|].
  case_bool_decide as H; [|intros [= <-]; auto]. intros Hq. destruct (IH _ Hq) as [? [->|?]]; auto.
  split; [done|]. right. apply uint32_range.
Qed.

Lemma find_serial_None fuel used n :
  find_serial fuel used n = None -> 0 <= n < 2 ^ 32 ->
  forall k, (k < fuel)%nat -> uint32 (n + Z.of_nat k) ∈ used.
Proof.
  revert n. induction fuel as [|fuel IH]; intros n; simpl; [lia|].
  case_bool_decide as H; [|done]. intros Hf Hn k Hk. destruct k as [|k].
  - rewrite Z.add_0_r. unfold uint32. by rewrite Z.mod_small.
  - specialize (IH _ Hf (uint32_range _) k ltac:(lia)). rewrite uint32_add in IH.
    by replace (n + Z.of_nat (S k)) with (n + 1 + Z.of_nat k) by lia.
Qed.

(** While some serial is free, getSerial finds one: it returns, with a serial that is not in
    use and is not zero, and marks it as used. *)
Theorem getSerial_spec s :
  0 ∈ serialUsed s -> 0 <= nextSerial s < 2 ^ 32 -> Z.of_nat (size (serialUsed s)) < 2 ^ 32 ->
  exists n s', getSerial s = Some (n, s') /\ (n ∉ serialUsed s) /\ 0 < n < 2 ^ 32
  /\ serialUsed s' = {[n]} ∪ serialUsed s /\ nextSerial s' = uint32 (n + 1).
Proof.
  intros H0 Hn Hs. unfold getSerial.
  destruct (find_serial _ _ _) as [n|] eqn:E.
  - destruct (find_serial_Some _ _ _ _ E) as [Hused Hq].
    eexists n, _. split; [done|]. split; [done|]. split; [|done].
    assert (n <> 0) by (intros ->; done). destruct Hq as [->|?]; lia.
  - exfalso. pose proof (find_serial_None _ _ _ E Hn) as Hall.
    set (l := map (fun k => uint32 (nextSerial s + Z.of_nat k)) (seq 0 (S (size (serialUsed s))))).
    assert (NoDup l) as Hnd.
    { apply NoDup_fmap_2_strong; [|apply NoDup_seq]. intros i j Hi Hj Hij.
      apply elem_of_seq in Hi. apply elem_of_seq in Hj. unfold uint32 in Hij.
      assert ((Z.of_nat i - Z.of_nat j) mod 2 ^ 32 = 0) as Hm.
      { replace (Z.of_nat i - Z.of_nat j)
          with ((nextSerial s + Z.of_nat i) - (nextSerial s + Z.of_nat j)) by lia.
        rewrite Zminus_mod, Hij, Z.sub_diag. done. }
      apply Z.mod_divide in Hm as [k Hk]; [|lia]. assert (k = 0) by nia. lia. }
    assert (list_to_set l ⊆ serialUsed s) as Hsub.
    { intros x Hx. apply elem_of_list_to_set, list_elem_of_fmap in Hx as (k & -> & Hk).
      apply elem_of_seq in Hk. apply Hall. lia. }
    apply subseteq_size in Hsub. rewrite size_list_to_set in Hsub by done.
    unfold l in Hsub. rewrite length_map, length_seq in Hsub. lia.
Qed.

(** * No call is lost *)

Definition answered (s : System) (c : nat) : Prop := exists r, EDone c r ∈ events (conn s).

Definition kept (s : System) (c : nat) (q : Z) : Prop :=
  (exists msg, going s !! c = Some (msg, false)) \/ calls (conn s) !! q = Some c \/ answered s c.

Record inv (n : Z) (s : System) : Prop := mkInv {
  inv_pos : 0 <= n;
  inv_next : nextSerial (conn s) = n + 1;
  inv_used : forall q, q ∈ serialUsed (conn s) -> 0 <= q <= n;
  inv_given : forall c q b, given s !! c = Some (q, b) -> 1 <= q <= n;
  inv_inj : forall c c' q b b', given s !! c = Some (q, b) -> given s !! c' = Some (q, b') -> c = c';
  inv_calls : forall q c, calls (conn s) !! q = Some c -> given s !! c = Some (q, true);
  inv_going : forall c msg b, going s !! c = Some (msg, b) ->
    given s !! c = Some (m_serial msg, expects_reply msg);
  inv_kept : forall c q, given s !! c = Some (q, true) -> kept s c q }.

Lemma bus_inv_new : inv 0 new_system.
Proof.
  split; simpl; try done.
  - intros q Hq. apply elem_of_singleton in Hq. lia.
Qed.

(** A change of the connection that keeps serials and calls, or drops a call that it answers. *)
Lemma inv_conn n s cn :
  inv n s -> nextSerial cn = nextSerial (conn s) -> serialUsed cn ⊆ serialUsed (conn s) ->
  calls cn ⊆ calls (conn s) ->
  (forall e, e ∈ events (conn s) -> e ∈ events cn) ->
  (forall q c, calls (conn s) !! q = Some c -> calls cn !! q = Some c \/ exists r, EDone c r ∈ events cn) ->
  inv n (mkSystem cn (going s) (given s)).
Proof.
  intros [Hpos Hn Hu Hg Hi Hc Hgo Hk] Hn' Hu' Hc' He Hq. split; simpl; try done.
  - by rewrite Hn'.
  - intros q Hin. apply Hu. by apply Hu'.
  - intros q c Hqc. apply Hc. by eapply lookup_weaken.
  - intros c q Hcq. destruct (Hk c q Hcq) as [?|[H|(r & H)]]; [by left|right..].
    + destruct (Hq _ _ H) as [?|?]; [by left|by right].
    + right. exists r. by apply He.
Qed.

Lemma inv_emit n s es :
  inv n s -> inv n (mkSystem (emit es (conn s)) (going s) (given s)).
Proof.
  intros H. apply inv_conn; simpl; try done; [|auto].
  intros e He. apply elem_of_app. by left.
Qed.

Lemma inv_Start n s c msg s' :
  inv n s -> n < 2 ^ 32 - 2 -> step s (Start c msg) = Some s' -> inv (n + 1) s'.
Proof.
  intros [Hpos Hn Hu Hg Hi Hc Hgo Hk] Hb. simpl. destruct (given s !! c) as [|] eqn:Ec; [done|].
  unfold getSerial. rewrite Hn. cbn [find_serial].
  assert (n + 1 ∉ serialUsed (conn s)) as Hfresh by (intros Hin; specialize (Hu _ Hin); lia).
  rewrite bool_decide_false by done. intros [= <-].
  assert (uint32 (n + 1 + 1) = n + 1 + 1) as Hw by (unfold uint32; apply Z.mod_small; lia).
  split; simpl; [lia|done|..].
  - intros q Hin. apply elem_of_union in Hin as [Hin|Hin];
      [apply elem_of_singleton in Hin; lia|specialize (Hu _ Hin); lia].
  - intros c' q b. rewrite lookup_insert_Some. intros [[_ [= <- _]]|[_ H]]; [lia|].
    specialize (Hg _ _ _ H). lia.
  - intros c1 c2 q b1 b2. rewrite !lookup_insert_Some.
    intros [[<- [= <- <-]]|[Hne1 H1]] [[<- H2]|[Hne2 H2]]; try done;
      [specialize (Hg _ _ _ H2); lia|injection H2 as <- _; specialize (Hg _ _ _ H1); lia|by eapply Hi].
  - intros q c' H. rewrite lookup_insert_ne; [by apply Hc|]. intros <-. apply Hc in H. congruence.
  - intros c' msg' b. rewrite lookup_insert_Some. intros [[<- [= <- <-]]|[Hne H]].
    + by rewrite lookup_insert_eq.
    + rewrite lookup_insert_ne by done. by eapply Hgo.
  - intros c' q. rewrite lookup_insert_Some. intros [[<- [= <- He]]|[Hne H]].
    + left. eexists. simpl. by rewrite lookup_insert_eq.
    + destruct (Hk c' q H) as [(m' & Hm)|Hrest].
      * left. exists m'. simpl. by rewrite lookup_insert_ne.
      * right. exact Hrest.
Qed.

Lemma inv_Register n s c s' : inv n s -> step s (Register c) = Some s' -> inv n s'.
Proof.
  intros [Hpos Hn Hu Hg Hi Hc Hgo Hk]. simpl.
  destruct (going s !! c) as [[msg []]|] eqn:Ec; try done.
  destruct (expects_reply msg) eqn:Er; [|done]. intros [= <-].
  pose proof (Hgo _ _ _ Ec) as Hgiven. rewrite Er in Hgiven.
  split; simpl; try done.
  - intros q c'. rewrite lookup_insert_Some. intros [[<- <-]|[_ H]]; [done|by apply Hc].
  - intros c' msg' b. rewrite lookup_insert_Some. intros [[<- [= <- <-]]|[_ H]];
      [by rewrite Er|by eapply Hgo].
  - intros c' q Hq. destruct (decide (c' = c)) as [->|Hne].
    + right. left. simpl. rewrite Hgiven in Hq. injection Hq as <-. by rewrite lookup_insert_eq.
    + destruct (Hk c' q Hq) as [(m' & Hm)|[Hin|Hdone]].
      * left. exists m'. simpl. by rewrite lookup_insert_ne.
      * right. left. simpl. rewrite lookup_insert_ne; [done|]. intros <-.
        apply Hne. by eapply Hi.
      * by right; right.
Qed.

Lemma inv_Enqueue n s c s' : inv n s -> step s (Enqueue c) = Some s' -> inv n s'.
Proof.
  intros Hinv. simpl. destruct (going s !! c) as [[msg b]|] eqn:Ec; [|done].
  destruct (Bool.eqb b (expects_reply msg)) eqn:Eb; [|done]. apply eqb_prop in Eb. simpl.
  assert (forall cn, calls cn = calls (conn s) -> nextSerial cn = nextSerial (conn s) ->
    serialUsed cn = serialUsed (conn s) -> (forall e, e ∈ events (conn s) -> e ∈ events cn) ->
    inv n (mkSystem cn (delete c (going s)) (given s))) as H.
  { destruct Hinv as [Hpos Hn Hu Hg Hi Hc Hgo Hk]. intros cn E1 E2 E3 E4.
    split; simpl; try done; [by rewrite E2|by rewrite E3|by rewrite E1|..].
    - intros c' msg' b'. rewrite lookup_delete_Some. intros [_ H]. by eapply Hgo.
    - intros c' q Hq. destruct (Hk c' q Hq) as [(m' & Hm)|[Hin|(r & Hr)]].
      + left. exists m'. simpl. rewrite lookup_delete_ne; [done|]. intros <-.
        rewrite Ec in Hm. injection Hm as <- ->. pose proof (Hgo _ _ _ Ec). congruence.
      + right. left. simpl. by rewrite E1.
      + right. right. exists r. by apply E4. }
  destruct (closed (conn s)); [intros [= <-]; apply H; simpl; try done|].
  - intros e He. apply elem_of_app. by left.
  - destruct (_ <? 10)%nat; [|done]. intros [= <-]. by apply H.
Qed.

Lemma inv_release n s q cn :
  inv n (mkSystem cn (going s) (given s)) -> inv n (mkSystem (release q cn) (going s) (given s)).
Proof.
  intros H. apply (inv_conn n (mkSystem cn (going s) (given s))); simpl; try done; [|auto].
  apply subseteq_difference_l. done.
Qed.

Lemma inv_SendNext n s ok s' : inv n s -> step s (SendNext ok) = Some s' -> inv n s'.
Proof.
  intros Hinv. simpl. unfold send_next. destruct (out (conn s)) as [|msg rest]; [done|].
  assert (inv n (mkSystem (set_out rest (conn s)) (going s) (given s))) as H0
    by (apply inv_conn; simpl; auto).
  intros [= <-]. destruct ok.
  - destruct (_ =? _); [done|by apply inv_release].
  - apply inv_release. destruct (calls _ !! _); [|done].
    by apply (inv_emit n (mkSystem (set_out rest (conn s)) (going s) (given s))).
Qed.

Lemma inv_Receive n s msg s' : inv n s -> step s (Receive msg) = Some s' -> inv n s'.
Proof.
  intros Hinv. simpl. unfold handle_message.
  destruct (eavesdropped (conn s)); [intros [= <-]; by apply inv_emit|].
  destruct (for_us (conn s) msg); [|intros [= <-]; by destruct s]. simpl.
  destruct (_ || _).
  - destruct (calls (conn s) !! reply_serial msg) as [c|] eqn:Ec; intros [= <-]; [|by destruct s].
    apply inv_conn; simpl; try done.
    + apply subseteq_difference_l. done.
    + apply delete_subseteq.
    + intros e He. apply elem_of_app. by left.
    + intros q c' Hq. destruct (decide (q = reply_serial msg)) as [->|Hne].
      * right. rewrite Ec in Hq. injection Hq as <-. eexists. apply elem_of_app. right.
        by apply list_elem_of_singleton.
      * left. by rewrite lookup_delete_ne.
  - destruct (m_Type msg =? TypeSignal); [|destruct (_ =? _); intros [= <-]; [by apply inv_emit|by destruct s]].
    destruct (track_names (conn s) msg) as [cn|] eqn:Et; [|done]. intros [= <-].
    assert (exists ns, cn = set_names ns (conn s)) as (ns & ->).
    { unfold track_names in Et.
      repeat (case_match; simpl in Et; try done); try (destruct (body_name _ msg); [|done]; simpl in Et);
        try (destruct (lose_name _ _); [|done]; simpl in Et); injection Et as <-;
        try (by eexists); exists (names (conn s)); by destruct (conn s). }
    apply (inv_emit n (mkSystem (set_names ns (conn s)) (going s) (given s))).
    apply inv_conn; simpl; auto.
Qed.

(** A step that only adds events, or changes neither serials nor calls. *)
Ltac same_conn :=
  apply inv_conn; simpl; try done; try (intros e He; rewrite ?elem_of_app; by auto); auto.

Lemma bus_inv_step n s a s' :
  inv n s -> n + match a with Start _ _ => 1 | _ => 0 end <= 2 ^ 32 - 2 -> step s a = Some s' ->
  inv (n + match a with Start _ _ => 1 | _ => 0 end) s'.
Proof.
  intros Hinv Hb. destruct a; rewrite ?Z.add_0_r in *.
  - intros H. eapply inv_Start; [done|lia|done].
  - by apply inv_Register.
  - by apply inv_Enqueue.
  - by apply inv_SendNext.
  - by apply inv_Receive.
  - intros [= <-]. unfold on_conn, read_failed, Close. destruct (closed (conn s)); same_conn.
  - intros [= <-]. unfold Close, on_conn. destruct (closed (conn s)); [by destruct s|]. same_conn.
  - intros [= <-]. same_conn.
  - intros [= <-]. same_conn.
  - intros [= <-]. same_conn.
Qed.

Lemma bus_reachable_pos n s : reachable n s -> 0 <= n.
Proof. induction 1 as [|n s a s' _ IH _]; [lia|]. destruct a; lia. Qed.

Lemma bus_reachable_inv n s : reachable n s -> n <= 2 ^ 32 - 2 -> inv n s.
Proof.
  induction 1 as [|n s a s' Hr IH Hs]; intros Hb; [apply bus_inv_new|].
  apply (bus_inv_step n s); [|done..]. apply IH. destruct a; lia.
Qed.

(** C31: However callers, replies, failures and Close interleave, a call that expects a reply is
    not lost: its caller has not stored it yet, or it is stored under the serial its message
    carries, which no other call was given, or its Done channel has been sent the call. This
    holds as long as the serials have not wrapped around. *)
Theorem calls_never_lost n s c q :
  reachable n s -> n <= 2 ^ 32 - 2 -> given s !! c = Some (q, true) ->
  ((exists msg, going s !! c = Some (msg, false)) \/ calls (conn s) !! q = Some c
   \/ exists r, EDone c r ∈ events (conn s))
  /\ (forall c', calls (conn s) !! q = Some c' -> c' = c).
Proof.
  intros Hr Hb Hg. destruct (bus_reachable_inv n s Hr Hb) as [_ _ _ _ Hi Hc _ Hk]. split.
  - by apply Hk.
  - intros c' Hc'. apply Hc in Hc'. by eapply Hi.
Qed.

(** When reading fails, every call that is stored is sent its error: afterwards each call
    that expects a reply has been answered, or its caller has not stored it yet and will find
    the connection closed. *)
Theorem read_failure_answers_all n s s' c q :
  reachable n s -> n <= 2 ^ 32 - 2 -> step s ReceiveFailed = Some s' ->
  given s' !! c = Some (q, true) ->
  closed (conn s') = true
  /\ ((exists msg, going s' !! c = Some (msg, false)) \/ exists r, EDone c r ∈ events (conn s')).
Proof.
  intros Hr Hb [= <-] Hg. cbn [on_conn conn going given] in *.
  assert (closed (read_failed (conn s)) = true) as Hcl.
  { unfold read_failed, Close. by destruct (closed (conn s)) eqn:E. }
  split; [done|]. destruct (bus_reachable_inv n s Hr Hb) as [_ _ _ _ _ _ _ Hk].
  assert (forall e, e ∈ events (conn s) -> e ∈ events (read_failed (conn s))) as He.
  { intros e Hin. unfold read_failed, Close. destruct (closed (conn s)); simpl; rewrite ?elem_of_app; auto. }
  destruct (Hk c q Hg) as [?|[Hq|(r & Hr')]]; [by left|right..]; [|by eauto].
  exists CReadFailed. unfold read_failed. simpl. apply elem_of_app. right.
  apply list_elem_of_fmap. exists (q, c). split; [done|]. apply elem_of_map_to_list.
  unfold Close. by destruct (closed (conn s)).
Qed.

(** A call whose serial is known, after a run that the witnesses share: a call is made and
    answered, another is sent but not answered, a third has only its serial. *)
Definition sample_call : Message dtype := mkMessage TypeMethodCall 0 [] [] 0.
Definition sample_reply (q : Z) : Message gotype :=
  mkMessage TypeMethodReply 0 [(FieldReplySerial, (chars "u", VNum NUint32 q))] [VBool true] 1.

Definition sample_run : list action :=
  [Start 7 sample_call; Register 7; Enqueue 7; Start 8 sample_call; SendNext true; Register 8;
   Receive (sample_reply 1); Enqueue 8; Start 9 sample_call].

Lemma bus_steps_reachable n s acts s' :
  reachable n s -> steps s acts = Some s' ->
  reachable (n + Z.of_nat (length (List.filter (fun a => match a with Start _ _ => true | _ => false end) acts))) s'.
Proof.
  revert n s. induction acts as [|a acts IH]; intros n s Hr Hs; simpl in Hs.
  - injection Hs as <-. by rewrite Z.add_0_r.
  - destruct (step s a) as [s1|] eqn:E; [|done]. pose proof (reach_step n s a s1 Hr E) as H1.
    pose proof (IH _ _ H1 Hs) as H2. cbn [List.filter]. destruct a; cbn [length] in *;
      rewrite ?Z.add_0_r in *; try done.
    by replace (n + Z.of_nat (S (length (List.filter
      (fun a => match a with Start _ _ => true | _ => false end) acts)))) with
      (n + 1 + Z.of_nat (length (List.filter
      (fun a => match a with Start _ _ => true | _ => false end) acts))) by lia.
Qed.

Lemma sample_run_steps : exists s, steps new_system sample_run = Some s
  /\ given s !! 8%nat = Some (2, true) /\ given s !! 7%nat = Some (1, true).
Proof. eexists. split; [vm_compute; reflexivity|]. by split; vm_compute. Qed.

Lemma calls_never_lost_witness : exists s, steps new_system sample_run = Some s /\
  ((exists msg, going s !! 8%nat = Some (msg, false)) \/ calls (conn s) !! 2 = Some 8%nat
   \/ exists r, EDone 8 r ∈ events (conn s)).
Proof.
  destruct sample_run_steps as (s & Hs & H8 & _). exists s. split; [exact Hs|].
  apply (calls_never_lost 3 s 8 2); [|lia|exact H8].
  exact (bus_steps_reachable 0 new_system sample_run s reach_new Hs).
Defined.

Lemma read_failure_answers_all_witness : exists s,
  steps new_system sample_run = Some s
  /\ ((exists msg, going (on_conn read_failed s) !! 8%nat = Some (msg, false))
      \/ exists r, EDone 8 r ∈ events (conn (on_conn read_failed s))).
Proof.
  destruct sample_run_steps as (s & Hs & H8 & _). exists s. split; [exact Hs|].
  apply (read_failure_answers_all 3 s (on_conn read_failed s) 8 2); [|lia|reflexivity|exact H8].
  exact (bus_steps_reachable 0 new_system sample_run s reach_new Hs).
Defined.

Lemma getSerial_spec_witness : exists n s', getSerial newConn = Some (n, s') /\ 0 < n.
Proof.
  destruct (getSerial_spec newConn) as (n & s' & H & _ & Hn & _);
    [cbn [serialUsed newConn]; by apply elem_of_singleton|done|vm_compute; reflexivity|]. exists n, s'. split; [exact H|lia].
Defined.

(** A call is completed twice when reading fails between the two parts of Go: the reader sends
    the error to the call that was just stored, then its caller finds the connection closed. *)
Example completed_twice :
  match steps new_system [Start 7 sample_call; Register 7; ReceiveFailed; Enqueue 7] with
  | Some s => events (conn s) = [EDone 7 CReadFailed; EDone 7 CErrClosed]
  | None => False
  end.
Proof. vm_compute. reflexivity. Qed.

(** So is a call that could not be sent, since it stays in conn.calls. *)
Example failed_call_completed_twice :
  match steps new_system [Start 7 sample_call; Register 7; Enqueue 7; SendNext false; ReceiveFailed] with
  | Some s => events (conn s) = [EDone 7 CSendFailed; EDone 7 CReadFailed]
  | None => False
  end.
Proof. vm_compute. reflexivity. Qed.

(** * Names *)

Lemma lose_skip name arr m left : forall k i,
  (forall j, (i <= j < i + k)%nat -> arr !! j <> Some name) ->
  lose_loop (k + left) i name arr m = lose_loop left (i + k) name arr m.
Proof.
  induction k as [|k IH]; intros i H; [by rewrite Nat.add_0_r|].
  cbn [Nat.add lose_loop]. rewrite bool_decide_false by (apply H; lia).
  rewrite IH by (intros j Hj; apply H; lia). f_equal. lia.
Qed.

Lemma lose_one name pre post :
  name ∉ pre -> name ∉ post ->
  lose_name name (pre ++ name :: post) = Returned (pre ++ post).
Proof.
  intros Hpre Hpost. unfold lose_name. rewrite length_app. cbn [length].
  rewrite lose_skip.
  2:{ intros j Hj Heq. apply Hpre. apply list_elem_of_lookup. exists j.
      rewrite lookup_app_l in Heq by lia. done. }
  cbn [lose_loop Nat.add]. rewrite bool_decide_true by (by apply list_lookup_middle).
  destruct (Nat.ltb_spec (length pre + S (length post)) (S (length pre))); [lia|].
  replace (length pre + S (length post) - S (length pre))%nat with (length post) by lia.
  replace (length pre + S (length post) - 1)%nat with (length pre + length post)%nat by lia.
  rewrite take_app_length.
  replace (drop (S (length pre)) (pre ++ name :: post)) with post
    by (rewrite drop_app_ge by lia; by replace (S (length pre) - length pre)%nat with 1%nat by lia).
  rewrite take_ge by lia.
  set (arr := pre ++ post ++ drop (length pre + length post) (pre ++ name :: post)).
  assert (take (length pre + length post) arr = pre ++ post) as Htake.
  { unfold arr. rewrite app_assoc, take_app_length'; [done|by rewrite length_app]. }
  pose proof (lose_skip name arr (length pre + length post) 0 (length post) (S (length pre))) as Hs.
  rewrite Nat.add_0_r in Hs. rewrite Hs; [simpl; by rewrite Htake|].
  intros j Hj Heq. apply Hpost. destruct (decide (j < length pre + length post)%nat) as [Hlt|Hge].
  - assert (post !! (j - length pre)%nat = Some name) as Hp.
    { unfold arr in Heq. rewrite lookup_app_r in Heq by lia.
      by rewrite lookup_app_l in Heq by lia. }
    by eapply list_elem_of_lookup_2.
  - assert (j = length pre + length post)%nat as -> by lia.
    assert ((pre ++ name :: post) !! (length pre + length post)%nat = Some name) as Hp.
    { unfold arr in Heq. rewrite app_assoc, lookup_app_r in Heq by (rewrite length_app; lia).
      rewrite length_app, Nat.sub_diag, lookup_drop, Nat.add_0_r in Heq. done. }
    rewrite lookup_app_r in Hp by lia.
    replace (length pre + length post - length pre)%nat with (S (length post - 1)) in Hp by lia.
    simpl in Hp. by eapply list_elem_of_lookup_2.
Qed.

Lemma filter_absent (name : sig) (ns : list sig) : name ∉ ns -> filter (fun v => v <> name) ns = ns.
Proof.
  induction ns as [|v ns IH]; [done|]. rewrite not_elem_of_cons. intros [Hv Hns].
  rewrite filter_cons_True by done. by rewrite IH.
Qed.

(** Of names that are all different, the loop that removes a lost name from the slice it
    ranges over removes just that name. *)
Theorem lose_name_spec name ns :
  NoDup ns -> lose_name name ns = Returned (filter (fun v => v <> name) ns).
Proof.
  intros Hnd. destruct (decide (name ∈ ns)) as [Hin|Hnin].
  - apply list_elem_of_split in Hin as (pre & post & ->).
    apply NoDup_app in Hnd as (H1 & H2 & H3). apply NoDup_cons in H3 as [H3 H4].
    assert (name ∉ pre) as Hpre by (intros H; apply (H2 _ H), list_elem_of_here).
    rewrite lose_one by done. f_equal. rewrite filter_app, filter_cons_False by tauto.
    by rewrite !filter_absent.
  - unfold lose_name. rewrite <- (Nat.add_0_r (length ns)) at 1. rewrite lose_skip.
    + simpl. rewrite firstn_all. by rewrite filter_absent.
    + intros j _ Heq. apply Hnin. by eapply list_elem_of_lookup_2.
Qed.

Lemma lose_name_spec_witness :
  lose_name (chars "b") [chars "a"; chars "b"; chars "c"]
  = Returned (filter (fun v => v <> chars "b") [chars "a"; chars "b"; chars "c"]).
Proof. apply lose_name_spec. apply NoDup_ListNoDup. repeat constructor; simpl; intuition discriminate. Defined.

(** A name that is there twice, as the unique name is once Hello and the bus have both added
    it, makes the loop panic. *)
Example lose_name_twice_panics :
  lose_name (chars "u") [chars "u"; chars "u"] = Halted (GoPanic "slice bounds out of range").
Proof. reflexivity. Qed.

(** * The messages of calls *)

Lemma SignatureOf_types vs :
  Forall (fun v => keyed (type_of v) = true) vs -> SignatureOf vs = Returned (sigs_of (map type_of vs)).
Proof.
  induction 1 as [|v vs Hv Hvs IH]; [done|]. cbn [SignatureOf].
  rewrite getSignature_sig_of by done. cbn [obind]. by rewrite IH.
Qed.

(** A call that can be made: valid names, and arguments whose signature fits. *)
Record callable (dest path method : sig) (args : list dval) : Prop := {
  call_path : ObjectPath_IsValid path = true;
  call_path_len : Z.of_nat (length path) < 2 ^ 32;
  call_dest_len : Z.of_nat (length dest) < 2 ^ 32;
  call_member : isValidMember (snd (split_method method)) = true;
  call_iface : match fst (split_method method) with
               | Some (c :: s) => isValidInterface (c :: s) = true
               | _ => True
               end;
  call_args : Forall sendable args;
  call_keyed : Forall (fun v => keyed (type_of v) = true) args;
  call_sig : (length (sigs_of (map type_of args)) <= 255)%nat }.

Lemma isValidMember_length s : isValidMember s = true -> (length s <= 255)%nat.
Proof. destruct s; [done|]. unfold isValidMember. destruct (Nat.ltb_spec 255 (length (a :: s))); [done|lia]. Qed.

Lemma isValidInterface_length s : isValidInterface s = true -> (length s <= 255)%nat.
Proof.
  destruct s; [done|]. unfold isValidInterface.
  destruct (Nat.ltb_spec 255 (length (a :: s))); [done|]. intros _. lia.
Qed.

Lemma call_flags flags :
  let f := Z.land flags (Z.lor FlagNoAutoStart FlagNoReplyExpected) in
  in_range NByte f = true /\ Z.land f (Z.lnot (Z.lor FlagNoAutoStart FlagNoReplyExpected)) = 0.
Proof.
  cbv zeta. change (Z.lor FlagNoAutoStart FlagNoReplyExpected) with (Z.ones 2).
  split; [|by rewrite <- Z.land_assoc, Z.land_lnot_diag, Z.land_0_r].
  rewrite Z.land_ones by lia. pose proof (Z.mod_pos_bound flags (2 ^ 2) ltac:(lia)).
  unfold in_range. rewrite andb_true_iff, Z.leb_le, Z.ltb_lt. cbn [num_size]. lia.
Qed.

Lemma sigs_of_parsed args :
  Forall sendable args -> (length (sigs_of (map type_of args)) <= 255)%nat ->
  ParseSignature (sigs_of (map type_of args)) = Returned (inr (sigs_of (map type_of args))).
Proof.
  intros Ha Hl. apply ParseSignature_accepts. split; [done|]. split; [done|].
  exists (map type_of args). split; [|done]. apply forallb_forall. intros t (v & <- & Hv)%in_map_iff.
  rewrite List.Forall_forall in Ha. by destruct (Ha v Hv) as (_ & ? & _).
Qed.

(** The message that Go builds for a call with valid names and arguments is valid and
    describes its body, so that it is one of those that EncodeTo writes and DecodeMessage reads
    back. *)
Lemma Go_message_wf dest path method flags args serial :
  callable dest path method args -> in_range NUint32 serial = true ->
  exists msg, Go_message dest path method flags args serial = Returned msg
  /\ wf_message msg /\ m_Body msg = args /\ m_serial msg = serial.
Proof.
  intros [Hp Hpl Hdl Hm Hi Ha Hk Hs] Hser. unfold Go_message.
  destruct (split_method method) as [iface member]. cbn [fst snd] in *. unfold body_header.
  pose proof (isValidMember_length _ Hm) as Hml. destruct (call_flags flags) as [Hf1 Hf2].
  pose proof (sigs_of_parsed args Ha Hs) as Hsig.
  unfold MakeVariant. cbn [SignatureOf type_of getSignature obind].
  rewrite (SignatureOf_types args Hk).
  assert (match iface with Some (c :: s) => (length (c :: s) <= 255)%nat | _ => True end) as Hil
    by (destruct iface as [[|c s]|]; try done; by apply isValidInterface_length).
  assert (Hv : forall hs, (hs = [] \/ exists c s, iface = Some (c :: s) /\ hs = [(FieldInterface, (chars "s", VString (c :: s)))]) ->
    forall sg, (args = [] /\ sg = [] \/ sg = [(FieldSignature, (chars "g", VSig (sigs_of (map type_of args))))]) ->
    wf_message (mkMessage TypeMethodCall (Z.land flags (Z.lor FlagNoAutoStart FlagNoReplyExpected))
      ([(FieldPath, (chars "o", VPath path)); (FieldDestination, (chars "s", VString dest));
        (FieldMember, (chars "s", VString member))] ++ hs ++ sg) args serial)).
  { intros hs Hhs sg Hsg. split; cbn [m_Type m_Flags m_Headers m_Body m_serial]; try done.
    - unfold IsValid. cbn [m_Type m_Flags m_Headers m_Body m_serial]. rewrite Hf2.
      destruct Hhs as [->|(c & s & Hif & ->)], Hsg as [[-> ->]| ->]; subst; cbn in Hi |- *;
        rewrite ?Hp; cbn; rewrite ?Hi, ?Hm; cbn; try done; by rewrite andb_false_r.
    - destruct Hhs as [->|(c & s & Hif & ->)], Hsg as [[-> ->]| ->]; subst;
        repeat apply List.Forall_cons; try apply List.Forall_nil;
        (split; [done|split; [done|]]); cbn [wf_val]; try done; try lia.
    - destruct Hhs as [->|(c & s & Hif & ->)], Hsg as [[-> ->]| ->];
        apply NoDup_ListNoDup; repeat constructor; simpl; intuition discriminate.
    - destruct Hhs as [->|(c & s & Hif & ->)], Hsg as [[-> ->]| ->]; done. }
  destruct iface as [[|c s]|], args as [|a args];
    (eexists; split; [reflexivity|]; split; [apply Hv|done]); eauto 10.
Qed.

(** * Replies *)

(** Values that can be sent back. *)
Record answerable (dest : sig) (values : list dval) : Prop := {
  ans_dest : Z.of_nat (length dest) < 2 ^ 32;
  ans_values : Forall sendable values;
  ans_keyed : Forall (fun v => keyed (type_of v) = true) values;
  ans_sig : (length (sigs_of (map type_of values)) <= 255)%nat }.

Lemma dest_header_eq dest :
  dest_header dest = Returned (match dest with
                               | [] => []
                               | _ => [(FieldDestination, (chars "s", VString dest))]
                               end).
Proof. by destruct dest. Qed.

Lemma body_header_eq values :
  Forall (fun v => keyed (type_of v) = true) values ->
  body_header values = Returned (match values with
                                 | [] => []
                                 | _ => [(FieldSignature, (chars "g", VSig (sigs_of (map type_of values))))]
                                 end).
Proof. intros Hk. unfold body_header. rewrite SignatureOf_types by done. by destruct values. Qed.

Lemma reply_message_wf dest q values serial :
  answerable dest values -> in_range NUint32 q = true -> in_range NUint32 serial = true ->
  exists msg, reply_message dest q values serial = Returned msg /\ wf_message msg
  /\ m_Type msg = TypeMethodReply /\ m_Body msg = values
  /\ header_of FieldReplySerial (m_Headers msg) = Some (chars "u", VNum NUint32 q)
  /\ header_of FieldDestination (m_Headers msg)
     = match dest with [] => None | _ => Some (chars "s", VString dest) end.
Proof.
  intros [Hd Hv Hk Hs] Hq Hser. pose proof (sigs_of_parsed values Hv Hs) as Hsig.
  unfold reply_message. rewrite dest_header_eq, body_header_eq by done.
  cbn [obind MakeVariant SignatureOf type_of getSignature].
  eexists. split; [reflexivity|]. split.
  - destruct dest as [|c dest], values as [|v values];
      (split; cbn [m_Type m_Flags m_Headers m_Body m_serial app]; try done;
       [repeat apply List.Forall_cons; try apply List.Forall_nil;
          (split; [done|split; [done|]]); cbn [wf_val]; try done
       |apply NoDup_ListNoDup; repeat constructor; simpl; intuition discriminate]).
  - cbn [m_Type m_Body m_Headers]. repeat split; by destruct dest, values.
Qed.

Lemma reply_delivered (E : Endian) dest q values serial s c rest :
  answerable dest values -> in_range NUint32 q = true -> in_range NUint32 serial = true ->
  calls s !! q = Some c -> eavesdropped s = None ->
  (dest = [] \/ names s = [] \/ In dest (names s)) ->
  exists msg, reply_message dest q values serial = Returned msg
  /\ forall fuel bs, (message_need msg <= fuel)%nat -> EncodeTo E msg = inr bs ->
     exists msg' s', DecodeMessage fuel (bs ++ rest) = Got msg' rest
     /\ handle_message s msg' = Returned s'
     /\ events s' = events s ++ [EDone c (CBody (map erase values))]
     /\ calls s' = delete q (calls s) /\ serialUsed s' = serialUsed s ∖ {[q]}.
Proof.
  intros Ha Hq Hser Hc He Hd.
  destruct (reply_message_wf dest q values serial Ha Hq Hser)
    as (msg & Hm & Hw & Ht & Hb & Hrs & Hdest).
  exists msg. split; [done|]. intros fuel bs Hf Henc.
  pose proof (EncodeTo_read E msg fuel Hw Hf) as Hr. rewrite Henc in Hr.
  eexists _, _. split; [apply Hr|]. unfold handle_message. rewrite He.
  assert (header_string FieldDestination (erase_message msg) = dest) as Hdst.
  { unfold header_string, erase_message. cbn [m_Headers]. rewrite header_of_erase, Hdest. by destruct dest. }
  assert (reply_serial (erase_message msg) = q) as Hser'.
  { unfold reply_serial, erase_message. cbn [m_Headers]. by rewrite header_of_erase, Hrs. }
  assert (for_us s (erase_message msg) = true) as ->.
  { unfold for_us. rewrite Hdst. destruct Hd as [->|[->|Hin]]; [done|by rewrite orb_true_r|].
    apply orb_true_iff. right. apply existsb_exists. exists dest. split; [done|by apply bool_decide_true]. }
  rewrite Hser', Hc. cbn [negb erase_message m_Type m_Body]. rewrite Ht, Hb. cbn.
  split; [done|]. by split.
Qed.

(** The reply that sendReply makes for a call reaches that call: what is sent is read by the
    other side, if it is addressed to it, as the answer to the call stored under the serial, whose
    channel gets the values in their order; the call and its serial are forgotten. *)
Theorem reply_reaches_call (E : Endian) dest q values serial s c rest :
  answerable dest values -> in_range NUint32 q = true -> in_range NUint32 serial = true ->
  calls s !! q = Some c -> eavesdropped s = None ->
  (dest = [] \/ names s = [] \/ In dest (names s)) ->
  exists msg, reply_message dest q values serial = Returned msg
  /\ forall fuel bs, (message_need msg <= fuel)%nat -> EncodeTo E msg = inr bs ->
     exists msg' s', DecodeMessage fuel (bs ++ rest) = Got msg' rest
     /\ handle_message s msg' = Returned s'
     /\ events s' = events s ++ [EDone c (CBody (map erase values))]
     /\ calls s' = delete q (calls s) /\ serialUsed s' = serialUsed s ∖ {[q]}.
Proof. apply reply_delivered. Qed.

Definition sample_caller : Conn :=
  set_calls {[ 5 := 7%nat ]} (set_names [chars ":1.2"] newConn).

Lemma reply_reaches_call_witness : exists msg,
  reply_message (chars ":1.2") 5 [VString (chars "ok")] 9 = Returned msg
  /\ forall fuel bs, (message_need msg <= fuel)%nat -> EncodeTo true msg = inr bs ->
     exists msg' s', DecodeMessage fuel (bs ++ [1]) = Got msg' [1]
     /\ handle_message sample_caller msg' = Returned s'
     /\ events s' = [EDone 7 (CBody [VString (chars "ok")])]
     /\ calls s' = delete 5 (calls sample_caller)
     /\ serialUsed s' = serialUsed sample_caller ∖ {[5]}.
Proof.
  apply (reply_reaches_call true (chars ":1.2") 5 [VString (chars "ok")] 9 sample_caller 7 [1]).
  - split; [vm_compute; reflexivity| | |apply Nat.leb_le; reflexivity].
    + apply List.Forall_cons; [|apply List.Forall_nil].
      split; [vm_compute; reflexivity|split; reflexivity].
    + apply List.Forall_cons; [reflexivity|apply List.Forall_nil].
  - reflexivity.
  - reflexivity.
  - reflexivity.
  - reflexivity.
  - right. right. left. reflexivity.
Defined.
