(* ===== verification/DbusExport.v ===== *)
(** godbus/dbus, objects that are called (Godeps/.../godbus/dbus/export.go, and Store of
    dbus.go).

    An exported object is what reflection sees of it: the methods with their parameters, whether
    the last result is an *Error, and what a call returns. The registry is the map
    conn.handlers. Where the code ranges over a map, the order is the parameter [range], of which
    only is known that it lists the map. handleCall runs in a goroutine of its own; it is the
    list of the answers that it sends, or the panic that building one of them ends in; each
    answer gets a serial and goes the way of the messages of sendReply and sendError
    (DbusConn.v). *)

From S2P Require Import Prelude NetIP Nl DbusSig DbusCodec DbusMessage DbusConn.

Local Open Scope go_scope.
Local Open Scope Z_scope.

#[export] Instance num_eq_dec : EqDecision num.
Proof. solve_decision. Defined.

(** * Store *)

(** Types that are the same Go type. A struct of the destination is a type of its own, which no
    value that was decoded has. *)
Definition simple_eqb (t t' : dtype) : bool :=
  match t, t' with
  | TNum k, TNum k' => bool_decide (k = k')
  | TBool, TBool | TString, TString | TPath, TPath | TSig, TSig | TVariant, TVariant => true
  | _, _ => false
  end.

Fixpoint same_type (t : dtype) (g : gotype) : bool :=
  match t, g with
  | TArray t, GSlice g => same_type t g
  | TDict k v, GMap k' g => simple_eqb k k' && same_type v g
  | (TArray _ | TDict _ _ | TStruct _), _ => false
  | t, GSimple t' => simple_eqb t t'
  | _, _ => false
  end.

(** reflect.TypeOf(dest).Elem() == reflect.TypeOf(src) *)
Definition is_type (t : dtype) (v : gval) : bool :=
  match v with
  | VNum k _ => simple_eqb t (TNum k)
  | VBool _ => simple_eqb t TBool
  | VString _ => simple_eqb t TString
  | VPath _ => simple_eqb t TPath
  | VSig _ => simple_eqb t TSig
  | VVariant _ _ => simple_eqb t TVariant
  | VArray g _ => match t with TArray t => same_type t g | _ => false end
  | VDict k g _ => match t with TDict tk tv => same_type tk k && same_type tv g | _ => false end
  | VStruct _ => false
  end.

(** hasStruct; Signature and Variant are structs. *)
Fixpoint hasStruct (t : dtype) : bool :=
  match t with
  | TStruct _ | TSig | TVariant => true
  | TArray t => hasStruct t
  | TDict _ v => hasStruct v
  | _ => false
  end.

(** What a zero Signature and a zero Variant hold; the value of the latter is nil, which the
    content written here stands for. *)
Definition zero_sig : gval := VSig [].
Definition zero_variant : gval := VVariant [] (VStruct []).

(** The elements of a slice, by reflection. *)
Definition slice_elems (v : gval) : option (list gval) :=
  match v with
  | VArray _ vs | VStruct vs => Some vs
  | _ => None
  end.

Definition is_map (v : gval) : bool := match v with VDict _ _ _ => true | _ => false end.

(** Values stored one after the other, each into its own variable, up to the first that fails. *)
Fixpoint store_all (sts : list (gval -> outcome (option gval))) (vs : list gval)
    : outcome (option (list gval)) :=
  match sts, vs with
  | st :: sts, v :: vs =>
      let? r := st v in
      match r with
      | None => Returned None
      | Some v' =>
          let? rest := store_all sts vs in
          Returned (match rest with Some vs' => Some (v' :: vs') | None => None end)
      end
  | _, _ => Returned (Some [])
  end.

(** Store: the lengths are compared before anything is stored. *)
Definition store_to (sts : list (gval -> outcome (option gval))) (vs : list gval)
    : outcome (option (list gval)) :=
  if (length vs =? length sts)%nat then store_all sts vs else Returned None.

(** store into a variable of type [t]: what the variable then holds, or None for the error. In
    the values a Go struct is the list of its fields, and a file descriptor is the one that the
    transport has put in place of its index. A map that is not of the type of the
    variable is refused by reflection, since it is of another type. *)
Fixpoint store (t : dtype) (src : gval) {struct t} : outcome (option gval) :=
  if is_type t src then Returned (Some src)
  else if hasStruct t then
    match t with
    | TStruct ts =>
        match src with
        | VStruct vs =>
            let? r := store_to (map store ts) vs in
            Returned (match r with Some vs' => Some (VStruct vs') | None => None end)
        | _ => Returned None
        end
    | TSig => Returned (match src with VStruct [] => Some zero_sig | _ => None end)
    | TVariant => Returned (match src with VStruct [] => Some zero_variant | _ => None end)
    | TArray t' =>
        match slice_elems src with
        | Some vs =>
            let? r := store_all (map (fun _ => store t') vs) vs in
            Returned (match r with Some vs' => Some (VArray (go_of t') vs') | None => None end)
        | None => Returned None
        end
    | TDict _ _ =>
        if is_map src then Halted (GoPanic "reflect.Set: value of type map is not assignable")
        else Returned None
    | _ => Returned None
    end
  else Returned None.

Definition Store (src : list gval) (dest : list dtype) : outcome (option (list gval)) :=
  store_to (map store dest) src.

(** ** Values of a type *)

(** The type of a value, down to the fields of structs. *)
Fixpoint has_type (t : dtype) (v : gval) {struct t} : Prop :=
  match t, v with
  | TArray t, VArray g vs => g = go_of t /\ Forall (has_type t) vs
  | TDict k v, VDict gk gv kvs =>
      gk = go_of k /\ gv = go_of v /\ Forall (fun kv => has_type k kv.1 /\ has_type v kv.2) kvs
  | TStruct ts, VStruct vs =>
      length vs = length ts /\ foldr (fun tv P => tv.1 tv.2 /\ P) True (zip (map has_type ts) vs)
  | TNum k, VNum k' _ => k = k'
  | TBool, VBool _ | TString, VString _ | TPath, VPath _ | TSig, VSig _ | TVariant, VVariant _ _ => True
  | _, _ => False
  end.

(** What Go's types promise of a value: the elements of slices and maps have the type the
    container says, where only the type a decoded struct has, []interface{}, says nothing of what
    is in it. *)
Fixpoint go_type (g : gotype) (v : gval) {struct v} : Prop :=
  match v with
  | VNum k _ => g = GSimple (TNum k)
  | VBool _ => g = GSimple TBool
  | VString _ => g = GSimple TString
  | VPath _ => g = GSimple TPath
  | VSig _ => g = GSimple TSig
  | VVariant _ _ => g = GSimple TVariant
  | VArray g' vs => g = GSlice g' /\ foldr (fun v P => go_type g' v /\ P) True vs
  | VDict gk gv kvs =>
      (exists k, gk = GSimple k /\ g = GMap k gv)
      /\ foldr (fun '(k, v) P => go_type gk k /\ go_type gv v /\ P) True kvs
  | VStruct vs => g = GInterfaces /\ foldr (fun v P => (exists g', go_type g' v) /\ P) True vs
  end.

Lemma simple_eqb_eq t t' : simple_eqb t t' = true -> t = t' /\ simple t = true.
Proof.
  destruct t, t'; simpl; try done. intros H%bool_decide_eq_true. by subst.
Qed.

Lemma simple_eqb_refl t : simple t = true -> simple_eqb t t = true.
Proof. destruct t; simpl; try done. intros _. by apply bool_decide_eq_true. Qed.

Lemma go_elems g vs : foldr (fun v P => go_type g v /\ P) True vs <-> Forall (go_type g) vs.
Proof. induction vs as [|v vs IH]; simpl; [done|]. by rewrite IH, Forall_cons. Qed.

Lemma go_fields vs :
  foldr (fun v P => (exists g, go_type g v) /\ P) True vs <-> Forall (fun v => exists g, go_type g v) vs.
Proof. induction vs as [|v vs IH]; simpl; [done|]. by rewrite IH, Forall_cons. Qed.

Lemma go_entries gk gv (kvs : list (gval * gval)) :
  foldr (fun '(k, v) P => go_type gk k /\ go_type gv v /\ P) True kvs
  <-> Forall (fun kv => go_type gk kv.1 /\ go_type gv kv.2) kvs.
Proof. induction kvs as [|[k v] kvs IH]; simpl; [done|]. rewrite IH, Forall_cons. simpl. tauto. Qed.

Lemma same_type_go t : forall g, same_type t g = true -> g = go_of t.
Proof.
  induction t as [k| | | | | |t IH|k v IHk IHv|ts IH] using dtype_nested; intros [t'|g|k' g|]; simpl;
    try done; try (intros [[= <-] _]%simple_eqb_eq; done);
    try (destruct t'; simpl; try done; intros H%bool_decide_eq_true; by subst).
  - intros H. by rewrite (IH _ H).
  - intros [[-> _]%simple_eqb_eq H]%andb_true_iff. by rewrite (IHv _ H).
Qed.

Lemma is_type_same t v g : is_type t v = true -> go_type g v -> same_type t g = true.
Proof.
  destruct v; simpl; try (intros H ->; by destruct t); intros H Hg; destruct t; try done.
  - by destruct Hg as [-> _].
  - destruct Hg as [(k' & -> & ->) _]. apply andb_true_iff in H as [H1 H2]. simpl.
    rewrite H2, andb_true_r. by destruct t1; simpl in H1 |- *.
Qed.

Lemma same_type_has_type t : forall g v, same_type t g = true -> go_type g v -> has_type t v.
Proof.
  induction t as [k| | | | | |t IH|k v IHk IHv|ts IH] using dtype_nested;
    intros [t'|g|k' g|] w; simpl; try done;
    try (intros [<- _]%simple_eqb_eq Hg; destruct w; simpl in Hg |- *; by naive_solver);
    try (destruct t'; simpl; try done; []; try (intros ->%bool_decide_eq_true); intros Hg;
         destruct w; simpl in Hg |- *; by naive_solver).
  - intros Hs Hg. destruct w; simpl in Hg; try done; try (by naive_solver).
    destruct Hg as [[= <-] Hvs]. split; [by apply same_type_go|].
    apply go_elems in Hvs. eapply Forall_impl; [apply Hvs|]. intros x Hx. by eapply IH.
  - intros [Hk Hs]%andb_true_iff Hg. apply simple_eqb_eq in Hk as [<- Hk].
    destruct w; simpl in Hg; try done; try (by naive_solver).
    destruct Hg as [(k' & -> & [= <- <-]) Hkv]. split_and!; [by destruct k|by apply same_type_go|].
    apply go_entries in Hkv. eapply Forall_impl; [apply Hkv|]. intros [x y] [Hx Hy].
    split; [|by eapply IHv]. eapply IHk; [|exact Hx].
    by destruct k; simpl in Hk |- *; try done; apply bool_decide_eq_true.
Qed.

Lemma is_type_has_type t v g : is_type t v = true -> go_type g v -> has_type t v.
Proof. intros H Hg. eapply same_type_has_type; [by eapply is_type_same|done]. Qed.

Lemma has_fields ts vs :
  has_type (TStruct ts) (VStruct vs) <-> Forall2 has_type ts vs.
Proof.
  cbn [has_type]. split.
  - intros [Hl H]. revert vs Hl H. induction ts as [|t ts IH]; intros [|v vs] Hl H; try done.
    simpl in H. destruct H as [Hv H]. constructor; [done|]. apply IH; [by injection Hl|done].
  - induction 1 as [|t v ts vs Hv Hvs [Hl IH]]; [done|]. simpl. split; [by rewrite Hl|done].
Qed.

Lemma store_all_typed (ts : list dtype) :
  Forall (fun t => forall v v', (exists g, go_type g v) -> store t v = Returned (Some v') -> has_type t v') ts ->
  forall vs vs', length vs = length ts -> Forall (fun v => exists g, go_type g v) vs ->
  store_all (map store ts) vs = Returned (Some vs') -> Forall2 has_type ts vs'.
Proof.
  induction 1 as [|t ts Ht Hts IH]; intros [|v vs] vs' Hl Hg; simpl; try done; [by intros [= <-]|].
  apply Forall_cons in Hg as [Hv Hg]. destruct (store t v) as [[v'|]|] eqn:E; simpl; try done.
  destruct (store_all (map store ts) vs) as [[rest|]|] eqn:E'; simpl; try done. intros [= <-].
  constructor; [by eapply Ht|]. eapply IH; [by injection Hl|done|exact E'].
Qed.

Lemma store_each_typed t :
  (forall v v', (exists g, go_type g v) -> store t v = Returned (Some v') -> has_type t v') ->
  forall vs vs', Forall (fun v => exists g, go_type g v) vs ->
  store_all (map (fun _ => store t) vs) vs = Returned (Some vs') -> Forall (has_type t) vs'.
Proof.
  intros Ht vs. induction vs as [|v vs IH]; intros vs' Hg; simpl; [by intros [= <-]|].
  apply Forall_cons in Hg as [Hv Hg]. destruct (store t v) as [[v'|]|] eqn:E; simpl; try done.
  destruct (store_all _ vs) as [[rest|]|] eqn:E'; simpl; try done. intros [= <-].
  constructor; [by eapply Ht|]. by apply IH.
Qed.

(** What store puts into a variable has the type of that variable. *)
Lemma store_typed t : forall v v',
  (exists g, go_type g v) -> store t v = Returned (Some v') -> has_type t v'.
Proof.
  induction t as [k| | | | | |t IH|k w IHk IHw|ts IH] using dtype_nested; intros v v' [g Hg];
    cbn [store]; (destruct (is_type _ v) eqn:Ei; [intros [= <-]; by eapply is_type_has_type|]);
    cbn [hasStruct]; try done.
  - destruct v; try done. destruct vs; [|done]. by intros [= <-].
  - destruct v; try done. destruct vs; [|done]. by intros [= <-].
  - destruct (hasStruct t); [|done].
    assert (forall vs, slice_elems v = Some vs -> Forall (fun v => exists g, go_type g v) vs) as He.
    { intros vs Hvs. destruct v; try done; injection Hvs as <-; cbn [go_type] in Hg.
      - destruct Hg as [_ Hg%go_elems]. eapply Forall_impl; [exact Hg|]. by eexists.
      - by destruct Hg as [_ Hg%go_fields]. }
    destruct (slice_elems v) as [vs|]; [|done]. specialize (He _ eq_refl).
    destruct (store_all _ vs) as [[vs'|]|] eqn:E; try done. intros [= <-]. split; [done|].
    by eapply store_each_typed.
  - destruct (hasStruct w); [|done]. by destruct (is_map v).
  - destruct v; try done. unfold store_to. rewrite length_map.
    destruct (length _ =? length ts)%nat eqn:Hl; cbn [obind]; [apply Nat.eqb_eq in Hl|done].
    destruct (store_all _ vs) as [[vs'|]|] eqn:E; cbn [obind]; try done. intros [= <-]. apply has_fields.
    eapply store_all_typed; [exact IH|done| |exact E]. by destruct Hg as [_ Hg%go_fields].
Qed.

(** ** Types whose values are stored *)

Fixpoint struct_free (t : dtype) : bool :=
  match t with
  | TStruct _ => false
  | TArray t => struct_free t
  | TDict k v => simple k && struct_free v
  | _ => true
  end.

(** No dict has structs in its values. *)
Fixpoint storable (t : dtype) : bool :=
  match t with
  | TArray t => storable t
  | TDict k v => simple k && struct_free v
  | TStruct ts => forallb storable ts
  | _ => true
  end.

Lemma same_type_refl t : struct_free t = true -> same_type t (go_of t) = true.
Proof.
  induction t as [k| | | | | |t IH|k w IHk IHw|ts IH] using dtype_nested; simpl; try done.
  - intros _. by apply bool_decide_eq_true.
  - intros [Hk Hw]%andb_true_iff. by rewrite simple_eqb_refl, IHw.
Qed.

Lemma struct_free_is_type t v : struct_free t = true -> has_type t v -> is_type t v = true.
Proof.
  destruct t; simpl; intros Hs; destruct v; simpl; try done.
  - intros ->. by apply bool_decide_eq_true.
  - intros [-> _]. by apply same_type_refl.
  - intros (-> & -> & _). apply andb_true_iff in Hs as [Hk Hs].
    rewrite same_type_refl, same_type_refl by (done || by destruct t1). done.
Qed.

Lemma struct_inside t : storable t = true -> struct_free t = false -> hasStruct t = true.
Proof.
  induction t as [k| | | | | |t IH|k w IHk IHw|ts IH] using dtype_nested; simpl; try done.
  by intros ->.
Qed.

Lemma store_all_keeps (ts : list dtype) vs :
  Forall (fun t => forall v, storable t = true -> has_type t v -> store t v = Returned (Some v)) ts ->
  forallb storable ts = true -> Forall2 has_type ts vs ->
  store_all (map store ts) vs = Returned (Some vs).
Proof.
  intros Ht Hs Hf. induction Hf as [|t v ts vs Hv Hvs IH]; [done|].
  apply Forall_cons in Ht as [Ht Hts]. simpl in Hs |- *. apply andb_true_iff in Hs as [H1 H2].
  rewrite (Ht _ H1 Hv). simpl. by rewrite IH.
Qed.

Lemma store_each_keeps t vs :
  (forall v, has_type t v -> store t v = Returned (Some v)) -> Forall (has_type t) vs ->
  store_all (map (fun _ => store t) vs) vs = Returned (Some vs).
Proof. intros Ht. induction 1 as [|v vs Hv Hvs IH]; [done|]. simpl. rewrite Ht by done. simpl. by rewrite IH. Qed.

Lemma store_keeps t : forall v, storable t = true -> has_type t v -> store t v = Returned (Some v).
Proof.
  assert (forall t v, struct_free t = true -> has_type t v -> store t v = Returned (Some v)) as Hfree.
  { intros t' v Hs Hv. pose proof (struct_free_is_type _ _ Hs Hv) as Ht. by destruct t'; cbn [store]; rewrite Ht. }
  induction t as [k| | | | | |t IH|k w IHk IHw|ts IH] using dtype_nested; intros v Hs Hv;
    try (by apply Hfree).
  - destruct (struct_free t) eqn:Hf; [by apply Hfree|]. cbn [store].
    destruct (is_type (TArray t) v); [done|]. cbn [hasStruct]. rewrite struct_inside by done.
    destruct v; try done. destruct Hv as [-> Hv]. cbn [slice_elems].
    by rewrite store_each_keeps by auto.
  - destruct v; try done. apply has_fields in Hv. cbn [store is_type hasStruct].
    unfold store_to. rewrite length_map, (Forall2_length _ _ _ Hv), Nat.eqb_refl.
    by rewrite store_all_keeps.
Qed.

(** Store is safe and complete: the arguments it hands over have the types of the variables, one
    for each, and arguments that have these types, in which no dict holds structs, are handed
    over unchanged. *)
Theorem Store_spec ts vs :
  Forall (fun v => exists g, go_type g v) vs ->
  (forall vs', Store vs ts = Returned (Some vs') -> Forall2 has_type ts vs')
  /\ (forallb storable ts = true -> Forall2 has_type ts vs -> Store vs ts = Returned (Some vs)).
Proof.
  intros Hg. unfold Store, store_to. rewrite length_map. split.
  - intros vs'. destruct (Nat.eqb_spec (length vs) (length ts)); [|done]. intros E.
    eapply store_all_typed; [|done|exact Hg|exact E]. apply List.Forall_forall. intros t _. apply store_typed.
  - intros Hs Hv. rewrite (Forall2_length _ _ _ Hv), Nat.eqb_refl. apply store_all_keeps; [|done|done].
    apply List.Forall_forall. intros t _. apply store_keeps.
Qed.

(** A dict with structs in its values is never stored: reflection panics, in the goroutine of
    the call, which ends the program. *)
Theorem store_dict_of_structs_panics k w d :
  hasStruct w = true -> struct_free w = false -> has_type (TDict k w) d -> panics (store (TDict k w) d).
Proof.
  intros Hw Hf Hd. cbn [store]. destruct d; try done. destruct Hd as (-> & -> & _).
  assert (is_type (TDict k w) (VDict (go_of k) (go_of w) kvs) = false) as ->; [|cbn [hasStruct]; rewrite Hw; by eexists].
  cbn [is_type]. apply andb_false_iff. right. destruct (same_type w (go_of w)) eqn:E; [exfalso|done].
  clear -Hf E. induction w as [n| | | | | |t IH|n w IHk IHw|ts IH] using dtype_nested; simpl in *; try done; [by apply IH|].
  apply andb_true_iff in E as [[_ Hn]%simple_eqb_eq E]. rewrite Hn in Hf. by apply IHw.
Qed.

(** * Exported objects *)

Record DError : Type := mkDError { de_Name : sig; de_Body : list dval }.

Definition errmsgInvalidArg : DError :=
  mkDError (chars "org.freedesktop.DBus.Error.InvalidArgs") [VString (chars "Invalid type / number of args")].
Definition errmsgNoObject : DError :=
  mkDError (chars "org.freedesktop.DBus.Error.NoSuchObject") [VString (chars "No such object")].
Definition errmsgUnknownMethod : DError :=
  mkDError (chars "org.freedesktop.DBus.Error.UnknownMethod") [VString (chars "Unknown / invalid method")].

(** The parameters of a method, and what it is called with. *)
Inductive param : Type := PSender | PMessage | PValue (t : dtype).
Inductive arg : Type := ASender (s : sig) | AMessage (msg : Message gotype) | AValue (v : gval).

(** A method as reflection shows it: its parameters, whether the last result is an *Error, and what
    a call returns: the other results, and that error. *)
Record method : Type := mkMethod {
  md_In : list param;
  md_error : bool;
  md_call : list arg -> list dval * option DError }.

(** The exported methods of a value, by name. *)
Definition object : Type := sig -> option method.

(** exportWithMapping, where the mapping lists its entries in the order of an iteration. *)
Record exportWithMapping : Type := mkExport {
  ex_export : option object;
  ex_mapping : list (sig * sig);
  ex_includeSubtree : bool }.

(** The value of a missing entry of a map of exports. *)
Definition no_export : exportWithMapping := mkExport None [] false.

(** The loop over the mapping: the name to look for, or None for a method that was renamed. *)
Fixpoint mapped_name (mapping : list (sig * sig)) (name : sig) : option sig :=
  match mapping with
  | [] => Some name
  | (key, value) :: mapping =>
      if bool_decide (value = name) then Some key
      else if bool_decide (key = name) then None
      else mapped_name mapping name
  end.

Definition exportedMethod (export : exportWithMapping) (name : sig) : option method :=
  match ex_export export with
  | None => None
  | Some value =>
      match mapped_name (ex_mapping export) name with
      | None => None
      | Some name =>
          match value name with
          | Some m => if md_error m then Some m else None
          | None => None
          end
      end
  end.

(** ** The registry *)

Local Notation "'handlers_t'" := (gmap sig (gmap sig exportWithMapping)).

(** path[:strings.LastIndex(path, "/")] *)
Definition parent (path : sig) : outcome sig :=
  match last_index "/"%char path with
  | Some i => Returned (take i path)
  | None => Halted (GoPanic "slice bounds out of range")
  end.

(** The loop of searchHandlers; each round shortens the path. *)
Fixpoint search_up (fuel : nat) (handlers : handlers_t) (path : sig)
    : outcome (gmap sig exportWithMapping * bool) :=
  match fuel, path with
  | _, [] => Returned (∅, false)
  | O, _ => Halted (GoPanic "slice bounds out of range")
  | S fuel, _ =>
      match handlers !! path with
      | Some hs => Returned (filter (fun kv => ex_includeSubtree kv.2 = true) hs, true)
      | None => let? up := parent path in search_up fuel handlers up
      end
  end.

Definition searchHandlers (handlers : handlers_t) (path : sig)
    : outcome (gmap sig exportWithMapping * bool) :=
  match handlers !! path with
  | Some hs => Returned (hs, true)
  | None => let? up := parent path in search_up (length path) handlers up
  end.

(** exportWithMap: the registry, or None for the error. *)
Definition exportWithMap (v : option object) (mapping : list (sig * sig)) (path iface : sig)
    (includeSubtree : bool) (handlers : handlers_t) : option handlers_t :=
  if negb (ObjectPath_IsValid path) then None
  else
    match v with
    | None =>
        match handlers !! path with
        | None => Some handlers
        | Some hs =>
            let hs := delete iface hs in
            Some (if bool_decide (size hs = 0%nat) then delete path handlers else <[path := hs]> handlers)
        end
    | Some _ =>
        let hs := default ∅ (handlers !! path) in
        Some (<[path := <[iface := mkExport v mapping includeSubtree]> hs]> handlers)
    end.

Definition ExportWithMap v mapping path iface := exportWithMap v mapping path iface false.
Definition Export v path iface := ExportWithMap v [] path iface.
Definition ExportSubtreeWithMap v mapping path iface := exportWithMap v mapping path iface true.
Definition ExportSubtree v path iface := ExportSubtreeWithMap v [] path iface.

(** * Calls *)

(** What handleCall sends: through sendReply, through sendError, or the reply it builds itself. *)
Inductive answer : Type :=
| SendReply (dest : sig) (serial : Z) (values : list dval)
| SendError (e : DError) (dest : sig) (serial : Z)
| MethodReply (dest : option (variant dtype)) (serial : Z) (values : list dval).

(** The message of an answer, once it has its own serial. *)
Definition answer_message (a : answer) (own : Z) : outcome (Message dtype) :=
  match a with
  | SendReply dest q values => reply_message dest q values own
  | SendError e dest q => error_message (de_Name e) (de_Body e) dest q own
  | MethodReply dest q values =>
      let? vq := MakeVariant (VNum NUint32 q) in
      let? hsig := body_header values in
      Returned (mkMessage TypeMethodReply 0
                  ((match dest with Some d => [(FieldDestination, d)] | None => [] end)
                   ++ [(FieldReplySerial, vq)] ++ hsig) values own)
  end.

(** Sends an answer: its message is built, which panics for a body whose type has no
    signature, and given to outWorker. *)
Definition send (a : answer) : outcome (list answer) :=
  let? _ := answer_message a 0 in Returned [a].

(** msg.Headers[k].value.(string), with whether it was one *)
Definition string_header (k : Z) (msg : Message gotype) : option sig :=
  match header_of k (m_Headers msg) with
  | Some (_, VString s) => Some s
  | _ => None
  end.

(** The types that the body is stored into. *)
Definition value_params (ps : list param) : list dtype :=
  omap (fun p => match p with PValue t => Some t | _ => None end) ps.

(** The arguments, with what was stored in place of the parameters that take values. *)
Fixpoint fill_params (sender : sig) (msg : Message gotype) (ps : list param) (vs : list gval) : list arg :=
  match ps with
  | [] => []
  | PSender :: ps => ASender sender :: fill_params sender msg ps vs
  | PMessage :: ps => AMessage msg :: fill_params sender msg ps vs
  | PValue _ :: ps =>
      match vs with
      | v :: vs => AValue v :: fill_params sender msg ps vs
      | [] => fill_params sender msg ps []
      end
  end.

Section calls.
(** The order of an iteration over a map of exports, and the uuid of the connection. *)
Variable range : gmap sig exportWithMapping -> list (sig * exportWithMapping).
Variable uuid : sig.

(** The first export that has the method. *)
Fixpoint first_method (hs : list (sig * exportWithMapping)) (name : sig) : option method :=
  match hs with
  | [] => None
  | (_, v) :: hs =>
      match exportedMethod v name with
      | Some m => Some m
      | None => first_method hs name
      end
  end.

Definition find_method (hs : gmap sig exportWithMapping) (iface : option sig) (name : sig) : option method :=
  match iface with
  | Some iface => exportedMethod (default no_export (hs !! iface)) name
  | None => first_method (range hs) name
  end.

(** msg.Headers[FieldSender], if it is a string *)
Definition sender_variant (msg : Message gotype) : option (variant dtype) :=
  match header_of FieldSender (m_Headers msg) with
  | Some (sg, VString s) => Some (sg, VString s)
  | _ => None
  end.

(** The part of handleCall that starts at the method that was found. *)
Definition call_method (msg : Message gotype) (sender : sig) (m : method) : outcome (list answer) :=
  let q := m_serial msg in
  let types := value_params (md_In m) in
  if negb (length types =? length (m_Body msg))%nat then send (SendError errmsgInvalidArg sender q)
  else
    let? stored := Store (m_Body msg) types in
    match stored with
    | None => send (SendError errmsgInvalidArg sender q)
    | Some vs =>
        let '(values, err) := md_call m (fill_params sender msg (md_In m) vs) in
        match err with
        | Some e => send (SendError e sender q)
        | None =>
            if Z.land (m_Flags msg) FlagNoReplyExpected =? 0 then send (MethodReply (sender_variant msg) q values)
            else Returned []
        end
    end.

Definition handleCall (handlers : handlers_t) (msg : Message gotype) : outcome (list answer) :=
  match string_header FieldMember msg, header_of FieldPath (m_Headers msg) with
  | Some name, Some (_, VPath path) =>
      let iface := string_header FieldInterface msg in
      let sender := default [] (string_header FieldSender msg) in
      let q := m_serial msg in
      if bool_decide (iface = Some (chars "org.freedesktop.DBus.Peer")) then
        send (if bool_decide (name = chars "Ping") then SendReply sender q []
              else if bool_decide (name = chars "GetMachineId") then SendReply sender q [VString uuid]
              else SendError errmsgUnknownMethod sender q)
      else
        let? unnamed := match name with
                        | [] => send (SendError errmsgUnknownMethod sender q)
                        | _ => Returned []
                        end in
        let? found := searchHandlers handlers path in
        let '(hs, ok) := found in
        let? answers :=
          if negb ok then send (SendError errmsgNoObject sender q)
          else
            match find_method hs iface name with
            | None => send (SendError errmsgUnknownMethod sender q)
            | Some m => call_method msg sender m
            end in
        Returned (unnamed ++ answers)
  | _, _ => Halted (GoPanic "interface conversion")
  end.

End calls.

(** Emit: the message of a signal, or the error. *)
Definition Emit_message (path name : sig) (values : list dval) (own : Z)
    : outcome (string + Message dtype) :=
  if negb (ObjectPath_IsValid path) then Returned (inl "dbus: invalid object path")
  else
    match last_index "."%char name with
    | None => Returned (inl "dbus: invalid method name")
    | Some i =>
        let iface := take i name in
        let member := drop (S i) name in
        if negb (isValidMember member) then Returned (inl "dbus: invalid method name")
        else if negb (isValidInterface iface) then Returned (inl "dbus: invalid interface name")
        else
          let? viface := MakeVariant (VString iface) in
          let? vmember := MakeVariant (VString member) in
          let? vpath := MakeVariant (VPath path) in
          let? hsig := body_header values in
          Returned (inr (mkMessage TypeSignal 0
                           ([(FieldInterface, viface); (FieldMember, vmember); (FieldPath, vpath)] ++ hsig)
                           values own))
    end.

(** Emit on a connection: the message gets a serial and is given to outWorker, unless the
    connection is closed; None when there is no serial, which the code would search for ever. *)
Definition Emit (path name : sig) (values : list dval) (s : Conn)
    : option (outcome (option string * Conn)) :=
  match Emit_message path name values 0 with
  | Halted h => Some (Halted h)
  | Returned (inl e) => Some (Returned (Some e, s))
  | Returned (inr msg) =>
      match getSerial s with
      | None => None
      | Some (q, s) =>
          Some (Returned (if closed s then (Some "dbus: connection closed by user"%string, s)
                          else (None, set_out (out s ++ [with_serial q msg]) s)))
      end
  end.

(** * The results of calls *)

(** Call.Store: the values, or None for the error of the call or of Store. *)
Definition Call_Store (r : call_result) (dest : list dtype) : outcome (option (list gval)) :=
  match r with
  | CBody body => Store body dest
  | _ => Returned None
  end.

(** ReleaseName and RequestName, from what the call returned; GetProperty likewise. *)
Definition name_reply (r : call_result) : outcome (option Z) :=
  let? vs := Call_Store r [TNum NUint32] in
  Returned (match vs with Some [VNum NUint32 z] => Some z | _ => None end).

Definition GetProperty_result (r : call_result) : outcome (option gval) :=
  let? vs := Call_Store r [TVariant] in
  Returned (match vs with Some [v] => Some v | _ => None end).

(** The interface and the name of a property, or None for the error. *)
Definition GetProperty_args (p : sig) : option (list dval) :=
  match last_index "."%char p with
  | None => None
  | Some idx => if (idx + 1 =? length p)%nat then None
                else Some [VString (take idx p); VString (drop (S idx) p)]
  end.

(** * Which object is called *)

Lemma last_index_spec c s i :
  last_index c s = Some i -> s = take i s ++ c :: drop (S i) s /\ c ∉ drop (S i) s.
Proof.
  revert i. induction s as [|c' s IH]; intros i; simpl; [done|].
  destruct (last_index c s) as [j|] eqn:E.
  - intros [= <-]. destruct (IH j eq_refl) as [Hs Hn]. split; [simpl; by f_equal|done].
  - destruct (Ascii.eqb_spec c' c) as [->|]; [|done]. intros [= <-]. simpl. split; [by rewrite drop_0|].
    rewrite drop_0. clear IH. revert E. induction s as [|a s IH]; simpl; [by intros _ ?%elem_of_nil|].
    destruct (last_index c s); [done|]. destruct (Ascii.eqb_spec a c); [done|].
    intros _ [?|?]%elem_of_cons; [congruence|by apply IH].
Qed.

Lemma last_index_in c s : c ∈ s -> exists i, last_index c s = Some i.
Proof.
  induction s as [|c' s IH]; [by intros ?%elem_of_nil|]. simpl.
  destruct (last_index c s) as [j|]; [by eexists|]. intros [->|H]%elem_of_cons.
  - rewrite Ascii.eqb_refl. by eexists.
  - by destruct (IH H).
Qed.

(** The paths above a path: those it continues after a slash. *)
Definition under (a p : sig) : Prop := exists rest, p = a ++ "/"%char :: rest.

Definition absolute (p : sig) : Prop := match p with c :: _ => c = "/"%char | [] => False end.

Lemma parent_spec p : absolute p -> exists up, parent p = Returned up
  /\ (length up < length p)%nat /\ (up = [] \/ absolute up)
  /\ forall b, under b p <-> b = up \/ under b up.
Proof.
  destruct p as [|c p]; [done|]. cbn [absolute]. intros ->.
  destruct (last_index_in "/"%char ("/"%char :: p)) as [i Hi]; [by apply elem_of_cons; left|].
  unfold parent. rewrite Hi. eexists. split; [done|]. apply last_index_spec in Hi as [Hs Hn].
  assert (take i ("/"%char :: p) = [] \/ absolute (take i ("/"%char :: p))) as Hu
    by (destruct i; [by left|by right]).
  revert Hs Hn Hu. generalize ("/"%char :: p). intros q.
  generalize (take i q), (drop (S i) q). intros up rest Hs Hn Hu.
  split_and!; [rewrite Hs, length_app; simpl; lia|done|].
  intros b. split.
  - intros [r Hr]. rewrite Hs in Hr. apply app_eq_inv in Hr as [(k & Hb & Hk)|(k & Hb & Hk)].
    + destruct k as [|a k]; [left; by rewrite app_nil_r in Hb|].
      right. simpl in Hk. injection Hk as <- _. by exists k.
    + destruct k as [|a k]; [left; by rewrite app_nil_r in Hb|].
      simpl in Hk. injection Hk as <- Hk. destruct Hn. rewrite Hk. apply elem_of_app; right; apply list_elem_of_here.
  - intros [->|[r Hr]]; [by exists rest|]. exists (r ++ "/"%char :: rest). by rewrite Hs, Hr, <- app_assoc.
Qed.

Definition nearest (handlers : handlers_t) (path a : sig) : Prop :=
  a <> [] /\ under a path
  /\ forall b, under b path -> (length a < length b)%nat -> handlers !! b = None.

Definition subtree (hs : gmap sig exportWithMapping) : gmap sig exportWithMapping :=
  filter (fun kv => ex_includeSubtree kv.2 = true) hs.

Lemma search_up_spec (handlers : handlers_t) (p : sig) : forall fuel,
  p = [] \/ absolute p -> (length p <= fuel)%nat ->
  exists hs ok, search_up fuel handlers p = Returned (hs, ok)
  /\ if ok then exists (a : sig) ra, a <> [] /\ (a = p \/ under a p) /\ handlers !! a = Some ra /\ hs = subtree ra
                /\ forall b : sig, b = p \/ under b p -> (length a < length b)%nat -> handlers !! b = None
     else hs = ∅ /\ forall b : sig, b <> [] -> b = p \/ under b p -> handlers !! b = None.
Proof.
  intros fuel. revert p. induction fuel as [|fuel IH]; intros p Hp Hl.
  - destruct p; [|simpl in Hl; lia]. exists ∅, false. split; [done|]. split; [done|].
    intros b Hb [->|[r Hr]]; [done|]. by destruct b.
  - destruct p as [|c p].
    { exists ∅, false. split; [done|]. split; [done|]. intros b Hb [->|[r Hr]]; [done|]. by destruct b. }
    destruct Hp as [|Hp]; [done|]. cbn [search_up].
    set (q := c :: p : sig) in *. destruct (handlers !! q) as [ra|] eqn:E.
    + eexists _, true. split; [done|]. exists q, ra. split_and!; auto.
      intros b [->|[r Hr]]; [lia|]. rewrite Hr, length_app. simpl. lia.
    + destruct (parent_spec _ Hp) as (up & -> & Hlt & Hup & Hu). cbn [obind].
      destruct (IH up Hup ltac:(lia)) as (hs & ok & -> & H). exists hs, ok. split; [done|]. destruct ok.
      * destruct H as (a & ra & Ha & Hau & Hra & -> & Hb). exists a, ra. split_and!; try done.
        { right. by apply Hu. }
        intros b [->|Hbu] Hlen; [done|]. apply Hb; [by apply Hu|done].
      * destruct H as [-> H]. split; [done|]. intros b Hb [->|Hbu]; [done|]. apply H; [done|by apply Hu].
Qed.

Lemma searchHandlers_found (handlers : handlers_t) (p : sig) : absolute p ->
  exists hs ok, searchHandlers handlers p = Returned (hs, ok) /\
  match handlers !! p with
  | Some ra => hs = ra /\ ok = true
  | None =>
      if ok then exists (a : sig) ra, nearest handlers p a /\ handlers !! a = Some ra /\ hs = subtree ra
      else hs = ∅ /\ forall b : sig, b <> [] -> under b p -> handlers !! b = None
  end.
Proof.
  intros Hp. unfold searchHandlers. destruct (handlers !! p) as [ra|] eqn:E; [by exists ra, true|].
  destruct (parent_spec _ Hp) as (up & -> & Hlt & Hup & Hu). cbn [obind].
  destruct (search_up_spec handlers up (length p) Hup ltac:(lia)) as (hs & ok & -> & H).
  exists hs, ok. split; [done|]. destruct ok.
  - destruct H as (a & ra & Ha & Hau & Hra & -> & Hb). exists a, ra. split_and!; try done.
    split_and!; [done|by apply Hu|]. intros b Hbu. apply Hb. by apply Hu.
  - destruct H as [-> H]. split; [done|]. intros b Hb Hbu. apply H; [done|by apply Hu].
Qed.

(** The search never looks at the root path, unless it is asked for or doubled. *)
Lemma search_up_root (fuel : nat) (handlers : handlers_t) r : forall p : sig,
  p = [] \/ absolute p -> p <> chars "/" -> ~ under (chars "/") p ->
  search_up fuel (<[chars "/" := r]> handlers) p = search_up fuel handlers p.
Proof.
  induction fuel as [|fuel IH]; intros p Hp Hr Hu; destruct p as [|c p]; try done.
  destruct Hp as [|Hp]; [done|]. cbn [search_up]. set (q := c :: p : sig) in *.
  rewrite lookup_insert_ne by done. destruct (handlers !! q); [done|].
  destruct (parent_spec _ Hp) as (up & -> & _ & Hup & Hb). cbn [obind].
  apply IH; [done| |]; intros H; apply Hu, Hb; [left; congruence|by right].
Qed.

Lemma searchHandlers_root (handlers : handlers_t) (p : sig) r :
  absolute p -> p <> chars "/" -> ~ under (chars "/") p ->
  searchHandlers (<[chars "/" := r]> handlers) p = searchHandlers handlers p.
Proof.
  intros Hp Hr Hu. unfold searchHandlers. rewrite lookup_insert_ne by done.
  destruct (handlers !! p); [done|]. destruct (parent_spec _ Hp) as (up & -> & _ & Hup & Hb). cbn [obind].
  apply search_up_root; [done| |]; intros H; apply Hu, Hb; [left; congruence|by right].
Qed.

(** C32: the search ends for every absolute path. A call goes to the exports of its path; when
    there are none, to those exports of the nearest path above it that has any which were made
    for the subtree; and the object is unknown only when no path above it has any, where the
    paths above it are those it continues after a slash, the root path "/" not being one of
    them. Exports made at "/" are found for "/" alone: they make no difference to any other
    path, unless it begins with two slashes, which no valid path does. *)
Theorem searchHandlers_spec (handlers : handlers_t) (p : sig) : absolute p ->
  (exists hs ok, searchHandlers handlers p = Returned (hs, ok) /\
   match handlers !! p with
   | Some ra => hs = ra /\ ok = true
   | None =>
       if ok then exists (a : sig) ra, nearest handlers p a /\ handlers !! a = Some ra /\ hs = subtree ra
       else hs = ∅ /\ forall b : sig, b <> [] -> under b p -> handlers !! b = None
   end) /\
  (p <> chars "/" -> ~ under (chars "/") p ->
   forall r, searchHandlers (<[chars "/" := r]> handlers) p = searchHandlers handlers p).
Proof.
  intros Hp. split; [by apply searchHandlers_found|]. intros Hr Hu r. by apply searchHandlers_root.
Qed.

(** ** The registry as one table *)

Definition entry (handlers : handlers_t) (path iface : sig) : option exportWithMapping :=
  handlers !! path ≫= fun hs => hs !! iface.

(** No path is kept without exports: such a path would hide those above it. *)
Definition registry_wf (handlers : handlers_t) : Prop :=
  forall path hs, handlers !! path = Some hs -> hs <> ∅.

Lemma registry_set handlers path hs :
  registry_wf handlers -> hs <> ∅ -> registry_wf (<[path := hs]> handlers).
Proof. intros Hw Hh p hs' [[_ <-]|[_ H]]%lookup_insert_Some; [done|by eapply Hw]. Qed.

Lemma registry_drop handlers path : registry_wf handlers -> registry_wf (delete path handlers).
Proof. intros Hw p hs' [_ H]%lookup_delete_Some. by eapply Hw. Qed.

Lemma entry_at handlers path hs i : handlers !! path = Some hs -> entry handlers path i = hs !! i.
Proof. intros H. unfold entry. by rewrite H. Qed.

Lemma entry_set handlers path hs i : entry (<[path := hs]> handlers) path i = hs !! i.
Proof. apply entry_at, lookup_insert_eq. Qed.

Lemma entry_other handlers path hs p i : p <> path -> entry (<[path := hs]> handlers) p i = entry handlers p i.
Proof. intros H. unfold entry. by rewrite lookup_insert_ne. Qed.

(** The exports are one table by path and interface, which exportWithMap writes at its own
    entry only: a value is entered there, nil removes what is there. No path is left without
    exports. *)
Theorem exportWithMap_spec v mapping path iface sub handlers :
  registry_wf handlers -> ObjectPath_IsValid path = true ->
  exists handlers', exportWithMap v mapping path iface sub handlers = Some handlers'
  /\ registry_wf handlers'
  /\ forall p i, entry handlers' p i
       = if bool_decide (p = path /\ i = iface)
         then match v with Some _ => Some (mkExport v mapping sub) | None => None end
         else entry handlers p i.
Proof.
  intros Hw Hp. unfold exportWithMap. rewrite Hp. cbn [negb]. destruct v as [obj|].
  - eexists. split; [done|]. split; [apply registry_set; [done|apply insert_non_empty]|].
    intros p i. case_bool_decide as H.
    + destruct H as [-> ->]. by rewrite entry_set, lookup_insert_eq.
    + destruct (decide (p = path)) as [->|]; [|by rewrite entry_other].
      rewrite entry_set, lookup_insert_ne by naive_solver. unfold entry.
      destruct (handlers !! path); [done|]. apply lookup_empty.
  - destruct (handlers !! path) as [hs|] eqn:E.
    2:{ exists handlers. split_and!; [done|done|]. intros p i. case_bool_decide as H; [|done].
        destruct H as [-> ->]. unfold entry. by rewrite E. }
    assert (forall p i, entry (<[path := delete iface hs]> handlers) p i
              = if bool_decide (p = path /\ i = iface) then None else entry handlers p i) as He.
    { intros p i. case_bool_decide as H.
      - destruct H as [-> ->]. by rewrite entry_set, lookup_delete_eq.
      - destruct (decide (p = path)) as [->|]; [|by rewrite entry_other].
        rewrite entry_set, (entry_at _ _ _ _ E). by rewrite lookup_delete_ne by naive_solver. }
    eexists. split; [done|]. case_bool_decide as Hs.
    + split; [by apply registry_drop|]. intros p i. rewrite <- He.
      destruct (decide (p = path)) as [->|]; [|rewrite entry_other by done; unfold entry; by rewrite lookup_delete_ne].
      rewrite entry_set. apply map_size_empty_inv in Hs. rewrite Hs, lookup_empty.
      unfold entry. by rewrite lookup_delete_eq.
    + split; [|done]. apply registry_set; [done|]. intros H. apply Hs. by rewrite H, map_size_empty.
Qed.

(** * Every call is answered once *)

Lemma header_typed {T} (hs : list (Z * variant T)) k s v :
  headers_error hs = None -> header_of k hs = Some (s, v) -> val_is v (fieldTypes k) = true.
Proof.
  induction hs as [|[k' [s' v']] hs IH]; simpl; [done|].
  destruct (_ || _); [done|]. destruct (val_is v' (fieldTypes k')) eqn:Hv; simpl; [|done].
  intros He. destruct (Z.eqb_spec k' k) as [->|]; [|by apply IH]. by intros [= -> ->].
Qed.

Lemma string_typed {T} (v : val T) : val_is v TString = true -> exists s, v = VString s.
Proof. destruct v as [[]| | | | | | | |]; try done. by eexists. Qed.

Lemma path_typed {T} (v : val T) : val_is v TPath = true -> exists s, v = VPath s.
Proof. destruct v as [[]| | | | | | | |]; try done. by eexists. Qed.

(** A call that IsValid accepts names a member and an absolute path. *)
Lemma valid_call (msg : Message gotype) :
  IsValid msg = None -> m_Type msg = TypeMethodCall ->
  exists c name sg path, string_header FieldMember msg = Some (c :: name)
  /\ header_of FieldPath (m_Headers msg) = Some (sg, VPath path) /\ absolute path.
Proof.
  unfold IsValid. intros H Ht. rewrite Ht in H.
  destruct (negb (_ =? 0)); [done|]. destruct (_ || _); [done|].
  destruct (headers_error (m_Headers msg)) eqn:He; [done|].
  change (requiredFields TypeMethodCall) with [FieldPath; FieldMember] in H. cbn [forallb] in H.
  unfold present, checked in H. unfold string_header.
  destruct (header_of FieldPath _) as [[sp vp]|] eqn:Hp; [|done].
  destruct (header_of FieldMember _) as [[sm vm]|] eqn:Hm; [|done]. cbn [andb negb] in H.
  destruct (path_typed _ (header_typed _ _ _ _ He Hp)) as [p ->].
  destruct (string_typed _ (header_typed _ _ _ _ He Hm)) as [m ->]. cbn [chars_of] in H.
  destruct (ObjectPath_IsValid p) eqn:Hvp; [|done]. cbn [negb] in H.
  destruct (match header_of FieldInterface _ with Some (_, v) => _ | None => true end); [|done].
  destruct (isValidMember m) eqn:Hvm; [|done].
  destruct m as [|c m]; [done|]. eexists c, m, sp, p. split_and!; try done.
  destruct p as [|c' p]; [done|]. simpl in Hvp |- *. by destruct (Ascii.eqb_spec c' "/"%char).
Qed.

(** Types for which reflection never refuses a value: the dicts hold no structs, to which
    signatures and variants count. *)
Fixpoint harmless (t : dtype) : bool :=
  match t with
  | TArray t => harmless t
  | TDict _ v => negb (hasStruct v)
  | TStruct ts => forallb harmless ts
  | _ => true
  end.

Lemma store_all_returns sts vs :
  Forall (fun st => forall v, exists r, st v = Returned r) sts -> exists r, store_all sts vs = Returned r.
Proof.
  intros H. revert vs. induction H as [|st sts Hst _ IH]; intros [|v vs]; try (by eexists).
  simpl. destruct (Hst v) as [[v'|] ->]; simpl; [|by eexists].
  destruct (IH vs) as [r ->]. by eexists.
Qed.

Lemma store_returns t : harmless t = true -> forall v, exists r, store t v = Returned r.
Proof.
  induction t as [k| | | | | |t IH|k w IHk IHw|ts IH] using dtype_nested; intros Hh v; cbn [store];
    (destruct (is_type _ v); [by eexists|]); cbn [hasStruct]; try (by eexists).
  - destruct (hasStruct t); [|by eexists]. destruct (slice_elems v) as [vs|]; [|by eexists].
    destruct (store_all_returns (map (fun _ => store t) vs) vs) as [r ->]; [|by eexists].
    apply Forall_map, List.Forall_forall. intros _ _. by apply IH.
  - simpl in Hh. destruct (hasStruct w); [done|]. by eexists.
  - destruct v; try (by eexists). unfold store_to. destruct (_ =? _)%nat; [|by eexists].
    destruct (store_all_returns (map store ts) vs) as [r ->]; [|by eexists].
    apply Forall_map. rewrite List.Forall_forall in IH |- *. intros t Ht. apply IH; [done|].
    simpl in Hh. rewrite forallb_forall in Hh. by apply Hh.
Qed.

Lemma Store_returns vs ts : forallb harmless ts = true -> exists r, Store vs ts = Returned r.
Proof.
  intros H. unfold Store, store_to. destruct (_ =? _)%nat; [|by eexists]. apply store_all_returns.
  apply Forall_map, List.Forall_forall. intros t Ht. rewrite forallb_forall in H. by apply store_returns, H.
Qed.

(** The values that have a signature: no dict in them has a container as its key. *)
Definition has_signature (values : list dval) : Prop := Forall (fun v => keyed (type_of v) = true) values.

Lemma send_error e sender q :
  has_signature (de_Body e) -> send (SendError e sender q) = Returned [SendError e sender q].
Proof.
  intros Hk. unfold send, answer_message, error_message. rewrite body_header_eq by done. by destruct sender.
Qed.

Lemma send_reply sender q values :
  has_signature values -> send (SendReply sender q values) = Returned [SendReply sender q values].
Proof.
  intros Hk. unfold send, answer_message, reply_message. rewrite body_header_eq by done. by destruct sender.
Qed.

Lemma send_method_reply dest q values :
  has_signature values -> send (MethodReply dest q values) = Returned [MethodReply dest q values].
Proof. intros Hk. unfold send, answer_message. by rewrite body_header_eq by done. Qed.

Lemma errmsg_signatures :
  has_signature (de_Body errmsgInvalidArg) /\ has_signature (de_Body errmsgNoObject) /\
  has_signature (de_Body errmsgUnknownMethod).
Proof. by repeat constructor. Qed.

(** What a method returns can be sent: its results when it succeeds, the body of its error
    when it does not. *)
Definition representable (m : method) : Prop :=
  forall args, match md_call m args with
               | (values, None) => has_signature values
               | (_, Some e) => has_signature (de_Body e)
               end.

Section outcomes.
Context (range : gmap sig exportWithMapping -> list (sig * exportWithMapping)).

(** The arguments of the message fit the method, and the call of the method with them
    returns these results and no error. *)
Definition method_succeeds (msg : Message gotype) (m : method) (values : list dval) : Prop :=
  exists vs, length (value_params (md_In m)) = length (m_Body msg) /\
    Store (m_Body msg) (value_params (md_In m)) = Returned (Some vs) /\
    md_call m (fill_params (default [] (string_header FieldSender msg)) msg (md_In m) vs) = (values, None).

(** The call reaches a method that is exported for its path, interface and member, and the
    method succeeds. *)
Definition succeeds (handlers : handlers_t) (msg : Message gotype) (values : list dval) : Prop :=
  string_header FieldInterface msg <> Some (chars "org.freedesktop.DBus.Peer") /\
  exists name sg path hs m,
    string_header FieldMember msg = Some name /\
    header_of FieldPath (m_Headers msg) = Some (sg, VPath path) /\
    searchHandlers handlers path = Returned (hs, true) /\
    find_method range hs (string_header FieldInterface msg) name = Some m /\
    method_succeeds msg m values.

(** The one answer to a call: the results of the method if it succeeded, unless the caller
    wants no reply, and otherwise an error, or the reply of the Peer interface; to the sender
    of the call, for its serial. *)
Definition answered_once (handlers : handlers_t) (msg : Message gotype) (answers : list answer) : Prop :=
  let sender := default [] (string_header FieldSender msg) in
  let q := m_serial msg in
  (exists values, succeeds handlers msg values /\
     answers = if Z.land (m_Flags msg) FlagNoReplyExpected =? 0
               then [MethodReply (sender_variant msg) q values] else []) \/
  ((forall values, ~ succeeds handlers msg values) /\
   ((exists e, answers = [SendError e sender q]) \/
    (string_header FieldInterface msg = Some (chars "org.freedesktop.DBus.Peer") /\
     exists values, answers = [SendReply sender q values]))).

Lemma call_method_answers msg m :
  forallb harmless (value_params (md_In m)) = true -> representable m ->
  let sender := default [] (string_header FieldSender msg) in
  let q := m_serial msg in
  exists answers, call_method msg sender m = Returned answers /\
  ((exists values, method_succeeds msg m values /\
      answers = if Z.land (m_Flags msg) FlagNoReplyExpected =? 0
                then [MethodReply (sender_variant msg) q values] else []) \/
   ((forall values, ~ method_succeeds msg m values) /\ exists e, answers = [SendError e sender q])).
Proof.
  intros Hh Hr sender q. destruct errmsg_signatures as [Hinv _]. unfold call_method.
  fold sender q. destruct (Nat.eqb_spec (length (value_params (md_In m))) (length (m_Body msg)))
    as [Hl|Hl]; cbn [negb].
  2: { rewrite send_error by done. eexists. split; [done|]. right. split; [|by eexists].
       by intros values (vs & ? & _). }
  destruct (Store_returns (m_Body msg) _ Hh) as [[vs|] Hs]; rewrite Hs; cbn [obind].
  2: { rewrite send_error by done. eexists. split; [done|]. right. split; [|by eexists].
       intros values (vs & _ & ? & _). congruence. }
  pose proof (Hr (fill_params sender msg (md_In m) vs)) as Hsig.
  destruct (md_call m (fill_params sender msg (md_In m) vs)) as [values [e|]] eqn:Hc.
  - rewrite send_error by done. eexists. split; [done|]. right. split; [|by eexists].
    intros values' (vs' & _ & ? & Hc'). simplify_eq. fold sender in Hc'. congruence.
  - assert (method_succeeds msg m values) as Hok by by exists vs.
    destruct (Z.eqb_spec (Z.land (m_Flags msg) FlagNoReplyExpected) 0);
      [rewrite send_method_reply by done|]; eexists; (split; [done|]); left; by exists values.
Qed.

End outcomes.

(** ** The methods that calls reach *)

(** The methods that are exported somewhere. *)
Definition exports (handlers : handlers_t) (m : method) : Prop :=
  exists path iface e obj name, entry handlers path iface = Some e
  /\ ex_export e = Some obj /\ obj name = Some m.

Section answers.
Context (range : gmap sig exportWithMapping -> list (sig * exportWithMapping)) (uuid : sig).
(** An iteration visits entries of the map. *)
Hypothesis range_entries : forall hs kv, In kv (range hs) -> hs !! kv.1 = Some kv.2.

Lemma exportedMethod_found e name m :
  exportedMethod e name = Some m -> exists obj name', ex_export e = Some obj /\ obj name' = Some m /\ md_error m = true.
Proof.
  unfold exportedMethod. destruct (ex_export e) as [obj|]; [|done].
  destruct (mapped_name _ name) as [name'|]; [|done]. destruct (obj name') as [m'|] eqn:E; [|done].
  destruct (md_error m') eqn:Em; [|done]. intros [= <-]. by exists obj, name'.
Qed.

Lemma find_method_found hs iface name m :
  find_method range hs iface name = Some m -> exists i e, hs !! i = Some e /\ exportedMethod e name = Some m.
Proof.
  destruct iface as [i|]; simpl.
  - destruct (hs !! i) as [e|] eqn:E; [|done]. intros H. by exists i, e.
  - pose proof (range_entries hs) as Hr. revert Hr.
    induction (range hs) as [|[i e] l IH]; intros Hr; simpl; [done|].
    destruct (exportedMethod e name) as [m'|] eqn:E.
    + intros [= <-]. exists i, e. split; [|done]. apply (Hr (i, e)). by left.
    + apply IH. intros kv Hkv. apply Hr. by right.
Qed.

(** What a search finds was exported. *)
Lemma searched_exports handlers path hs ok iface name m : absolute path ->
  searchHandlers handlers path = Returned (hs, ok) -> find_method range hs iface name = Some m ->
  exports handlers m.
Proof.
  intros Ha Hs (i & e & He & Hm)%find_method_found.
  destruct (searchHandlers_found handlers path Ha) as (hs' & ok' & Hs' & Hcase).
  rewrite Hs in Hs'. injection Hs' as <- <-.
  assert (exists p ra, handlers !! p = Some ra /\ ra !! i = Some e) as (p & ra & Hp & Hi).
  { destruct (handlers !! path) as [ra|] eqn:E; [destruct Hcase as [-> _]; eauto|].
    destruct ok; [|destruct Hcase as [-> _]; by rewrite lookup_empty in He].
    destruct Hcase as (a & ra & _ & Hra & ->). apply map_lookup_filter_Some in He as [He _]. eauto. }
  apply exportedMethod_found in Hm as (obj & name' & Ho & Hm & _).
  exists p, i, e, obj, name'. split; [|done]. by rewrite (entry_at _ _ _ _ Hp).
Qed.

(** C34: a method call that the connection has accepted is answered exactly once, whatever its
    path, interface, member and arguments are. When the call reaches an exported method, its
    arguments fit, and the method returns no error, the answer is the reply with the results,
    to the sender of the call and for its serial, and there is none just when the caller wants
    none. In every other case it is an error, also when the caller wants no reply, or the
    reply of the Peer interface. This holds when no exported method takes dicts of Go structs
    (to which variants and signatures count) and all of them return only values that have a
    signature; otherwise reflection and SignatureOf panic, which ends the program. *)
Theorem handleCall_answers handlers msg :
  IsValid msg = None -> m_Type msg = TypeMethodCall ->
  (forall m, exports handlers m ->
     forallb harmless (value_params (md_In m)) = true /\ representable m) ->
  exists answers, handleCall range uuid handlers msg = Returned answers
  /\ answered_once range handlers msg answers.
Proof.
  intros Hv Ht Hh. destruct (valid_call msg Hv Ht) as (c & name & sg & path & Hn & Hp & Ha).
  destruct errmsg_signatures as (_ & Hno & Hunk).
  unfold handleCall, answered_once, succeeds. rewrite Hn, Hp. case_bool_decide as Hpeer.
  { assert (forall a, send a = Returned [a] ->
      (exists e, a = SendError e (default [] (string_header FieldSender msg)) (m_serial msg)) \/
      (exists values, a = SendReply (default [] (string_header FieldSender msg)) (m_serial msg) values) ->
      exists answers, send a = Returned answers /\ answered_once range handlers msg answers) as Hone.
    { intros a -> Hc. eexists. split; [done|]. right. split; [by intros values [? _]|].
      destruct Hc as [[e ->]|[values ->]]; [left; by eexists|right; split; [done|by eexists]]. }
    unfold answered_once, succeeds in Hone. rewrite Hn, Hp in Hone.
    repeat case_bool_decide; apply Hone; eauto;
      [by apply send_reply; constructor|apply send_reply; by repeat constructor|by apply send_error]. }
  destruct (searchHandlers_found handlers path Ha) as (hs & ok & Hs & _). cbn [obind]. rewrite Hs. cbn [obind].
  assert (forall e, has_signature (de_Body e) ->
    (forall m, ok = true -> find_method range hs (string_header FieldInterface msg) (c :: name) = Some m -> False) ->
    exists answers, (let? answers := send (SendError e (default [] (string_header FieldSender msg)) (m_serial msg)) in
                     Returned ([] ++ answers)) = Returned answers /\
      answered_once range handlers msg answers) as Herr.
  { intros e He Hnone. rewrite send_error by done. eexists. split; [done|]. right. split; [|left; by eexists].
    intros values (_ & name' & sg' & path' & hs' & m & Hn' & Hp' & Hs' & Hm & _).
    rewrite Hn in Hn'. rewrite Hp in Hp'. simplify_eq. rewrite Hs in Hs'. injection Hs' as <- ->.
    exact (Hnone m eq_refl Hm). }
  unfold answered_once, succeeds in Herr. rewrite Hn, Hp in Herr.
  destruct ok; cbn [negb]; [|by apply Herr].
  destruct (find_method range hs _ _) as [m|] eqn:Hm; [|by apply Herr].
  destruct (Hh m) as [Hh1 Hh2]; [by eapply searched_exports|].
  destruct (call_method_answers msg m Hh1 Hh2) as (answers & -> & Hans). exists answers. split; [done|].
  destruct Hans as [(values & Hok & ->)|(Hbad & e & ->)].
  - left. exists values. split; [|done]. split; [done|]. by exists (c :: name), sg, path, hs, m.
  - right. split; [|left; by eexists].
    intros values (_ & name' & sg' & path' & hs' & m' & Hn' & Hp' & Hs' & Hm' & Hok).
    simplify_eq. rewrite Hs in Hs'. injection Hs' as <-. rewrite Hm in Hm'. injection Hm' as <-.
    exact (Hbad values Hok).
Qed.

(** Without that condition one call ends the program: a method with a parameter such as
    map[string]Variant is called with a map of another type. *)
Theorem other_map_ends_program handlers msg sg path hs m c name k w d :
  string_header FieldMember msg = Some (c :: name) ->
  header_of FieldPath (m_Headers msg) = Some (sg, VPath path) ->
  string_header FieldInterface msg <> Some (chars "org.freedesktop.DBus.Peer") ->
  searchHandlers handlers path = Returned (hs, true) ->
  find_method range hs (string_header FieldInterface msg) (c :: name) = Some m ->
  value_params (md_In m) = [TDict k w] -> hasStruct w = true ->
  m_Body msg = [d] -> is_map d = true -> is_type (TDict k w) d = false ->
  panics (handleCall range uuid handlers msg).
Proof.
  intros Hn Hp Hi Hs Hm Hpar Hw Hb Hd Ht. unfold handleCall. rewrite Hn, Hp, bool_decide_false by done.
  rewrite Hs. cbn [obind negb]. rewrite Hm. unfold call_method. rewrite Hpar, Hb. cbn [length Nat.eqb negb].
  unfold Store, store_to. cbn [length map Nat.eqb store_all store]. rewrite Ht. cbn [hasStruct].
  rewrite Hw, Hd. by eexists.
Qed.

End answers.

(** * A call from one side to the other *)

Lemma erase_has_type v : wf_val v -> has_type (type_of v) (erase v).
Proof.
  induction v as [k z|b|s|s|s|s v IH|t vs IH|kt vt kvs IH|vs IH] using val_nested; try done.
  - rewrite wf_array. intros Hw. cbn [type_of erase has_type]. split; [done|]. apply Forall_map.
    rewrite List.Forall_forall in IH, Hw |- *. intros v Hv. destruct (Hw v Hv) as [<- Hv']. by apply IH.
  - rewrite wf_dict. intros (_ & _ & Hw). cbn [type_of erase has_type]. split_and!; try done. apply Forall_map.
    rewrite List.Forall_forall in IH, Hw |- *. intros [k v] Hkv. cbn.
    destruct (Hw _ Hkv) as [[<- Hk] [<- Hv]]. destruct (IH _ Hkv) as [IHk IHv]. split; [by apply IHk|by apply IHv].
  - rewrite wf_struct. intros [_ Hw]. cbn [type_of erase]. apply has_fields.
    apply Forall2_fmap. rewrite List.Forall_forall in IH, Hw.
    clear -IH Hw. induction vs as [|v vs IHvs]; [constructor|].
    constructor; [apply IH, Hw; by left|]. apply IHvs; intros x Hx; [apply IH|apply Hw]; by right.
Qed.

Lemma Store_erase args :
  Forall sendable args -> forallb storable (map type_of args) = true ->
  Store (map erase args) (map type_of args) = Returned (Some (map erase args)).
Proof.
  intros Ha Hs. unfold Store, store_to. rewrite !length_map, Nat.eqb_refl.
  apply store_all_keeps; [apply List.Forall_forall; intros t _; apply store_keeps|done|].
  clear Hs. induction Ha as [|v vs Hv Hvs IH]; [constructor|]. simpl. constructor; [|done].
  apply erase_has_type. by destruct Hv.
Qed.

(** The headers of the message that Go builds. *)
Lemma Go_message_headers dest path method flags args serial iface member msg :
  split_method method = (Some iface, member) -> iface <> [] ->
  Forall (fun v => keyed (type_of v) = true) args ->
  Go_message dest path method flags args serial = Returned msg ->
  m_Flags msg = Z.land flags (Z.lor FlagNoAutoStart FlagNoReplyExpected)
  /\ header_of FieldPath (m_Headers msg) = Some (chars "o", VPath path)
  /\ header_of FieldMember (m_Headers msg) = Some (chars "s", VString member)
  /\ header_of FieldInterface (m_Headers msg) = Some (chars "s", VString iface)
  /\ header_of FieldSender (m_Headers msg) = None.
Proof.
  intros Hm Hi Hk. unfold Go_message. rewrite Hm. destruct iface as [|c iface]; [done|].
  rewrite body_header_eq by done. unfold MakeVariant. cbn [SignatureOf type_of getSignature obind].
  intros [= <-]. cbn [m_Flags m_Headers]. by destruct args.
Qed.

Lemma no_reply_flag flags :
  Z.land (Z.land flags (Z.lor FlagNoAutoStart FlagNoReplyExpected)) FlagNoReplyExpected
  = Z.land flags FlagNoReplyExpected.
Proof. by rewrite <- Z.land_assoc. Qed.

Lemma fill_values sender msg ts vs :
  length ts = length vs -> fill_params sender msg (map PValue ts) vs = map AValue vs.
Proof. revert vs. induction ts as [|t ts IH]; intros [|v vs] H; try done. simpl. f_equal. apply IH. by injection H. Qed.

Lemma value_params_values ts : value_params (map PValue ts) = ts.
Proof. unfold value_params. induction ts as [|t ts IH]; [done|]. simpl. by f_equal. Qed.

(** An object that is exported, and a call that fits one of its methods. *)
Definition served (handlers : handlers_t) (path iface member : sig) (args values : list dval) : Prop :=
  exists (obj : object) m sub,
    entry handlers path iface = Some (mkExport (Some obj) [] sub)
    /\ obj member = Some m /\ md_error m = true
    /\ md_In m = map PValue (map type_of args)
    /\ forallb storable (map type_of args) = true
    /\ md_call m (map AValue (map erase args)) = (values, None).

Lemma handleCall_served range uuid handlers path iface member args values msg sg sm si :
  served handlers path iface member args values -> Forall sendable args -> member <> [] ->
  header_of FieldPath (m_Headers msg) = Some (sg, VPath path) ->
  header_of FieldMember (m_Headers msg) = Some (sm, VString member) ->
  header_of FieldInterface (m_Headers msg) = Some (si, VString iface) ->
  iface <> chars "org.freedesktop.DBus.Peer" ->
  header_of FieldSender (m_Headers msg) = None ->
  m_Body msg = map erase args -> Z.land (m_Flags msg) FlagNoReplyExpected = 0 ->
  has_signature values ->
  handleCall range uuid handlers msg = Returned [MethodReply None (m_serial msg) values].
Proof.
  intros (obj & m & sub & He & Hm & Herr & Hin & Hst & Hcall) Ha Hne Hp Hmem Hi Hpeer Hs Hb Hf Hk.
  unfold handleCall, string_header. rewrite Hmem, Hp, Hi, Hs.
  rewrite bool_decide_false by (by intros [=]).
  unfold entry in He. destruct (handlers !! path) as [hs|] eqn:Eh; [|done]. cbn in He.
  unfold searchHandlers. rewrite Eh. cbn [obind negb find_method]. rewrite He.
  unfold exportedMethod. cbn [default from_option id ex_export ex_mapping mapped_name].
  rewrite Hm, Herr. destruct member as [|c member]; [done|].
  unfold call_method. rewrite Hin, value_params_values, Hb, !length_map, Nat.eqb_refl. cbn [negb].
  rewrite Store_erase by done. cbn [obind]. rewrite fill_values by (by rewrite !length_map).
  rewrite Hcall, Hf. cbn [Z.eqb]. unfold sender_variant. rewrite Hs. by rewrite send_method_reply.
Qed.

(** C27: A remote call is the call of the method: when the arguments are of the types of its
    parameters, what Go sends is read on the other side, makes handleCall call the method that is
    exported there with these arguments, and what it returns is read back and completes the very
    call that was made, with these results in their order. *)
Theorem remote_call (E : Endian) range uuid handlers dest path method flags iface member
    args values q own s c :
  callable dest path method args -> split_method method = (Some iface, member) -> iface <> [] ->
  iface <> chars "org.freedesktop.DBus.Peer" ->
  in_range NUint32 q = true -> in_range NUint32 own = true ->
  Z.land flags FlagNoReplyExpected = 0 ->
  served handlers path iface member args values -> answerable [] values ->
  calls s !! q = Some c -> eavesdropped s = None ->
  exists call reply,
    Go_message dest path method flags args q = Returned call
    /\ answer_message (MethodReply None q values) own = Returned reply
    /\ forall fuel bs bs', (message_need call <= fuel)%nat -> (message_need reply <= fuel)%nat ->
       EncodeTo E call = inr bs -> EncodeTo E reply = inr bs' ->
       exists call' reply' s',
         DecodeMessage fuel bs = Got call' []
         /\ handleCall range uuid handlers call' = Returned [MethodReply None q values]
         /\ DecodeMessage fuel bs' = Got reply' []
         /\ handle_message s reply' = Returned s'
         /\ events s' = events s ++ [EDone c (CBody (map erase values))]
         /\ calls s' = delete q (calls s).
Proof.
  intros Hc Hm Hi Hpeer Hq Hown Hf Hsv Hans Hcall Heav.
  destruct (Go_message_wf dest path method flags args q Hc Hq) as (call & Hgo & Hw & Hb & Hser).
  destruct (Go_message_headers dest path method flags args q iface member call Hm Hi (call_keyed _ _ _ _ Hc) Hgo)
    as (Hfl & Hp & Hmem & Hif & Hsend).
  destruct (reply_delivered E [] q values own s c [] Hans Hq Hown Hcall Heav (or_introl eq_refl))
    as (reply & Hr & Hread).
  exists call, reply. split; [done|]. split; [exact Hr|]. intros fuel bs bs' Hn Hn' Henc Henc'.
  destruct (Hread fuel bs' Hn' Henc') as (reply' & s' & Hd' & Hh & Hev & Hcl & _).
  rewrite app_nil_r in Hd'.
  pose proof (EncodeTo_read E call fuel Hw Hn) as Hd. rewrite Henc in Hd. specialize (Hd []).
  rewrite app_nil_r in Hd. exists (erase_message call), reply', s'. split_and!; try done.
  rewrite <- Hser.
  eapply (handleCall_served range uuid handlers path iface member args values (erase_message call));
    cbn [erase_message m_Headers m_Body m_Flags]; rewrite ?header_of_erase, ?Hp, ?Hmem, ?Hif, ?Hsend, ?Hb; try done.
  - by destruct Hc.
  - intros ->. pose proof (call_member _ _ _ _ Hc) as H. by rewrite Hm in H.
  - by rewrite Hfl, no_reply_flag.
  - by destruct Hans.
Qed.

(** * Samples *)

(** An object with a method that adds two numbers and says who asked. *)
Definition sample_add : method :=
  mkMethod [PValue (TNum NUint32); PValue (TNum NUint32)] true (fun args =>
    match args with
    | [AValue (VNum NUint32 a); AValue (VNum NUint32 b)] => ([VNum NUint32 (uint32 (a + b))], None)
    | _ => ([], Some errmsgInvalidArg)
    end).

Definition sample_object : object := fun name => if bool_decide (name = chars "Add") then Some sample_add else None.

Definition sample_handlers : handlers_t :=
  {[ chars "/calc" := {[ chars "org.calc" := mkExport (Some sample_object) [] true ]} ]}.

Definition sample_request (path : sig) (body : list gval) : Message gotype :=
  mkMessage TypeMethodCall 0
    [(FieldPath, (chars "o", VPath path)); (FieldMember, (chars "s", VString (chars "Add")));
     (FieldInterface, (chars "s", VString (chars "org.calc"))); (FieldSender, (chars "s", VString (chars ":1.7")));
     (FieldSignature, (chars "g", VSig (chars "uu")))] body 41.

Example Add_below_path :
  handleCall map_to_list [] sample_handlers (sample_request (chars "/calc/left") [VNum NUint32 2; VNum NUint32 3])
  = Returned [MethodReply (Some (chars "s", VString (chars ":1.7"))) 41 [VNum NUint32 5]].
Proof. vm_compute. reflexivity. Qed.

Example Add_elsewhere :
  handleCall map_to_list [] sample_handlers (sample_request (chars "/other/calc") [VNum NUint32 2; VNum NUint32 3])
  = Returned [SendError errmsgNoObject (chars ":1.7") 41].
Proof. vm_compute. reflexivity. Qed.

Lemma entries_listed (hs : gmap sig exportWithMapping) (kv : sig * exportWithMapping) :
  In kv (map_to_list hs) -> hs !! kv.1 = Some kv.2.
Proof. destruct kv. rewrite <- list_elem_of_In. apply elem_of_map_to_list. Qed.

Lemma sample_exports m : exports sample_handlers m -> m = sample_add.
Proof.
  intros (p & i & e & obj & name & He & Ho & Hm). unfold entry, sample_handlers in He.
  destruct (decide (p = chars "/calc")) as [->|Hp]; [|by rewrite lookup_singleton_ne in He].
  rewrite lookup_singleton_eq in He. cbn [mbind option_bind] in He.
  apply lookup_singleton_Some in He as [_ <-]. injection Ho as <-. unfold sample_object in Hm.
  case_bool_decide; [|done]. by injection Hm.
Qed.

Lemma sample_representable : representable sample_add.
Proof.
  intros args. unfold sample_add. cbn [md_call].
  repeat case_match; simplify_eq; by repeat constructor.
Qed.

Lemma handleCall_answers_witness : exists answers,
  handleCall map_to_list [] sample_handlers (sample_request (chars "/calc") [VString (chars "2")]) = Returned answers
  /\ answered_once map_to_list sample_handlers (sample_request (chars "/calc") [VString (chars "2")]) answers.
Proof.
  apply handleCall_answers.
  - exact entries_listed.
  - vm_compute. reflexivity.
  - reflexivity.
  - intros m ->%sample_exports. split; [reflexivity|exact sample_representable].
Defined.

Lemma Store_spec_witness :
  Store [VStruct [VNum NByte 1; VVariant (chars "s") (VString (chars "x"))]] [TStruct [TNum NByte; TVariant]]
  = Returned (Some [VStruct [VNum NByte 1; VVariant (chars "s") (VString (chars "x"))]]).
Proof.
  apply (Store_spec [TStruct [TNum NByte; TVariant]]
           [VStruct [VNum NByte 1; VVariant (chars "s") (VString (chars "x"))]]).
  - apply List.Forall_cons; [|apply List.Forall_nil]. exists GInterfaces. simpl. split; [done|].
    split; [by eexists|]. by split; [eexists|].
  - reflexivity.
  - repeat constructor.
Defined.

Lemma searchHandlers_spec_witness : exists hs ok,
  searchHandlers sample_handlers (chars "/calc/a/b") = Returned (hs, ok)
  /\ if ok then exists a ra, nearest sample_handlers (chars "/calc/a/b") a
                /\ sample_handlers !! a = Some ra /\ hs = subtree ra
     else hs = ∅ /\ forall b, b <> [] -> under b (chars "/calc/a/b") -> sample_handlers !! b = None.
Proof. exact (proj1 (searchHandlers_spec sample_handlers (chars "/calc/a/b") eq_refl)). Defined.

Lemma exportWithMap_spec_witness : exists handlers',
  exportWithMap None [] (chars "/calc") (chars "org.calc") false sample_handlers = Some handlers'
  /\ registry_wf handlers'
  /\ forall p i, entry handlers' p i
       = if bool_decide (p = chars "/calc" /\ i = chars "org.calc") then None else entry sample_handlers p i.
Proof.
  apply (exportWithMap_spec None [] (chars "/calc") (chars "org.calc") false sample_handlers); [|reflexivity].
  unfold registry_wf, sample_handlers. intros p hs [_ <-]%lookup_singleton_Some H. apply (f_equal (lookup (chars "org.calc"))) in H.
  by rewrite lookup_singleton_eq, lookup_empty in H.
Defined.

Lemma other_map_ends_program_witness :
  let m := mkMethod [PValue (TDict TString TVariant)] true (fun _ => ([], None)) in
  let handlers := {[ chars "/calc" := {[ chars "org.calc" := mkExport (Some (fun _ => Some m)) [] false ]} ]} in
  panics (handleCall map_to_list [] handlers
            (sample_request (chars "/calc") [VDict (GSimple TString) (GSimple TString) []])).
Proof.
  intros m handlers.
  eapply (other_map_ends_program map_to_list [] handlers _ _ (chars "/calc") _ m); try (vm_compute; reflexivity).
  vm_compute. discriminate.
Defined.

Definition sample_waiting : Conn := set_calls {[ 41 := 7%nat ]} newConn.

Lemma remote_call_witness : exists call reply,
  Go_message (chars "org.calc") (chars "/calc") (chars "org.calc.Add") 0 [VNum NUint32 2; VNum NUint32 3] 41 = Returned call
  /\ answer_message (MethodReply None 41 [VNum NUint32 5]) 9 = Returned reply
  /\ forall fuel bs bs', (message_need call <= fuel)%nat -> (message_need reply <= fuel)%nat ->
     EncodeTo true call = inr bs -> EncodeTo true reply = inr bs' ->
     exists call' reply' s',
       DecodeMessage fuel bs = Got call' []
       /\ handleCall map_to_list [] sample_handlers call' = Returned [MethodReply None 41 [VNum NUint32 5]]
       /\ DecodeMessage fuel bs' = Got reply' []
       /\ handle_message sample_waiting reply' = Returned s'
       /\ events s' = [EDone 7 (CBody [VNum NUint32 5])]
       /\ calls s' = delete 41 (calls sample_waiting).
Proof.
  apply (remote_call true map_to_list [] sample_handlers (chars "org.calc") (chars "/calc") (chars "org.calc.Add") 0
           (chars "org.calc") (chars "Add") [VNum NUint32 2; VNum NUint32 3] [VNum NUint32 5] 41 9 sample_waiting 7);
    try reflexivity; try done.
  - split; try reflexivity; try (by repeat constructor); apply Nat.leb_le; reflexivity.
  - exists sample_object, sample_add, true. split_and!; try reflexivity.
  - split; try reflexivity; try (by repeat constructor); apply Nat.leb_le; reflexivity.
Defined.
