(* ===== verification/DbusTransport.v ===== *)
(** godbus/dbus, addresses of buses and the transports under a connection
    (Godeps/.../godbus/dbus/conn.go, conn_other.go, transport_unix.go, transport_generic.go).

    Dialling a socket, running dbus-launch and the environment are parameters: what they
    answer. A transport reads from the bytes that the socket will give; the file descriptors
    that come with a message are what the two parsers of package syscall make of the
    out-of-band data. What is sent is the bytes and the file descriptors of one write. *)

From S2P Require Import Prelude NetIP Nl DbusSig DbusCodec DbusMessage DbusConn.

Local Open Scope go_scope.
Local Open Scope Z_scope.

(** * Addresses *)

(** strings.Index *)
Fixpoint index_of (sub s : sig) : option nat :=
  if bool_decide (take (length sub) s = sub) then Some 0%nat
  else match s with
       | [] => None
       | _ :: s => option_map S (index_of sub s)
       end.

(** s[i:j] *)
Definition slice_chars (s : sig) (i j : nat) : outcome sig :=
  if (i <=? j)%nat && (j <=? length s)%nat then Returned (take (j - i) (drop i s)) else sig_panic.

Definition getKey (s key : sig) : outcome sig :=
  match index_of key s with
  | None => Returned []
  | Some i =>
      if (length s <=? i + length key + 1)%nat then Returned []
      else if negb (bool_decide (s !! (i + length key)%nat = Some "="%char)) then Returned []
      else
        let j := default (length s) (index_of [","%char] s) in
        slice_chars s (i + length key + 1) j
  end.

Inductive dial_error : Type :=
| NoTransport
| UnsupportedTransport
| InvalidAddress (why : string)
| DialFailed
| LaunchFailed.

Section dialling.
(** What is dialled, and whether net.DialUnix gets a socket of a name. *)
Context {T : Type}.
Variable DialUnix : sig -> option T.

Definition newUnixTransport (keys : sig) : outcome (dial_error + T) :=
  let? abstract := getKey keys (chars "abstract") in
  let? path := getKey keys (chars "path") in
  let dial name := match DialUnix name with Some t => inr t | None => inl DialFailed end in
  Returned (match abstract, path with
            | [], [] => inl (InvalidAddress "neither path nor abstract set")
            | _ :: _, [] => dial ("@"%char :: abstract)
            | [], _ :: _ => dial path
            | _, _ => inl (InvalidAddress "both path and abstract set")
            end).

(** The map transports, to which the package adds unix only. *)
Definition transports (name : sig) : option (sig -> outcome (dial_error + T)) :=
  if bool_decide (name = chars "unix") then Some newUnixTransport else None.

(** The loop of getTransport; the error is that of the last address. *)
Fixpoint try_addresses (addresses : list sig) (err : dial_error) : outcome (dial_error + T) :=
  match addresses with
  | [] => Returned (inl err)
  | v :: addresses =>
      match index_of [":"%char] v with
      | None => try_addresses addresses NoTransport
      | Some i =>
          match transports (take i v) with
          | None => try_addresses addresses UnsupportedTransport
          | Some f =>
              let? r := f (drop (S i) v) in
              match r with
              | inr t => Returned (inr t)
              | inl e => try_addresses addresses e
              end
          end
      end
  end.

(** Split never gives an empty list, so the error it starts with is never seen. *)
Definition getTransport (address : sig) : outcome (dial_error + T) :=
  try_addresses (split ";"%char address) NoTransport.

Definition defaultSystemBusAddress : sig := chars "unix:path=/var/run/dbus/system_bus_socket".

(** SystemBusPrivate, SessionBusPrivate and sessionBusPlatform, up to the transport that Dial
    gives to newConn; the variables of the environment and the output of dbus-launch are
    arguments. *)
Definition SystemBusPrivate (env : sig) : outcome (dial_error + T) :=
  getTransport (match env with [] => defaultSystemBusAddress | _ => env end).

Definition sessionBusPlatform (launched : option sig) : outcome (dial_error + T) :=
  match launched with
  | None => Returned (inl LaunchFailed)
  | Some b =>
      match index_of ["="%char] b, index_of ["010"%char] b with
      | Some i, Some j =>
          let? address := slice_chars b (i + 1) j in
          getTransport address
      | _, _ => Returned (inl LaunchFailed)
      end
  end.

Definition SessionBusPrivate (env : sig) (launched : option sig) : outcome (dial_error + T) :=
  if negb (bool_decide (env = [])) && negb (bool_decide (env = chars "autolaunch:"))
  then getTransport env
  else sessionBusPlatform launched.

End dialling.

(** * The transport over a unix socket *)

(** What package syscall makes of the out-of-band data: the control messages, and the
    descriptors of each, where one can be parsed. *)
Definition control : Type := option (list (option (list Z))).

Inductive read_result : Type :=
| RGot (msg : Message gotype) (rest : list Z)
| RError (why : string)
| RRefused (e : message_error)
| RCrashed (why : string)
| RHangs.

(** io.ReadFull *)
Definition ReadFull (n : Z) (rd : list Z) : option (list Z * list Z) :=
  if Z.of_nat (length rd) <? n then None else Some (take (Z.to_nat n) rd, drop (Z.to_nat n) rd).

(** The descriptors that the headers announce: the last header of that kind counts. *)
Definition announced (vs : list gval) : Z :=
  match Store_headers vs with
  | Some headers =>
      fold_left (fun n h => if h.1 =? FieldUnixFDs
                            then match h.2.2 with VNum NUint32 z => z | _ => 0 end else n) headers 0
  | None => 0
  end.

(** The indices in the body replaced by the descriptors. *)
Fixpoint restore_fds (unixfds : Z) (fds : list Z) (body : list gval) : outcome (option (list gval)) :=
  match body with
  | [] => Returned (Some [])
  | v :: body =>
      let? v' := match v with
                 | VNum NFd j =>
                     if unixfds <=? j then Returned None
                     else match fds !! Z.to_nat j with
                          | Some fd => Returned (Some (VNum NFd fd))
                          | None => Halted (GoPanic "index out of range")
                          end
                 | _ => Returned (Some v)
                 end in
      match v' with
      | None => Returned None
      | Some v' =>
          let? rest := restore_fds unixfds fds body in
          Returned (match rest with Some vs => Some (v' :: vs) | None => None end)
      end
  end.

Definition with_body (body : list gval) (msg : Message gotype) : Message gotype :=
  mkMessage (m_Type msg) (m_Flags msg) (m_Headers msg) body (m_serial msg).

(** The end of ReadMessage: the message is decoded from the bytes of all its parts. *)
Definition read_all_parts (fuel : nat) (hasUnixFDs : bool) (oob : control) (unixfds : Z)
    (all rest : list Z) : read_result :=
  let decode k := match DecodeMessage fuel all with
                  | Got msg _ => k msg
                  | Refused e => RRefused e
                  | Crashed => RCrashed "unexpected EOF"
                  | Hangs => RHangs
                  end in
  if unixfds =? 0 then decode (fun msg => RGot msg rest)
  else if negb hasUnixFDs then RError "got unix fds on unsupported transport"
  else
    match oob with
    | None => RError "invalid control message"
    | Some [Some fds] =>
        decode (fun msg =>
          match restore_fds unixfds fds (m_Body msg) with
          | Returned (Some body) => RGot (with_body body msg) rest
          | Returned None => RRefused (InvalidMessageError "invalid index for unix fd")
          | Halted _ => RCrashed "index out of range"
          end)
    | Some [None] => RError "invalid control message"
    | Some _ => RError "received more than one socket control message"
    end.

(** ReadMessage, in the byte order that the first byte says. The lengths are uint32. *)
Definition read_ordered (E : Endian) (fuel : nat) (hasUnixFDs : bool) (oob : control)
    (csheader rd : list Z) : read_result :=
  let blen := get_uint (take 4 (drop 4 csheader)) in
  let hlen := get_uint (drop 12 csheader) in
  let hlen := if hlen mod 8 =? 0 then hlen else uint32 (hlen + (8 - hlen mod 8)) in
  match ReadFull hlen rd with
  | None => RRefused ReadError
  | Some (headers, rd) =>
      match Decode fuel ["a"; "("; "y"; "v"; ")"]%char (mkDec 12 (drop 12 csheader ++ headers)) with
      | DPanic e => RRefused (DecodeError e)
      | DMore => RHangs
      | DOk vs _ =>
          let total := uint32 (16 + hlen + blen) in
          let start := uint32 (16 + hlen) in
          if (total <? 16) || (total <? start) then RCrashed "slice bounds out of range"
          else
            match ReadFull (total - start) rd with
            | None => RRefused ReadError
            | Some (body, rest) =>
                read_all_parts fuel hasUnixFDs oob (announced vs)
                  (take (Z.to_nat start) (csheader ++ headers) ++ body) rest
            end
      end
  end.

Definition unix_ReadMessage (fuel : nat) (hasUnixFDs : bool) (oob : control) (rd : list Z) : read_result :=
  match ReadFull 16 rd with
  | None => RRefused ReadError
  | Some (csheader, rd) =>
      match csheader with
      | b :: _ =>
          if b =? 108 then read_ordered false fuel hasUnixFDs oob csheader rd
          else if b =? 66 then read_ordered true fuel hasUnixFDs oob csheader rd
          else RRefused (InvalidMessageError "invalid byte order")
      | [] => RRefused ReadError
      end
  end.

(** ** Sending *)

(** The descriptors in the body replaced by their indices, from [n] on, and the descriptors. *)
Fixpoint index_fds (n : Z) (body : list dval) : list dval * list Z :=
  match body with
  | [] => ([], [])
  | VNum NFd fd :: body => let '(vs, fds) := index_fds (n + 1) body in (VNum NFd n :: vs, fd :: fds)
  | v :: body => let '(vs, fds) := index_fds n body in (v :: vs, fds)
  end.

(** msg.Headers[FieldUnixFDs] = v *)
Fixpoint put_header (h : Z * variant dtype) (hs : list (Z * variant dtype)) : list (Z * variant dtype) :=
  match hs with
  | [] => [h]
  | h' :: hs' => if h'.1 =? h.1 then h :: hs' else h' :: put_header h hs'
  end.

(** The message with its descriptors announced. *)
Definition announce (msg : Message dtype) : Message dtype * list Z :=
  let '(body, fds) := index_fds 0 (m_Body msg) in
  let hs := match fds with
            | [] => m_Headers msg
            | _ => put_header (FieldUnixFDs, (chars "u", VNum NUint32 (uint32 (Z.of_nat (length fds)))))
                     (m_Headers msg)
            end in
  (mkMessage (m_Type msg) (m_Flags msg) hs body (m_serial msg), fds).

(** SendMessage: the error it reports, and the bytes and descriptors that were written. Of a
    write that fails it is told; the errors of EncodeTo are dropped, with descriptors what has
    been encoded is written, and without them success is reported. [short] says whether the
    write of a message with descriptors was short. *)
Definition unix_SendMessage (hasUnixFDs : bool) (written short : bool) (msg : Message dtype)
    : option string * (list Z * list Z) :=
  let '(msg, fds) := announce msg in
  match fds with
  | _ :: _ =>
      if negb hasUnixFDs then (Some "dbus: unix fd passing not enabled"%string, ([], []))
      else
        let buf := match EncodeTo false msg with inr bs => bs | inl _ => [] end in
        if negb written then (Some "write failed"%string, ([], []))
        else if short then (Some "short write"%string, ([], []))
        else (None, (buf, fds))
  | [] =>
      match EncodeTo false msg with
      | inr bs => if written then (None, (bs, [])) else (None, ([], []))
      | inl _ => (None, ([], []))
      end
  end.

(** * The transport over any connection *)

Definition generic_ReadMessage (fuel : nat) (rd : list Z) : received := DecodeMessage fuel rd.

Definition has_fd (v : dval) : bool := match v with VNum NFd _ => true | _ => false end.

Definition generic_SendMessage (written : bool) (msg : Message dtype) : option string * list Z :=
  if existsb has_fd (m_Body msg) then (Some "dbus: unix fd passing not enabled"%string, [])
  else
    match EncodeTo false msg with
    | inl _ => (Some "invalid message"%string, [])
    | inr bs => if written then (None, bs) else (Some "write failed"%string, [])
    end.

(** * Messages are read in frames *)

Lemma ReadFull_app bs rest n : n = Z.of_nat (length bs) -> ReadFull n (bs ++ rest) = Some (bs, rest).
Proof.
  intros ->. unfold ReadFull. rewrite length_app.
  destruct (Z.ltb_spec (Z.of_nat (length bs + length rest)) (Z.of_nat (length bs))); [lia|].
  by rewrite Nat2Z.id, take_app_length, drop_app_length.
Qed.

(** The parts of an encoded message. *)
Lemma frame_parts (E : Endian) msg bs fuel :
  wf_message msg -> EncodeTo E msg = inr bs -> (message_need msg <= fuel)%nat ->
  exists cs (hdr body : list Z) (buf : Z), bs = cs ++ hdr ++ body
  /\ length cs = 16%nat /\ head cs = Some (order_byte E)
  /\ get_uint (take 4 (drop 4 cs)) = Z.of_nat (length body)
  /\ get_uint (drop 12 cs) = buf
  /\ 0 <= buf /\ Z.of_nat (length hdr) = buf + (- buf) mod 8
  /\ Z.of_nat (length bs) <= 2 ^ 27
  /\ exists d, Decode fuel ["a"; "("; "y"; "v"; ")"]%char (mkDec 12 (drop 12 cs ++ hdr))
       = DOk [VArray GInterfaces (map erase (map header_val (m_Headers msg)))] d.
Proof.
  intros Hw. unfold EncodeTo. rewrite (wf_valid _ Hw).
  generalize (e_out (fst (Encode (m_Body msg) newEncoder))). intros body.
  destruct (Z.ltb_spec (2 ^ 27)
    (Z.of_nat (length (e_out (fst (enc_align 8 (fst (Encode (header_vals E msg (length body))
       newEncoder)))) ++ body)))) as [|Hlen]; [done|]. intros [= <-] Hf.
  assert (in_range NUint32 (Z.of_nat (length body)) = true) as Hrange.
  { rewrite length_app in Hlen. unfold in_range. rewrite andb_true_iff, Z.leb_le, Z.ltb_lt. simpl. lia. }
  destruct (message_parts msg (length body) Hw Hrange) as (bs1 & buf & pad & Hout & Hbs1 & Hpad & HD).
  assert (length bs1 = 11%nat) as H11 by (by rewrite Hbs1, !length_app, !length_put_uint).
  rewrite Hout in Hlen |- *. cbn [app length] in Hlen. rewrite !length_app, length_put_uint in Hlen.
  destruct (HD ltac:(lia) fuel Hf []) as [_ (d & Hd & _)].
  exists (order_byte E :: bs1 ++ put_uint 4 (Z.of_nat (length buf))), (buf ++ pad), body, (Z.of_nat (length buf)).
  assert (drop 12 (order_byte E :: bs1 ++ put_uint 4 (Z.of_nat (length buf))) = put_uint 4 (Z.of_nat (length buf))) as H12.
  { cbn [drop]. rewrite <- H11. by rewrite drop_app_length. }
  rewrite H12, get_put_uint, (uint_n_small 4 (Z.of_nat (length buf))) by (simpl; lia). split_and!; try done; try lia.
  - cbn [app]. by rewrite <- !app_assoc.
  - cbn [length]. rewrite length_app, length_put_uint, H11. done.
  - rewrite Hbs1. cbn [drop].
    rewrite <- !app_assoc.
    rewrite (app_assoc (put_uint 1 _) (put_uint 1 _)), (app_assoc (put_uint 1 _ ++ _) (put_uint 1 _)).
    rewrite drop_app_length' by (by rewrite !length_app, !length_put_uint).
    rewrite take_app_length' by (by rewrite length_put_uint).
    rewrite get_put_uint. apply uint_n_small. simpl. lia.
  - rewrite length_app. lia.
  - cbn [length app]. rewrite !length_app, length_put_uint. lia.
  - exists d. by rewrite <- Hd, app_nil_r, <- app_assoc.
Qed.

(** The number of descriptors a message announces. *)
Definition announces (hs : list (Z * variant dtype)) : Z :=
  match header_of FieldUnixFDs hs with
  | Some (_, VNum NUint32 z) => z
  | _ => 0
  end.

Lemma announced_fold (hs : list (Z * variant dtype)) : forall n,
  NoDup (map fst hs) ->
  fold_left (fun n h => if h.1 =? FieldUnixFDs
                        then match h.2.2 with VNum NUint32 z => z | _ => 0 end else n)
    (map erase_header hs) n
  = if present FieldUnixFDs hs then announces hs else n.
Proof.
  unfold announces, present. induction hs as [|[k [s v]] hs IH]; intros n Hnd; [done|].
  cbn [map] in Hnd |- *. apply NoDup_cons in Hnd as [Hk Hnd]. cbn [fold_left erase_header fst snd header_of].
  rewrite IH by done. destruct (Z.eqb_spec k FieldUnixFDs) as [->|]; [|done].
  assert (header_of FieldUnixFDs hs = None) as ->; [|by destruct v as [[]| | | | | | | |]].
  clear -Hk. induction hs as [|[k' v'] hs IH]; [done|]. cbn [map fst] in Hk. cbn [header_of].
  apply not_elem_of_cons in Hk as [Hne Hk]. destruct (Z.eqb_spec k' FieldUnixFDs); [congruence|]. by apply IH.
Qed.

Lemma announced_headers msg : wf_message msg ->
  announced [VArray GInterfaces (map erase (map header_val (m_Headers msg)))] = announces (m_Headers msg).
Proof.
  intros Hw. unfold announced. rewrite store_headers_read.
  rewrite announced_fold by apply (wf_keys _ Hw). unfold announces, present.
  by destruct (header_of FieldUnixFDs (m_Headers msg)).
Qed.

Lemma round_up_8 n : 0 <= n -> n + (- n) mod 8 = if n mod 8 =? 0 then n else n + (8 - n mod 8).
Proof.
  intros Hn. destruct (Z.eqb_spec (n mod 8) 0) as [H|H].
  - rewrite Z.mod_opp_l_z by lia. lia.
  - rewrite Z.mod_opp_l_nz by lia. lia.
Qed.

(** ReadMessage cuts the bytes of one message from what the socket gives. *)
Lemma unix_read_frame (E : Endian) msg bs fuel hasFDs oob rest :
  wf_message msg -> EncodeTo E msg = inr bs -> (message_need msg <= fuel)%nat ->
  unix_ReadMessage fuel hasFDs oob (bs ++ rest)
  = read_all_parts fuel hasFDs oob (announces (m_Headers msg)) bs rest.
Proof.
  intros Hw He Hf.
  destruct (frame_parts E msg bs fuel Hw He Hf)
    as (cs & hdr & body & buf & Hbs & Hcs & Hhead & Hblen & Hhlen & Hbuf & Hhdr & Hlen & d & Hd).
  rewrite Hbs, <- !app_assoc. unfold unix_ReadMessage. rewrite ReadFull_app by (rewrite Hcs; done).
  assert (read_ordered E fuel hasFDs oob cs (hdr ++ body ++ rest)
          = read_all_parts fuel hasFDs oob (announces (m_Headers msg)) (cs ++ hdr ++ body) rest) as Hread.
  2:{ destruct cs as [|b cs]; [done|]. injection Hhead as ->. by destruct E; cbn [order_byte Z.eqb Pos.eqb]. }
  rewrite Hbs, !length_app, Hcs in Hlen.
  unfold read_ordered. rewrite Hblen, Hhlen.
  assert ((if buf mod 8 =? 0 then buf else uint32 (buf + (8 - buf mod 8))) = Z.of_nat (length hdr)) as ->.
  { rewrite Hhdr, round_up_8 in * by done. destruct (buf mod 8 =? 0); [done|].
    unfold uint32. apply Z.mod_small. lia. }
  rewrite ReadFull_app by done. rewrite Hd. unfold uint32. rewrite !Z.mod_small by lia.
  destruct (Z.ltb_spec (16 + Z.of_nat (length hdr) + Z.of_nat (length body)) 16); [lia|].
  destruct (Z.ltb_spec (16 + Z.of_nat (length hdr) + Z.of_nat (length body)) (16 + Z.of_nat (length hdr))); [lia|].
  cbn [orb]. rewrite ReadFull_app by lia. rewrite announced_headers by done. f_equal.
  replace (Z.to_nat (16 + Z.of_nat (length hdr))) with (length (cs ++ hdr)) by (rewrite length_app; lia).
  by rewrite firstn_all, <- app_assoc.
Qed.

(** Messages that are written to a unix socket one after the other are read one by one: of the
    bytes of a message and whatever follows, ReadMessage takes those of the message, for either
    byte order, and returns that message. *)
Theorem unix_ReadMessage_frames (E : Endian) msg bs fuel hasFDs oob rest :
  wf_message msg -> announces (m_Headers msg) = 0 ->
  EncodeTo E msg = inr bs -> (message_need msg <= fuel)%nat ->
  unix_ReadMessage fuel hasFDs oob (bs ++ rest) = RGot (erase_message msg) rest.
Proof.
  intros Hw Ha He Hf. rewrite (unix_read_frame E msg) by done. unfold read_all_parts. rewrite Ha. cbn [Z.eqb].
  pose proof (EncodeTo_read E msg fuel Hw Hf) as Hr. rewrite He in Hr. specialize (Hr []).
  rewrite app_nil_r in Hr. by rewrite Hr.
Qed.

(** ** Descriptors *)

Lemma header_of_put h hs : header_of h.1 (put_header h hs) = Some h.2.
Proof.
  destruct h as [k v]. induction hs as [|[k' v'] hs IH]; cbn; [by rewrite Z.eqb_refl|].
  destruct (Z.eqb_spec k' k) as [->|Hne]; cbn; [by rewrite Z.eqb_refl|].
  destruct (Z.eqb_spec k' k); [done|]. exact IH.
Qed.

Lemma restore_other n fds (v : dval) body :
  has_fd v = false ->
  restore_fds n fds (erase v :: body)
  = let? rest := restore_fds n fds body in
    Returned (match rest with Some vs => Some (erase v :: vs) | None => None end).
Proof. by destruct v as [[]| | | | | | | |]. Qed.

Lemma index_other n (v : dval) body :
  has_fd v = false -> index_fds n (v :: body) = (let '(vs, fds) := index_fds n body in (v :: vs, fds)).
Proof. by destruct v as [[]| | | | | | | |]. Qed.

Lemma restore_index (body : list dval) : forall pre vs fds,
  index_fds (Z.of_nat (length pre)) body = (vs, fds) ->
  restore_fds (Z.of_nat (length (pre ++ fds))) (pre ++ fds) (map erase vs) = Returned (Some (map erase body)).
Proof.
  induction body as [|v body IH]; intros pre vs fds; [by intros [= <- <-]|].
  destruct (has_fd v) eqn:Hv.
  - destruct v as [[] z| | | | | | | |]; try done. cbn [index_fds].
    destruct (index_fds (Z.of_nat (length pre) + 1) body) as [vs' fds'] eqn:Ei. intros [= <- <-].
    cbn [map erase restore_fds]. rewrite !length_app. cbn [length].
    destruct (Z.leb_spec (Z.of_nat (length pre + S (length fds'))) (Z.of_nat (length pre))); [lia|].
    rewrite Nat2Z.id, list_lookup_middle by done. cbn [obind].
    specialize (IH (pre ++ [z]) vs' fds'). rewrite <- app_assoc in IH. cbn [app] in IH.
    rewrite length_app in IH. cbn [length] in IH. rewrite Nat2Z.inj_add in IH. specialize (IH Ei).
    rewrite length_app in IH. cbn [length] in IH. by rewrite IH.
  - rewrite index_other by done. destruct (index_fds _ body) as [vs' fds'] eqn:Ei. intros [= <- <-].
    cbn [map]. rewrite restore_other by done. by rewrite (IH pre vs' fds' Ei).
Qed.

(** File descriptors in the body of a message arrive in their places: what SendMessage writes
    is read by a transport that may pass descriptors, together with the descriptors that came
    with it, as the message with these descriptors in its body. *)
Theorem fds_passed msg fuel bs fds rest :
  wf_message (announce msg).1 -> (message_need (announce msg).1 <= fuel)%nat ->
  (exists e, EncodeTo false (announce msg).1 = inr e) ->
  unix_SendMessage true true false msg = (None, (bs, fds)) -> fds <> [] ->
  Z.of_nat (length fds) < 2 ^ 32 ->
  unix_ReadMessage fuel true (Some [Some fds]) (bs ++ rest)
  = RGot (with_body (map erase (m_Body msg)) (erase_message (announce msg).1)) rest.
Proof.
  intros Hw Hf [e He] Hs Hne Hl. unfold unix_SendMessage in Hs.
  destruct (announce msg) as [msg' fds'] eqn:Ea. cbn [fst] in *. rewrite He in Hs.
  destruct fds' as [|fd fds']; [by injection Hs as _ <-|]. cbn [negb] in Hs. injection Hs as -> <-.
  rewrite (unix_read_frame false msg') by done. unfold read_all_parts.
  unfold announce in Ea. destruct (index_fds 0 (m_Body msg)) as [body fds] eqn:Ei.
  injection Ea as <- ->.
  assert (uint32 (Z.of_nat (length (fd :: fds'))) = Z.of_nat (length (fd :: fds'))) as Hu
    by (unfold uint32; apply Z.mod_small; lia).
  rewrite Hu in *. unfold announces. cbn [m_Headers].
  rewrite (header_of_put (FieldUnixFDs, _)). cbn [snd].
  destruct (Z.eqb_spec (Z.of_nat (length (fd :: fds'))) 0); [simpl in *; lia|]. cbn [negb].
  pose proof (EncodeTo_read false _ fuel Hw Hf) as Hr. rewrite He in Hr. specialize (Hr []).
  rewrite app_nil_r in Hr. rewrite Hr. cbn [erase_message m_Body].
  pose proof (restore_index (m_Body msg) [] body (fd :: fds') Ei) as Hri. cbn [app] in Hri. by rewrite Hri.
Qed.

(** ** What goes wrong *)

(** A peer that announces a body of almost 4 GiB ends the program with sixteen bytes, with the
    empty headers after them: the sum of the lengths wraps around. *)
Example huge_body_crashes fuel :
  unix_ReadMessage (S (S fuel)) false None
    [108; 1; 0; 1; 240; 255; 255; 255; 1; 0; 0; 0; 0; 0; 0; 0]
  = RCrashed "slice bounds out of range".
Proof. reflexivity. Qed.

(** A message that cannot be encoded is not sent, and SendMessage reports success, so its call
    waits for ever. *)
Theorem send_error_lost hasFDs written short msg e :
  existsb has_fd (m_Body msg) = false -> EncodeTo false (announce msg).1 = inl e ->
  unix_SendMessage hasFDs written short msg = (None, ([], [])).
Proof.
  intros Hb He. unfold unix_SendMessage. destruct (announce msg) as [msg' fds] eqn:Ea. cbn [fst] in He.
  assert (fds = []) as ->; [|by rewrite He].
  unfold announce in Ea. destruct (index_fds 0 (m_Body msg)) as [body fds'] eqn:Ei. injection Ea as _ ->.
  revert body Ei Hb. generalize 0. induction (m_Body msg) as [|v vs IH]; intros n body Ei Hb; [by injection Ei|].
  cbn [existsb] in Hb. apply orb_false_iff in Hb as [Hv Hb]. rewrite index_other in Ei by done.
  destruct (index_fds n vs) as [vs' fds''] eqn:E. injection Ei as _ ->. by eapply IH.
Qed.

(** * Keys of addresses *)

Lemma index_of_char c pre post : c ∉ pre -> index_of [c] (pre ++ c :: post) = Some (length pre).
Proof.
  induction pre as [|a pre IH]; intros Hn; cbn [app index_of length take].
  - by rewrite bool_decide_true.
  - apply not_elem_of_cons in Hn as [Hne Hn]. rewrite bool_decide_false by congruence. by rewrite IH.
Qed.

Lemma index_of_absent c s : c ∉ s -> index_of [c] s = None.
Proof.
  induction s as [|a s IH]; intros Hn; cbn [index_of length take]; [done|].
  apply not_elem_of_cons in Hn as [Hne Hn]. rewrite bool_decide_false by congruence. by rewrite IH.
Qed.

Lemma index_of_prefix sub s : index_of sub (sub ++ s) = Some 0%nat.
Proof. destruct (sub ++ s) eqn:E; cbn [index_of]; rewrite <- E, take_app_length, bool_decide_true; done. Qed.

(** The value of the first key of an address is what stands between its equals sign and the
    first comma. *)
Theorem getKey_first key v rest :
  ","%char ∉ key -> ","%char ∉ v -> v <> [] -> rest = [] \/ head rest = Some ","%char ->
  getKey (key ++ "="%char :: v ++ rest) key = Returned v.
Proof.
  intros Hk Hv Hne Hr. unfold getKey. rewrite index_of_prefix. cbn [Nat.add].
  assert (length (key ++ "="%char :: v ++ rest) = length key + S (length v + length rest))%nat as Hlen
    by (rewrite length_app; cbn [length]; by rewrite length_app).
  assert (0 < length v)%nat by (destruct v; [done|simpl; lia]). rewrite Hlen.
  destruct (Nat.leb_spec (length key + S (length v + length rest)) (length key + 1)); [lia|].
  rewrite bool_decide_true by (by apply list_lookup_middle). cbn [negb].
  assert (default (length key + S (length v + length rest))%nat (index_of [","%char] (key ++ "="%char :: v ++ rest))
          = (length key + 1 + length v)%nat) as ->.
  { assert (","%char ∉ key ++ "="%char :: v) as Hn
      by (rewrite not_elem_of_app, not_elem_of_cons; split_and!; done).
    change (key ++ "="%char :: v ++ rest) with (key ++ ("="%char :: v) ++ rest). rewrite app_assoc.
    destruct Hr as [->|Hr].
    - rewrite app_nil_r, index_of_absent by done. cbn [length default from_option]. lia.
    - destruct rest as [|c rest]; [done|]. injection Hr as ->. rewrite index_of_char by done.
      cbn [default from_option id]. rewrite length_app. cbn [length]. lia. }
  unfold slice_chars. rewrite Hlen.
  destruct (Nat.leb_spec (length key + 1) (length key + 1 + length v)); [|lia].
  destruct (Nat.leb_spec (length key + 1 + length v) (length key + S (length v + length rest))); [|lia].
  cbn [andb]. replace (length key + 1 + length v - (length key + 1))%nat with (length v) by lia.
  change (key ++ "="%char :: v ++ rest) with (key ++ ["="%char] ++ v ++ rest). rewrite app_assoc.
  rewrite drop_app_length' by (rewrite length_app; done). by rewrite take_app_length.
Qed.

(** The system bus is looked for at its usual path when the environment names no other. *)
Example system_bus_default {T} (DialUnix : sig -> option T) :
  SystemBusPrivate DialUnix []
  = Returned (match DialUnix (chars "/var/run/dbus/system_bus_socket") with
              | Some t => inr t | None => inl DialFailed end).
Proof. vm_compute. by destruct (DialUnix _). Qed.

(** A key after the first comma makes getKey panic, since its value is taken to end before it
    starts: an address such as the one a bus prints, with its guid first, ends the program. *)
Example later_key_panics {T} (DialUnix : sig -> option T) :
  getTransport DialUnix (chars "unix:guid=1a2b,path=/run/user/1000/bus")
  = Halted (GoPanic "slice bounds out of range").
Proof. reflexivity. Qed.

(** * Samples *)

Lemma unix_ReadMessage_frames_witness : exists bs,
  EncodeTo true sample_message = inr bs
  /\ unix_ReadMessage 100 false None (bs ++ [108; 4]) = RGot (erase_message sample_message) [108; 4].
Proof.
  destruct (EncodeTo true sample_message) as [e|bs] eqn:E; [vm_compute in E; discriminate|].
  exists bs. split; [done|]. apply (unix_ReadMessage_frames true sample_message bs 100).
  - apply sample_message_wf.
  - reflexivity.
  - exact E.
  - apply Nat.leb_le. vm_compute. reflexivity.
Defined.

(** A call that passes two descriptors arrives with them. *)
Definition sample_fds : Message dtype :=
  mkMessage TypeMethodCall 0
    [(FieldPath, (chars "o", VPath (chars "/"))); (FieldMember, (chars "s", VString (chars "Take")));
     (FieldSignature, (chars "g", VSig (chars "hsh")))]
    [VNum NFd 7; VString (chars "x"); VNum NFd 9] 5.

Example sample_fds_arrive :
  match unix_SendMessage true true false sample_fds with
  | (None, (bs, fds)) =>
      fds = [7; 9]
      /\ match unix_ReadMessage 100 true (Some [Some fds]) bs with
         | RGot msg [] => m_Body msg = [VNum NFd 7; VString (chars "x"); VNum NFd 9]
         | _ => False
         end
      /\ unix_ReadMessage 100 true (Some [Some [7]]) bs = RCrashed "index out of range"
  | _ => False
  end.
Proof. vm_compute. repeat split. Qed.
