(* ===== verification/DbusProp.v ===== *)
(** godbus/dbus/prop, properties of exported objects (Godeps/.../godbus/dbus/prop/prop.go).

    A set of properties is the map of their values under its lock, which every operation holds
    from its start to its end, so the operations are functions on the state. The value of a
    property is one the program has put there, with its Go type, or one that came from the bus,
    in which a struct is a slice of interfaces. What is emitted is a log; a callback is a function
    of the change. *)

From S2P Require Import Prelude NetIP Nl DbusSig DbusCodec DbusMessage DbusConn DbusExport.

Local Open Scope go_scope.
Local Open Scope Z_scope.

(** * Values and their signatures *)

Inductive pval : Type :=
| Local_ (v : dval)
| Arrived (v : gval).

Definition no_type {A} : outcome A := Halted (GoPanic "dbus: invalid type").

(** getSignature of the types that typeFor makes. *)
Fixpoint go_signature (g : gotype) : outcome sig :=
  match g with
  | GSimple t => getSignature t
  | GSlice g => let? s := go_signature g in Returned ("a"%char :: s)
  | GMap k g =>
      if isKeyType k then
        let? sk := getSignature k in
        let? sv := go_signature g in
        Returned (["a"; "{"]%char ++ sk ++ sv ++ ["}"%char])
      else no_type
  | GInterfaces => no_type
  end.

(** reflect.TypeOf of a value that was decoded; the keys of maps are simple. *)
Definition go_type_of (v : gval) : option gotype :=
  match v with
  | VNum k _ => Some (GSimple (TNum k))
  | VBool _ => Some (GSimple TBool)
  | VString _ => Some (GSimple TString)
  | VPath _ => Some (GSimple TPath)
  | VSig _ => Some (GSimple TSig)
  | VVariant _ _ => Some (GSimple TVariant)
  | VArray g _ => Some (GSlice g)
  | VDict (GSimple k) g _ => Some (GMap k g)
  | VDict _ _ _ => None
  | VStruct _ => Some GInterfaces
  end.

(** SignatureOf *)
Definition signature_of (v : pval) : outcome sig :=
  match v with
  | Local_ v => getSignature (type_of v)
  | Arrived v => match go_type_of v with Some g => go_signature g | None => no_type end
  end.

(** * Properties *)

(** EmitType *)
Definition EmitFalse : Z := 0.
Definition EmitTrue : Z := 1.
Definition EmitInvalidates : Z := 2.

Definition prop_error (name : string) : DError :=
  mkDError (chars "org.freedesktop.DBus.Properties.Error." ++ chars name) [].
Definition ErrIfaceNotFound : DError := prop_error "InterfaceNotFound".
Definition ErrPropNotFound : DError := prop_error "PropertyNotFound".
Definition ErrReadOnly : DError := prop_error "ReadOnly".
Definition ErrInvalidArg : DError := prop_error "InvalidArg".

Record Change : Type := mkChange { ch_Iface : sig; ch_Name : sig; ch_Value : pval }.

Record Prop_ : Type := mkProp {
  p_Value : pval;
  p_Writable : bool;
  p_Emit : Z;
  p_Callback : option (Change -> option DError) }.

(** The signal PropertiesChanged: with the new value, or with the name only. *)
Inductive emission : Type :=
| EmittedChanged (iface property : sig) (v : sig * pval)
| EmittedInvalidated (iface property : sig).

Local Notation "'props_t'" := (gmap sig (gmap sig Prop_)).

Record Properties : Type := mkProperties {
  ps_m : props_t;
  ps_emitted : list emission }.

Definition make_variant (v : pval) : outcome (sig * pval) :=
  let? s := signature_of v in Returned (s, v).

Definition Get (iface property : sig) (p : Properties) : outcome (DError + sig * pval) :=
  match ps_m p !! iface with
  | None => Returned (inl ErrIfaceNotFound)
  | Some m =>
      match m !! property with
      | None => Returned (inl ErrPropNotFound)
      | Some prop => let? v := make_variant (p_Value prop) in Returned (inr v)
      end
  end.

(** The loop of GetAll, over the entries in the order of an iteration. *)
Fixpoint all_variants (entries : list (sig * Prop_)) : outcome (list (sig * (sig * pval))) :=
  match entries with
  | [] => Returned []
  | (k, prop) :: entries =>
      let? v := make_variant (p_Value prop) in
      let? rest := all_variants entries in
      Returned ((k, v) :: rest)
  end.

Definition GetAll (iface : sig) (p : Properties) : outcome (DError + gmap sig (sig * pval)) :=
  match ps_m p !! iface with
  | None => Returned (inl ErrIfaceNotFound)
  | Some m => let? vs := all_variants (map_to_list m) in Returned (inr (list_to_map vs))
  end.

(** p.m[iface][property], which is nil when it is not there *)
Definition prop_at (iface property : sig) (p : Properties) : option Prop_ :=
  ps_m p !! iface ≫= fun m => m !! property.

Definition nil_deref {A} : outcome A := Halted (GoPanic "nil pointer dereference").

Definition GetMust (iface property : sig) (p : Properties) : outcome pval :=
  match prop_at iface property p with
  | Some prop => Returned (p_Value prop)
  | None => nil_deref
  end.

(** Introspection: name, type and access of each property. *)
Fixpoint described (entries : list (sig * Prop_)) : outcome (list (sig * sig * string)) :=
  match entries with
  | [] => Returned []
  | (k, prop) :: entries =>
      let? s := signature_of (p_Value prop) in
      let? rest := described entries in
      Returned ((k, s, if p_Writable prop then "readwrite"%string else "read"%string) :: rest)
  end.

Definition Introspection (iface : sig) (p : Properties) : outcome (list (sig * sig * string)) :=
  described (map_to_list (default ∅ (ps_m p !! iface))).

Definition set_value (v : pval) (prop : Prop_) : Prop_ :=
  mkProp v (p_Writable prop) (p_Emit prop) (p_Callback prop).

Definition put_value (iface property : sig) (v : pval) (m : props_t) : props_t :=
  alter (alter (set_value v) property) iface m.

(** set; the state after a panic is part of the result. *)
Definition set (iface property : sig) (v : pval) (p : Properties) : Properties * outcome unit :=
  match prop_at iface property p with
  | None => (p, nil_deref)
  | Some prop =>
      let m := put_value iface property v (ps_m p) in
      let keep := mkProperties m (ps_emitted p) in
      let emit e := mkProperties m (ps_emitted p ++ [e]) in
      if p_Emit prop =? EmitFalse then (keep, Returned tt)
      else if p_Emit prop =? EmitInvalidates then (emit (EmittedInvalidated iface property), Returned tt)
      else if p_Emit prop =? EmitTrue then
        match make_variant v with
        | Returned var => (emit (EmittedChanged iface property var), Returned tt)
        | Halted h => (keep, Halted h)
        end
      else (keep, Halted (GoPanic "invalid value for EmitType"))
  end.

(** Set, called from the bus with a variant: the error that is sent back. *)
Definition Set_ (iface property : sig) (newv : variant gotype) (p : Properties)
    : Properties * outcome (option DError) :=
  match ps_m p !! iface with
  | None => (p, Returned (Some ErrIfaceNotFound))
  | Some m =>
      match m !! property with
      | None => (p, Returned (Some ErrPropNotFound))
      | Some prop =>
          if negb (p_Writable prop) then (p, Returned (Some ErrReadOnly))
          else
            match signature_of (p_Value prop) with
            | Halted h => (p, Halted h)
            | Returned s =>
                if negb (bool_decide (newv.1 = s)) then (p, Returned (Some ErrInvalidArg))
                else
                  let value := Arrived newv.2 in
                  match p_Callback prop with
                  | Some callback =>
                      match callback (mkChange iface property value) with
                      | Some err => (p, Returned (Some err))
                      | None =>
                          let '(p, r) := set iface property value p in
                          (p, omap_out (fun _ => None) r)
                      end
                  | None =>
                      let '(p, r) := set iface property value p in
                      (p, omap_out (fun _ => None) r)
                  end
            end
      end
  end.

Definition SetMust (iface property : sig) (v : pval) (p : Properties) : Properties * outcome unit :=
  set iface property v p.

(** New, with the object that reflection makes of the properties. *)
Definition New (obj : object) (path : sig) (props : props_t)
    (handlers : gmap sig (gmap sig exportWithMapping)) : Properties * gmap sig (gmap sig exportWithMapping) :=
  (mkProperties props [],
   default handlers (Export (Some obj) path (chars "org.freedesktop.DBus.Properties") handlers)).

(** * What Set does *)

Lemma prop_at_put iface property v m e i q :
  prop_at i q (mkProperties (put_value iface property v m) e)
  = (if bool_decide (i = iface /\ q = property) then set_value v else id)
      <$> prop_at i q (mkProperties m e).
Proof.
  unfold prop_at, put_value. cbn [ps_m]. destruct (decide (i = iface)) as [->|Hi].
  - rewrite lookup_alter_eq. destruct (m !! iface) as [ps|]; cbn; [|done].
    destruct (decide (q = property)) as [->|Hq].
    + rewrite bool_decide_true by done. by rewrite lookup_alter_eq.
    + rewrite bool_decide_false by naive_solver. rewrite lookup_alter_ne by done. by destruct (ps !! q).
  - rewrite lookup_alter_ne by done. rewrite bool_decide_false by naive_solver.
    destruct (m !! i) as [ps|]; cbn; [|done]. by destruct (ps !! q).
Qed.

(** What a change of a property emits. *)
Definition emits (prop : Prop_) (iface property : sig) (s : sig) (v : pval) : list emission :=
  if p_Emit prop =? EmitFalse then []
  else if p_Emit prop =? EmitInvalidates then [EmittedInvalidated iface property]
  else [EmittedChanged iface property (s, v)].

Lemma set_returned iface property v p p' :
  set iface property v p = (p', Returned tt) ->
  exists prop, prop_at iface property p = Some prop
  /\ (forall i q, prop_at i q p'
        = if bool_decide (i = iface /\ q = property) then Some (set_value v prop) else prop_at i q p)
  /\ exists s, ps_emitted p' = ps_emitted p ++ emits prop iface property s v
     /\ (p_Emit prop = EmitTrue -> signature_of v = Returned s).
Proof.
  unfold set. destruct (prop_at iface property p) as [prop|] eqn:Hp; [|done]. intros H. exists prop.
  split; [done|].
  assert (forall e i q, prop_at i q (mkProperties (put_value iface property v (ps_m p)) e)
            = if bool_decide (i = iface /\ q = property) then Some (set_value v prop) else prop_at i q p) as Hput.
  { intros e i q. rewrite prop_at_put. change (prop_at i q (mkProperties (ps_m p) e)) with (prop_at i q p).
    case_bool_decide as Hc; [destruct Hc as [-> ->]; by rewrite Hp|by destruct (prop_at i q p)]. }
  unfold emits. destruct (Z.eqb_spec (p_Emit prop) EmitFalse) as [H0|_].
  { injection H as <-. split; [by apply Hput|]. exists []. cbn [ps_emitted]. rewrite app_nil_r.
    split; [done|]. by rewrite H0. }
  destruct (Z.eqb_spec (p_Emit prop) EmitInvalidates) as [H2|_].
  { injection H as <-. split; [by apply Hput|]. exists []. split; [done|]. by rewrite H2. }
  destruct (p_Emit prop =? EmitTrue); [|done]. unfold make_variant in H.
  destruct (signature_of v) as [s|] eqn:Es; [|done]. cbn [obind] in H. injection H as <-.
  split; [by apply Hput|]. by exists s.
Qed.

Lemma set_answer iface property v p p' (r : option DError) :
  (let '(p0, r0) := set iface property v p in (p0, omap_out (fun _ => None) r0)) = (p', Returned r) ->
  r = None /\ set iface property v p = (p', Returned tt).
Proof. destruct (set iface property v p) as [p0 [[]|]]; [|done]. by intros [= <- <-]. Qed.

Lemma Set_spec_aux iface property newv p p' r :
  Set_ iface property newv p = (p', Returned r) ->
  match r with
  | Some _ => p' = p
  | None =>
      exists prop, prop_at iface property p = Some prop /\ p_Writable prop = true
      /\ signature_of (p_Value prop) = Returned newv.1
      /\ (forall cb, p_Callback prop = Some cb -> cb (mkChange iface property (Arrived newv.2)) = None)
      /\ (forall i q, prop_at i q p'
            = if bool_decide (i = iface /\ q = property)
              then Some (set_value (Arrived newv.2) prop) else prop_at i q p)
      /\ exists s, ps_emitted p' = ps_emitted p ++ emits prop iface property s (Arrived newv.2)
         /\ (p_Emit prop = EmitTrue -> signature_of (Arrived newv.2) = Returned s)
  end.
Proof.
  unfold Set_. destruct (ps_m p !! iface) as [m|] eqn:Hm; [|by intros [= <- <-]].
  destruct (m !! property) as [prop|] eqn:Hq; [|by intros [= <- <-]].
  assert (prop_at iface property p = Some prop) as Hp by (unfold prop_at; rewrite Hm; exact Hq).
  destruct (p_Writable prop) eqn:Hw; cbn [negb]; [|by intros [= <- <-]].
  destruct (signature_of (p_Value prop)) as [s|] eqn:Hs; [|done].
  destruct (decide (newv.1 = s)) as [<-|Hne];
    [rewrite bool_decide_true by done|rewrite bool_decide_false by done; by intros [= <- <-]]. cbn [negb].
  destruct (p_Callback prop) as [cb|] eqn:Hc; [destruct (cb _) as [err|] eqn:Hcb; [by intros [= <- <-]|]|];
    intros [-> (prop' & Hp' & Hat & Hem)%set_returned]%set_answer;
    rewrite Hp in Hp'; injection Hp' as <-; exists prop; split_and!; try done.
  - rewrite Hc. by intros cb' [= <-].
  - by rewrite Hc.
Qed.

(** When Set answers with an error nothing has changed; when it succeeds, the property was there,
    writable, of the signature of the new value and its callback agreed, and just its value is
    the new one, which Get then returns, and the change was announced as the property says. *)
Theorem Set_spec iface property newv p p' r :
  Set_ iface property newv p = (p', Returned r) ->
  match r with
  | Some _ => p' = p
  | None =>
      exists prop, prop_at iface property p = Some prop /\ p_Writable prop = true
      /\ signature_of (p_Value prop) = Returned newv.1
      /\ (forall cb, p_Callback prop = Some cb -> cb (mkChange iface property (Arrived newv.2)) = None)
      /\ (forall i q, prop_at i q p'
            = if bool_decide (i = iface /\ q = property)
              then Some (set_value (Arrived newv.2) prop) else prop_at i q p)
      /\ exists s, ps_emitted p' = ps_emitted p ++ emits prop iface property s (Arrived newv.2)
         /\ (p_Emit prop = EmitTrue -> signature_of (Arrived newv.2) = Returned s)
  end.
Proof. apply Set_spec_aux. Qed.

(** * Types are kept *)

(** A value of a type: one of the program, or one that was decoded for the signature. *)
Definition pval_type (v : pval) (t : dtype) : Prop :=
  match v with
  | Local_ v => type_of v = t
  | Arrived v => go_type (go_of t) v
  end.

Lemma go_type_of_typed g v : go_type g v -> go_type_of v = Some g.
Proof. destruct v; simpl; try (by intros ->); [by intros [-> _]| |by intros [-> _]]. by intros [(n & -> & ->) _]. Qed.

Lemma go_signature_of t : keyed t = true -> struct_free t = true -> go_signature (go_of t) = Returned (sig_of t).
Proof.
  induction t as [k| | | | | |t IH|k v IHk IHv|ts IH] using dtype_nested; simpl; try done.
  - intros Hk Hs. by rewrite IH.
  - intros [Hk Hv]%andb_true_iff [_ Hs]%andb_true_iff. rewrite Hk, IHv by done. by destruct k.
Qed.

Lemma signature_of_typed v t :
  pval_type v t -> keyed t = true -> struct_free t = true -> signature_of v = Returned (sig_of t).
Proof.
  intros Ht Hk Hs. destruct v as [v|v]; simpl in Ht |- *.
  - subst t. by apply getSignature_sig_of.
  - rewrite (go_type_of_typed _ _ Ht). by apply go_signature_of.
Qed.

(** A signature shows whether there are structs in its type. *)
Lemma struct_free_sig t : keyed t = true -> struct_free t = true <-> "("%char ∉ sig_of t.
Proof.
  induction t as [k| | | | | |t IH|k v IHk IHv|ts IH] using dtype_nested; simpl; intros Hk;
    try (split; [intros _; apply not_elem_of_cons; split; [done|apply not_elem_of_nil]|done]).
  - split; [|done]. intros _. apply not_elem_of_cons. split; [by destruct k|apply not_elem_of_nil].
  - rewrite (IH Hk), not_elem_of_cons. naive_solver.
  - apply andb_true_iff in Hk as [Hk Hv]. rewrite andb_true_iff, (IHv Hv).
    rewrite !not_elem_of_cons, !not_elem_of_app.
    assert (simple k = true /\ "("%char ∉ sig_of k) as [Hks Hkn].
    { destruct k as [[]| | | | | | | |]; try done; (split; [done|]); apply not_elem_of_cons; (split; [done|apply not_elem_of_nil]). }
    assert ("("%char ∉ ["}"%char]) by (apply not_elem_of_cons; split; [done|apply not_elem_of_nil]).
    split; [intros [_ Hv1]; split_and!; done|]. by intros (_ & _ & _ & Hv1 & _).
  - split; [done|]. intros H. exfalso. apply H. by apply elem_of_cons; left.
Qed.

(** Properties of types without structs, and what the decoder promises of a variant. *)
Definition wf_prop (prop : Prop_) : Prop :=
  0 <= p_Emit prop <= 2
  /\ exists t, keyed t = true /\ struct_free t = true /\ pval_type (p_Value prop) t.

Definition wf_props (p : Properties) : Prop := forall i q prop, prop_at i q p = Some prop -> wf_prop prop.

Definition arrives (newv : variant gotype) : Prop :=
  exists t, keyed t = true /\ newv.1 = sig_of t /\ go_type (go_of t) newv.2.

Lemma set_returns iface property v p prop t :
  prop_at iface property p = Some prop -> 0 <= p_Emit prop <= 2 ->
  pval_type v t -> keyed t = true -> struct_free t = true ->
  exists p', set iface property v p = (p', Returned tt).
Proof.
  intros Hp He Hv Hk Hs. unfold set. rewrite Hp. unfold make_variant, EmitFalse, EmitTrue, EmitInvalidates.
  destruct (Z.eqb_spec (p_Emit prop) 0); [by eexists|]. destruct (Z.eqb_spec (p_Emit prop) 2); [by eexists|].
  destruct (Z.eqb_spec (p_Emit prop) 1); [|lia]. rewrite (signature_of_typed v t) by done. by eexists.
Qed.

Lemma Set_keeps iface property newv p :
  wf_props p -> arrives newv ->
  exists p' r, Set_ iface property newv p = (p', Returned r) /\ wf_props p'
  /\ forall i q prop, prop_at i q p = Some prop ->
       exists prop', prop_at i q p' = Some prop' /\ signature_of (p_Value prop') = signature_of (p_Value prop).
Proof.
  intros Hw (t & Hk & Hsig & Hty).
  assert (exists p' r, Set_ iface property newv p = (p', Returned r)) as (p' & r & HS).
  { unfold Set_. destruct (ps_m p !! iface) as [m|] eqn:Hm; [|by eexists _, _].
    destruct (m !! property) as [prop|] eqn:Hq; [|by eexists _, _].
    assert (prop_at iface property p = Some prop) as Hp by (unfold prop_at; rewrite Hm; exact Hq).
    destruct (Hw _ _ _ Hp) as (He & t0 & Hk0 & Hs0 & Ht0).
    destruct (negb (p_Writable prop)); [by eexists _, _|]. rewrite (signature_of_typed _ t0) by done.
    destruct (decide (newv.1 = sig_of t0)) as [Heq|];
      [rewrite bool_decide_true by done|rewrite bool_decide_false by done; by eexists _, _]. cbn [negb].
    assert (struct_free t = true) as Hst.
    { apply struct_free_sig; [done|]. rewrite <- Hsig, Heq. by apply struct_free_sig. }
    destruct (set_returns iface property (Arrived newv.2) p prop t Hp He Hty Hk Hst) as (p1 & ->).
    destruct (p_Callback prop) as [cb|]; [destruct (cb _)|]; by eexists _, _. }
  exists p', r. split; [done|]. apply Set_spec_aux in HS. destruct r as [err|].
  { subst p'. split; [done|]. intros i q prop Hp. by exists prop. }
  destruct HS as (prop & Hp & _ & Hs & _ & Hat & _).
  destruct (Hw _ _ _ Hp) as (He & t0 & Hk0 & Hs0 & Ht0).
  assert (sig_of t = sig_of t0) as Heq.
  { rewrite (signature_of_typed _ t0) in Hs by done. injection Hs as Hs. by rewrite <- Hsig. }
  assert (struct_free t = true) as Hst.
  { apply struct_free_sig; [done|]. rewrite Heq. by apply struct_free_sig. }
  split.
  - intros i q prop'. rewrite Hat. case_bool_decide; [|apply Hw]. intros [= <-].
    split; [exact He|]. by exists t.
  - intros i q prop' Hp'. rewrite Hat. case_bool_decide as Hc; [|by exists prop'].
    destruct Hc as [-> ->]. rewrite Hp in Hp'. injection Hp' as <-. eexists. split; [done|]. cbn [set_value p_Value].
    rewrite (signature_of_typed (Arrived newv.2) t), (signature_of_typed (p_Value prop) t0) by done. by f_equal.
Qed.

(** Requests from the bus, one after the other. *)
Fixpoint serve_sets (reqs : list (sig * sig * variant gotype)) (p : Properties) : outcome Properties :=
  match reqs with
  | [] => Returned p
  | (iface, property, newv) :: reqs =>
      match Set_ iface property newv p with
      | (p, Returned _) => serve_sets reqs p
      | (_, Halted h) => Halted h
      end
  end.

(** Whatever peers set, properties whose types have no structs keep their types and can always
    be read: no request ends the program, every property is still there, and Get returns it with
    the signature it had at the start. *)
Theorem properties_keep_types reqs p :
  wf_props p -> Forall (fun r => arrives r.2) reqs ->
  exists p', serve_sets reqs p = Returned p' /\ wf_props p'
  /\ forall i q v s, Get i q p = Returned (inr (s, v)) -> exists v', Get i q p' = Returned (inr (s, v')).
Proof.
  intros Hw Hr. revert p Hw. induction Hr as [|[[i0 q0] newv] reqs Hn Hr IH]; intros p Hw; cbn [serve_sets].
  - exists p. split_and!; try done. eauto.
  - destruct (Set_keeps i0 q0 newv p Hw Hn) as (p1 & r & -> & Hw1 & Hk1).
    destruct (IH p1 Hw1) as (p' & -> & Hw' & Hk'). exists p'. split_and!; try done.
    intros i q v s Hg. assert (exists v', Get i q p1 = Returned (inr (s, v'))) as [v' Hg1]; [|by eapply Hk'].
    unfold Get in Hg. destruct (ps_m p !! i) as [m|] eqn:Hm; [|done].
    destruct (m !! q) as [prop|] eqn:Hq; [|done]. unfold make_variant in Hg.
    destruct (signature_of (p_Value prop)) as [s0|] eqn:Hs; [|done]. injection Hg as <- <-.
    destruct (Hk1 i q prop) as (prop' & Hp' & Hs'); [unfold prop_at; rewrite Hm; exact Hq|].
    unfold prop_at in Hp'. unfold Get. destruct (ps_m p1 !! i) as [m'|]; [|done]. cbn in Hp'. rewrite Hp'.
    unfold make_variant. rewrite Hs', Hs. cbn [obind]. eauto.
Qed.

(** A property that is a struct does not survive a Set from the bus: the struct arrives as a
    slice of interfaces, which has no signature, and the next Get, or the signal of this Set, ends
    the program. *)
Theorem struct_property_crashes iface property vs p prop :
  prop_at iface property p = Some prop -> p_Writable prop = true -> p_Callback prop = None ->
  0 <= p_Emit prop <= 2 ->
  forall s, signature_of (p_Value prop) = Returned s ->
  let '(p', r) := Set_ iface property (s, VStruct vs) p in
  panics (Get iface property p') /\ (p_Emit prop = EmitTrue -> panics r).
Proof.
  intros Hp Hw Hc He s Hs. pose proof Hp as Hp'. unfold prop_at in Hp'. unfold Set_.
  destruct (ps_m p !! iface) as [m|] eqn:Hm; [|done]. cbn in Hp'. rewrite Hp', Hw. cbn [negb].
  rewrite Hs. cbn [fst snd]. rewrite bool_decide_true by done. cbn [negb]. rewrite Hc.
  assert (forall e, panics (Get iface property (mkProperties (put_value iface property (Arrived (VStruct vs)) (ps_m p)) e))) as Hget.
  { intros e. pose proof (prop_at_put iface property (Arrived (VStruct vs)) (ps_m p) e iface property) as Hput.
    rewrite bool_decide_true in Hput by done.
    change (prop_at iface property (mkProperties (ps_m p) e)) with (prop_at iface property p) in Hput.
    rewrite Hp in Hput. unfold prop_at in Hput. unfold Get.
    destruct (ps_m (mkProperties _ e) !! iface) as [m'|]; [|done].
    cbn in Hput. rewrite Hput. by eexists. }
  unfold set. rewrite Hp. unfold EmitFalse, EmitInvalidates, EmitTrue.
  destruct (Z.eqb_spec (p_Emit prop) 0); [split; [apply Hget|lia]|].
  destruct (Z.eqb_spec (p_Emit prop) 2); [split; [apply Hget|lia]|].
  destruct (Z.eqb_spec (p_Emit prop) 1); [|lia]. split; [apply Hget|]. intros _. by eexists.
Qed.
