(* ===== verification/Firewalld.v ===== *)
(** libnetwork/iptables, the client of firewalld
    (Godeps/.../docker/libnetwork/iptables/firewalld.go).

    The package keeps a connection to the system bus, whether firewalld runs, and the callbacks
    to call when firewalld has been reloaded. What the bus answers is a parameter of the
    operations: whether it could be reached, and the reply to each call. A callback is known by
    a number, and its pointer, that of the parameter of OnReloaded, by another. The callbacks
    that were called are logged, in order. *)

From S2P Require Import Prelude NetIP Nl DbusSig DbusCodec DbusMessage DbusConn.

Local Open Scope go_scope.
Local Open Scope Z_scope.

(** * State *)

Record Firewalld : Type := mkFirewalld {
  fw_connected : bool;              (* connection != nil *)
  fw_running : bool;                (* firewalldRunning *)
  fw_onReloaded : list (nat * nat); (* pointers and the callbacks they point to *)
  fw_next : nat;                    (* the next pointer *)
  fw_rules : list sig;              (* AddMatch *)
  fw_called : list nat }.

Definition fw_init : Firewalld := mkFirewalld false false [] 0 [] [].

Definition Iptables : sig := chars "ipv4".
Definition IP6Tables : sig := chars "ipv6".
Definition Ebtables : sig := chars "eb".

Definition dbusInterface : sig := chars "org.fedoraproject.FirewallD1".
Definition dbusPath : sig := chars "/org/fedoraproject/FirewallD1".

Definition set_running b f :=
  mkFirewalld (fw_connected f) b (fw_onReloaded f) (fw_next f) (fw_rules f) (fw_called f).
Definition set_connected b f :=
  mkFirewalld b (fw_running f) (fw_onReloaded f) (fw_next f) (fw_rules f) (fw_called f).

(** The rules that initConnection adds. *)
Definition reloaded_rule : sig :=
  chars "type='signal',path='" ++ dbusPath ++ chars "',interface='" ++ dbusInterface
  ++ chars "',sender='" ++ dbusInterface ++ chars "',member='Reloaded'".

Definition owner_rule : sig :=
  chars "type='signal',interface='org.freedesktop.DBus',member='NameOwnerChanged',path='/org/freedesktop/DBus',sender='org.freedesktop.DBus',arg0='"
  ++ dbusInterface ++ chars "'".

(** initConnection, once SystemBus has returned a connection; its rules' replies are ignored. *)
Definition initConnection (f : Firewalld) : Firewalld :=
  mkFirewalld true (fw_running f) (fw_onReloaded f) (fw_next f)
    (fw_rules f ++ [reloaded_rule; owner_rule]) (fw_called f).

(** Store of the reply of a call that returns a string. *)
Definition string_reply (r : call_result) : option sig :=
  match r with
  | CBody [VString s] => Some s
  | _ => None
  end.

Definition is_some {A} (o : option A) : bool := match o with Some _ => true | None => false end.

(** checkRunning, with the reply to getDefaultZone *)
Definition checkRunning (zone : call_result) (f : Firewalld) : bool :=
  if fw_connected f then is_some (string_reply zone) else false.

(** FirewalldInit, given whether the system bus could be reached; true when it returns no error. *)
Definition FirewalldInit (bus : bool) (zone : call_result) (f : Firewalld) : bool * Firewalld :=
  if bus then
    let f := initConnection f in (true, set_running (checkRunning zone f) f)
  else (false, set_connected false f).

(** * Reloads *)

Definition reloaded (f : Firewalld) : Firewalld :=
  mkFirewalld (fw_connected f) (fw_running f) (fw_onReloaded f) (fw_next f) (fw_rules f)
    (fw_called f ++ map snd (fw_onReloaded f)).

(** OnReloaded compares the pointers it has with that of its own parameter. *)
Definition OnReloaded (callback : nat) (f : Firewalld) : Firewalld :=
  let p := fw_next f in
  if existsb (fun '(pf, _) => (pf =? p)%nat) (fw_onReloaded f)
  then mkFirewalld (fw_connected f) (fw_running f) (fw_onReloaded f) (S p) (fw_rules f) (fw_called f)
  else mkFirewalld (fw_connected f) (fw_running f) (fw_onReloaded f ++ [(p, callback)]) (S p)
         (fw_rules f) (fw_called f).

(** args[i].(string) *)
Definition string_arg (args : list gval) (i : nat) : outcome sig :=
  let? v := index args i in
  match v with
  | VString s => Returned s
  | _ => Halted (GoPanic "interface conversion")
  end.

Definition dbusConnectionChanged (args : list gval) (f : Firewalld) : outcome Firewalld :=
  let? name := string_arg args 0 in
  let? oldOwner := string_arg args 1 in
  let? newOwner := string_arg args 2 in
  Returned (if negb (bool_decide (name = dbusInterface)) then f
            else if (0 <? length newOwner)%nat then reloaded f
            else f).

(** strings.Contains *)
Fixpoint contains (s sub : sig) : bool :=
  bool_decide (take (length sub) s = sub)
  || match s with
     | [] => false
     | _ :: s' => contains s' sub
     end.

(** A round of signalHandler: the signal, and the reply to checkRunning if it asks. *)
Definition handle_signal (f : Firewalld) (sz : Signal * call_result) : outcome Firewalld :=
  let '(sg, zone) := sz in
  if contains (sg_Name sg) (chars "NameOwnerChanged") then
    dbusConnectionChanged (sg_Body sg) (set_running (checkRunning zone f) f)
  else if contains (sg_Name sg) (chars "Reloaded") then Returned (reloaded f)
  else Returned f.

Fixpoint signalHandler (f : Firewalld) (l : list (Signal * call_result)) : outcome Firewalld :=
  match l with
  | [] => Returned f
  | sz :: l => let? f := handle_signal f sz in signalHandler f l
  end.

(** * Passthrough *)

Definition passthrough_method : sig := dbusInterface ++ chars ".direct.passthrough".
Definition passthrough_args (ipv : sig) (args : list sig) : list dval :=
  [VString ipv; VArray TString (map VString args)].

(** The message of the call *)
Definition Passthrough_message (ipv : sig) (args : list sig) (serial : Z) : outcome (Message dtype) :=
  Go_message dbusInterface dbusPath passthrough_method 0 (passthrough_args ipv args) serial.

(** Passthrough, with the reply of the call; None is its error. *)
Definition Passthrough (f : Firewalld) (reply : call_result) : outcome (option sig) :=
  if fw_connected f then Returned (string_reply reply)
  else Halted (GoPanic "nil pointer dereference").

(** * What the handler does *)

(** A signal that its sender has made well: the bus tells owners as three strings. *)
Definition well_made (sg : Signal) : Prop :=
  contains (sg_Name sg) (chars "NameOwnerChanged") = true ->
  exists name old new more, sg_Body sg = VString name :: VString old :: VString new :: more.

(** Whether a signal makes the client call the callbacks. *)
Definition reloads (sg : Signal) : bool :=
  if contains (sg_Name sg) (chars "NameOwnerChanged") then
    match sg_Body sg with
    | VString name :: _ :: VString new :: _ =>
        bool_decide (name = dbusInterface) && (0 <? length new)%nat
    | _ => false
    end
  else contains (sg_Name sg) (chars "Reloaded").

(** What is known about firewalld after the signals. *)
Fixpoint last_known (running : bool) (l : list (Signal * call_result)) : bool :=
  match l with
  | [] => running
  | (sg, zone) :: l =>
      last_known (if contains (sg_Name sg) (chars "NameOwnerChanged")
                  then is_some (string_reply zone) else running) l
  end.

Definition all_callbacks (f : Firewalld) : list nat := map snd (fw_onReloaded f).

Definition times (n : nat) (l : list nat) : list nat := concat (repeat l n).

Lemma handle_signal_spec f sg zone :
  fw_connected f = true -> well_made sg ->
  handle_signal f (sg, zone) =
  Returned (mkFirewalld true (last_known (fw_running f) [(sg, zone)]) (fw_onReloaded f) (fw_next f)
              (fw_rules f) (fw_called f ++ times (if reloads sg then 1 else 0)%nat (all_callbacks f))).
Proof.
  intros Hc Hw. unfold handle_signal, reloads, well_made, last_known, times, all_callbacks in *.
  destruct f as [cn run cbs nx rules called]. cbn [fw_connected fw_running fw_onReloaded fw_called] in *. subst.
  destruct (contains (sg_Name sg) (chars "NameOwnerChanged")).
  - destruct (Hw eq_refl) as (name & old & new & more & Hb). rewrite Hb. unfold dbusConnectionChanged.
    cbn -[dbusInterface]. destruct (bool_decide (name = dbusInterface)); cbn -[dbusInterface];
      [|by rewrite app_nil_r].
    destruct new; cbn -[dbusInterface]; by rewrite ?app_nil_r.
  - destruct (contains (sg_Name sg) (chars "Reloaded")); unfold reloaded; cbn; by rewrite ?app_nil_r.
Qed.

Lemma times_add a b l : times (a + b) l = times a l ++ times b l.
Proof. unfold times. by rewrite repeat_app, concat_app. Qed.

(** Over any signals from a bus that makes them well, the handler never stops; firewalld is
    taken to run just when the last check after a change of owner succeeded; and every callback
    that was registered is called once for each reload and each new owner of firewalld's name,
    and for nothing else. *)
Theorem signalHandler_spec l : forall f,
  fw_connected f = true -> Forall (fun sz => well_made sz.1) l ->
  signalHandler f l =
  Returned (mkFirewalld true (last_known (fw_running f) l) (fw_onReloaded f) (fw_next f) (fw_rules f)
              (fw_called f ++ times (length (List.filter (fun sz => reloads sz.1) l)) (all_callbacks f))).
Proof.
  induction l as [|[sg zone] l IH]; intros f Hc Hl; cbn [signalHandler].
  - cbn. rewrite app_nil_r. destruct f. simpl in *. by subst.
  - apply Forall_cons in Hl as [Hs Hl]. cbn [fst] in Hs. rewrite handle_signal_spec by done.
    cbn [obind]. rewrite IH by done. unfold all_callbacks.
    cbn [fw_running fw_onReloaded fw_next fw_rules fw_called last_known List.filter fst].
    do 2 f_equal. rewrite <- app_assoc. f_equal.
    destruct (reloads sg); [|done]. cbn [length].
    change (S (length (List.filter (fun sz => reloads sz.1) l)))
      with (1 + length (List.filter (fun sz => reloads sz.1) l))%nat.
    by rewrite times_add.
Qed.

(** ** The call of Passthrough *)

Lemma strings_sendable ss :
  Forall (fun s : sig => Z.of_nat (length s) < 2 ^ 32) ss -> sendable (VArray TString (map VString ss)).
Proof.
  intros H. split; [|split; [done|]].
  - apply wf_array. rewrite List.Forall_forall in *. intros v (s & <- & Hs)%in_map_iff.
    split; [done|]. by apply H.
  - cbn [depth_ok]. apply forallb_forall. by intros v (s & <- & _)%in_map_iff.
Qed.

(** What firewalld reads when Passthrough calls it, if the arguments fit a message: a method
    call of direct.passthrough with the table and the arguments, as they are and in their order,
    under the serial that the reply will carry. *)
Theorem Passthrough_read ipv args serial (E : Endian) bs rest :
  Z.of_nat (length ipv) < 2 ^ 32 -> Forall (fun s : sig => Z.of_nat (length s) < 2 ^ 32) args ->
  in_range NUint32 serial = true ->
  exists msg, Passthrough_message ipv args serial = Returned msg
  /\ forall fuel, (message_need msg <= fuel)%nat -> EncodeTo E msg = inr bs ->
     exists msg', DecodeMessage fuel (bs ++ rest) = Got msg' rest
     /\ m_Type msg' = TypeMethodCall /\ m_serial msg' = serial
     /\ header_of FieldMember (m_Headers msg') = Some (chars "s", VString (chars "passthrough"))
     /\ header_of FieldInterface (m_Headers msg') = Some (chars "s", VString (dbusInterface ++ chars ".direct"))
     /\ m_Body msg' = [VString ipv; VArray (GSimple TString) (map VString args)].
Proof.
  intros Hi Ha Hs. pose proof (strings_sendable args Ha) as Hsend.
  assert (callable dbusInterface dbusPath passthrough_method (passthrough_args ipv args)) as Hc.
  { split; [reflexivity|vm_compute; reflexivity..|reflexivity|reflexivity| | |].
    - apply List.Forall_cons; [split; [done|by split]|].
      apply List.Forall_cons; [done|apply List.Forall_nil].
    - repeat apply List.Forall_cons; try apply List.Forall_nil; reflexivity.
    - apply Nat.leb_le. reflexivity. }
  destruct (Go_message_wf _ _ _ 0 _ serial Hc Hs) as (msg & Hm & Hw & Hb & Hser).
  exists msg. split; [exact Hm|]. intros fuel Hf He.
  pose proof (EncodeTo_read E msg fuel Hw Hf) as Hr. rewrite He in Hr.
  eexists. split; [apply Hr|]. unfold erase_message. cbn [m_Type m_serial m_Body m_Headers].
  rewrite Hser, Hb. cbn in Hm. injection Hm as <-. cbn [m_Type m_Headers].
  repeat split. cbn. do 3 f_equal. rewrite map_map. done.
Qed.

Lemma Passthrough_read_witness : exists msg,
  Passthrough_message Iptables [chars "-t"; chars "nat"] 5 = Returned msg
  /\ exists msg', DecodeMessage 100 (match EncodeTo false msg with inr bs => bs ++ [1] | inl _ => [] end)
                  = Got msg' [1] /\ m_serial msg' = 5.
Proof.
  destruct (Passthrough_message Iptables [chars "-t"; chars "nat"] 5) as [m|] eqn:Em;
    [|vm_compute in Em; discriminate].
  destruct (EncodeTo false m) as [e|bs] eqn:Eb.
  { exfalso. vm_compute in Em. injection Em as <-. vm_compute in Eb. discriminate. }
  destruct (Passthrough_read Iptables [chars "-t"; chars "nat"] 5 false bs [1]) as (msg & Hm & H).
  - vm_compute. reflexivity.
  - repeat apply List.Forall_cons; try apply List.Forall_nil; vm_compute; reflexivity.
  - reflexivity.
  - rewrite Em in Hm. injection Hm as <-. exists m. split; [reflexivity|]. rewrite Eb.
    destruct (H 100%nat) as (msg' & Hd & _ & Hser & _).
    + apply Nat.leb_le. vm_compute in Em. injection Em as <-. vm_compute. reflexivity.
    + exact Eb.
    + exists msg'. split; [exact Hd|exact Hser].
Defined.

(** ** Callbacks *)

(** A callback registered twice is called twice: no pointer is ever equal to the one of the
    parameter. *)
Example callback_twice :
  fw_called (reloaded (OnReloaded 3 (OnReloaded 3 fw_init))) = [3; 3]%nat.
Proof. reflexivity. Qed.

Definition reload_signal : Signal := mkSignal [] dbusPath (dbusInterface ++ chars ".Reloaded") [].
Definition owner_signal (new : sig) : Signal :=
  mkSignal [] (chars "/org/freedesktop/DBus") (chars "org.freedesktop.DBus.NameOwnerChanged")
    [VString dbusInterface; VString []; VString new].

Lemma signalHandler_spec_witness :
  exists f, signalHandler (OnReloaded 3 (FirewalldInit true CReadFailed fw_init).2)
    [(reload_signal, CReadFailed); (owner_signal (chars ":1.7"), CBody [VString (chars "public")])] = Returned f
  /\ fw_running f = true /\ fw_called f = [3; 3]%nat.
Proof.
  eexists. split; [apply signalHandler_spec|split; reflexivity].
  - reflexivity.
  - apply List.Forall_cons; [intros H; discriminate H|]. apply List.Forall_cons; [|apply List.Forall_nil].
    intros _. unfold owner_signal. simpl. eauto.
Defined.
