(* ===== verification/Logging.v ===== *)
(** ovs/logging.go: the package loggers. They are kept here as the writer, prefix
    and flags each was made with; nil before the first initialisation. *)

From S2P Require Import Prelude.

Inductive writer : Type :=
| Discard
| Stdout
| Stderr.

Record Logger : Type := mkLogger { log_out : writer; log_prefix : string; log_flags : Z }.

Record Loggers : Type := mkLoggers {
  Debug : option Logger;
  Info : option Logger;
  Warning : option Logger;
  Error : option Logger;
  debugF : bool
}.

(** Before the package is used. *)
Definition loggers0 : Loggers := mkLoggers None None None None false.

(** log.Ldate, log.Ltime and log.Lmicroseconds. *)
Definition standardLogFlags : Z := Z.lor (Z.lor 1 2) 4.

Definition InitLogging (debugHandle infoHandle warningHandle errorHandle : writer)
    (l : Loggers) : Loggers :=
  mkLoggers (Some (mkLogger debugHandle "DEBUG: " standardLogFlags))
            (Some (mkLogger infoHandle "INFO: " standardLogFlags))
            (Some (mkLogger warningHandle "WARNING: " standardLogFlags))
            (Some (mkLogger errorHandle "ERROR: " standardLogFlags))
            (debugF l).

Definition InitDefaultLogging (debug : bool) (l : Loggers) : Loggers :=
  if Bool.eqb debug (debugF l) then l
  else
    let l := mkLoggers (Debug l) (Info l) (Warning l) (Error l) debug in
    let debugOut := if debug then Stderr else Discard in
    InitLogging debugOut Stdout Stdout Stderr l.

(** The loggers after a sequence of calls of InitDefaultLogging. *)
Definition init_all (calls : list bool) (l : Loggers) : Loggers :=
  fold_left (fun l debug => InitDefaultLogging debug l) calls l.

Lemma init_all_snoc calls d l : init_all (calls ++ [d]) l = InitDefaultLogging d (init_all calls l).
Proof. unfold init_all. by rewrite fold_left_app. Qed.

Lemma InitDefaultLogging_flag d l : debugF (InitDefaultLogging d l) = d.
Proof. unfold InitDefaultLogging. by destruct d, (debugF l) eqn:E. Qed.

(** Once initialised, the debug logger goes where the flag says. *)
Definition consistent (l : Loggers) : Prop :=
  option_map log_out (Debug l) = Some (if debugF l then Stderr else Discard) /\
  option_map log_out (Error l) = Some Stderr.

(** The default loggers are only initialised once debugging has been asked for:
    the first calls with debug off are ignored, because the flag starts off, and
    leave every logger nil; from the first call with debug on, the loggers exist
    and the debug logger follows the argument of the last call. *)
Theorem init_logging_history calls :
  init_all calls loggers0 = loggers0 /\ true ∉ calls \/
  consistent (init_all calls loggers0) /\ true ∈ calls /\
    Some (debugF (init_all calls loggers0)) = last calls.
Proof.
  induction calls as [|d calls IH] using rev_ind; [left; split; [done|apply not_elem_of_nil]|].
  rewrite init_all_snoc, last_snoc, InitDefaultLogging_flag, elem_of_app, list_elem_of_singleton.
  destruct IH as [[-> Hno]|[Hc [Hin _]]].
  - destruct d; [right|left].
    + split; [by split|]. split; [by right|done].
    + split; [done|]. intros [?|?]; [by apply Hno|done].
  - right. split; [|auto]. unfold InitDefaultLogging, consistent in *.
    by destruct d, (debugF (init_all calls loggers0)) eqn:E; cbn; rewrite ?E.
Qed.
